(** * Labeled bookmarks: a model of the bookmark store and its reconciliation

    The development embeds the core of the extension (src/main.ts,
    src/bookmark.ts, src/serializable_bookmark.ts): objects live in a store
    and are shared by reference, the arrays and caches of [Main] hold
    references, every method threads the state explicitly.  Rendering
    (decoration handles, tree view, status bar) carries no bookmark state and
    is left out. *)

From Stdlib Require Import ZArith Lia ZifyBool Bool List String Ascii.
From Stdlib Require OrderedTypeEx.
From stdpp Require Import base gmap strings list.
Import ListNotations.

(** ** Host primitives: strings, numbers, arrays and maps of the runtime *)

Module Js.

(** Largest integer a number holds exactly. *)
Definition MAX_SAFE_INTEGER : Z := 9007199254740991.

(** [a || b] on numbers: the first operand unless it is zero. *)
Definition orElse (a b : Z) : Z := if (a =? 0)%Z then b else a.

Definition lineFeed : ascii := ascii_of_nat 10.

(** *** Text

    A [string] holds the UTF-8 bytes of a text of the runtime.  Equality and
    concatenation of the bytes are those of the texts.  What the runtime
    counts in UTF-16 code units ([length], the columns of the editor) and
    what it reads by character ([trim]) goes through the encoding. *)

(** The white space and the line terminators that [trim] strips.  In one
    byte: TAB, LF, VT, FF, CR and the space. *)
Definition isWhiteSpace (c : ascii) : bool :=
  let n := nat_of_ascii c in
  ((9 <=? n)%nat && (n <=? 13)%nat) || (n =? 32)%nat.

(** In two bytes: the no-break space U+00A0 (C2 A0). *)
Definition isWhiteSpace2 (a b : ascii) : bool :=
  (nat_of_ascii a =? 194)%nat && (nat_of_ascii b =? 160)%nat.

(** In three bytes: U+1680 (E1 9A 80); U+2000 to U+200A, the line and the
    paragraph separator U+2028 and U+2029, and U+202F (E2 80 80 to 8A, A8,
    A9, AF); U+205F (E2 81 9F); U+3000 (E3 80 80); the byte order mark
    U+FEFF (EF BB BF). *)
Definition isWhiteSpace3 (a b c : ascii) : bool :=
  let x := nat_of_ascii a in
  let y := nat_of_ascii b in
  let z := nat_of_ascii c in
  ((x =? 225)%nat && (y =? 154)%nat && (z =? 128)%nat)
  || ((x =? 226)%nat && (y =? 128)%nat
      && (((128 <=? z)%nat && (z <=? 138)%nat)
          || (z =? 168)%nat || (z =? 169)%nat || (z =? 175)%nat))
  || ((x =? 226)%nat && (y =? 129)%nat && (z =? 159)%nat)
  || ((x =? 227)%nat && (y =? 128)%nat && (z =? 128)%nat)
  || ((x =? 239)%nat && (y =? 187)%nat && (z =? 191)%nat).

Fixpoint trimStart (s : string) : string :=
  match s with
  | EmptyString => EmptyString
  | String a rest1 =>
      if isWhiteSpace a then trimStart rest1
      else
        match rest1 with
        | EmptyString => s
        | String b rest2 =>
            if isWhiteSpace2 a b then trimStart rest2
            else
              match rest2 with
              | EmptyString => s
              | String c rest3 =>
                  if isWhiteSpace3 a b c then trimStart rest3 else s
              end
        end
  end.

Fixpoint reverse (s : string) : string :=
  match s with
  | EmptyString => EmptyString
  | String c rest => (reverse rest ++ String c EmptyString)%string
  end.

(** The white space at the head of a text read backwards: the bytes of a
    character come last byte first. *)
Fixpoint trimReversed (s : string) : string :=
  match s with
  | EmptyString => EmptyString
  | String c rest1 =>
      if isWhiteSpace c then trimReversed rest1
      else
        match rest1 with
        | EmptyString => s
        | String b rest2 =>
            if isWhiteSpace2 b c then trimReversed rest2
            else
              match rest2 with
              | EmptyString => s
              | String a rest3 =>
                  if isWhiteSpace3 a b c then trimReversed rest3 else s
              end
        end
  end.

Definition trimEnd (s : string) : string :=
  reverse (trimReversed (reverse s)).

Definition trim (s : string) : string := trimEnd (trimStart s).

(** Is the byte the continuation of a character (10xxxxxx)? *)
Definition isContinuation (c : ascii) : bool :=
  (128 <=? nat_of_ascii c)%nat && (nat_of_ascii c <? 192)%nat.

(** [s.length]: the number of UTF-16 code units.  A character of up to
    three bytes is one code unit, a character of four bytes is two (a
    surrogate pair); [pending] counts the continuation bytes that the
    character under way still takes.  A continuation byte that no character
    takes counts as one unit. *)
Fixpoint unitsFrom (pending : nat) (s : string) : Z :=
  match s with
  | EmptyString => 0
  | String c rest =>
      let n := nat_of_ascii c in
      if isContinuation c then
        match pending with
        | S p => unitsFrom p rest
        | O => 1 + unitsFrom 0 rest
        end
      else if (n <? 128)%nat then 1 + unitsFrom 0 rest
      else if (n <? 224)%nat then 1 + unitsFrom 1 rest
      else if (n <? 240)%nat then 1 + unitsFrom 2 rest
      else 2 + unitsFrom 3 rest
  end.

Definition length (s : string) : Z := unitsFrom 0 s.

(** The text of the first [count] code units: a character is taken when
    its first code unit is. *)
Fixpoint firstUnitsFrom (pending : nat) (count : Z) (s : string) : string :=
  match s with
  | EmptyString => EmptyString
  | String c rest =>
      let n := nat_of_ascii c in
      if isContinuation c then
        match pending with
        | S p => String c (firstUnitsFrom p count rest)
        | O =>
            if (0 <? count)%Z then String c (firstUnitsFrom 0 (count - 1) rest)
            else EmptyString
        end
      else if (0 <? count)%Z then
        if (n <? 128)%nat then String c (firstUnitsFrom 0 (count - 1) rest)
        else if (n <? 224)%nat then String c (firstUnitsFrom 1 (count - 1) rest)
        else if (n <? 240)%nat then String c (firstUnitsFrom 2 (count - 1) rest)
        else String c (firstUnitsFrom 3 (count - 2) rest)
      else EmptyString
  end.

Definition firstUnits (count : Z) (s : string) : string :=
  firstUnitsFrom 0 count s.

(** The number of bytes: the offset at which a text ends inside a text that
    starts with it.  Cutting a text behind one of its prefixes gives the
    same rest by bytes and by code units, so [x.substring(p.length)] after
    [x.startsWith(p)] is [substring (len p) (len x) x]. *)
Definition len (s : string) : Z := Z.of_nat (String.length s).

Definition clamp (lo hi x : Z) : Z := Z.max lo (Z.min hi x).

(** [s.substring(from, to)] at byte offsets: both ends clamped to the
    string, swapped when out of order. *)
Definition substring (from to : Z) (s : string) : string :=
  let a := clamp 0 (len s) from in
  let b := clamp 0 (len s) to in
  let lo := Z.min a b in
  let hi := Z.max a b in
  String.substring (Z.to_nat lo) (Z.to_nat (hi - lo)) s.

(** [s.startsWith(p)]. *)
Definition startsWith (p s : string) : bool := String.prefix p s.

(** [s.lastIndexOf(c)] for a one-character needle, -1 when absent. *)
Fixpoint lastIndexOfFrom (c : ascii) (s : string) (i : Z) (found : Z) : Z :=
  match s with
  | EmptyString => found
  | String d rest =>
      lastIndexOfFrom c rest (i + 1)
        (if Ascii.eqb d c then i else found)
  end.

Definition lastIndexOf (c : ascii) (s : string) : Z :=
  lastIndexOfFrom c s 0 (-1).

(** [s.replace(/\\/g, "/")]. *)
Fixpoint replaceBackslashes (s : string) : string :=
  match s with
  | EmptyString => EmptyString
  | String c rest =>
      String (if Ascii.eqb c "\"%char then "/"%char else c)
             (replaceBackslashes rest)
  end.

(** A collation: the order of the bytes (negative, zero or positive).  The
    sample host compares paths by it, and the model of group.ts takes it
    for the names of the groups. *)
Definition localeCompare (a b : string) : Z :=
  match String.compare a b with
  | Lt => (-1)%Z
  | Eq => 0%Z
  | Gt => 1%Z
  end.

(** [Array.prototype.sort(compare)]: a stable sort; [x] stays before [y]
    whenever [compare x y <= 0]. *)
Section ArraySort.
Context {A : Type} (compare : A -> A -> Z).

Fixpoint insertSorted (x : A) (l : list A) : list A :=
  match l with
  | [] => [x]
  | y :: rest =>
      if (compare x y <=? 0)%Z then x :: y :: rest
      else y :: insertSorted x rest
  end.

Definition arraySort (l : list A) : list A :=
  fold_right insertSorted [] l.
End ArraySort.

(** [Array.prototype.indexOf] / [splice(index, 1)] on an array of object
    references: the first occurrence goes. *)
Fixpoint removeFirst (r : nat) (l : list nat) : list nat :=
  match l with
  | [] => []
  | x :: rest => if (x =? r)%nat then rest else x :: removeFirst r rest
  end.

Definition includes (r : nat) (l : list nat) : bool :=
  existsb (Nat.eqb r) l.

(** A [Map] keyed by strings: entries in insertion order, [set] on a present
    key keeps its place. *)
Section StringMap.
Context {V : Type}.

Fixpoint mapSet (k : string) (v : V) (m : list (string * V))
  : list (string * V) :=
  match m with
  | [] => [(k, v)]
  | (k', v') :: rest =>
      if String.eqb k' k then (k', v) :: rest
      else (k', v') :: mapSet k v rest
  end.

Fixpoint mapGet (k : string) (m : list (string * V)) : option V :=
  match m with
  | [] => None
  | (k', v') :: rest => if String.eqb k' k then Some v' else mapGet k rest
  end.

Definition mapHas (k : string) (m : list (string * V)) : bool :=
  match mapGet k m with Some _ => true | None => false end.
End StringMap.

End Js.

(** ** Data model *)

Module Group.
(** Modelled from the spec: the Group class of group.ts, which is not among
    the sources.  A group has a unique name, a color, a shape, an icon text
    and the two flags [isActive] and [isVisible]; the decoration handles are
    rendering state and are left out. *)
Record t := mk {
  name : string;
  color : string;
  shape : string;
  iconText : string;
  isActive : bool;
  isVisible : bool
}.

(** Modelled from the spec: the constructor of Group, called as
    [new Group(name, color, shape, iconText, decorationFactory)]; a new
    group is neither active nor visible until the registry says so. *)
Definition new (name color shape iconText : string) : t :=
  mk name color shape iconText false false.

(** Modelled from the spec: the accessor [getColor] of Group. *)
Definition getColor (g : t) : string := color g.

(** Modelled from the spec: the setter [setIsActive] of Group. *)
Definition setIsActive (v : bool) (g : t) : t :=
  mk (name g) (color g) (shape g) (iconText g) v (isVisible g).

(** Modelled from the spec: the setter [setIsVisible] of Group. *)
Definition setIsVisible (v : bool) (g : t) : t :=
  mk (name g) (color g) (shape g) (iconText g) (isActive g) v.

(** Modelled from the spec: renaming keeps the identity of the group. *)
Definition setName (v : string) (g : t) : t :=
  mk v (color g) (shape g) (iconText g) (isActive g) (isVisible g).

(** Modelled from the spec: the setter [setColor] of Group. *)
Definition setColor (v : string) (g : t) : t :=
  mk (name g) v (shape g) (iconText g) (isActive g) (isVisible g).

(** Modelled from the spec: the setter [setShapeAndIconText] of Group. *)
Definition setShapeAndIconText (sh txt : string) (g : t) : t :=
  mk (name g) (color g) sh txt (isActive g) (isVisible g).

(** Modelled from the spec: [Group.sortByName], the comparator behind
    "groups sorted by name". *)
Definition sortByName (a b : t) : Z := Js.localeCompare (name a) (name b).
End Group.

Module SerializableGroup.
(** Modelled from the spec: the persisted form of a group,
    [{name, color, shape, iconText}] (serializable_group.ts is not among
    the sources). *)
Record t := mk {
  name : string;
  color : string;
  shape : string;
  iconText : string
}.
End SerializableGroup.

Module Bookmark.
(** src/bookmark.ts: the fields of a bookmark; [group] is a reference to a
    group object. *)
Record t := mk {
  fsPath : string;
  lineNumber : Z;
  characterNumber : Z;
  label : option string;
  lineText : string;
  failedJump : bool;
  isLineNumberChanged : bool;
  group : nat
}.

(** The constructor: a new bookmark has no failed jump and no changed line. *)
Definition new (fsPath : string) (lineNumber characterNumber : Z)
    (label : option string) (lineText : string) (group : nat) : t :=
  mk fsPath lineNumber characterNumber label lineText false false group.

Definition setFsPath (v : string) (b : t) : t :=
  mk v (lineNumber b) (characterNumber b) (label b) (lineText b)
     (failedJump b) (isLineNumberChanged b) (group b).

Definition setLineNumber (v : Z) (b : t) : t :=
  mk (fsPath b) v (characterNumber b) (label b) (lineText b)
     (failedJump b) (isLineNumberChanged b) (group b).

Definition setCharacterNumber (v : Z) (b : t) : t :=
  mk (fsPath b) (lineNumber b) v (label b) (lineText b)
     (failedJump b) (isLineNumberChanged b) (group b).

Definition setLineText (v : string) (b : t) : t :=
  mk (fsPath b) (lineNumber b) (characterNumber b) (label b) v
     (failedJump b) (isLineNumberChanged b) (group b).

Definition setFailedJump (v : bool) (b : t) : t :=
  mk (fsPath b) (lineNumber b) (characterNumber b) (label b) (lineText b)
     v (isLineNumberChanged b) (group b).

(** [Bookmark.sortByLocation]: path, then line, then character.  The paths
    are compared by [a.fsPath.localeCompare(b.fsPath)], the collation of the
    runtime, which the host hands in. *)
Definition sortByLocation (localeCompare : string -> string -> Z) (a b : t) : Z :=
  Js.orElse (localeCompare (fsPath a) (fsPath b))
    (Js.orElse (lineNumber a - lineNumber b)
               (characterNumber a - characterNumber b)).
End Bookmark.

Module SerializableBookmark.
(** src/serializable_bookmark.ts: the persisted form of a bookmark. *)
Record t := mk {
  fsPath : string;
  lineNumber : Z;
  characterNumber : Z;
  label : option string;
  lineText : string;
  isLineNumberChanged : bool;
  groupName : string
}.

(** The constructor. *)
Definition new (fsPath : string) (lineNumber characterNumber : Z)
    (label : option string) (lineText groupName : string) : t :=
  mk fsPath lineNumber characterNumber label lineText false groupName.
End SerializableBookmark.

Global Instance group_inhabited : Inhabited Group.t :=
  populate (Group.new "" "" "" "").

Global Instance bookmark_inhabited : Inhabited Bookmark.t :=
  populate (Bookmark.new "" 0 0 None "" 0).

(** ** The host: editor, documents, paths, storage *)

Module Vscode.
Record Position := mkPosition { line : Z; character : Z }.

Record Range := mkRange { start : Position; end_ : Position }.

(** A text document after the edit it reports: its path and its lines. *)
Record TextDocument := mkDocument {
  fsPath : string;
  lines : list string
}.

(** [document.lineAt(n)]: the line, or an exception outside the document. *)
Definition lineAt (d : TextDocument) (n : Z) : option string :=
  if (n <? 0)%Z then None else nth_error (lines d) (Z.to_nat n).

(** [document.getText(new Range(l, 0, l, c))]: the text of line [l] before
    column [c], a column being counted in code units; a range outside the
    document is clamped to its end and holds no text. *)
Definition getLinePrefix (d : TextDocument) (l c : Z) : string :=
  match lineAt d l with
  | Some t => Js.firstUnits c t
  | None => EmptyString
  end.

Record ContentChange := mkChange { range : Range; text : string }.

Record TextDocumentChangeEvent := mkEvent {
  document : TextDocument;
  contentChanges : list ContentChange
}.

(** An editor: its document and its selections, the primary one first. *)
Record TextEditor := mkEditor {
  editorDocument : TextDocument;
  selections : list Range
}.

Inductive Notification :=
| InformationMessage (message : string)
| WarningMessage (message : string)
| ErrorMessage (message : string).
End Vscode.

(** What the extension takes from its environment: the first workspace
    folder, the path functions of the runtime, the color normalizer of the
    decoration factory, the constants of group.ts (files that are not
    among the sources), and [String.prototype.localeCompare], the collation
    of the runtime under its locale. *)
Record Host := mkHost {
  workspaceFolder : option string;
  path_isAbsolute : string -> bool;
  path_join : string -> string -> string;
  path_relative : string -> string -> string;
  normalizeColorFormat : string -> string;
  defaultGroupName : string;
  externalGroupName : string;
  maxGroupNameLength : Z;
  localeCompare : string -> string -> Z
}.

(** The keys of the workspace memento; an absent key reads [undefined]. *)
Record Memento := mkMemento {
  savedBookmarks : option (list SerializableBookmark.t);
  savedGroups : option (list SerializableGroup.t);
  savedActiveGroup : option string;
  savedHideInactiveGroups : option bool;
  savedHideAll : option bool
}.

(** The storage artifact, as the object that [JSON.stringify] writes and
    [JSON.parse] reads back: the version tag and the five saved keys. *)
Record SavedObject := mkSavedObject {
  fileVersion : option string;
  payload : Memento
}.

(** The file system, as far as the extension touches it: the files that hold
    a saved object, and the directories. *)
Record FileSystem := mkFileSystem {
  files : gmap string SavedObject;
  dirs : gset string
}.

(** ** The state of [Main] *)

Record Main := mkMain {
  host : Host;
  (* the objects, by reference *)
  bheap : gmap nat Bookmark.t;
  gheap : gmap nat Group.t;
  nextRef : nat;
  (* the fields of the class *)
  groups : list nat;
  bookmarks : list nat;
  activeGroup : nat;
  colors : list (string * string);
  defaultShape : string;
  hideInactiveGroups : bool;
  hideAll : bool;
  tempDocumentBookmarks : gmap string (list nat);
  tempGroupBookmarks : gmap nat (list nat);
  lastSaveTimestamp : Z;
  (* the world around it *)
  workspaceState : Memento;
  fs : FileSystem;
  clock : Z;
  notifications : list Vscode.Notification
}.

Definition savedBookmarksFileVersionValue : string := "1.0".
Definition savedBookmarksDelay : Z := 2500.
Definition fallbackColor : string := "00ddddff".
Definition fallbackColorName : string := "teal".

(** [savedBookmarksFilePath]: under the first workspace folder, or undefined. *)
Definition savedBookmarksFilePath (s : Main) : option string :=
  match workspaceFolder (host s) with
  | Some w =>
      Some (Js.replaceBackslashes w ++ "/.vscode/bookmarks-labeled.json")%string
  | None => None
  end.

(** Field updates. *)

Definition set_bheap (v : gmap nat Bookmark.t) (s : Main) : Main :=
  mkMain (host s) v (gheap s) (nextRef s) (groups s) (bookmarks s)
    (activeGroup s) (colors s) (defaultShape s) (hideInactiveGroups s)
    (hideAll s) (tempDocumentBookmarks s) (tempGroupBookmarks s)
    (lastSaveTimestamp s) (workspaceState s) (fs s) (clock s)
    (notifications s).

Definition set_gheap (v : gmap nat Group.t) (s : Main) : Main :=
  mkMain (host s) (bheap s) v (nextRef s) (groups s) (bookmarks s)
    (activeGroup s) (colors s) (defaultShape s) (hideInactiveGroups s)
    (hideAll s) (tempDocumentBookmarks s) (tempGroupBookmarks s)
    (lastSaveTimestamp s) (workspaceState s) (fs s) (clock s)
    (notifications s).

Definition set_nextRef (v : nat) (s : Main) : Main :=
  mkMain (host s) (bheap s) (gheap s) v (groups s) (bookmarks s)
    (activeGroup s) (colors s) (defaultShape s) (hideInactiveGroups s)
    (hideAll s) (tempDocumentBookmarks s) (tempGroupBookmarks s)
    (lastSaveTimestamp s) (workspaceState s) (fs s) (clock s)
    (notifications s).

Definition set_groups (v : list nat) (s : Main) : Main :=
  mkMain (host s) (bheap s) (gheap s) (nextRef s) v (bookmarks s)
    (activeGroup s) (colors s) (defaultShape s) (hideInactiveGroups s)
    (hideAll s) (tempDocumentBookmarks s) (tempGroupBookmarks s)
    (lastSaveTimestamp s) (workspaceState s) (fs s) (clock s)
    (notifications s).

Definition set_bookmarks (v : list nat) (s : Main) : Main :=
  mkMain (host s) (bheap s) (gheap s) (nextRef s) (groups s) v
    (activeGroup s) (colors s) (defaultShape s) (hideInactiveGroups s)
    (hideAll s) (tempDocumentBookmarks s) (tempGroupBookmarks s)
    (lastSaveTimestamp s) (workspaceState s) (fs s) (clock s)
    (notifications s).

Definition set_activeGroup (v : nat) (s : Main) : Main :=
  mkMain (host s) (bheap s) (gheap s) (nextRef s) (groups s) (bookmarks s) v
    (colors s) (defaultShape s) (hideInactiveGroups s) (hideAll s)
    (tempDocumentBookmarks s) (tempGroupBookmarks s) (lastSaveTimestamp s)
    (workspaceState s) (fs s) (clock s) (notifications s).

Definition set_hideInactiveGroups (v : bool) (s : Main) : Main :=
  mkMain (host s) (bheap s) (gheap s) (nextRef s) (groups s) (bookmarks s)
    (activeGroup s) (colors s) (defaultShape s) v (hideAll s)
    (tempDocumentBookmarks s) (tempGroupBookmarks s) (lastSaveTimestamp s)
    (workspaceState s) (fs s) (clock s) (notifications s).

Definition set_hideAll (v : bool) (s : Main) : Main :=
  mkMain (host s) (bheap s) (gheap s) (nextRef s) (groups s) (bookmarks s)
    (activeGroup s) (colors s) (defaultShape s) (hideInactiveGroups s) v
    (tempDocumentBookmarks s) (tempGroupBookmarks s) (lastSaveTimestamp s)
    (workspaceState s) (fs s) (clock s) (notifications s).

Definition set_tempDocumentBookmarks (v : gmap string (list nat)) (s : Main) : Main :=
  mkMain (host s) (bheap s) (gheap s) (nextRef s) (groups s) (bookmarks s)
    (activeGroup s) (colors s) (defaultShape s) (hideInactiveGroups s)
    (hideAll s) v (tempGroupBookmarks s) (lastSaveTimestamp s)
    (workspaceState s) (fs s) (clock s) (notifications s).

Definition set_tempGroupBookmarks (v : gmap nat (list nat)) (s : Main) : Main :=
  mkMain (host s) (bheap s) (gheap s) (nextRef s) (groups s) (bookmarks s)
    (activeGroup s) (colors s) (defaultShape s) (hideInactiveGroups s)
    (hideAll s) (tempDocumentBookmarks s) v (lastSaveTimestamp s)
    (workspaceState s) (fs s) (clock s) (notifications s).

Definition set_lastSaveTimestamp (v : Z) (s : Main) : Main :=
  mkMain (host s) (bheap s) (gheap s) (nextRef s) (groups s) (bookmarks s)
    (activeGroup s) (colors s) (defaultShape s) (hideInactiveGroups s)
    (hideAll s) (tempDocumentBookmarks s) (tempGroupBookmarks s) v
    (workspaceState s) (fs s) (clock s) (notifications s).

Definition set_workspaceState (v : Memento) (s : Main) : Main :=
  mkMain (host s) (bheap s) (gheap s) (nextRef s) (groups s) (bookmarks s)
    (activeGroup s) (colors s) (defaultShape s) (hideInactiveGroups s)
    (hideAll s) (tempDocumentBookmarks s) (tempGroupBookmarks s)
    (lastSaveTimestamp s) v (fs s) (clock s) (notifications s).

Definition set_fs (v : FileSystem) (s : Main) : Main :=
  mkMain (host s) (bheap s) (gheap s) (nextRef s) (groups s) (bookmarks s)
    (activeGroup s) (colors s) (defaultShape s) (hideInactiveGroups s)
    (hideAll s) (tempDocumentBookmarks s) (tempGroupBookmarks s)
    (lastSaveTimestamp s) (workspaceState s) v (clock s) (notifications s).

Definition set_clock (v : Z) (s : Main) : Main :=
  mkMain (host s) (bheap s) (gheap s) (nextRef s) (groups s) (bookmarks s)
    (activeGroup s) (colors s) (defaultShape s) (hideInactiveGroups s)
    (hideAll s) (tempDocumentBookmarks s) (tempGroupBookmarks s)
    (lastSaveTimestamp s) (workspaceState s) (fs s) v (notifications s).

Definition set_notifications (v : list Vscode.Notification) (s : Main) : Main :=
  mkMain (host s) (bheap s) (gheap s) (nextRef s) (groups s) (bookmarks s)
    (activeGroup s) (colors s) (defaultShape s) (hideInactiveGroups s)
    (hideAll s) (tempDocumentBookmarks s) (tempGroupBookmarks s)
    (lastSaveTimestamp s) (workspaceState s) (fs s) (clock s) v.

(** ** The object store *)

Definition bookmarkAt (s : Main) (r : nat) : Bookmark.t := bheap s !!! r.

Definition groupAt (s : Main) (r : nat) : Group.t := gheap s !!! r.

(** A write through a reference: every holder of the reference sees it. *)
Definition updateBookmark (r : nat) (f : Bookmark.t -> Bookmark.t)
    (s : Main) : Main :=
  set_bheap (<[r := f (bookmarkAt s r)]> (bheap s)) s.

Definition updateGroup (r : nat) (f : Group.t -> Group.t) (s : Main) : Main :=
  set_gheap (<[r := f (groupAt s r)]> (gheap s)) s.

(** [new Bookmark(...)] and [new Group(...)]: a fresh reference. *)
Definition allocBookmark (b : Bookmark.t) (s : Main) : nat * Main :=
  (nextRef s, set_nextRef (S (nextRef s)) (set_bheap (<[nextRef s := b]> (bheap s)) s)).

Definition allocGroup (g : Group.t) (s : Main) : nat * Main :=
  (nextRef s, set_nextRef (S (nextRef s)) (set_gheap (<[nextRef s := g]> (gheap s)) s)).

Definition showMessage (n : Vscode.Notification) (s : Main) : Main :=
  set_notifications (notifications s ++ [n]) s.

(** The bookmarks of the store as values, in the order of the array. *)
Definition bookmarkValues (s : Main) : list Bookmark.t :=
  map (bookmarkAt s) (bookmarks s).

(** ** Cached views *)

Definition getTempDocumentBookmarkList (s : Main) (fsPath : string)
    : list nat * Main :=
  match tempDocumentBookmarks s !! fsPath with
  | Some list => (list, s)
  | None =>
      let list :=
        List.filter
          (fun bookmark => String.eqb (Bookmark.fsPath (bookmarkAt s bookmark)) fsPath)
          (bookmarks s) in
      (list, set_tempDocumentBookmarks (<[fsPath := list]> (tempDocumentBookmarks s)) s)
  end.

Definition getTempGroupBookmarkList (s : Main) (group : nat)
    : list nat * Main :=
  match tempGroupBookmarks s !! group with
  | Some list => (list, s)
  | None =>
      let list :=
        List.filter
          (fun bookmark => (Bookmark.group (bookmarkAt s bookmark) =? group)%nat)
          (bookmarks s) in
      (list, set_tempGroupBookmarks (<[group := list]> (tempGroupBookmarks s)) s)
  end.

Definition resetTempLists (s : Main) : Main :=
  set_tempGroupBookmarks ∅ (set_tempDocumentBookmarks ∅ s).

(** ** The group registry *)

Definition getGroupByName (s : Main) (groupName : string) : nat :=
  match List.find (fun g => String.eqb (Group.name (groupAt s g)) groupName)
                  (groups s) with
  | Some g => g
  | None => activeGroup s
  end.

(** [addNewGroup]: the handlers and decorations are rendering; the group
    joins the array. *)
Definition addNewGroup (group : nat) (s : Main) : Main :=
  set_groups (groups s ++ [group]) s.

Definition setGroupVisibilities (s : Main) : Main :=
  fold_left
    (fun st group =>
       updateGroup group
         (fun g =>
            Group.setIsVisible
              (negb (hideAll st) && (negb (hideInactiveGroups st) || Group.isActive g))
              g)
         st)
    (groups s) s.

Definition getLeastUsedColor (s : Main) : string :=
  if (Z.of_nat (length (colors s)) <? 1)%Z then fallbackColor
  else
    let usages0 :=
      fold_left (fun usages '(index, color) => Js.mapSet color 0%Z usages)
                (colors s) [] in
    let usages :=
      fold_left
        (fun usages group =>
           let groupColor := Group.getColor (groupAt s group) in
           if Js.mapHas groupColor usages
           then Js.mapSet groupColor
                  (default 0%Z (Js.mapGet groupColor usages) + 1)%Z usages
           else usages)
        (groups s) usages0 in
    snd (fold_left
           (fun '(minUsage, leastUsedColor) '(key, value) =>
              if (minUsage >? value)%Z then (value, key)
              else (minUsage, leastUsedColor))
           usages (Js.MAX_SAFE_INTEGER, EmptyString)).

Definition sortGroups (s : Main) : Main :=
  set_groups
    (Js.arraySort (fun a b => Group.sortByName (groupAt s a) (groupAt s b))
                  (groups s))
    s.

Definition ensureGroup (s : Main) (name : string) : nat * Main :=
  match List.find (fun group => String.eqb (Group.name (groupAt s group)) name)
                  (groups s) with
  | Some group => (group, s)
  | None =>
      let '(group, s1) :=
        allocGroup
          (Group.new name (getLeastUsedColor s) (defaultShape s) name) s in
      (group, sortGroups (addNewGroup group s1))
  end.

Definition activateGroup (s : Main) (name : string) : Main :=
  let '(newActiveGroup, s1) := ensureGroup s name in
  if (newActiveGroup =? activeGroup s1)%nat then s1
  else
    let s2 := updateGroup (activeGroup s1) (Group.setIsActive false) s1 in
    let s3 := set_activeGroup newActiveGroup s2 in
    let s4 := updateGroup newActiveGroup (Group.setIsActive true) s3 in
    setGroupVisibilities s4.

Definition setHideInactiveGroups (v : bool) (s : Main) : Main :=
  if Bool.eqb (hideInactiveGroups s) v then s
  else setGroupVisibilities (set_hideInactiveGroups v s).

Definition setHideAll (v : bool) (s : Main) : Main :=
  if Bool.eqb (hideAll s) v then s
  else setGroupVisibilities (set_hideAll v s).

(** ** Navigation *)

Definition allBrokenWarning : Vscode.Notification :=
  Vscode.WarningMessage "ERROR: All bookmarks are broken, time for some cleanup".

(** The callback of [find] in [nextBookmark], once the failed entries are
    counted out: does the bookmark follow [(fsPath, line)]? *)
Definition followsPosition (localeCompare : string -> string -> Z)
    (fsPath : string) (line : Z) (b : Bookmark.t) : bool :=
  let fileComparisonResult := localeCompare (Bookmark.fsPath b) fsPath in
  if (fileComparisonResult <? 0)%Z then false
  else if (fileComparisonResult >? 0)%Z then true
  else (line <? Bookmark.lineNumber b)%Z.

(** The loop body of [previousBookmark]: does the bookmark precede
    [(fsPath, line)]? *)
Definition precedesPosition (localeCompare : string -> string -> Z)
    (fsPath : string) (line : Z) (b : Bookmark.t) : bool :=
  let fileComparisonResult := localeCompare (Bookmark.fsPath b) fsPath in
  if (fileComparisonResult >? 0)%Z then false
  else if (fileComparisonResult <? 0)%Z then true
  else (Bookmark.lineNumber b <? line)%Z.

(** A scan that stops at the first entry that is not failed and passes the
    test, counting the failed entries it met on the way. *)
Fixpoint scanCandidates (s : Main) (test : Bookmark.t -> bool)
    (list : list nat) (brokenBookmarkCount : Z) : option nat * Z :=
  match list with
  | [] => (None, brokenBookmarkCount)
  | bookmark :: rest =>
      if Bookmark.failedJump (bookmarkAt s bookmark)
      then scanCandidates s test rest (brokenBookmarkCount + 1)
      else if test (bookmarkAt s bookmark)
           then (Some bookmark, brokenBookmarkCount)
           else scanCandidates s test rest brokenBookmarkCount
  end.

(** What both navigation queries do once the scan is over. *)
Definition wrapAround (s : Main) (list : list nat)
    (firstCandidate : option nat) (brokenBookmarkCount : Z)
    : option nat * Main :=
  match firstCandidate with
  | None =>
      if (Z.of_nat (length list) >? 0)%Z then
        if (Z.of_nat (length list) >? brokenBookmarkCount)%Z then
          match List.find (fun b => negb (Bookmark.failedJump (bookmarkAt s b)))
                          list with
          | Some bookmark => (Some bookmark, s)
          | None => (None, showMessage allBrokenWarning s)
          end
        else (None, showMessage allBrokenWarning s)
      else (None, s)
  | Some _ => (firstCandidate, s)
  end.

Definition nextBookmark (s : Main) (fsPath : string) (line : Z)
    : option nat * Main :=
  let '(groupBookmarkList, s1) := getTempGroupBookmarkList s (activeGroup s) in
  let '(firstCandidate, brokenBookmarkCount) :=
    scanCandidates s1 (followsPosition (localeCompare (host s)) fsPath line)
      groupBookmarkList 0 in
  wrapAround s1 groupBookmarkList firstCandidate brokenBookmarkCount.

Definition previousBookmark (s : Main) (fsPath : string) (line : Z)
    : option nat * Main :=
  let '(groupBookmarkList, s1) := getTempGroupBookmarkList s (activeGroup s) in
  let '(firstCandidate, brokenBookmarkCount) :=
    scanCandidates s1 (precedesPosition (localeCompare (host s)) fsPath line)
      (rev groupBookmarkList) 0 in
  wrapAround s1 (rev groupBookmarkList) firstCandidate brokenBookmarkCount.

(** The running state of the scan in [getNearestActiveBookmarkInFile]. *)
Record Nearest := mkNearest {
  nearestBeforeLine : Z;
  nearestBefore : option nat;
  nearestAfterline : Z;
  nearestAfter : option nat
}.

Definition nearestStep (s : Main) (lineNumber : Z) (acc : Nearest)
    (bookmark : nat) : Nearest :=
  let l := Bookmark.lineNumber (bookmarkAt s bookmark) in
  let acc1 :=
    if (l >? nearestBeforeLine acc)%Z && (l <=? lineNumber)%Z
    then mkNearest l (Some bookmark) (nearestAfterline acc) (nearestAfter acc)
    else acc in
  if (l <? nearestAfterline acc1)%Z && (l >=? lineNumber)%Z
  then mkNearest (nearestBeforeLine acc1) (nearestBefore acc1) l (Some bookmark)
  else acc1.

Definition getNearestActiveBookmarkInFile (s : Main)
    (textEditor : Vscode.TextEditor) (group : option nat)
    : option nat * Main :=
  match Vscode.selections textEditor with
  | [] => (None, s)
  | selection :: _ =>
      let fsPath := Vscode.fsPath (Vscode.editorDocument textEditor) in
      let lineNumber := Vscode.line (Vscode.start selection) in
      let '(list, s1) := getTempDocumentBookmarkList s fsPath in
      let filtered :=
        List.filter
          (fun g =>
             match group with
             | None => true
             | Some gr => (Bookmark.group (bookmarkAt s1 g) =? gr)%nat
             end)
          list in
      let acc :=
        fold_left (nearestStep s1 lineNumber) filtered
                  (mkNearest (-1) None Js.MAX_SAFE_INTEGER None) in
      match nearestBefore acc, nearestAfter acc with
      | None, None => (None, s1)
      | Some before, Some after =>
          if (lineNumber - nearestBeforeLine acc
              <? nearestAfterline acc - lineNumber)%Z
          then (Some before, s1)
          else (Some after, s1)
      | Some before, None => (Some before, s1)
      | None, after => (after, s1)
      end
  end.

(** ** Completions: a method returns, or an exception leaves it *)

Inductive Run (A : Type) :=
| Done (a : A) (s : Main)
| Threw (s : Main).
Arguments Done {A} a s.
Arguments Threw {A} s.

Definition bind {A B : Type} (m : Run A) (k : A -> Main -> Run B) : Run B :=
  match m with
  | Done a s => k a s
  | Threw s => Threw s
  end.

Notation "'let*' ( x , s ) := m 'in' k" := (bind m (fun x s => k))
  (at level 10, x pattern, s name, k at level 200).

(** The state a completion leaves behind, however it ended. *)
Definition finalState {A : Type} (m : Run A) : Main :=
  match m with
  | Done _ s => s
  | Threw s => s
  end.

(** A [for ... of] loop whose body may throw. *)
Fixpoint forEachRun {A X : Type} (body : X -> A -> Main -> Run A)
    (xs : list X) (a : A) (s : Main) : Run A :=
  match xs with
  | [] => Done a s
  | x :: rest => let* (a1, s1) := body x a s in forEachRun body rest a1 s1
  end.

(** ** File system operations *)

Definition existsSync (p : string) (f : FileSystem) : bool :=
  bool_decide (is_Some (files f !! p)) || bool_decide (p ∈ dirs f).

Definition unlinkSync (p : string) (f : FileSystem) : FileSystem :=
  mkFileSystem (delete p (files f)) (dirs f).

(** The directory part of a path, as the source computes it. *)
Definition directoryOf (p : string) : string :=
  Js.substring 0 (Js.lastIndexOf "/"%char p) p.

Definition readdirSync (d : string) (f : FileSystem) : list string :=
  List.filter (fun p => String.eqb (directoryOf p) d)
              (map fst (map_to_list (files f)) ++ elements (dirs f)).

Definition rmdirSync (d : string) (f : FileSystem) : FileSystem :=
  mkFileSystem (files f) (dirs f ∖ {[d]}).

(** The proper ancestors of a path: its prefixes that end before a slash. *)
Fixpoint ancestorsFrom (seen : string) (p : string) : list string :=
  match p with
  | EmptyString => []
  | String c rest =>
      (if Ascii.eqb c "/"%char && negb (String.eqb seen EmptyString)
       then [seen] else [])
      ++ ancestorsFrom (seen ++ String c EmptyString)%string rest
  end.

(** [mkdirSync(d, { recursive: true })]. *)
Definition mkdirSync (d : string) (f : FileSystem) : FileSystem :=
  mkFileSystem (files f) (dirs f ∪ list_to_set (d :: ancestorsFrom EmptyString d)).

Definition writeFileSync (p : string) (o : SavedObject) (f : FileSystem)
    : FileSystem :=
  mkFileSystem (<[p := o]> (files f)) (dirs f).

(** ** Persistence *)

(** Modelled from the spec: [SerializableGroup.fromGroup], the persisted
    form [{name, color, shape, iconText}] of a group. *)
Definition fromGroup (g : Group.t) : SerializableGroup.t :=
  SerializableGroup.mk (Group.name g) (Group.color g) (Group.shape g)
                       (Group.iconText g).

(** Modelled from the spec: [Group.fromSerializableGroup], the group that a
    persisted entry reconstructs. *)
Definition fromSerializableGroup (sg : SerializableGroup.t) : Group.t :=
  Group.new (SerializableGroup.name sg) (SerializableGroup.color sg)
            (SerializableGroup.shape sg) (SerializableGroup.iconText sg).

(** A string in a condition: the empty string is false. *)
Definition truthy (w : option string) : option string :=
  match w with
  | Some EmptyString => None
  | _ => w
  end.

(** [SerializableBookmark.fromBookmark]: the path goes relative when the
    file is inside the workspace. *)
Definition fromBookmark (s : Main) (bookmark : Bookmark.t)
    : SerializableBookmark.t :=
  let relativePath :=
    match truthy (workspaceFolder (host s)) with
    | Some w =>
        if Js.startsWith w (Bookmark.fsPath bookmark)
        then path_relative (host s) w (Bookmark.fsPath bookmark)
        else Bookmark.fsPath bookmark
    | None => Bookmark.fsPath bookmark
    end in
  SerializableBookmark.new relativePath
    (Bookmark.lineNumber bookmark) (Bookmark.characterNumber bookmark)
    (Bookmark.label bookmark) (Bookmark.lineText bookmark)
    (Group.name (groupAt s (Bookmark.group bookmark))).

(** What a caller can hand over where a parameter is expected. *)
Inductive Argument :=
| GroupGetter (getter : string -> nat)
| DecorationFactory
| Undefined.

(** A call [f(x)]: only a function can be called, anything else throws a
    [TypeError]. *)
Definition callArgument (f : Argument) (x : string) : option nat :=
  match f with
  | GroupGetter getter => Some (getter x)
  | DecorationFactory => None
  | Undefined => None
  end.

(** [Bookmark.fromSerializableBookMark(serialized, groupGetter,
    decorationFactory)]; [None] stands for the exception. *)
Definition fromSerializableBookMark (h : Host)
    (serialized : SerializableBookmark.t)
    (groupGetter : Argument) (decorationFactory : Argument)
    : option Bookmark.t :=
  let absolutePath :=
    match truthy (workspaceFolder h) with
    | Some w =>
        if negb (path_isAbsolute h (SerializableBookmark.fsPath serialized))
        then path_join h w (SerializableBookmark.fsPath serialized)
        else SerializableBookmark.fsPath serialized
    | None => SerializableBookmark.fsPath serialized
    end in
  match callArgument groupGetter (SerializableBookmark.groupName serialized) with
  | Some group =>
      Some (Bookmark.new absolutePath
              (SerializableBookmark.lineNumber serialized)
              (SerializableBookmark.characterNumber serialized)
              (SerializableBookmark.label serialized)
              (SerializableBookmark.lineText serialized)
              group)
  | None => None
  end.

(** [addNewDecoratedBookmark]: handlers and decoration are rendering; the
    bookmark joins the array. *)
Definition addNewDecoratedBookmark (bookmark : nat) (s : Main) : Main :=
  set_bookmarks (bookmarks s ++ [bookmark]) s.

Definition sortBookmarks (s : Main) : Main :=
  set_bookmarks
    (Js.arraySort
       (fun a b =>
          Bookmark.sortByLocation (localeCompare (host s))
            (bookmarkAt s a) (bookmarkAt s b))
       (bookmarks s))
    s.

Definition isEmpty (s : Main) : bool :=
  (Z.of_nat (length (bookmarks s)) =? 0)%Z
  && ((Z.of_nat (length (groups s)) =? 1)%Z
      && match groups s with
         | g :: _ => String.eqb (Group.name (groupAt s g)) (defaultGroupName (host s))
         | [] => false
         end).

Definition saveState (s : Main) : bool * Main :=
  match savedBookmarksFilePath s with
  | None => (false, s)
  | Some path =>
      let serializedGroups := map (fun group => fromGroup (groupAt s group)) (groups s) in
      let serializedBookmarks :=
        map (fun bookmark => fromBookmark s (bookmarkAt s bookmark)) (bookmarks s) in
      let obj :=
        mkSavedObject (Some savedBookmarksFileVersionValue)
          (mkMemento (Some serializedBookmarks) (Some serializedGroups)
             (Some (Group.name (groupAt s (activeGroup s))))
             (Some (hideInactiveGroups s)) (Some (hideAll s))) in
      let s1 := set_workspaceState (payload obj) s in
      if isEmpty s1 then
        if existsSync path (fs s1) then
          let fs1 := unlinkSync path (fs s1) in
          let dir := directoryOf path in
          let fs2 :=
            if existsSync dir fs1 then
              if (Z.of_nat (length (readdirSync dir fs1)) =? 0)%Z
              then rmdirSync dir fs1 else fs1
            else fs1 in
          (false, set_fs fs2 s1)
        else (false, s1)
      else
        let s2 := set_fs (mkdirSync (directoryOf path) (fs s1)) s1 in
        let s3 := set_lastSaveTimestamp (clock s2) s2 in
        (true, set_fs (writeFileSync path obj (fs s3)) s3)
  end.

Definition restoreGroups (serializedGroups : list SerializableGroup.t)
    (s : Main) : Main :=
  sortGroups
    (fold_left
       (fun st sg =>
          let '(group, st1) := allocGroup (fromSerializableGroup sg) st in
          addNewGroup group st1)
       serializedGroups s).

(** The loop of [loadState] over the saved bookmarks, inside its [try]. *)
Definition restoreBookmarks (serializedBookmarks : list SerializableBookmark.t)
    (s : Main) : Run unit :=
  let* (_, s1) :=
    forEachRun
      (fun sb (_ : unit) st =>
         match fromSerializableBookMark (host st) sb DecorationFactory Undefined with
         | Some b =>
             let '(bookmark, st1) := allocBookmark b st in
             Done tt (addNewDecoratedBookmark bookmark st1)
         | None => Threw st
         end)
      serializedBookmarks tt s in
  Done tt (sortBookmarks s1).

Definition loadState (s : Main) : bool * Main :=
  match savedBookmarksFilePath s with
  | None => (false, s)
  | Some path =>
      if negb (existsSync path (fs s)) then (false, s) else
      match files (fs s) !! path with
      | None => (false, s) (* a directory: reading it throws, nothing changes *)
      | Some obj =>
          if bool_decide (fileVersion obj = Some savedBookmarksFileVersionValue) then
            let s1 := set_workspaceState (payload obj) s in
            let s2 :=
              set_hideAll (default false (savedHideAll (workspaceState s1)))
                (set_hideInactiveGroups
                   (default false (savedHideInactiveGroups (workspaceState s1))) s1) in
            let activeGroupName :=
              default (defaultGroupName (host s2)) (savedActiveGroup (workspaceState s2)) in
            let s3 := set_groups [] s2 in
            let s4 :=
              match savedGroups (workspaceState s3) with
              | Some serializedGroups => restoreGroups serializedGroups s3
              | None => s3
              end in
            let s5 := set_bookmarks [] s4 in
            let s6 :=
              match savedBookmarks (workspaceState s5) with
              | Some serializedBookmarks =>
                  match restoreBookmarks serializedBookmarks s5 with
                  | Done _ st => st
                  | Threw st =>
                      showMessage
                        (Vscode.ErrorMessage
                           "LOAD Restoring bookmarks failed (TypeError: groupGetter is not a function)")
                        st
                  end
              | None => s5
              end in
            (true, activateGroup (resetTempLists s6) activeGroupName)
          else
            (false,
             showMessage
               (Vscode.WarningMessage
                  "LOAD restored labeled bookmarks from file FAILED, version mismatch?")
               s)
      end
  end.

(** ** The bookmark store *)

Definition deleteBookmark (bookmark : nat) (s : Main) : Main :=
  if Js.includes bookmark (bookmarks s) then
    let s1 := set_bookmarks (Js.removeFirst bookmark (bookmarks s)) s in
    let s2 :=
      set_tempDocumentBookmarks
        (delete (Bookmark.fsPath (bookmarkAt s1 bookmark)) (tempDocumentBookmarks s1))
        s1 in
    set_tempGroupBookmarks
      (delete (Bookmark.group (bookmarkAt s2 bookmark)) (tempGroupBookmarks s2))
      s2
  else s.

(** ** Edit reconciliation *)

Fixpoint getNlCount (text : string) : Z :=
  match text with
  | EmptyString => 0
  | String c rest =>
      ((if Ascii.eqb c Js.lineFeed then 1 else 0) + getNlCount rest)%Z
  end.

Definition updateBookmarkLineText (document : Vscode.TextDocument)
    (bookmark : nat) (s : Main) : Run unit :=
  match Vscode.lineAt document (Bookmark.lineNumber (bookmarkAt s bookmark)) with
  | None => Threw s
  | Some line =>
      Done tt
        (updateBookmark bookmark
           (fun b =>
              Bookmark.setLineText (Js.trim line)
                (Bookmark.setCharacterNumber
                   (Z.min (Bookmark.characterNumber b) (Js.length line)) b))
           s)
  end.

Definition inLineRange (s : Main) (firstLine lastLine : Z) (bookmark : nat)
    : bool :=
  (Bookmark.lineNumber (bookmarkAt s bookmark) >=? firstLine)%Z
  && (Bookmark.lineNumber (bookmarkAt s bookmark) <=? lastLine)%Z.

Definition updateBookmarkLineTextInRange (document : Vscode.TextDocument)
    (bookmarks : list nat) (firstLine lastLine : Z) (s : Main) : Run Z :=
  forEachRun
    (fun bookmark updateCount st =>
       let* (_, st1) := updateBookmarkLineText document bookmark st in
       Done (updateCount + 1)%Z st1)
    (List.filter (inLineRange s firstLine lastLine) bookmarks) 0%Z s.

(** The body of the loop over the file's bookmarks when lines were added. *)
Definition shiftDownStep (document : Vscode.TextDocument)
    (shiftDownFromLine shiftDownBy oldFirstLine newLastLine : Z)
    (bookmark : nat) (bookmarksChanged : bool) (s : Main) : Run bool :=
  let '(changed1, s1) :=
    if (Bookmark.lineNumber (bookmarkAt s bookmark) >=? shiftDownFromLine)%Z
    then (true,
          updateBookmark bookmark
            (fun b => Bookmark.setLineNumber (Bookmark.lineNumber b + shiftDownBy) b)
            s)
    else (bookmarksChanged, s) in
  if inLineRange s1 oldFirstLine newLastLine bookmark
  then let* (_, s2) := updateBookmarkLineText document bookmark s1 in
       Done changed1 s2
  else Done changed1 s1.

(** The body of the loop over the file's bookmarks when lines were removed. *)
Definition shiftUpStep (document : Vscode.TextDocument)
    (deleteFromLine shiftFromLine shiftUpBy oldFirstLine newLastLine : Z)
    (bookmark : nat) (bookmarksChanged : bool) (s : Main) : Run bool :=
  if (Bookmark.lineNumber (bookmarkAt s bookmark) <? oldFirstLine)%Z
  then Done bookmarksChanged s
  else if (Bookmark.lineNumber (bookmarkAt s bookmark) >=? deleteFromLine)%Z
          && (Bookmark.lineNumber (bookmarkAt s bookmark) <? shiftFromLine)%Z
  then Done true (deleteBookmark bookmark s)
  else
    let '(changed1, s1) :=
      if (Bookmark.lineNumber (bookmarkAt s bookmark) >=? shiftFromLine)%Z
      then (true,
            updateBookmark bookmark
              (fun b => Bookmark.setLineNumber (Bookmark.lineNumber b - shiftUpBy) b)
              s)
      else (bookmarksChanged, s) in
    if inLineRange s1 oldFirstLine newLastLine bookmark
    then let* (_, s2) := updateBookmarkLineText document bookmark s1 in
         Done changed1 s2
    else Done changed1 s1.

(** Is the text of [oldFirstLine] before the start of the change blank? *)
Definition firstLinePrefixIsBlank (document : Vscode.TextDocument)
    (change : Vscode.ContentChange) : bool :=
  let firstLinePrefix :=
    Vscode.getLinePrefix document
      (Vscode.line (Vscode.start (Vscode.range change)))
      (Vscode.character (Vscode.start (Vscode.range change))) in
  String.eqb (Js.trim firstLinePrefix) EmptyString.

(** [deleteFromLine] of the removal branch. *)
Definition deleteFromLineOf (s : Main) (document : Vscode.TextDocument)
    (fileBookmarkList : list nat) (change : Vscode.ContentChange) : Z :=
  let oldFirstLine := Vscode.line (Vscode.start (Vscode.range change)) in
  let isFirstLineBookkmarkDeletable := firstLinePrefixIsBlank document change in
  let isFirstLineBookkmarkDeletable :=
    if negb isFirstLineBookkmarkDeletable then
      match List.find
              (fun bookmark =>
                 (Bookmark.lineNumber (bookmarkAt s bookmark) =? oldFirstLine)%Z)
              fileBookmarkList with
      | None => true
      | Some _ => isFirstLineBookkmarkDeletable
      end
    else isFirstLineBookkmarkDeletable in
  if isFirstLineBookkmarkDeletable then oldFirstLine else (oldFirstLine + 1)%Z.

(** One content change of an event, against the list the handler fetched. *)
Definition reconcileChange (document : Vscode.TextDocument)
    (fileBookmarkList : list nat) (change : Vscode.ContentChange)
    (bookmarksChanged : bool) (s : Main) : Run bool :=
  let newLineCount := getNlCount (Vscode.text change) in
  let oldFirstLine := Vscode.line (Vscode.start (Vscode.range change)) in
  let oldLastLine := Vscode.line (Vscode.end_ (Vscode.range change)) in
  let oldLineCount := (oldLastLine - oldFirstLine)%Z in
  if (newLineCount =? oldLineCount)%Z then
    let* (_, s1) :=
      updateBookmarkLineTextInRange document fileBookmarkList
        oldFirstLine oldLastLine s in
    Done bookmarksChanged s1
  else if (newLineCount >? oldLineCount)%Z then
    let shiftDownBy := (newLineCount - oldLineCount)%Z in
    let newLastLine := (oldFirstLine + newLineCount)%Z in
    let isFirstLinePrefixEmpty := firstLinePrefixIsBlank document change in
    let shiftDownFromLine :=
      if isFirstLinePrefixEmpty then oldFirstLine else (oldFirstLine + 1)%Z in
    forEachRun
      (shiftDownStep document shiftDownFromLine shiftDownBy oldFirstLine newLastLine)
      fileBookmarkList bookmarksChanged s
  else if (newLineCount <? oldLineCount)%Z then
    let shiftUpBy := (oldLineCount - newLineCount)%Z in
    let newLastLine := (oldFirstLine + newLineCount)%Z in
    let deleteFromLine := deleteFromLineOf s document fileBookmarkList change in
    let shiftFromLine := (deleteFromLine + shiftUpBy)%Z in
    forEachRun
      (shiftUpStep document deleteFromLine shiftFromLine shiftUpBy
                   oldFirstLine newLastLine)
      fileBookmarkList bookmarksChanged s
  else Done bookmarksChanged s.

Definition onEditorDocumentChanged (event : Vscode.TextDocumentChangeEvent)
    (s : Main) : Run unit :=
  let fsPath := Vscode.fsPath (Vscode.document event) in
  let '(fileBookmarkList, s1) := getTempDocumentBookmarkList s fsPath in
  if (Z.of_nat (length fileBookmarkList) =? 0)%Z then Done tt s1
  else
    let* (bookmarksChanged, s2) :=
      forEachRun (reconcileChange (Vscode.document event) fileBookmarkList)
                 (Vscode.contentChanges event) false s1 in
    if bookmarksChanged then Done tt (snd (saveState s2)) else Done tt s2.

(** ** Commands on bookmarks *)

Definition forgetFile (fsPath : string) (s : Main) : Main :=
  set_tempDocumentBookmarks (delete fsPath (tempDocumentBookmarks s)) s.

Definition forgetGroup (group : nat) (s : Main) : Main :=
  set_tempGroupBookmarks (delete group (tempGroupBookmarks s)) s.

Definition toggleBookmark (fsPath : string) (lineNumber characterNumber : Z)
    (lineText : string) (group : nat) (s : Main) : Main :=
  let '(list, s1) := getTempDocumentBookmarkList s fsPath in
  match List.find
          (fun bookmark =>
             (Bookmark.lineNumber (bookmarkAt s1 bookmark) =? lineNumber)%Z
             && (Bookmark.group (bookmarkAt s1 bookmark) =? group)%nat)
          list with
  | Some existingBookmark => snd (saveState (deleteBookmark existingBookmark s1))
  | None =>
      let '(bookmark, s2) :=
        allocBookmark
          (Bookmark.new fsPath lineNumber characterNumber None lineText group) s1 in
      let s3 := set_bookmarks (bookmarks s2 ++ [bookmark]) s2 in
      let s4 := sortBookmarks s3 in
      snd (saveState (forgetGroup group (forgetFile fsPath s4)))
  end.

Definition editorActionToggleBookmark (textEditor : Vscode.TextEditor)
    (s : Main) : Run unit :=
  let documentFsPath := Vscode.fsPath (Vscode.editorDocument textEditor) in
  forEachRun
    (fun selection (_ : unit) st =>
       let lineNumber := Vscode.line (Vscode.start selection) in
       let characterNumber := Vscode.character (Vscode.start selection) in
       match Vscode.lineAt (Vscode.editorDocument textEditor) lineNumber with
       | None => Threw st
       | Some text =>
           Done tt
             (toggleBookmark documentFsPath lineNumber characterNumber
                (Js.trim text) (activeGroup st) st)
       end)
    (Vscode.selections textEditor) tt s.

(** The bookmark of the file that bears a one-character label in a group. *)
Definition findLabeled (s : Main) (list : list nat) (group : nat)
    (label : string) : option nat :=
  List.find
    (fun bm =>
       (Bookmark.group (bookmarkAt s bm) =? group)%nat
       && match Bookmark.label (bookmarkAt s bm) with
          | Some l => String.eqb l label
          | None => false
          end)
    list.

(** [editorActionToggleLabeledBookmark], from the answer of the input box on:
    [label] and [groupName] are what the handler parsed out of the input;
    [None] is a dismissed box. *)
Definition editorActionToggleLabeledBookmark (textEditor : Vscode.TextEditor)
    (entered : option (string * string)) (s : Main) : Run unit :=
  match Vscode.selections textEditor with
  | [] => Done tt s
  | selection :: _ =>
      let fsPath := Vscode.fsPath (Vscode.editorDocument textEditor) in
      let lineNumber := Vscode.line (Vscode.start selection) in
      let '(list, s1) := getTempDocumentBookmarkList s fsPath in
      match List.find
              (fun bookmark =>
                 (Bookmark.lineNumber (bookmarkAt s1 bookmark) =? lineNumber)%Z
                 && (Bookmark.group (bookmarkAt s1 bookmark) =? activeGroup s1)%nat)
              list with
      | Some existingBookmark =>
          Done tt (snd (saveState (deleteBookmark existingBookmark s1)))
      | None =>
          match entered with
          | None => Done tt s1
          | Some (label, groupName) =>
              if String.eqb label EmptyString && String.eqb groupName EmptyString
              then Done tt s1
              else if (Js.length groupName >? maxGroupNameLength (host s1))%Z
              then
                Done tt
                  (showMessage
                     (Vscode.ErrorMessage "ERROR: Choose a shorter group name.") s1)
              else
                let s2 :=
                  if negb (String.eqb groupName EmptyString)
                  then activateGroup s1 groupName else s1 in
                let s3 :=
                  if (Js.length label =? 1)%Z then
                    let '(list2, s2') := getTempDocumentBookmarkList s2 fsPath in
                    match findLabeled s2' list2 (activeGroup s2') label with
                    | Some existingLabeledBookmark =>
                        deleteBookmark existingLabeledBookmark s2'
                    | None => s2'
                    end
                  else s2 in
                let* (_, s4) :=
                  if negb (String.eqb label EmptyString) then
                    match Vscode.lineAt (Vscode.editorDocument textEditor) lineNumber with
                    | None => Threw s3
                    | Some text =>
                        let '(bookmark, s3') :=
                          allocBookmark
                            (Bookmark.new fsPath lineNumber
                               (Vscode.character (Vscode.start selection))
                               (Some label) (Js.trim text) (activeGroup s3))
                            s3 in
                        Done tt (sortBookmarks (addNewDecoratedBookmark bookmark s3'))
                    end
                  else Done tt s3 in
                Done tt
                  (snd (saveState
                          (forgetGroup (activeGroup s4) (forgetFile fsPath s4))))
          end
      end
  end.

(** [relabelBookmark], from the answer of the input box on. *)
Definition relabelBookmark (bookmark : nat) (input : option string)
    (s : Main) : Main :=
  let defaultQuickInputText := default EmptyString (Bookmark.label (bookmarkAt s bookmark)) in
  match input with
  | None => s
  | Some input =>
      let newLabel := Js.trim input in
      if String.eqb newLabel defaultQuickInputText then s
      else
        let s1 :=
          if (Js.length newLabel =? 1)%Z then
            let '(list, s') :=
              getTempDocumentBookmarkList s (Bookmark.fsPath (bookmarkAt s bookmark)) in
            match findLabeled s' list (Bookmark.group (bookmarkAt s' bookmark)) newLabel with
            | Some existingBookmark => deleteBookmark existingBookmark s'
            | None => s'
            end
          else s in
        let newLabel :=
          if (Js.length newLabel =? 0)%Z then None else Some newLabel in
        let old := bookmarkAt s1 bookmark in
        let '(newBookmark, s2) :=
          allocBookmark
            (Bookmark.new (Bookmark.fsPath old) (Bookmark.lineNumber old)
               (Bookmark.characterNumber old) newLabel (Bookmark.lineText old)
               (Bookmark.group old))
            s1 in
        let s3 := deleteBookmark bookmark s2 in
        let s4 := sortBookmarks (addNewDecoratedBookmark newBookmark s3) in
        snd (saveState
               (forgetGroup (activeGroup s4)
                  (forgetFile (Bookmark.fsPath (bookmarkAt s4 bookmark)) s4)))
  end.

(** [moveBookmarksBetween], from the answer of the pick list on. *)
Definition moveBookmarksBetween (dst : nat) (selecteds : option (list nat))
    (s : Main) : Main :=
  match selecteds with
  | None => s
  | Some selecteds =>
      let s1 :=
        fold_left
          (fun st oldBookmark =>
             let st1 := deleteBookmark oldBookmark st in
             let old := bookmarkAt st1 oldBookmark in
             let '(newBookmark, st2) :=
               allocBookmark
                 (Bookmark.new (Bookmark.fsPath old) (Bookmark.lineNumber old)
                    (Bookmark.characterNumber old) (Bookmark.label old)
                    (Bookmark.lineText old) dst)
                 st1 in
             let st3 := addNewDecoratedBookmark newBookmark st2 in
             forgetGroup dst (forgetFile (Bookmark.fsPath old) st3))
          selecteds s in
      snd (saveState (sortBookmarks s1))
  end.

Definition actionDeleteOneBookmark (bookmark : nat) (s : Main) : Main :=
  snd (saveState (deleteBookmark bookmark s)).

Definition deleteBookmarksOfFile (fsPath : string) (group : option nat)
    (s : Main) : Main :=
  snd (saveState
         (fold_left (fun st b => deleteBookmark b st)
            (List.filter
               (fun b =>
                  String.eqb (Bookmark.fsPath (bookmarkAt s b)) fsPath
                  && match group with
                     | None => true
                     | Some g => (g =? Bookmark.group (bookmarkAt s b))%nat
                     end)
               (bookmarks s))
            s)).

(** [actionDeleteBookmark], from the answer of the pick list on. *)
Definition actionDeleteBookmark (selecteds : option (list nat)) (s : Main)
    : Main :=
  match selecteds with
  | None => s
  | Some selecteds =>
      snd (saveState (fold_left (fun st b => deleteBookmark b st) selecteds s))
  end.

Definition actionClearFailedJumpFlags (s : Main) : Main :=
  let '(s1, clearedFlagCount) :=
    fold_left
      (fun '(st, count) bookmark =>
         if Bookmark.failedJump (bookmarkAt st bookmark)
         then (updateBookmark bookmark (Bookmark.setFailedJump false) st,
               (count + 1)%Z)
         else (st, count))
      (bookmarks s) (s, 0%Z) in
  snd (saveState
         (showMessage
            (Vscode.InformationMessage "ERROR: Cleared broken bookmark flags")
            s1)).

(** How the host answers [showTextDocument] and the reveal that follows. *)
Inductive JumpOutcome :=
| Revealed
| RevealThrew
| OpenRejected.

Definition jumpToBookmark (bookmark : nat) (outcome : JumpOutcome) (s : Main)
    : Main :=
  match outcome with
  | Revealed => updateBookmark bookmark (Bookmark.setFailedJump false) s
  | RevealThrew =>
      showMessage
        (Vscode.WarningMessage "ERROR: Failed to navigate to bookmark (3)")
        (updateBookmark bookmark (Bookmark.setFailedJump true) s)
  | OpenRejected =>
      showMessage
        (Vscode.WarningMessage "ERROR: Failed to navigate to bookmark (2)")
        (updateBookmark bookmark (Bookmark.setFailedJump true) s)
  end.

Definition editorActionnavigateToNextBookmark (textEditor : Vscode.TextEditor)
    (outcome : JumpOutcome) (s : Main) : Main :=
  match Vscode.selections textEditor with
  | [] => s
  | selection :: _ =>
      match nextBookmark s (Vscode.fsPath (Vscode.editorDocument textEditor))
                         (Vscode.line (Vscode.start selection)) with
      | (None, s1) => s1
      | (Some nextBookmark, s1) => jumpToBookmark nextBookmark outcome s1
      end
  end.

Definition editorActionNavigateToPreviousBookmark
    (textEditor : Vscode.TextEditor) (outcome : JumpOutcome) (s : Main) : Main :=
  match Vscode.selections textEditor with
  | [] => s
  | selection :: _ =>
      match previousBookmark s (Vscode.fsPath (Vscode.editorDocument textEditor))
                             (Vscode.line (Vscode.start selection)) with
      | (None, s1) => s1
      | (Some previousBookmark, s1) => jumpToBookmark previousBookmark outcome s1
      end
  end.

(** ** Commands on groups *)

Definition setActiveGroup (groupName : string) (s : Main) : Main :=
  snd (saveState (activateGroup s groupName)).

(** [actionAddGroup], from the answer of the input box on. *)
Definition actionAddGroup (input : option string) (s : Main) : Main :=
  match input with
  | None => s
  | Some groupName =>
      let groupName := Js.trim groupName in
      if String.eqb groupName EmptyString then s
      else if (Js.length groupName >? maxGroupNameLength (host s))%Z
      then showMessage (Vscode.ErrorMessage "ERROR: Choose a shorter group name.") s
      else snd (saveState (activateGroup s groupName))
  end.

(** [renameGroup], from the answer of the input box on. *)
Definition renameGroup (group : nat) (input : option string) (s : Main) : Main :=
  let defaultQuickInputText := Group.name (groupAt s group) in
  match input with
  | None => s
  | Some input =>
      let newName := Js.trim input in
      if (Js.length newName =? 0)%Z then s
      else if String.eqb newName defaultQuickInputText then s
      else if (Js.length newName >? maxGroupNameLength (host s))%Z
      then showMessage (Vscode.ErrorMessage "ERROR: Choose a shorter group name.") s
      else
        match List.find
                (fun g => negb (g =? group)%nat
                          && String.eqb (Group.name (groupAt s g)) newName)
                (groups s) with
        | Some _ =>
            showMessage
              (Vscode.ErrorMessage
                 "ERROR: The entered bookmark group name is already in use")
              s
        | None => snd (saveState (updateGroup group (Group.setName newName) s))
        end
  end.

Definition deleteGroups (selected : list nat) (s : Main) : Main :=
  let '(s1, wasActiveGroupDeleted) :=
    fold_left
      (fun '(st, wasActiveGroupDeleted) group =>
         let wasActiveGroupDeleted :=
           wasActiveGroupDeleted || (group =? activeGroup st)%nat in
         let '(list, st1) := getTempGroupBookmarkList st group in
         let st2 := fold_left (fun st' b => deleteBookmark b st') list st1 in
         let st3 :=
           if Js.includes group (groups st2)
           then set_groups (Js.removeFirst group (groups st2)) st2 else st2 in
         (forgetGroup group st3, wasActiveGroupDeleted))
      selected (s, false) in
  let s2 :=
    match groups s1 with
    | [] => activateGroup s1 (defaultGroupName (host s1))
    | first :: _ =>
        if wasActiveGroupDeleted
        then activateGroup s1 (Group.name (groupAt s1 first)) else s1
    end in
  snd (saveState s2).

(** [actionSetGroupIconShape] and [actionSetGroupIconColor], from the answer
    of the pick list on. *)
Definition actionSetGroupIconShape (selected : option (string * string))
    (s : Main) : Main :=
  match selected with
  | None => s
  | Some (shape, iconText) =>
      snd (saveState
             (updateGroup (activeGroup s) (Group.setShapeAndIconText shape iconText) s))
  end.

Definition actionSetGroupIconColor (selected : option string) (s : Main)
    : Main :=
  match selected with
  | None => s
  | Some color =>
      snd (saveState (updateGroup (activeGroup s) (Group.setColor color) s))
  end.

Definition actionToggleHideAll (s : Main) : Main :=
  snd (saveState (setHideAll (negb (hideAll s)) s)).

Definition actionToggleHideInactiveGroups (s : Main) : Main :=
  snd (saveState (setHideInactiveGroups (negb (hideInactiveGroups s)) s)).

(** ** File events *)

(** One renamed entry: the old and the new path, and whether [stat] found a
    directory. *)
Record Rename := mkRename {
  oldFsPath : string;
  newFsPath : string;
  isDirectory : bool
}.

Definition renameStep (rename : Rename) (acc : Main * list (string * bool))
    (bookmark : nat) : Main * list (string * bool) :=
  let '(st, changedFiles) := acc in
  let path := Bookmark.fsPath (bookmarkAt st bookmark) in
  if isDirectory rename then
    if Js.startsWith (oldFsPath rename) path then
      let moved :=
        (newFsPath rename ++ Js.substring (Js.len (oldFsPath rename)) (Js.len path) path)%string in
      (updateBookmark bookmark (Bookmark.setFsPath moved) st,
       Js.mapSet moved true (Js.mapSet path true changedFiles))
    else acc
  else
    if String.eqb path (oldFsPath rename) then
      (updateBookmark bookmark (Bookmark.setFsPath (newFsPath rename)) st,
       Js.mapSet (newFsPath rename) true (Js.mapSet (oldFsPath rename) true changedFiles))
    else acc.

Definition onFilesRenamed (files : list Rename) (s : Main) : Main :=
  let '(s1, changedFiles) :=
    fold_left
      (fun acc rename => fold_left (renameStep rename) (bookmarks (fst acc)) acc)
      files (s, []) in
  let s2 :=
    fold_left (fun st '(changedFile, _) => forgetFile changedFile st)
              changedFiles s1 in
  if (Z.of_nat (length changedFiles) >? 0)%Z then snd (saveState s2) else s2.

(** The loop [for (let bookmark of this.bookmarks)] whose body deletes from
    the array it walks: the iterator goes by index over the live array. *)
Fixpoint deleteWhileWalking (steps : nat) (deletedFsPath : string)
    (index : nat) (changesWereMade : bool) (s : Main) : bool * Main :=
  match steps with
  | O => (changesWereMade, s)
  | S steps' =>
      match nth_error (bookmarks s) index with
      | None => (changesWereMade, s)
      | Some bookmark =>
          if String.eqb (Bookmark.fsPath (bookmarkAt s bookmark)) deletedFsPath
          then deleteWhileWalking steps' deletedFsPath (S index) true
                 (deleteBookmark bookmark s)
          else deleteWhileWalking steps' deletedFsPath (S index) changesWereMade s
      end
  end.

Definition onFilesDeleted (files : list string) (s : Main) : Main :=
  fold_left
    (fun st deletedFsPath =>
       let '(changesWereMade, st1) :=
         deleteWhileWalking (length (bookmarks st)) deletedFsPath 0 false st in
       if changesWereMade then snd (saveState st1) else st1)
    files s.

(** The watcher on the storage artifact. *)
Definition onWatchedFileChanged (s : Main) : Main :=
  if (lastSaveTimestamp s <? clock s - savedBookmarksDelay)%Z
  then snd (loadState s) else s.

(** ** Start-up *)

(** The fields as the constructor sets them before it loads: no groups in the
    registry, a default group as the active one. *)
Definition initialState (h : Host) (configuredColors : list (string * string))
    (configuredShape : string) (disk : FileSystem) (now : Z) : Main :=
  mkMain h ∅ {[ 0%nat := Group.new (defaultGroupName h) fallbackColor configuredShape EmptyString ]}
    1 [] [] 0
    (if (Z.of_nat (length configuredColors) <? 1)%Z
     then [(fallbackColorName, normalizeColorFormat h fallbackColor)]
     else configuredColors)
    configuredShape false false ∅ ∅ 0
    (mkMemento None None None None None) disk now [].

Definition construct (h : Host) (configuredColors : list (string * string))
    (configuredShape : string) (disk : FileSystem) (now : Z) : Main :=
  let s0 := initialState h configuredColors configuredShape disk now in
  let '(loaded, s1) := loadState s0 in
  if loaded then s1
  else
    let '(external, s2) :=
      allocGroup
        (Group.new (externalGroupName h) "00dd00ff" (defaultShape s1) EmptyString) s1 in
    let s3 := set_groups (groups s2 ++ [external]) s2 in
    let '(defaultGroup, s4) :=
      allocGroup
        (Group.new (defaultGroupName h) fallbackColor (defaultShape s3) EmptyString) s3 in
    let s5 := set_groups (groups s4 ++ [defaultGroup]) s4 in
    let s6 := set_activeGroup (List.last (groups s5) (activeGroup s5)) s5 in
    snd (saveState s6).

(** ** The operations as one transition system *)

Inductive Command :=
| EditorActionToggleBookmark (textEditor : Vscode.TextEditor)
| EditorActionToggleLabeledBookmark (textEditor : Vscode.TextEditor)
    (entered : option (string * string))
| RelabelBookmark (bookmark : nat) (input : option string)
| MoveBookmarksBetween (dst : nat) (selecteds : option (list nat))
| ActionDeleteOneBookmark (bookmark : nat)
| DeleteBookmarksOfFile (fsPath : string) (group : option nat)
| ActionDeleteBookmark (selecteds : option (list nat))
| ActionClearFailedJumpFlags
| JumpToBookmark (bookmark : nat) (outcome : JumpOutcome)
| NavigateToNextBookmark (textEditor : Vscode.TextEditor) (outcome : JumpOutcome)
| NavigateToPreviousBookmark (textEditor : Vscode.TextEditor) (outcome : JumpOutcome)
| SetActiveGroup (groupName : string)
| ActionAddGroup (input : option string)
| RenameGroup (group : nat) (input : option string)
| DeleteGroups (selected : list nat)
| ActionSetGroupIconShape (selected : option (string * string))
| ActionSetGroupIconColor (selected : option string)
| ActionToggleHideAll
| ActionToggleHideInactiveGroups
| OnEditorDocumentChanged (event : Vscode.TextDocumentChangeEvent)
| OnFilesRenamed (files : list Rename)
| OnFilesDeleted (files : list string)
| OnWatchedFileChanged
| SaveState
| TimePasses (milliseconds : Z).

(** One operation runs to completion; an exception leaves the state as it
    was when it was thrown. *)
Definition step (c : Command) (s : Main) : Main :=
  match c with
  | EditorActionToggleBookmark textEditor =>
      finalState (editorActionToggleBookmark textEditor s)
  | EditorActionToggleLabeledBookmark textEditor entered =>
      finalState (editorActionToggleLabeledBookmark textEditor entered s)
  | RelabelBookmark bookmark input => relabelBookmark bookmark input s
  | MoveBookmarksBetween dst selecteds => moveBookmarksBetween dst selecteds s
  | ActionDeleteOneBookmark bookmark => actionDeleteOneBookmark bookmark s
  | DeleteBookmarksOfFile fsPath group => deleteBookmarksOfFile fsPath group s
  | ActionDeleteBookmark selecteds => actionDeleteBookmark selecteds s
  | ActionClearFailedJumpFlags => actionClearFailedJumpFlags s
  | JumpToBookmark bookmark outcome => jumpToBookmark bookmark outcome s
  | NavigateToNextBookmark textEditor outcome =>
      editorActionnavigateToNextBookmark textEditor outcome s
  | NavigateToPreviousBookmark textEditor outcome =>
      editorActionNavigateToPreviousBookmark textEditor outcome s
  | SetActiveGroup groupName => setActiveGroup groupName s
  | ActionAddGroup input => actionAddGroup input s
  | RenameGroup group input => renameGroup group input s
  | DeleteGroups selected => deleteGroups selected s
  | ActionSetGroupIconShape selected => actionSetGroupIconShape selected s
  | ActionSetGroupIconColor selected => actionSetGroupIconColor selected s
  | ActionToggleHideAll => actionToggleHideAll s
  | ActionToggleHideInactiveGroups => actionToggleHideInactiveGroups s
  | OnEditorDocumentChanged event => finalState (onEditorDocumentChanged event s)
  | OnFilesRenamed files => onFilesRenamed files s
  | OnFilesDeleted files => onFilesDeleted files s
  | OnWatchedFileChanged => onWatchedFileChanged s
  | SaveState => snd (saveState s)
  | TimePasses milliseconds => set_clock (clock s + Z.max 0 milliseconds) s
  end.

Definition run (cs : list Command) (s : Main) : Main :=
  fold_left (fun st c => step c st) cs s.

(** ** A sample workspace *)

(** A host with POSIX-style paths, a workspace at [/ws] and the reserved
    group names. *)
Definition sampleHost : Host :=
  mkHost (Some "/ws")
    (fun p => Js.startsWith "/" p)
    (fun a b => (a ++ "/" ++ b)%string)
    (fun from to => Js.substring (Js.len from + 1) (Js.len to) to)
    (fun c => c)
    "default" "external" 40
    Js.localeCompare.

Definition sampleColors : list (string * string) :=
  [("red", "ff0000ff"); ("blue", "0000ffff")].

(** The extension right after start-up on an empty disk. *)
Definition sampleStart : Main :=
  construct sampleHost sampleColors "bookmark" (mkFileSystem ∅ ∅) 0.

(** A document of twelve lines and an editor with the cursor on a line. *)
Definition sampleDocument (fsPath : string) : Vscode.TextDocument :=
  Vscode.mkDocument fsPath
    ["line 0"; "line 1"; "line 2"; "  line 3"; "line 4"; "line 5"; "line 6";
     "line 7"; "line 8"; "line 9"; "line 10"; "line 11"].

Definition cursorAt (line character : Z) : Vscode.Range :=
  Vscode.mkRange (Vscode.mkPosition line character)
                 (Vscode.mkPosition line character).

Definition sampleEditor (fsPath : string) (lines : list Z) : Vscode.TextEditor :=
  Vscode.mkEditor (sampleDocument fsPath) (map (fun l => cursorAt l 0) lines).

(** ** Notions the properties are stated with *)

Definition lineOf (s : Main) (b : nat) : Z :=
  Bookmark.lineNumber (bookmarkAt s b).

(** A bookmark of [l] at or before line [q] that no other such bookmark
    beats, and the same at or after [q]. *)
Definition closestBefore (s : Main) (q : Z) (l : list nat) (b : nat) : Prop :=
  In b l /\ (lineOf s b <= q)%Z
  /\ forall x, In x l -> (lineOf s x <= q)%Z -> (lineOf s x <= lineOf s b)%Z.

Definition closestAfter (s : Main) (q : Z) (l : list nat) (a : nat) : Prop :=
  In a l /\ (q <= lineOf s a)%Z
  /\ forall x, In x l -> (q <= lineOf s x)%Z -> (lineOf s a <= lineOf s x)%Z.

(** The list that [getNearestActiveBookmarkInFile] scans: the bookmarks of
    the editor's file, narrowed to [group] when one is given. *)
Definition nearestCandidates (s : Main) (textEditor : Vscode.TextEditor)
    (group : option nat) : list nat :=
  List.filter
    (fun g =>
       match group with
       | None => true
       | Some gr => (Bookmark.group (bookmarkAt s g) =? gr)%nat
       end)
    (fst (getTempDocumentBookmarkList s
            (Vscode.fsPath (Vscode.editorDocument textEditor)))).

(** Line numbers as the editor hands them out. *)
Definition validLine (s : Main) (b : nat) : Prop :=
  (0 <= lineOf s b < Js.MAX_SAFE_INTEGER)%Z.


(** The cached list of a file, when there is one, is the file's bookmarks. *)
Definition cacheCoherent (s : Main) (fsPath : string) : Prop :=
  match tempDocumentBookmarks s !! fsPath with
  | Some list =>
      list = List.filter
               (fun b => String.eqb (Bookmark.fsPath (bookmarkAt s b)) fsPath)
               (bookmarks s)
  | None => True
  end.







(** How many groups of the registry bear a color. *)
Definition usageOf (s : Main) (c : string) : Z :=
  Z.of_nat
    (length (List.filter
               (fun g => String.eqb (Group.getColor (groupAt s g)) c)
               (groups s))).

(** The configured colors, in the iteration order of the map. *)
Definition configuredColors (s : Main) : list string := map snd (colors s).

(** The references a state hands out are below its allocation mark. *)
Definition groupsAllocated (s : Main) : Prop :=
  Forall (fun g => (g < nextRef s)%nat) (groups s).

(** The distinct elements of a list, in the order of their first occurrence. *)
Definition keepFirst (l : list string) : list string :=
  fold_left
    (fun acc c => if existsb (String.eqb c) acc then acc else acc ++ [c])
    l [].

(** A scan for the first smallest weight, as the last loop of
    [getLeastUsedColor] runs it. *)
Definition scanLeast (w : string -> Z) (l : list string) (start : Z * string)
    : Z * string :=
  fold_left
    (fun '(minUsage, leastUsedColor) c =>
       if (minUsage >? w c)%Z then (w c, c) else (minUsage, leastUsedColor))
    l start.

(** A usage map: the keys [keys] in order, each with its weight. *)
Definition weighted (w : string -> Z) (keys : list string)
    : list (string * Z) :=
  map (fun c => (c, w c)) keys.

(** How many of the groups [gs] bear a color. *)
Definition countColor (s : Main) (gs : list nat) (c : string) : Z :=
  Z.of_nat
    (length (List.filter
               (fun g => String.eqb (Group.getColor (groupAt s g)) c) gs)).

(** Two bookmarks of the active group in [/ws/a.ts], on lines 3 and 7. *)
Definition sampleTwoBookmarks : Main :=
  step (EditorActionToggleBookmark (sampleEditor "/ws/a.ts" [3%Z; 7%Z])) sampleStart.

(** Three bookmarks of the active group in [/ws/a.ts], on lines 4, 5 and 6,
    and one on line 10. *)
Definition sampleThreeBookmarks : Main :=
  step (EditorActionToggleBookmark (sampleEditor "/ws/a.ts" [4%Z; 5%Z; 6%Z]))
       sampleStart.








(** A group as the constructor of [Main] makes the default group: fallback
    color, default shape, no icon text. *)
Definition uncustomized (s : Main) (g : Group.t) : Prop :=
  Group.color g = fallbackColor
  /\ Group.shape g = defaultShape s
  /\ Group.iconText g = EmptyString.

(** "Empty" in the words of the specification: no bookmark, and one group,
    the default group with no customization. *)
Definition emptyAsSpecified (s : Main) : Prop :=
  bookmarks s = []
  /\ exists g,
       groups s = [g]
       /\ Group.name (groupAt s g) = defaultGroupName (host s)
       /\ uncustomized s (groupAt s g).

(** The sample workspace once the external group is deleted and the default
    group is given the star shape. *)
Definition sampleCustomized : Main :=
  run [DeleteGroups [1%nat]; ActionSetGroupIconShape (Some ("star", EmptyString))]
      sampleStart.

(** Is the bookmark behind the reference flagged as a failed jump? *)
Definition failedAt (s : Main) (b : nat) : bool :=
  Bookmark.failedJump (bookmarkAt s b).

(** From [s] to [s'] no bookmark object that [s] knows changes its
    failed-jump flag, and no reference is handed out twice. *)
Definition keepsFlags (s s' : Main) : Prop :=
  (nextRef s <= nextRef s')%nat
  /\ forall b, (b < nextRef s)%nat -> failedAt s' b = failedAt s b.

(** The operations that leave the flag of bookmark [b] alone: all but the
    clearing command and a jump to [b] that succeeds. *)
Definition sparesFlagOf (b : nat) (c : Command) : Prop :=
  c <> ActionClearFailedJumpFlags /\ c <> JumpToBookmark b Revealed.

(** The sample with two bookmarks after a jump to the first one that the
    host rejected. *)
Definition sampleFailedJump : Main :=
  step (JumpToBookmark 3 OpenRejected) sampleTwoBookmarks.

(** What the order of the array rests on: a collation compares a text as
    equal to itself, swapping the operands swaps the sign of the answer,
    and not coming after is transitive. *)
Definition collates (compare : string -> string -> Z) : Prop :=
  (forall a, compare a a = 0%Z)
  /\ (forall a b, (compare a b < 0)%Z <-> (compare b a > 0)%Z)
  /\ (forall a b c,
        (compare a b <= 0)%Z -> (compare b c <= 0)%Z -> (compare a c <= 0)%Z).

(** Does [Bookmark.sortByLocation] leave [a] before [b]? *)
Definition inOrder (compare : string -> string -> Z) (a b : Bookmark.t) : bool :=
  (Bookmark.sortByLocation compare a b <=? 0)%Z.

(** Every bookmark of the list is in order with each one behind it. *)
Fixpoint sortedByLocation (compare : string -> string -> Z)
    (l : list Bookmark.t) : bool :=
  match l with
  | [] => true
  | a :: rest =>
      forallb (inOrder compare a) rest && sortedByLocation compare rest
  end.

(** The array is in the order of [Bookmark.sortByLocation] under the
    collation of the host. *)
Definition sortedStore (s : Main) : Prop :=
  sortedByLocation (localeCompare (host s)) (bookmarkValues s) = true.

(** The canonical order: the path first, by the collation, then the line,
    then the character. *)
Definition lineOrder (a b : Bookmark.t) : Prop :=
  (Bookmark.lineNumber a < Bookmark.lineNumber b)%Z
  \/ (Bookmark.lineNumber a = Bookmark.lineNumber b
      /\ (Bookmark.characterNumber a <= Bookmark.characterNumber b)%Z).

Definition canonicalOrder (compare : string -> string -> Z)
    (a b : Bookmark.t) : Prop :=
  (compare (Bookmark.fsPath a) (Bookmark.fsPath b) < 0)%Z
  \/ (compare (Bookmark.fsPath a) (Bookmark.fsPath b) = 0%Z /\ lineOrder a b).

Definition location (b : Bookmark.t) : string * Z * Z :=
  (Bookmark.fsPath b, Bookmark.lineNumber b, Bookmark.characterNumber b).

(** One bookmark of the active group on line 3 of [/ws/a.ts] and one on
    line 5 of [/ws/m.ts]; then [/ws/a.ts] is renamed to [/ws/z.ts]. *)
Definition sampleTwoFiles : Main :=
  run [EditorActionToggleBookmark (sampleEditor "/ws/a.ts" [3%Z]);
       EditorActionToggleBookmark (sampleEditor "/ws/m.ts" [5%Z])]
      sampleStart.

Definition sampleRenamed : Main :=
  step (OnFilesRenamed [mkRename "/ws/a.ts" "/ws/z.ts" false]) sampleTwoFiles.

(** What the running state of the nearest-bookmark scan for line [q] knows
    after the entries of [l]. *)
Definition beforeKnown (s : Main) (q : Z) (l : list nat) (acc : Nearest)
    : Prop :=
  match nearestBefore acc with
  | None =>
      nearestBeforeLine acc = (-1)%Z
      /\ Forall (fun x => (q < lineOf s x)%Z) l
  | Some b => closestBefore s q l b /\ nearestBeforeLine acc = lineOf s b
  end.

Definition afterKnown (s : Main) (q : Z) (l : list nat) (acc : Nearest)
    : Prop :=
  match nearestAfter acc with
  | None =>
      nearestAfterline acc = Js.MAX_SAFE_INTEGER
      /\ Forall (fun x => (lineOf s x < q)%Z) l
  | Some a => closestAfter s q l a /\ nearestAfterline acc = lineOf s a
  end.


(** ** Notions for the further properties *)

(** Is the bookmark behind the reference one of the file? *)
Definition ofFile (s : Main) (fsPath : string) (b : nat) : bool :=
  String.eqb (Bookmark.fsPath (bookmarkAt s b)) fsPath.

(** What a walk over the live array leaves when every hit is spliced out
    under the iterator: the entry behind a hit moves into its place and is
    stepped over. *)
Fixpoint walkFrom (hit : nat -> bool) (stepOver : bool) (l : list nat)
    : list nat :=
  match l with
  | [] => []
  | x :: rest =>
      if stepOver then x :: walkFrom hit false rest
      else if hit x then walkFrom hit true rest
      else x :: walkFrom hit false rest
  end.

(** Does the list hold two hits side by side? *)
Fixpoint adjacentHits (hit : nat -> bool) (l : list nat) : bool :=
  match l with
  | a :: rest =>
      match rest with
      | b :: _ => (hit a && hit b) || adjacentHits hit rest
      | [] => false
      end
  | [] => false
  end.

(** What one renamed entry makes of a bookmark: the path of a renamed file
    is replaced, the path under a renamed directory gets the new prefix. *)
Definition renamed (rename : Rename) (b : Bookmark.t) : Bookmark.t :=
  let path := Bookmark.fsPath b in
  if isDirectory rename then
    if Js.startsWith (oldFsPath rename) path
    then Bookmark.setFsPath
           (newFsPath rename
            ++ Js.substring (Js.len (oldFsPath rename)) (Js.len path) path)%string
           b
    else b
  else if String.eqb path (oldFsPath rename)
       then Bookmark.setFsPath (newFsPath rename) b
       else b.

(** Two bookmark values that differ in their path at most. *)
Definition sameButPath (a b : Bookmark.t) : Prop :=
  Bookmark.lineNumber a = Bookmark.lineNumber b
  /\ Bookmark.characterNumber a = Bookmark.characterNumber b
  /\ Bookmark.label a = Bookmark.label b
  /\ Bookmark.lineText a = Bookmark.lineText b
  /\ Bookmark.failedJump a = Bookmark.failedJump b
  /\ Bookmark.isLineNumberChanged a = Bookmark.isLineNumberChanged b
  /\ Bookmark.group a = Bookmark.group b.

(** The names of the groups of the registry, in the order of the array. *)
Definition groupNames (s : Main) : list string :=
  map (fun g => Group.name (groupAt s g)) (groups s).

(** Does a group of the registry other than [group] bear the name? *)
Definition nameTaken (s : Main) (group : nat) (name : string) : bool :=
  existsb
    (fun g => negb (g =? group)%nat && String.eqb (Group.name (groupAt s g)) name)
    (groups s).

(** The visibility that [setGroupVisibilities] gives a group. *)
Definition visibleFor (s : Main) (g : Group.t) : bool :=
  negb (hideAll s) && (negb (hideInactiveGroups s) || Group.isActive g).

(** Two group values that differ in their two flags at most. *)
Definition sameButFlags (a b : Group.t) : Prop :=
  Group.name a = Group.name b /\ Group.color a = Group.color b
  /\ Group.shape a = Group.shape b /\ Group.iconText a = Group.iconText b.

(** Is the bookmark behind the reference one of the group? *)
Definition ofGroup (s : Main) (group : nat) (b : nat) : bool :=
  (Bookmark.group (bookmarkAt s b) =? group)%nat.

(** The cached list of a group, when there is one, is the group's
    bookmarks. *)
Definition groupCacheCoherent (s : Main) (group : nat) : Prop :=
  match tempGroupBookmarks s !! group with
  | Some list => list = List.filter (ofGroup s group) (bookmarks s)
  | None => True
  end.

(** The body of the loop of [deleteGroups], as a function of its own. *)
Definition deleteOneGroup : Main * bool -> nat -> Main * bool :=
  fun '(st, wasActiveGroupDeleted) group =>
    let wasActiveGroupDeleted :=
      wasActiveGroupDeleted || (group =? activeGroup st)%nat in
    let '(list, st1) := getTempGroupBookmarkList st group in
    let st2 := fold_left (fun st' b => deleteBookmark b st') list st1 in
    let st3 :=
      if Js.includes group (groups st2)
      then set_groups (Js.removeFirst group (groups st2)) st2 else st2 in
    (forgetGroup group st3, wasActiveGroupDeleted).

(** Is the bookmark behind the reference the one that a toggle on this line
    of the file looks for in the group? *)
Definition toggledAt (s : Main) (fsPath : string) (lineNumber : Z)
    (group : nat) (b : nat) : bool :=
  String.eqb (Bookmark.fsPath (bookmarkAt s b)) fsPath
  && ((Bookmark.lineNumber (bookmarkAt s b) =? lineNumber)%Z
      && (Bookmark.group (bookmarkAt s b) =? group)%nat).

(** Every reference of the bookmark array has been handed out by
    [allocBookmark] or [allocGroup]: the next reference is a new one. *)
Definition bookmarksAllocated (s : Main) : Prop :=
  forall b, In b (bookmarks s) -> (b < nextRef s)%nat.

(** The bookmarks that a navigation query may answer with before it wraps
    around: of the active group, not flagged, and passing the test of the
    query on the position. *)
Definition navigable (s : Main) (test : Bookmark.t -> bool) (b : nat) : bool :=
  ofGroup s (activeGroup s) b
  && (negb (failedAt s b) && test (bookmarkAt s b)).

(** The two arrays are in order: no reference twice, and every reference
    handed out before. *)
Definition arraysTidy (s : Main) : Prop :=
  List.NoDup (bookmarks s) /\ bookmarksAllocated s
  /\ List.NoDup (groups s) /\ groupsAllocated s.

(** A well-formed store: tidy arrays, and the active group is a group of
    the registry. *)
Definition wellFormed (s : Main) : Prop :=
  arraysTidy s /\ In (activeGroup s) (groups s).

(** What an operation may do to the arrays: hand out references, put new
    ones into the arrays and take entries out, without ever doubling an
    entry or losing the active group from the registry. *)
Definition orderly (s s' : Main) : Prop :=
  (nextRef s <= nextRef s')%nat
  /\ (forall b, In b (bookmarks s') ->
        In b (bookmarks s) \/ (nextRef s <= b < nextRef s')%nat)
  /\ (forall g, In g (groups s') ->
        In g (groups s) \/ (nextRef s <= g < nextRef s')%nat)
  /\ (arraysTidy s -> List.NoDup (bookmarks s') /\ List.NoDup (groups s'))
  /\ (In (activeGroup s) (groups s) -> In (activeGroup s') (groups s')).

(** The bookmark that loses its place when a one-character label is given
    to [bookmark]: the first one of the array in the same file and group
    that bears the label. *)
Definition labelHolder (s : Main) (bookmark : nat) (newLabel : string)
    : option nat :=
  if (Js.length newLabel =? 1)%Z then
    List.find
      (fun bm =>
         String.eqb (Bookmark.fsPath (bookmarkAt s bm))
                    (Bookmark.fsPath (bookmarkAt s bookmark))
         && ((Bookmark.group (bookmarkAt s bm)
              =? Bookmark.group (bookmarkAt s bookmark))%nat
             && match Bookmark.label (bookmarkAt s bm) with
                | Some l => String.eqb l newLabel
                | None => false
                end))
      (bookmarks s)
  else None.

(** Is the reference the one of the optional bookmark? *)
Definition isHolder (holder : option nat) (b : nat) : bool :=
  match holder with
  | Some e => (b =? e)%nat
  | None => false
  end.

(** The bookmark that [moveBookmarksBetween] creates for a selected one: the
    same place, label and text, in the destination group. *)
Definition movedTo (dst : nat) (old : Bookmark.t) : Bookmark.t :=
  Bookmark.new (Bookmark.fsPath old) (Bookmark.lineNumber old)
    (Bookmark.characterNumber old) (Bookmark.label old)
    (Bookmark.lineText old) dst.

(** One round of the loop of [moveBookmarksBetween]. *)
Definition moveOne (dst : nat) (st : Main) (oldBookmark : nat) : Main :=
  let st1 := deleteBookmark oldBookmark st in
  let old := bookmarkAt st1 oldBookmark in
  let '(newBookmark, st2) :=
    allocBookmark
      (Bookmark.new (Bookmark.fsPath old) (Bookmark.lineNumber old)
         (Bookmark.characterNumber old) (Bookmark.label old)
         (Bookmark.lineText old) dst)
      st1 in
  let st3 := addNewDecoratedBookmark newBookmark st2 in
  forgetGroup dst (forgetFile (Bookmark.fsPath old) st3).

(** What the path functions of the runtime do for the path of a bookmark:
    a path that starts with the workspace folder goes relative and comes
    back when it is joined to the folder again, and any other path is an
    absolute one. *)
Definition pathComesBack (h : Host) (fsPath : string) : Prop :=
  match truthy (workspaceFolder h) with
  | Some w =>
      if Js.startsWith w fsPath
      then path_isAbsolute h (path_relative h w fsPath) = false
           /\ path_join h w (path_relative h w fsPath) = fsPath
      else path_isAbsolute h fsPath = true
  | None => True
  end.


(** ** Expanding the selection *)

(** [new Selection(anchorLine, anchorCharacter, activeLine,
    activeCharacter)]: what the two commands set the selection of the
    editor to. *)
Record Selection := mkSelection {
  anchor : Vscode.Position;
  active : Vscode.Position
}.

(** [actionExpandSelectionToNextBookmark]: the new selection, [None] when
    the selection stays; [editor.selection] is the primary selection, and
    reading a line outside the document throws. *)
Definition actionExpandSelectionToNextBookmark (editor : Vscode.TextEditor)
    (s : Main) : Run (option Selection) :=
  let '(bookmarks, s1) :=
    getTempDocumentBookmarkList s (Vscode.fsPath (Vscode.editorDocument editor)) in
  match Vscode.selections editor with
  | [] => Threw s1
  | selection :: _ =>
      match Vscode.lineAt (Vscode.editorDocument editor)
                          (Vscode.line (Vscode.end_ selection)) with
      | None => Threw s1
      | Some endLine =>
          let selectionEndsAtLineEnd :=
            (Vscode.character (Vscode.end_ selection) >=? Js.length endLine)%Z in
          let searchFromLine :=
            if selectionEndsAtLineEnd
            then (Vscode.line (Vscode.end_ selection) + 1)%Z
            else Vscode.line (Vscode.end_ selection) in
          match List.find
                  (fun bookmark =>
                     (Bookmark.group (bookmarkAt s1 bookmark) =? activeGroup s1)%nat
                     && (Bookmark.lineNumber (bookmarkAt s1 bookmark)
                         >=? searchFromLine)%Z)
                  bookmarks with
          | None => Done None s1
          | Some nextBookmark =>
              let newSelectionEndCharacter :=
                if (Bookmark.lineNumber (bookmarkAt s1 nextBookmark)
                    =? Vscode.line (Vscode.end_ selection))%Z
                then Js.length endLine else 0%Z in
              Done
                (Some
                   (mkSelection (Vscode.start selection)
                      (Vscode.mkPosition
                         (Bookmark.lineNumber (bookmarkAt s1 nextBookmark))
                         newSelectionEndCharacter)))
                s1
          end
      end
  end.

(** [actionExpandSelectionToPreviousBookmark]: the loop runs from the end of
    the list of the file. *)
Definition actionExpandSelectionToPreviousBookmark (editor : Vscode.TextEditor)
    (s : Main) : Run (option Selection) :=
  let '(bookmarks, s1) :=
    getTempDocumentBookmarkList s (Vscode.fsPath (Vscode.editorDocument editor)) in
  match Vscode.selections editor with
  | [] => Threw s1
  | selection :: _ =>
      match Vscode.lineAt (Vscode.editorDocument editor)
                          (Vscode.line (Vscode.start selection)) with
      | None => Threw s1
      | Some startLine =>
          let selectionStartsAtLineStart :=
            (Vscode.character (Vscode.start selection) =? 0)%Z in
          let searchFromLine :=
            if selectionStartsAtLineStart
            then (Vscode.line (Vscode.start selection) - 1)%Z
            else Vscode.line (Vscode.start selection) in
          match List.find
                  (fun bookmark =>
                     (Bookmark.group (bookmarkAt s1 bookmark) =? activeGroup s1)%nat
                     && (Bookmark.lineNumber (bookmarkAt s1 bookmark)
                         <=? searchFromLine)%Z)
                  (rev bookmarks) with
          | None => Done None s1
          | Some nextBookmark =>
              let lineNumber := Bookmark.lineNumber (bookmarkAt s1 nextBookmark) in
              if (lineNumber =? Vscode.line (Vscode.start selection))%Z then
                Done
                  (Some (mkSelection (Vscode.mkPosition lineNumber 0)
                                     (Vscode.end_ selection)))
                  s1
              else
                match Vscode.lineAt (Vscode.editorDocument editor) lineNumber with
                | None => Threw s1
                | Some text =>
                    Done
                      (Some (mkSelection (Vscode.mkPosition lineNumber (Js.length text))
                                         (Vscode.end_ selection)))
                      s1
                end
          end
      end
  end.

(** The order of the positions of a document. *)
Definition isBefore (a b : Vscode.Position) : Prop :=
  (Vscode.line a < Vscode.line b)%Z
  \/ (Vscode.line a = Vscode.line b
      /\ (Vscode.character a < Vscode.character b)%Z).

(** The artifact of the workspace, when it carries the version tag of the
    extension, holds groups with distinct names. *)
Definition diskTidy (h : Host) (disk : FileSystem) : Prop :=
  forall w obj l,
    workspaceFolder h = Some w ->
    files disk
      !! (Js.replaceBackslashes w ++ "/.vscode/bookmarks-labeled.json")%string
    = Some obj ->
    fileVersion obj = Some savedBookmarksFileVersionValue ->
    savedGroups (payload obj) = Some l ->
    List.NoDup (map SerializableGroup.name l).

(** The registry is in order: its groups are objects created before, they
    bear distinct names, and so do the groups of the artifact. *)
Definition registryTidy (s : Main) : Prop :=
  groupsAllocated s /\ List.NoDup (groupNames s) /\ diskTidy (host s) (fs s).

(** An operation that keeps the registry in order, in the same workspace. *)
Definition keepsNames (s s' : Main) : Prop :=
  host s' = host s /\ (registryTidy s -> registryTidy s').

(** What the labeled toggle looks for before it creates a bookmark with a
    one-character label: a bookmark of the file in the group that bears the
    label. *)
Definition labeledAt (s : Main) (fsPath : string) (group : nat)
    (label : string) (b : nat) : bool :=
  String.eqb (Bookmark.fsPath (bookmarkAt s b)) fsPath
  && ((Bookmark.group (bookmarkAt s b) =? group)%nat
      && match Bookmark.label (bookmarkAt s b) with
         | Some l => String.eqb l label
         | None => false
         end).

(** ** The cached lists of the files *)

(** The cached list of a file, when there is one, holds the bookmarks of
    the array that are in the file, each once: the order apart, it is the
    list that [getTempDocumentBookmarkList] computes. *)
Definition fileListOf (s : Main) (fsPath : string) (list : list nat) : Prop :=
  List.NoDup list
  /\ forall b, In b list
               <-> In b (bookmarks s) /\ Bookmark.fsPath (bookmarkAt s b) = fsPath.

Definition cacheSound (s : Main) (fsPath : string) : Prop :=
  match tempDocumentBookmarks s !! fsPath with
  | Some list => fileListOf s fsPath list
  | None => True
  end.

(** The cached lists of the files are sound but for the files of [dirty]:
    no bookmark is twice in the array, every bookmark of the array is an
    object created before, and the cached list of every file outside
    [dirty] holds the bookmarks of that file. *)
Definition soundBut (dirty : string -> Prop) (s : Main) : Prop :=
  List.NoDup (bookmarks s) /\ bookmarksAllocated s
  /\ forall fsPath, ~ dirty fsPath -> cacheSound s fsPath.

(** What an operation may do to the cached lists of the files: every list
    that was sound before it is sound after it. *)
Definition keepsCaches (s s' : Main) : Prop :=
  forall dirty, soundBut dirty s -> soundBut dirty s'.

(** The files that a rename has touched so far. *)
Definition touched (changedFiles : list (string * bool)) (dirty : string -> Prop)
    (q : string) : Prop :=
  In q (map fst changedFiles) \/ dirty q.

(** ** More sample edits *)






(** * Properties *)

(** ** Lists and scans *)

Lemma find_first {A : Type} (p : A -> bool) (l : list A) (x : A) :
  List.find p l = Some x ->
  exists pre post,
    l = pre ++ x :: post /\ p x = true /\ Forall (fun y => p y = false) pre.
Proof.
  induction l as [|y l IH]; simpl; [discriminate|].
  destruct (p y) eqn:Hy.
  - intros [= ->]. exists [], l. repeat split; auto.
  - intros H. destruct (IH H) as (pre & post & -> & Hx & Hpre).
    exists (y :: pre), post. repeat split; auto.
Qed.

Lemma find_none_all {A : Type} (p : A -> bool) (l : list A) :
  List.find p l = None <-> Forall (fun y => p y = false) l.
Proof.
  induction l as [|y l IH]; simpl.
  - split; auto.
  - destruct (p y) eqn:Hy; split.
    + discriminate.
    + intros H. inversion H; congruence.
    + intros H. constructor; [assumption | now apply IH].
    + intros H. inversion H; now apply IH.
Qed.

Lemma find_skips {A : Type} (p : A -> bool) (pre post : list A) (x : A) :
  Forall (fun y => p y = false) pre -> p x = true ->
  List.find p (pre ++ x :: post) = Some x.
Proof.
  induction 1 as [|y pre Hy _ IH]; simpl; intros Hx.
  - now rewrite Hx.
  - rewrite Hy. now apply IH.
Qed.

(** ** The group registry: lookup by name (C10) *)

(** C10. [getGroupByName] is total.  When some registered group bears the
    name, it returns a registered group with exactly that name, the first one
    in the registry; when none does, it returns the active group. *)
Theorem getGroupByName_found_or_active (s : Main) (groupName : string) :
  ((exists g, In g (groups s) /\ Group.name (groupAt s g) = groupName) ->
   exists pre post,
     groups s = pre ++ getGroupByName s groupName :: post
     /\ Group.name (groupAt s (getGroupByName s groupName)) = groupName
     /\ Forall (fun g => Group.name (groupAt s g) <> groupName) pre)
  /\ ((forall g, In g (groups s) -> Group.name (groupAt s g) <> groupName) ->
      getGroupByName s groupName = activeGroup s).
Proof.
  unfold getGroupByName.
  destruct (List.find _ (groups s)) as [g|] eqn:Hfind; split.
  - intros _. apply find_first in Hfind as (pre & post & Hsplit & Hname & Hpre).
    exists pre, post. repeat split; auto.
    + now apply String.eqb_eq.
    + eapply List.Forall_impl; [|exact Hpre]. simpl. intros a Ha.
      now apply String.eqb_neq.
  - intros Hnone. apply find_first in Hfind as (pre & post & Hsplit & Hname & _).
    exfalso. apply (Hnone g).
    + rewrite Hsplit. apply in_or_app. right. now left.
    + now apply String.eqb_eq.
  - intros (g & Hin & Hname). exfalso.
    apply find_none_all in Hfind. rewrite List.Forall_forall in Hfind.
    specialize (Hfind g Hin). simpl in Hfind.
    apply String.eqb_neq in Hfind. contradiction.
  - reflexivity.
Qed.

(** ** Navigation over the active group (C4) *)

Lemma getTempGroupBookmarkList_frame (s : Main) (g : nat) :
  bheap (snd (getTempGroupBookmarkList s g)) = bheap s
  /\ notifications (snd (getTempGroupBookmarkList s g)) = notifications s.
Proof.
  unfold getTempGroupBookmarkList.
  destruct (tempGroupBookmarks s !! g); simpl; auto.
Qed.

Lemma bookmarkAt_ext (s s' : Main) (r : nat) :
  bheap s = bheap s' -> bookmarkAt s r = bookmarkAt s' r.
Proof. unfold bookmarkAt. now intros ->. Qed.

Lemma scanCandidates_ext (s s' : Main) test l n :
  bheap s = bheap s' -> scanCandidates s test l n = scanCandidates s' test l n.
Proof.
  intros H. revert n. induction l as [|b l IH]; intros n; simpl; auto.
  rewrite (bookmarkAt_ext s s' b H).
  destruct (Bookmark.failedJump _); [apply IH|].
  destruct (test _); [reflexivity | apply IH].
Qed.

Lemma scan_some (s : Main) test l n b n' :
  scanCandidates s test l n = (Some b, n') ->
  In b l /\ failedAt s b = false /\ test (bookmarkAt s b) = true.
Proof.
  revert n. induction l as [|x l IH]; intros n; simpl; [discriminate|].
  destruct (Bookmark.failedJump (bookmarkAt s x)) eqn:Hf.
  - intros H. destruct (IH _ H) as (? & ? & ?). auto.
  - destruct (test (bookmarkAt s x)) eqn:Ht.
    + intros [= <- <-]. unfold failedAt. auto.
    + intros H. destruct (IH _ H) as (? & ? & ?). auto.
Qed.

Lemma scan_none (s : Main) test l n :
  Forall (fun x => failedAt s x = false -> test (bookmarkAt s x) = false) l ->
  scanCandidates s test l n
  = (None, (n + Z.of_nat (length (List.filter (failedAt s) l)))%Z).
Proof.
  intros H. revert n. induction H as [|x l Hx _ IH]; intros n; simpl.
  - f_equal. lia.
  - unfold failedAt in *. destruct (Bookmark.failedJump (bookmarkAt s x)) eqn:Hf.
    + rewrite IH. simpl. f_equal. lia.
    + rewrite (Hx eq_refl), IH. reflexivity.
Qed.

Lemma filter_length_lt {A : Type} (p : A -> bool) (pre post : list A) (x : A) :
  p x = false ->
  (length (List.filter p (pre ++ x :: post)) < length (pre ++ x :: post))%nat.
Proof.
  intros Hx. rewrite List.filter_app, !List.length_app. simpl. rewrite Hx.
  pose proof (List.filter_length_le p pre).
  pose proof (List.filter_length_le p post). lia.
Qed.

Lemma filter_length_all {A : Type} (p : A -> bool) (l : list A) :
  Forall (fun x => p x = true) l -> length (List.filter p l) = length l.
Proof.
  induction 1 as [|x l Hx _ IH]; simpl; auto. rewrite Hx. simpl. now f_equal.
Qed.

(** Wrapping around a list with a usable entry: the first one that is not
    failed, and no warning. *)
Lemma wrapAround_first (s : Main) (pre post : list nat) (b : nat) :
  Forall (fun x => failedAt s x = true) pre -> failedAt s b = false ->
  wrapAround s (pre ++ b :: post) None
    (Z.of_nat (length (List.filter (failedAt s) (pre ++ b :: post))))
  = (Some b, s).
Proof.
  intros Hpre Hb. unfold wrapAround.
  pose proof (filter_length_lt (failedAt s) pre post b Hb) as Hlt.
  assert (Hlen : (length (pre ++ b :: post) > 0)%nat)
    by (rewrite List.length_app; simpl; lia).
  assert (H0 : (Z.of_nat (length (pre ++ b :: post)) >? 0)%Z = true)
    by (apply Z.gtb_lt; lia).
  assert (H1 : (Z.of_nat (length (pre ++ b :: post))
                >? Z.of_nat (length (List.filter (failedAt s) (pre ++ b :: post))))%Z
               = true)
    by (apply Z.gtb_lt; lia).
  rewrite H0, H1.
  rewrite (find_skips (fun x => negb (Bookmark.failedJump (bookmarkAt s x))) pre post b).
  - reflexivity.
  - eapply List.Forall_impl; [|exact Hpre]. unfold failedAt. simpl.
    intros a ->. reflexivity.
  - unfold failedAt in Hb. now rewrite Hb.
Qed.

(** Wrapping around a list whose entries are all failed: nothing, and the
    warning. *)
Lemma wrapAround_all_failed (s : Main) (l : list nat) :
  l <> [] -> Forall (fun x => failedAt s x = true) l ->
  wrapAround s l None (Z.of_nat (length (List.filter (failedAt s) l)))
  = (None, showMessage allBrokenWarning s).
Proof.
  intros Hne Hall. unfold wrapAround.
  rewrite (filter_length_all _ _ Hall).
  destruct l as [|x l]; [contradiction|].
  assert (H0 : (Z.of_nat (length (x :: l)) >? 0)%Z = true)
    by (apply Z.gtb_lt; simpl; lia).
  rewrite H0, Z.gtb_ltb, Z.ltb_irrefl. reflexivity.
Qed.

Lemma wrapAround_result (s : Main) (l : list nat) (c : option nat) (n : Z)
    (b : nat) :
  (forall x, c = Some x -> In x l /\ failedAt s x = false) ->
  fst (wrapAround s l c n) = Some b -> In b l /\ failedAt s b = false.
Proof.
  intros Hc. unfold wrapAround. destruct c as [x|].
  - simpl. intros [= <-]. now apply Hc.
  - destruct (_ >? 0)%Z; [|discriminate].
    destruct (_ >? n)%Z; [|discriminate].
    destruct (List.find _ l) as [y|] eqn:Hfind; [|discriminate].
    simpl. intros [= <-].
    apply find_first in Hfind as (pre & post & -> & Hy & _).
    split.
    + apply in_or_app. right. now left.
    + unfold failedAt. now apply negb_true_iff.
Qed.

(** The three facts of the claim, for a scan with any test over any list. *)
Lemma scan_then_wrap (s : Main) (test : Bookmark.t -> bool) (l : list nat) :
  let result :=
    wrapAround s l (fst (scanCandidates s test l 0))
                   (snd (scanCandidates s test l 0)) in
  (forall b, fst result = Some b -> In b l /\ failedAt s b = false)
  /\ (Forall (fun x => failedAt s x = false -> test (bookmarkAt s x) = false) l ->
      forall pre b post,
        l = pre ++ b :: post ->
        Forall (fun x => failedAt s x = true) pre -> failedAt s b = false ->
        result = (Some b, s))
  /\ (l <> [] -> Forall (fun x => failedAt s x = true) l ->
      result = (None, showMessage allBrokenWarning s)).
Proof.
  intros result. subst result. split; [|split].
  - intros b. apply wrapAround_result. intros x Hx.
    destruct (scanCandidates s test l 0) as [c n] eqn:Hscan. simpl in Hx. subst c.
    apply scan_some in Hscan as (? & ? & ?). auto.
  - intros Hnone pre b post -> Hpre Hb.
    rewrite scan_none by exact Hnone.
    simpl. now apply wrapAround_first.
  - intros Hne Hall. rewrite scan_none.
    + simpl. now apply wrapAround_all_failed.
    + eapply List.Forall_impl; [|exact Hall]. simpl. intros a Ha Hb. congruence.
Qed.

Lemma nextBookmark_unfold (s : Main) (fsPath : string) (line : Z) :
  let l := fst (getTempGroupBookmarkList s (activeGroup s)) in
  let s1 := snd (getTempGroupBookmarkList s (activeGroup s)) in
  let test := followsPosition (localeCompare (host s)) fsPath line in
  nextBookmark s fsPath line
  = wrapAround s1 l (fst (scanCandidates s1 test l 0))
                    (snd (scanCandidates s1 test l 0)).
Proof.
  unfold nextBookmark. destruct (getTempGroupBookmarkList s (activeGroup s)) as [l s1].
  simpl. destruct (scanCandidates s1 _ l 0). reflexivity.
Qed.

Lemma previousBookmark_unfold (s : Main) (fsPath : string) (line : Z) :
  let l := rev (fst (getTempGroupBookmarkList s (activeGroup s))) in
  let s1 := snd (getTempGroupBookmarkList s (activeGroup s)) in
  let test := precedesPosition (localeCompare (host s)) fsPath line in
  previousBookmark s fsPath line
  = wrapAround s1 l (fst (scanCandidates s1 test l 0))
                    (snd (scanCandidates s1 test l 0)).
Proof.
  unfold previousBookmark. destruct (getTempGroupBookmarkList s (activeGroup s)) as [l s1].
  simpl. destruct (scanCandidates s1 _ (rev l) 0). reflexivity.
Qed.

Lemma failedAt_ext (s s' : Main) :
  bheap s = bheap s' -> failedAt s = failedAt s'.
Proof.
  intros H. unfold failedAt, bookmarkAt. now rewrite H.
Qed.

(** The facts of [scan_then_wrap], read from the state before the cached
    list was fetched. *)
Lemma scan_then_wrap_cached (s s1 : Main) (test : Bookmark.t -> bool)
    (l : list nat) :
  bheap s1 = bheap s -> notifications s1 = notifications s ->
  let result :=
    wrapAround s1 l (fst (scanCandidates s1 test l 0))
                    (snd (scanCandidates s1 test l 0)) in
  (forall b, fst result = Some b -> In b l /\ failedAt s b = false)
  /\ (Forall (fun x => failedAt s x = false -> test (bookmarkAt s x) = false) l ->
      forall pre b post,
        l = pre ++ b :: post ->
        Forall (fun x => failedAt s x = true) pre -> failedAt s b = false ->
        fst result = Some b /\ notifications (snd result) = notifications s)
  /\ (l <> [] -> Forall (fun x => failedAt s x = true) l ->
      fst result = None
      /\ notifications (snd result) = notifications s ++ [allBrokenWarning]).
Proof.
  intros Hheap Hnote result.
  destruct (scan_then_wrap s1 test l) as (H1 & H2 & H3). fold result in H1, H2, H3.
  rewrite (failedAt_ext s1 s Hheap) in H1, H2, H3.
  split; [exact H1 | split].
  - intros Hnone pre b post Hl Hpre Hb.
    rewrite (H2 (List.Forall_impl _
                   (fun a Ha Hf =>
                      eq_trans (f_equal test (bookmarkAt_ext s1 s a Hheap)) (Ha Hf))
                   Hnone)
                pre b post Hl Hpre Hb).
    simpl. auto.
  - intros Hne Hall. rewrite (H3 Hne Hall). simpl. rewrite Hnote. auto.
Qed.

(** C4. Over the bookmark list of the active group: [nextBookmark] never
    returns a bookmark flagged [failedJump]; when no entry that is not
    flagged follows the query position it wraps around to the first entry
    that is not flagged, wherever the query starts; when the list is not
    empty and every entry is flagged it returns nothing and shows the
    warning.  [previousBookmark] does the same from the other end, with
    the last entry that is not flagged.  Whether an entry follows or
    precedes the position is the test of the code: the path compared by
    the collation of the host, then the line. *)
Theorem navigation_excludes_failed_jumps (s : Main) (fsPath : string) (line : Z) :
  let list := fst (getTempGroupBookmarkList s (activeGroup s)) in
  let follows := followsPosition (localeCompare (host s)) fsPath line in
  let precedes := precedesPosition (localeCompare (host s)) fsPath line in
  let next := nextBookmark s fsPath line in
  let previous := previousBookmark s fsPath line in
  ((forall b, fst next = Some b -> In b list /\ failedAt s b = false)
   /\ (Forall (fun x => failedAt s x = false -> follows (bookmarkAt s x) = false)
              list ->
       forall pre b post,
         list = pre ++ b :: post ->
         Forall (fun x => failedAt s x = true) pre -> failedAt s b = false ->
         fst next = Some b /\ notifications (snd next) = notifications s)
   /\ (list <> [] -> Forall (fun x => failedAt s x = true) list ->
       fst next = None
       /\ notifications (snd next) = notifications s ++ [allBrokenWarning]))
  /\
  ((forall b, fst previous = Some b -> In b list /\ failedAt s b = false)
   /\ (Forall (fun x => failedAt s x = false -> precedes (bookmarkAt s x) = false)
              list ->
       forall pre b post,
         list = pre ++ b :: post ->
         Forall (fun x => failedAt s x = true) post -> failedAt s b = false ->
         fst previous = Some b /\ notifications (snd previous) = notifications s)
   /\ (list <> [] -> Forall (fun x => failedAt s x = true) list ->
       fst previous = None
       /\ notifications (snd previous) = notifications s ++ [allBrokenWarning])).
Proof.
  intros list follows precedes next previous.
  destruct (getTempGroupBookmarkList_frame s (activeGroup s)) as [Hheap Hnote].
  split.
  - subst next. rewrite nextBookmark_unfold.
    exact (scan_then_wrap_cached s _ follows list Hheap Hnote).
  - subst previous. rewrite previousBookmark_unfold.
    destruct (scan_then_wrap_cached s _ precedes (rev list)
                Hheap Hnote) as (H1 & H2 & H3).
    split; [|split].
    + intros b Hb. destruct (H1 b Hb) as [Hin Hf]. split; [|exact Hf].
      now apply List.in_rev.
    + intros Hnone pre b post Hl Hpost Hb.
      apply (H2 (List.Forall_rev Hnone) (rev post) b (rev pre)).
      * subst list. rewrite Hl, List.rev_app_distr. simpl.
        now rewrite <- List.app_assoc.
      * now apply List.Forall_rev.
      * exact Hb.
    + intros Hne Hall. apply H3.
      * intros Hrev. apply Hne. apply (f_equal (@rev nat)) in Hrev.
        now rewrite List.rev_involutive in Hrev.
      * now apply List.Forall_rev.
Qed.

(** ** The nearest bookmark of a file (C5) *)

Section NearestScan.
Variables (s : Main) (q : Z).


Lemma closestBefore_snoc_keep l b x :
  closestBefore s q l b -> (lineOf s x <= lineOf s b \/ q < lineOf s x)%Z ->
  closestBefore s q (l ++ [x]) b.
Proof.
  intros (Hin & Hle & Hmax) Hx. split; [|split]; auto.
  - apply in_or_app. now left.
  - intros y Hy Hyq. apply in_app_or in Hy as [Hy|[<-|[]]]; [auto | lia].
Qed.

Lemma closestBefore_snoc_take l x :
  (lineOf s x <= q)%Z ->
  (forall y, In y l -> (lineOf s y <= q)%Z -> (lineOf s y <= lineOf s x)%Z) ->
  closestBefore s q (l ++ [x]) x.
Proof.
  intros Hx Hmax. split; [|split]; auto.
  - apply in_or_app. right. now left.
  - intros y Hy Hyq. apply in_app_or in Hy as [Hy|[<-|[]]]; [auto | lia].
Qed.

Lemma closestAfter_snoc_keep l a x :
  closestAfter s q l a -> (lineOf s a <= lineOf s x \/ lineOf s x < q)%Z ->
  closestAfter s q (l ++ [x]) a.
Proof.
  intros (Hin & Hle & Hmin) Hx. split; [|split]; auto.
  - apply in_or_app. now left.
  - intros y Hy Hyq. apply in_app_or in Hy as [Hy|[<-|[]]]; [auto | lia].
Qed.

Lemma closestAfter_snoc_take l x :
  (q <= lineOf s x)%Z ->
  (forall y, In y l -> (q <= lineOf s y)%Z -> (lineOf s x <= lineOf s y)%Z) ->
  closestAfter s q (l ++ [x]) x.
Proof.
  intros Hx Hmin. split; [|split]; auto.
  - apply in_or_app. right. now left.
  - intros y Hy Hyq. apply in_app_or in Hy as [Hy|[<-|[]]]; [auto | lia].
Qed.

Lemma Forall_snoc {A : Type} (P : A -> Prop) (l : list A) (x : A) :
  Forall P l -> P x -> Forall P (l ++ [x]).
Proof. intros Hl Hx. apply List.Forall_app. split; auto. Qed.

(** One step of the scan keeps what is known. *)
Lemma nearestStep_known l acc x :
  validLine s x ->
  beforeKnown s q l acc -> afterKnown s q l acc ->
  beforeKnown s q (l ++ [x]) (nearestStep s q acc x)
  /\ afterKnown s q (l ++ [x]) (nearestStep s q acc x).
Proof.
  intros Hx Hb Ha. unfold validLine in Hx. unfold nearestStep. fold (lineOf s x).
  unfold beforeKnown, afterKnown in *.
  destruct acc as [bl b al a]; simpl in *.
  destruct ((lineOf s x >? bl)%Z && (lineOf s x <=? q)%Z) eqn:E1;
    destruct ((lineOf s x <? al)%Z && (lineOf s x >=? q)%Z) eqn:E2;
    simpl; rewrite ?E2; simpl.
  - split.
    + split; [|reflexivity]. apply closestBefore_snoc_take; [lia|].
      destruct b as [b|]; [destruct Hb as [(_ & _ & Hmax) ->]|destruct Hb as [_ Hall]].
      * intros y Hy Hyq. specialize (Hmax y Hy Hyq). lia.
      * rewrite List.Forall_forall in Hall. intros y Hy Hyq.
        specialize (Hall y Hy). lia.
    + split; [|reflexivity]. apply closestAfter_snoc_take; [lia|].
      destruct a as [a|]; [destruct Ha as [(_ & _ & Hmin) ->]|destruct Ha as [_ Hall]].
      * intros y Hy Hyq. specialize (Hmin y Hy Hyq). lia.
      * rewrite List.Forall_forall in Hall. intros y Hy Hyq.
        specialize (Hall y Hy). lia.
  - split.
    + split; [|reflexivity]. apply closestBefore_snoc_take; [lia|].
      destruct b as [b|]; [destruct Hb as [(_ & _ & Hmax) ->]|destruct Hb as [_ Hall]].
      * intros y Hy Hyq. specialize (Hmax y Hy Hyq). lia.
      * rewrite List.Forall_forall in Hall. intros y Hy Hyq.
        specialize (Hall y Hy). lia.
    + destruct a as [a|].
      * destruct Ha as [Hca ->]. split; [|reflexivity].
        apply closestAfter_snoc_keep; [assumption | lia].
      * destruct Ha as [-> Hall]. split; [reflexivity|].
        apply Forall_snoc; [assumption | lia].
  - split.
    + destruct b as [b|].
      * destruct Hb as [Hcb ->]. split; [|reflexivity].
        apply closestBefore_snoc_keep; [assumption | lia].
      * destruct Hb as [-> Hall]. split; [reflexivity|].
        apply Forall_snoc; [assumption | lia].
    + split; [|reflexivity]. apply closestAfter_snoc_take; [lia|].
      destruct a as [a|]; [destruct Ha as [(_ & _ & Hmin) ->]|destruct Ha as [_ Hall]].
      * intros y Hy Hyq. specialize (Hmin y Hy Hyq). lia.
      * rewrite List.Forall_forall in Hall. intros y Hy Hyq.
        specialize (Hall y Hy). lia.
  - split.
    + destruct b as [b|].
      * destruct Hb as [Hcb ->]. split; [|reflexivity].
        apply closestBefore_snoc_keep; [assumption | lia].
      * destruct Hb as [-> Hall]. split; [reflexivity|].
        apply Forall_snoc; [assumption | lia].
    + destruct a as [a|].
      * destruct Ha as [Hca ->]. split; [|reflexivity].
        apply closestAfter_snoc_keep; [assumption | lia].
      * destruct Ha as [-> Hall]. split; [reflexivity|].
        apply Forall_snoc; [assumption | lia].
Qed.

Lemma nearestScan_known pre l acc :
  Forall (validLine s) l ->
  beforeKnown s q pre acc -> afterKnown s q pre acc ->
  beforeKnown s q (pre ++ l) (fold_left (nearestStep s q) l acc)
  /\ afterKnown s q (pre ++ l) (fold_left (nearestStep s q) l acc).
Proof.
  intros Hl. revert pre acc. induction Hl as [|x l Hx _ IH]; intros pre acc Hb Ha.
  - simpl. rewrite List.app_nil_r. auto.
  - simpl. destruct (nearestStep_known pre acc x Hx Hb Ha) as [Hb' Ha'].
    replace (pre ++ x :: l) with ((pre ++ [x]) ++ l)
      by (rewrite <- List.app_assoc; reflexivity).
    now apply IH.
Qed.
End NearestScan.

Lemma getTempDocumentBookmarkList_frame (s : Main) (fsPath : string) :
  bheap (snd (getTempDocumentBookmarkList s fsPath)) = bheap s
  /\ bookmarks (snd (getTempDocumentBookmarkList s fsPath)) = bookmarks s
  /\ notifications (snd (getTempDocumentBookmarkList s fsPath)) = notifications s.
Proof.
  unfold getTempDocumentBookmarkList.
  destruct (tempDocumentBookmarks s !! fsPath); simpl; auto.
Qed.

Lemma fold_left_ext {A B : Type} (f g : A -> B -> A) (l : list B) (a : A) :
  (forall x y, f x y = g x y) -> fold_left f l a = fold_left g l a.
Proof.
  intros H. revert a. induction l as [|y l IH]; intros a; simpl; auto.
  now rewrite H, IH.
Qed.

Lemma filter_ext_eq {A : Type} (f g : A -> bool) (l : list A) :
  (forall x, f x = g x) -> List.filter f l = List.filter g l.
Proof.
  intros H. induction l as [|y l IH]; simpl; auto. now rewrite H, IH.
Qed.

(** The query, as a scan of [nearestCandidates] from the empty knowledge. *)
Lemma getNearestActiveBookmarkInFile_unfold (s : Main)
    (textEditor : Vscode.TextEditor) (group : option nat)
    (selection : Vscode.Range) (others : list Vscode.Range) :
  Vscode.selections textEditor = selection :: others ->
  let q := Vscode.line (Vscode.start selection) in
  let acc :=
    fold_left (nearestStep s q) (nearestCandidates s textEditor group)
              (mkNearest (-1) None Js.MAX_SAFE_INTEGER None) in
  fst (getNearestActiveBookmarkInFile s textEditor group)
  = match nearestBefore acc, nearestAfter acc with
    | None, None => None
    | Some before, Some after =>
        if (q - nearestBeforeLine acc <? nearestAfterline acc - q)%Z
        then Some before else Some after
    | Some before, None => Some before
    | None, after => after
    end.
Proof.
  intros Hsel q acc. unfold getNearestActiveBookmarkInFile. rewrite Hsel.
  subst acc. unfold nearestCandidates.
  destruct (getTempDocumentBookmarkList_frame s
              (Vscode.fsPath (Vscode.editorDocument textEditor))) as (Hheap & _ & _).
  destruct (getTempDocumentBookmarkList s _) as [list s1]. simpl in Hheap. simpl fst.
  rewrite (filter_ext_eq
             (fun g => match group with
                       | None => true
                       | Some gr => (Bookmark.group (bookmarkAt s1 g) =? gr)%nat
                       end)
             (fun g => match group with
                       | None => true
                       | Some gr => (Bookmark.group (bookmarkAt s g) =? gr)%nat
                       end))
    by (intros x; now rewrite (bookmarkAt_ext s1 s x Hheap)).
  rewrite (fold_left_ext (nearestStep s1 q) (nearestStep s q))
    by (intros a x; unfold nearestStep; now rewrite (bookmarkAt_ext s1 s x Hheap)).
  fold q.
  destruct (fold_left (nearestStep s q) _ _) as [bl [b|] al [a|]]; simpl;
    try reflexivity.
  now destruct (_ <? _)%Z.
Qed.

(** C5, amended. With both a closest bookmark at or before the query line
    and one at or after it, the query returns a closest one before when that
    side is strictly nearer, and a closest one after otherwise: a tie goes to
    the "after" side.  With one side only it returns a closest bookmark of
    that side, and with no candidate at all it returns nothing. *)
Theorem nearest_in_file_ties_go_after (s : Main)
    (textEditor : Vscode.TextEditor) (group : option nat)
    (selection : Vscode.Range) (others : list Vscode.Range) :
  Vscode.selections textEditor = selection :: others ->
  Forall (validLine s) (nearestCandidates s textEditor group) ->
  let q := Vscode.line (Vscode.start selection) in
  let l := nearestCandidates s textEditor group in
  let result := fst (getNearestActiveBookmarkInFile s textEditor group) in
  (forall b a, closestBefore s q l b -> closestAfter s q l a ->
     ((q - lineOf s b < lineOf s a - q)%Z ->
      exists r, result = Some r /\ closestBefore s q l r)
     /\ ((lineOf s a - q <= q - lineOf s b)%Z ->
         exists r, result = Some r /\ closestAfter s q l r))
  /\ (forall b, closestBefore s q l b ->
        Forall (fun x => (lineOf s x < q)%Z) l ->
        exists r, result = Some r /\ closestBefore s q l r)
  /\ (forall a, closestAfter s q l a ->
        Forall (fun x => (q < lineOf s x)%Z) l ->
        exists r, result = Some r /\ closestAfter s q l r)
  /\ ((forall x, ~ closestBefore s q l x) -> (forall x, ~ closestAfter s q l x) ->
      result = None).
Proof.
  intros Hsel Hvalid q l result. subst result.
  rewrite (getNearestActiveBookmarkInFile_unfold s textEditor group selection others Hsel).
  fold q. fold l.
  destruct (nearestScan_known s q [] l (mkNearest (-1) None Js.MAX_SAFE_INTEGER None)
              Hvalid) as [Hb Ha].
  { simpl. split; [reflexivity | constructor]. }
  { simpl. split; [reflexivity | constructor]. }
  simpl app in Hb, Ha. unfold beforeKnown, afterKnown in Hb, Ha.
  destruct (fold_left (nearestStep s q) l _) as [bl [b0|] al [a0|]]; simpl in *.
  - destruct Hb as [Hcb ->]. destruct Ha as [Hca ->].
    split; [|split; [|split]].
    + intros b a (Hbin & Hbq & Hbmax) (Hain & Haq & Hamin).
      destruct Hcb as (Hb0in & Hb0q & Hb0max). destruct Hca as (Ha0in & Ha0q & Ha0min).
      assert (lineOf s b = lineOf s b0)
        by (pose proof (Hbmax b0 Hb0in Hb0q); pose proof (Hb0max b Hbin Hbq); lia).
      assert (lineOf s a = lineOf s a0)
        by (pose proof (Hamin a0 Ha0in Ha0q); pose proof (Ha0min a Hain Haq); lia).
      split; intros Hd.
      * exists b0. split; [|repeat split; auto].
        destruct (_ <? _)%Z eqn:E; [reflexivity | lia].
      * exists a0. split; [|repeat split; auto].
        destruct (_ <? _)%Z eqn:E; [lia | reflexivity].
    + intros b _ Hall. exfalso. destruct Hca as (Ha0in & Ha0q & _).
      rewrite List.Forall_forall in Hall. specialize (Hall a0 Ha0in).
      destruct Hcb as (Hb0in & Hb0q & Hb0max).
      assert (lineOf s a0 = q) by lia.
      lia.
    + intros a _ Hall. exfalso. destruct Hcb as (Hb0in & Hb0q & _).
      rewrite List.Forall_forall in Hall. specialize (Hall b0 Hb0in). lia.
    + intros Hnb _. exfalso. exact (Hnb b0 Hcb).
  - destruct Hb as [Hcb ->]. destruct Ha as [-> Hnoafter].
    split; [|split; [|split]].
    + intros b a _ (Hain & Haq & _). exfalso.
      rewrite List.Forall_forall in Hnoafter. specialize (Hnoafter a Hain). lia.
    + intros b _ _. exists b0. auto.
    + intros a (Hain & Haq & _) _. exfalso.
      rewrite List.Forall_forall in Hnoafter. specialize (Hnoafter a Hain). lia.
    + intros Hnb _. exfalso. exact (Hnb b0 Hcb).
  - destruct Hb as [-> Hnobefore]. destruct Ha as [Hca ->].
    split; [|split; [|split]].
    + intros b a (Hbin & Hbq & _) _. exfalso.
      rewrite List.Forall_forall in Hnobefore. specialize (Hnobefore b Hbin). lia.
    + intros b (Hbin & Hbq & _) _. exfalso.
      rewrite List.Forall_forall in Hnobefore. specialize (Hnobefore b Hbin). lia.
    + intros a _ _. exists a0. auto.
    + intros _ Hna. exfalso. exact (Hna a0 Hca).
  - destruct Hb as [_ Hnobefore]. destruct Ha as [_ Hnoafter].
    split; [|split; [|split]].
    + intros b a (Hbin & Hbq & _) _. exfalso.
      rewrite List.Forall_forall in Hnobefore. specialize (Hnobefore b Hbin). lia.
    + intros b (Hbin & Hbq & _) _. exfalso.
      rewrite List.Forall_forall in Hnobefore. specialize (Hnobefore b Hbin). lia.
    + intros a (Hain & Haq & _) _. exfalso.
      rewrite List.Forall_forall in Hnoafter. specialize (Hnoafter a Hain). lia.
    + reflexivity.
Qed.

Lemma sampleTwoBookmarks_candidates :
  nearestCandidates sampleTwoBookmarks (sampleEditor "/ws/a.ts" [5%Z]) None
  = [3%nat; 4%nat]
  /\ lineOf sampleTwoBookmarks 3 = 3%Z
  /\ lineOf sampleTwoBookmarks 4 = 7%Z.
Proof. vm_compute. auto. Qed.

Lemma sampleTwoBookmarks_closest :
  let s := sampleTwoBookmarks in
  let l := nearestCandidates s (sampleEditor "/ws/a.ts" [5%Z]) None in
  Forall (validLine s) l
  /\ closestBefore s 5 l 3 /\ closestAfter s 5 l 4 /\ ~ closestBefore s 5 l 4.
Proof.
  intros s l. subst s l.
  destruct sampleTwoBookmarks_candidates as (-> & H3 & H4).
  unfold closestBefore, closestAfter, validLine.
  repeat split.
  - repeat constructor; rewrite ?H3, ?H4; unfold Js.MAX_SAFE_INTEGER; lia.
  - simpl; auto.
  - rewrite H3; lia.
  - intros x [<-|[<-|[]]]; rewrite ?H3, ?H4; lia.
  - simpl; auto.
  - rewrite H4; lia.
  - intros x [<-|[<-|[]]]; rewrite ?H3, ?H4; lia.
  - intros (_ & Hle & _). rewrite H4 in Hle. lia.
Qed.

(** C5, as stated, fails: bookmarks on lines 3 and 7, query line 5.  Both
    candidates exist at distance 2, and the query returns the one after,
    which is no candidate before. *)
Lemma nearest_tie_returns_after_candidate :
  let s := sampleTwoBookmarks in
  let textEditor := sampleEditor "/ws/a.ts" [5%Z] in
  let l := nearestCandidates s textEditor None in
  closestBefore s 5 l 3 /\ closestAfter s 5 l 4
  /\ (5 - lineOf s 3 = lineOf s 4 - 5)%Z
  /\ fst (getNearestActiveBookmarkInFile s textEditor None) = Some 4%nat
  /\ ~ closestBefore s 5 l 4.
Proof.
  intros s textEditor l.
  destruct sampleTwoBookmarks_closest as (_ & Hb & Ha & Hn).
  destruct sampleTwoBookmarks_candidates as (_ & H3 & H4).
  subst s l. rewrite H3, H4.
  split; [exact Hb | split; [exact Ha | split; [reflexivity | split]]].
  - vm_compute. reflexivity.
  - exact Hn.
Qed.

(** The amended statement at the sample: the tie on line 5 is answered with a
    closest bookmark after it. *)
Lemma nearest_in_file_ties_go_after_witness :
  exists r,
    fst (getNearestActiveBookmarkInFile sampleTwoBookmarks
           (sampleEditor "/ws/a.ts" [5%Z]) None) = Some r
    /\ closestAfter sampleTwoBookmarks 5
         (nearestCandidates sampleTwoBookmarks (sampleEditor "/ws/a.ts" [5%Z]) None) r.
Proof.
  destruct sampleTwoBookmarks_closest as (Hvalid & Hb & Ha & _).
  destruct sampleTwoBookmarks_candidates as (_ & H3 & H4).
  refine (proj2 (proj1 (nearest_in_file_ties_go_after sampleTwoBookmarks
                          (sampleEditor "/ws/a.ts" [5%Z]) None (cursorAt 5 0) []
                          eq_refl Hvalid) 3%nat 4%nat Hb Ha) _).
  rewrite H3, H4. cbv [cursorAt Vscode.line Vscode.start]. lia.
Defined.

(** ** Reads and writes through references *)

Lemma set_bheap_same (s : Main) : set_bheap (bheap s) s = s.
Proof. now destruct s. Qed.

Lemma bookmarkAt_updateBookmark (s : Main) (r : nat) (f : Bookmark.t -> Bookmark.t) :
  bookmarkAt (updateBookmark r f s) r = f (bookmarkAt s r).
Proof. unfold bookmarkAt, updateBookmark. simpl. apply lookup_total_insert_eq. Qed.

Lemma bookmarkAt_updateBookmark_other (s : Main) (r r' : nat)
    (f : Bookmark.t -> Bookmark.t) :
  r <> r' -> bookmarkAt (updateBookmark r f s) r' = bookmarkAt s r'.
Proof.
  intros H. unfold bookmarkAt, updateBookmark. simpl.
  now apply lookup_total_insert_ne.
Qed.

Lemma deleteBookmark_frame (s : Main) (b : nat) :
  bheap (deleteBookmark b s) = bheap s
  /\ bookmarks (deleteBookmark b s) = Js.removeFirst b (bookmarks s).
Proof.
  unfold deleteBookmark. destruct (Js.includes b (bookmarks s)) eqn:E; simpl.
  - auto.
  - split; [reflexivity|]. unfold Js.includes in E.
    induction (bookmarks s) as [|x l IH]; simpl in *; [reflexivity|].
    apply orb_false_iff in E as [E1 E2]. rewrite Nat.eqb_sym, E1.
    now rewrite <- IH.
Qed.

Lemma deleteBookmark_host (s : Main) (b : nat) :
  host (deleteBookmark b s) = host s.
Proof.
  unfold deleteBookmark. now destruct (Js.includes b (bookmarks s)).
Qed.

Lemma removeFirst_filter (b : nat) (l : list nat) :
  List.NoDup l -> Js.removeFirst b l = List.filter (fun x => negb (x =? b)%nat) l.
Proof.
  induction 1 as [|x l Hx Hl IH]; simpl; [reflexivity|].
  destruct (x =? b)%nat eqn:E; simpl.
  - apply Nat.eqb_eq in E. subst x.
    clear IH. induction l as [|y l IH]; simpl; [reflexivity|].
    destruct (y =? b)%nat eqn:E; simpl.
    + apply Nat.eqb_eq in E. subst y. exfalso. apply Hx. now left.
    + f_equal. apply IH.
      * intros H. apply Hx. now right.
      * now inversion Hl.
  - now rewrite IH.
Qed.

Lemma saveState_frame (s : Main) :
  bheap (snd (saveState s)) = bheap s
  /\ bookmarks (snd (saveState s)) = bookmarks s
  /\ gheap (snd (saveState s)) = gheap s
  /\ groups (snd (saveState s)) = groups s
  /\ activeGroup (snd (saveState s)) = activeGroup s
  /\ notifications (snd (saveState s)) = notifications s.
Proof.
  unfold saveState.
  destruct (savedBookmarksFilePath s); [|simpl; auto 10].
  destruct (isEmpty _); [destruct (existsSync _ _)|]; simpl; auto 10.
Qed.

(** ** White space *)


Lemma unitsFrom_nonnegative (t : string) (pending : nat) :
  (0 <= Js.unitsFrom pending t)%Z.
Proof.
  revert pending. induction t as [|c t IH]; intros pending; simpl; [lia|].
  destruct (Js.isContinuation c).
  - destruct pending; [specialize (IH 0%nat) | specialize (IH pending)]; lia.
  - repeat match goal with
           | |- context [if ?x then _ else _] => destruct x
           end;
      [specialize (IH 0%nat) | specialize (IH 1%nat) | specialize (IH 2%nat)
       | specialize (IH 3%nat)]; lia.
Qed.

(** ** Loops over the bookmarks of a file *)

Lemma filter_all_true {A : Type} (f : A -> bool) (l : list A) :
  (forall x, In x l -> f x = true) -> List.filter f l = l.
Proof.
  induction l as [|x l IH]; simpl; intros H; [reflexivity|].
  rewrite (H x (or_introl eq_refl)). f_equal. apply IH. auto.
Qed.

Lemma filter_ext_in_eq {A : Type} (f g : A -> bool) (l : list A) :
  (forall x, In x l -> f x = g x) -> List.filter f l = List.filter g l.
Proof.
  induction l as [|x l IH]; simpl; intros H; [reflexivity|].
  rewrite (H x (or_introl eq_refl)), IH; auto.
Qed.

Lemma filter_twice {A : Type} (f g : A -> bool) (l : list A) :
  List.filter f (List.filter g l) = List.filter (fun x => g x && f x) l.
Proof.
  induction l as [|x l IH]; simpl; [reflexivity|].
  destruct (g x); simpl; [destruct (f x)|]; now rewrite IH.
Qed.

Lemma includes_In (r : nat) (l : list nat) : Js.includes r l = true <-> In r l.
Proof.
  unfold Js.includes. rewrite existsb_exists. split.
  - intros (x & Hx & E). apply Nat.eqb_eq in E. now subst.
  - intros H. exists r. split; [assumption | apply Nat.eqb_refl].
Qed.

Lemma includes_not_In (r : nat) (l : list nat) :
  Js.includes r l = false <-> ~ In r l.
Proof.
  rewrite <- includes_In. destruct (Js.includes r l); split; congruence.
Qed.

Lemma NoDup_filter_list {A : Type} (f : A -> bool) (l : list A) :
  List.NoDup l -> List.NoDup (List.filter f l).
Proof.
  induction 1 as [|x l Hx Hl IH]; simpl; [constructor|].
  destruct (f x); [constructor|]; auto.
  intros H. apply Hx. apply List.filter_In in H. tauto.
Qed.

Section FileLoop.
Variables (body : nat -> bool -> Main -> Run bool).
Variables (f : Bookmark.t -> Bookmark.t) (del : Bookmark.t -> bool).


End FileLoop.

(** ** One bookmark under an edit *)


Lemma bookmarks_updateBookmark (s : Main) (r : nat) (f : Bookmark.t -> Bookmark.t) :
  bookmarks (updateBookmark r f s) = bookmarks s.
Proof. reflexivity. Qed.







(** ** One change of one file *)

Lemma fileList_coherent (s : Main) (fsPath : string) :
  cacheCoherent s fsPath ->
  fst (getTempDocumentBookmarkList s fsPath)
  = List.filter (fun b => String.eqb (Bookmark.fsPath (bookmarkAt s b)) fsPath)
                (bookmarks s).
Proof.
  unfold cacheCoherent, getTempDocumentBookmarkList.
  destruct (tempDocumentBookmarks s !! fsPath); simpl; auto.
Qed.


(** ** Lines added to a file (C3) *)


(** ** Lines removed from a file (C2) *)







(** ** The list that the handler of edits walks *)

Lemma cacheCoherent_sound (s : Main) (fsPath : string) :
  List.NoDup (bookmarks s) -> cacheCoherent s fsPath -> cacheSound s fsPath.
Proof.
  unfold cacheCoherent, cacheSound, fileListOf. intros Hnd.
  destruct (tempDocumentBookmarks s !! fsPath) as [list|]; [|auto].
  intros ->. split; [now apply NoDup_filter_list|].
  intros b. rewrite List.filter_In, String.eqb_eq. tauto.
Qed.

(** The list fetched for a file from a sound cache is the file's bookmarks,
    and fetching it leaves the bookmarks alone. *)
Lemma fileList_sound (s : Main) (fsPath : string) :
  List.NoDup (bookmarks s) -> cacheSound s fsPath ->
  fileListOf s fsPath (fst (getTempDocumentBookmarkList s fsPath)).
Proof.
  unfold cacheSound, getTempDocumentBookmarkList, fileListOf. intros Hnd.
  destruct (tempDocumentBookmarks s !! fsPath) as [list|]; simpl; [auto|].
  intros _. split; [now apply NoDup_filter_list|].
  intros b. rewrite List.filter_In, String.eqb_eq. tauto.
Qed.









(** ** The least used color (C7) *)

Lemma scanLeast_snoc (w : string -> Z) (l : list string) (c : string)
    (start : Z * string) :
  scanLeast w (l ++ [c]) start
  = (if (fst (scanLeast w l start) >? w c)%Z then (w c, c)
     else scanLeast w l start).
Proof.
  unfold scanLeast. rewrite List.fold_left_app. simpl.
  destruct (fold_left _ l start) as [m k]. simpl. reflexivity.
Qed.

(** The scan from the largest integer: the result is the first element of
    the smallest weight. *)
Lemma scanLeast_first_min (w : string -> Z) (l : list string) :
  l <> [] -> Forall (fun c => (w c < Js.MAX_SAFE_INTEGER)%Z) l ->
  let k := snd (scanLeast w l (Js.MAX_SAFE_INTEGER, EmptyString)) in
  fst (scanLeast w l (Js.MAX_SAFE_INTEGER, EmptyString)) = w k
  /\ exists pre post,
       l = pre ++ k :: post
       /\ Forall (fun c => (w k < w c)%Z) pre
       /\ Forall (fun c => (w k <= w c)%Z) post.
Proof.
  induction l as [|c l IH] using List.rev_ind; [congruence|].
  intros _ Hall. apply List.Forall_app in Hall as [Hl Hc].
  inversion Hc as [|? ? Hwc _]; subst.
  rewrite scanLeast_snoc.
  destruct l as [|c0 l0].
  - simpl. replace (Js.MAX_SAFE_INTEGER >? w c)%Z with true by lia. simpl.
    split; [reflexivity|]. exists [], []. repeat split; constructor.
  - destruct IH as (Hm & pre & post & Hsplit & Hpre & Hpost);
      [discriminate | assumption |].
    set (r := scanLeast w (c0 :: l0) (Js.MAX_SAFE_INTEGER, EmptyString)) in *.
    clearbody r. destruct (fst r >? w c)%Z eqn:E; simpl.
    + split; [reflexivity|]. exists (c0 :: l0), []. split; [reflexivity|].
      split; [|constructor]. rewrite Hsplit. apply List.Forall_app. split.
      * eapply List.Forall_impl; [|exact Hpre]. simpl. intros a Ha. lia.
      * constructor; [lia|].
        eapply List.Forall_impl; [|exact Hpost]. simpl. intros a Ha. lia.
    + split; [exact Hm|]. exists pre, (post ++ [c]). split; [|split].
      * change ((c0 :: l0) ++ [c] = pre ++ snd r :: post ++ [c]).
        rewrite Hsplit. now rewrite <- List.app_assoc.
      * exact Hpre.
      * apply List.Forall_app. split; [exact Hpost|]. constructor; [lia|constructor].
Qed.

(** A repeated element never improves the scan: scanning the distinct
    elements gives the same as scanning them all. *)
Lemma scanLeast_keepFirst_gen (w : string -> Z) (l : list string) :
  forall acc start,
    Forall (fun c => (fst (scanLeast w acc start) <= w c)%Z) acc ->
    scanLeast w
      (fold_left
         (fun acc c => if existsb (String.eqb c) acc then acc else acc ++ [c])
         l acc)
      start
    = scanLeast w (acc ++ l) start.
Proof.
  induction l as [|c l IH]; intros acc start Hacc; simpl.
  - now rewrite List.app_nil_r.
  - destruct (existsb (String.eqb c) acc) eqn:E.
    + rewrite IH by assumption.
      apply existsb_exists in E as (x & Hx & Hcx). apply String.eqb_eq in Hcx. subst x.
      rewrite List.Forall_forall in Hacc. specialize (Hacc c Hx).
      unfold scanLeast in *. rewrite !List.fold_left_app. simpl.
      destruct (fold_left _ acc start) as [m k]. simpl in *.
      replace (m >? w c)%Z with false by lia. reflexivity.
    + rewrite IH.
      * now rewrite <- List.app_assoc.
      * rewrite scanLeast_snoc.
        destruct (fst (scanLeast w acc start) >? w c)%Z eqn:Egt; simpl.
        -- apply List.Forall_app. split; [|constructor; [lia|constructor]].
           eapply List.Forall_impl; [|exact Hacc]. simpl. intros a Ha. lia.
        -- apply List.Forall_app. split; [exact Hacc|].
           constructor; [lia|constructor].
Qed.

Lemma scanLeast_keepFirst (w : string -> Z) (l : list string) (start : Z * string) :
  scanLeast w (keepFirst l) start = scanLeast w l start.
Proof.
  unfold keepFirst. rewrite scanLeast_keepFirst_gen; [reflexivity | constructor].
Qed.

Lemma existsb_eqb_In (c : string) (l : list string) :
  existsb (String.eqb c) l = true <-> In c l.
Proof.
  rewrite existsb_exists. split.
  - intros (x & Hx & E). apply String.eqb_eq in E. now subst.
  - intros H. exists c. split; [assumption | apply String.eqb_refl].
Qed.

Lemma weighted_ext (w1 w2 : string -> Z) (keys : list string) :
  (forall c, In c keys -> w1 c = w2 c) -> weighted w1 keys = weighted w2 keys.
Proof.
  intros H. unfold weighted. apply List.map_ext_in. intros c Hc. now rewrite H.
Qed.

Lemma mapSet_zero (c : string) (keys : list string) :
  Js.mapSet c 0%Z (weighted (fun _ => 0%Z) keys)
  = weighted (fun _ => 0%Z)
      (if existsb (String.eqb c) keys then keys else keys ++ [c]).
Proof.
  induction keys as [|k keys IH]; simpl; [reflexivity|].
  rewrite (String.eqb_sym c k). destruct (String.eqb k c) eqn:E; simpl.
  - apply String.eqb_eq in E. now subst.
  - rewrite IH. now destruct (existsb (String.eqb c) keys).
Qed.

Lemma mapGet_weighted (w : string -> Z) (c : string) (keys : list string) :
  Js.mapGet c (weighted w keys)
  = if existsb (String.eqb c) keys then Some (w c) else None.
Proof.
  induction keys as [|k keys IH]; simpl; [reflexivity|].
  rewrite (String.eqb_sym c k). destruct (String.eqb k c) eqn:E; simpl.
  - apply String.eqb_eq in E. now subst.
  - exact IH.
Qed.

Lemma mapSet_weighted (w : string -> Z) (c : string) (v : Z) (keys : list string) :
  List.NoDup keys -> In c keys ->
  Js.mapSet c v (weighted w keys)
  = weighted (fun x => if String.eqb x c then v else w x) keys.
Proof.
  induction 1 as [|k keys Hk Hnd IH]; intros Hc; [destruct Hc|].
  simpl. destruct (String.eqb k c) eqn:E.
  - apply String.eqb_eq in E. subst k. f_equal.
    apply weighted_ext. intros x Hx.
    destruct (String.eqb x c) eqn:E'; [|reflexivity].
    apply String.eqb_eq in E'. subst x. contradiction.
  - f_equal. apply IH. destruct Hc as [->|Hc]; [|assumption].
    now rewrite String.eqb_refl in E.
Qed.

Lemma keepFirst_step_NoDup (acc : list string) (c : string) :
  List.NoDup acc ->
  List.NoDup (if existsb (String.eqb c) acc then acc else acc ++ [c]).
Proof.
  intros H. destruct (existsb (String.eqb c) acc) eqn:E; [assumption|].
  apply List.NoDup_app; [assumption | repeat constructor; intros [] |].
  intros x Hx [<-|[]]. apply existsb_eqb_In in Hx. congruence.
Qed.

Lemma keepFirst_NoDup_gen (l acc : list string) :
  List.NoDup acc ->
  List.NoDup
    (fold_left
       (fun acc c => if existsb (String.eqb c) acc then acc else acc ++ [c])
       l acc).
Proof.
  revert acc. induction l as [|c l IH]; intros acc H; simpl; [assumption|].
  apply IH. now apply keepFirst_step_NoDup.
Qed.

(** The first loop: one zero entry per distinct color, in order. *)
Lemma usages_start (cs : list (string * string)) (keys : list string) :
  fold_left (fun usages '(index, color) => Js.mapSet color 0%Z usages)
            cs (weighted (fun _ => 0%Z) keys)
  = weighted (fun _ => 0%Z)
      (fold_left
         (fun acc c => if existsb (String.eqb c) acc then acc else acc ++ [c])
         (map snd cs) keys).
Proof.
  revert keys. induction cs as [|[index color] cs IH]; intros keys; simpl;
    [reflexivity|].
  now rewrite mapSet_zero, IH.
Qed.

(** The second loop: every key counts the groups of its color. *)
Lemma usages_count (s : Main) (gs : list nat) (keys : list string) :
  List.NoDup keys ->
  forall w,
    fold_left
      (fun usages group =>
         let groupColor := Group.getColor (groupAt s group) in
         if Js.mapHas groupColor usages
         then Js.mapSet groupColor
                (default 0%Z (Js.mapGet groupColor usages) + 1)%Z usages
         else usages)
      gs (weighted w keys)
    = weighted (fun c => (w c + countColor s gs c)%Z) keys.
Proof.
  intros Hnd. induction gs as [|g gs IH]; intros w; simpl.
  - apply weighted_ext. intros c _. unfold countColor. simpl. lia.
  - unfold Js.mapHas. rewrite mapGet_weighted.
    destruct (existsb (String.eqb (Group.getColor (groupAt s g))) keys) eqn:E.
    + simpl. rewrite mapSet_weighted by (auto; now apply existsb_eqb_In).
      rewrite IH. apply weighted_ext. intros c Hc. unfold countColor. simpl.
      rewrite (String.eqb_sym c). destruct (String.eqb _ c) eqn:Ec; simpl.
      * apply String.eqb_eq in Ec. subst c. lia.
      * lia.
    + rewrite IH. apply weighted_ext. intros c Hc. unfold countColor. simpl.
      destruct (String.eqb (Group.getColor (groupAt s g)) c) eqn:Ec; [|reflexivity].
      apply String.eqb_eq in Ec. subst c. apply existsb_eqb_In in Hc. congruence.
Qed.

(** The third loop over a usage map is the scan of its keys. *)
Lemma usages_scan (w : string -> Z) (keys : list string) (start : Z * string) :
  fold_left
    (fun '(minUsage, leastUsedColor) '(key, value) =>
       if (minUsage >? value)%Z then (value, key)
       else (minUsage, leastUsedColor))
    (weighted w keys) start
  = scanLeast w keys start.
Proof.
  revert start. induction keys as [|k keys IH]; intros [m l]; simpl; [reflexivity|].
  destruct (m >? w k)%Z; apply IH.
Qed.

(** [getLeastUsedColor], as a scan of the configured colors by usage. *)
Lemma getLeastUsedColor_scan (s : Main) :
  colors s <> [] ->
  getLeastUsedColor s
  = snd (scanLeast (usageOf s) (configuredColors s)
                   (Js.MAX_SAFE_INTEGER, EmptyString)).
Proof.
  intros Hne. unfold getLeastUsedColor.
  destruct (colors s) as [|c0 cs] eqn:Ecolors; [congruence|].
  replace (Z.of_nat (length (c0 :: cs)) <? 1)%Z with false by (simpl; lia).
  change (@nil (string * Z)) with (weighted (fun _ => 0%Z) []).
  rewrite usages_start.
  rewrite usages_count by (apply keepFirst_NoDup_gen; constructor).
  rewrite usages_scan.
  rewrite (scanLeast_keepFirst_gen _ (map snd (c0 :: cs)) [] _) by constructor.
  simpl app. unfold configuredColors. rewrite Ecolors.
  f_equal.
Qed.

(** ** Sorting keeps the elements *)

Lemma insertSorted_Permutation {A : Type} (compare : A -> A -> Z) (x : A)
    (l : list A) :
  Permutation (Js.insertSorted compare x l) (x :: l).
Proof.
  induction l as [|y l IH]; simpl; [reflexivity|].
  destruct (compare x y <=? 0)%Z; [reflexivity|].
  rewrite IH. apply perm_swap.
Qed.

Lemma arraySort_Permutation {A : Type} (compare : A -> A -> Z) (l : list A) :
  Permutation (Js.arraySort compare l) l.
Proof.
  induction l as [|x l IH]; simpl; [reflexivity|].
  unfold Js.arraySort in *. simpl.
  rewrite insertSorted_Permutation. now constructor.
Qed.

Lemma filter_length_Permutation {A : Type} (p : A -> bool) (l l' : list A) :
  Permutation l l' -> length (List.filter p l) = length (List.filter p l').
Proof.
  induction 1 as [|x l l' _ IH|x y l|l l' l'' _ IH1 _ IH2]; simpl.
  - reflexivity.
  - destruct (p x); simpl; now rewrite IH.
  - destruct (p x), (p y); reflexivity.
  - now rewrite IH1.
Qed.

Lemma find_unique {A : Type} (p : A -> bool) (l : list A) (g : A) :
  In g l -> p g = true -> (forall x, In x l -> p x = true -> x = g) ->
  List.find p l = Some g.
Proof.
  induction l as [|y l IH]; intros Hin Hg Huniq; [destruct Hin|].
  simpl. destruct (p y) eqn:Hy.
  - f_equal. apply Huniq; [now left | assumption].
  - destruct Hin as [->|Hin]; [congruence|].
    apply IH; auto. intros x Hx. apply Huniq. now right.
Qed.

(** ** Groups on demand (C7) *)

Lemma groupAt_allocGroup (s : Main) (g : Group.t) :
  groupAt (snd (allocGroup g s)) (nextRef s) = g
  /\ forall r, r <> nextRef s -> groupAt (snd (allocGroup g s)) r = groupAt s r.
Proof.
  unfold allocGroup, groupAt. simpl. split.
  - apply lookup_total_insert_eq.
  - intros r Hr. apply lookup_total_insert_ne. congruence.
Qed.

(** What [ensureGroup] does for a name that no group bears. *)
Lemma ensureGroup_creates (s : Main) (name : string) :
  (forall g, In g (groups s) -> Group.name (groupAt s g) <> name) ->
  let g := fst (ensureGroup s name) in
  let s1 := snd (ensureGroup s name) in
  g = nextRef s
  /\ Permutation (groups s1) (groups s ++ [g])
  /\ groupAt s1 g = Group.new name (getLeastUsedColor s) (defaultShape s) name
  /\ (forall r, r <> nextRef s -> groupAt s1 r = groupAt s r)
  /\ colors s1 = colors s /\ defaultShape s1 = defaultShape s
  /\ nextRef s1 = S (nextRef s).
Proof.
  intros Hnone. unfold ensureGroup.
  destruct (List.find _ (groups s)) as [g0|] eqn:Hfind.
  - exfalso. apply find_first in Hfind as (pre & post & Hsplit & Hname & _).
    apply (Hnone g0).
    + rewrite Hsplit. apply in_or_app. right. now left.
    + now apply String.eqb_eq.
  - simpl. split; [reflexivity|]. split; [apply arraySort_Permutation|].
    destruct (groupAt_allocGroup s
                (Group.new name (getLeastUsedColor s) (defaultShape s) name))
      as [Hnew Hold].
    split; [exact Hnew|]. split; [exact Hold|]. auto.
Qed.

Lemma ensureGroup_finds (s : Main) (name : string) (g : nat) :
  List.find (fun group => String.eqb (Group.name (groupAt s group)) name) (groups s)
  = Some g ->
  ensureGroup s name = (g, s).
Proof. intros H. unfold ensureGroup. now rewrite H. Qed.

Lemma groupsAllocated_fresh (s : Main) :
  groupsAllocated s -> ~ In (nextRef s) (groups s).
Proof.
  unfold groupsAllocated. rewrite List.Forall_forall. intros H Hin.
  specialize (H _ Hin). lia.
Qed.

Lemma ensureGroup_idempotent (s : Main) (name : string) :
  groupsAllocated s ->
  ensureGroup (snd (ensureGroup s name)) name = ensureGroup s name.
Proof.
  intros Hwf.
  destruct (List.find (fun group => String.eqb (Group.name (groupAt s group)) name)
                      (groups s)) as [g0|] eqn:Hfind.
  - rewrite (ensureGroup_finds s name g0 Hfind). simpl.
    now apply ensureGroup_finds.
  - assert (Hnone : forall g, In g (groups s) -> Group.name (groupAt s g) <> name).
    { apply find_none_all in Hfind. rewrite List.Forall_forall in Hfind.
      intros g Hg. specialize (Hfind g Hg). simpl in Hfind.
      now apply String.eqb_neq. }
    destruct (ensureGroup_creates s name Hnone)
      as (Hg & Hperm & Hnew & Hold & _).
    destruct (ensureGroup s name) as [g s1] eqn:Hens. simpl in *.
    apply ensureGroup_finds. apply find_unique.
    + apply (Permutation_in _ (Permutation_sym Hperm)).
      apply in_or_app. right. now left.
    + rewrite Hnew. simpl. apply String.eqb_refl.
    + intros x Hx Hname. apply (Permutation_in _ Hperm) in Hx.
      apply in_app_or in Hx as [Hx|[<-|[]]]; [|reflexivity].
      exfalso. apply (Hnone x Hx). apply String.eqb_eq in Hname.
      rewrite Hold in Hname; [assumption|].
      intros ->. now apply (groupsAllocated_fresh s).
Qed.

Lemma usageOf_after_create (s : Main) (name c : string) :
  (forall g, In g (groups s) -> Group.name (groupAt s g) <> name) ->
  groupsAllocated s ->
  usageOf (snd (ensureGroup s name)) c
  = (usageOf s c + if String.eqb (getLeastUsedColor s) c then 1 else 0)%Z.
Proof.
  intros Hnone Hwf.
  destruct (ensureGroup_creates s name Hnone) as (Hg & Hperm & Hnew & Hold & _).
  unfold usageOf.
  rewrite (filter_length_Permutation _ _ _ Hperm), List.filter_app, List.length_app.
  rewrite (filter_ext_in_eq _
             (fun g => String.eqb (Group.getColor (groupAt s g)) c) (groups s)).
  - simpl. rewrite Hnew. simpl.
    destruct (String.eqb (getLeastUsedColor s) c); simpl; lia.
  - intros x Hx. rewrite Hold; [reflexivity|].
    intros ->. now apply (groupsAllocated_fresh s).
Qed.

Lemma usageOf_bounded (s : Main) (c : string) :
  (usageOf s c <= Z.of_nat (length (groups s)))%Z.
Proof.
  unfold usageOf. pose proof (List.filter_length_le
    (fun g => String.eqb (Group.getColor (groupAt s g)) c) (groups s)). lia.
Qed.

Lemma getLeastUsedColor_first_min (s : Main) :
  colors s <> [] ->
  (Z.of_nat (length (groups s)) < Js.MAX_SAFE_INTEGER)%Z ->
  exists pre post,
    configuredColors s = pre ++ getLeastUsedColor s :: post
    /\ Forall (fun c' => (usageOf s (getLeastUsedColor s) < usageOf s c')%Z) pre
    /\ Forall (fun c' => (usageOf s (getLeastUsedColor s) <= usageOf s c')%Z) post.
Proof.
  intros Hne Hbound. rewrite (getLeastUsedColor_scan s Hne).
  apply (scanLeast_first_min (usageOf s) (configuredColors s)).
  - unfold configuredColors. destruct (colors s); [congruence | discriminate].
  - apply List.Forall_forall. intros c _. pose proof (usageOf_bounded s c). lia.
Qed.

Lemma scanLeast_two (w : string -> Z) (A B : string) :
  (w A < Js.MAX_SAFE_INTEGER)%Z ->
  scanLeast w [A; B] (Js.MAX_SAFE_INTEGER, EmptyString)
  = if (w A >? w B)%Z then (w B, B) else (w A, A).
Proof.
  intros H. unfold scanLeast. simpl.
  replace (Js.MAX_SAFE_INTEGER >? w A)%Z with true by lia. reflexivity.
Qed.

(** C7. [ensureGroup] is get-or-create: for a name that a group bears it
    returns the first such group and changes nothing; calling it again for
    the same name returns the same group and the same state.  For a new name
    it creates one group, whose color is [getLeastUsedColor]: with colors
    configured, the first configured color of the smallest usage count over
    the groups of the registry; without, the fallback color.  With two
    configured colors A then B that no group uses, the first group created
    takes A and the next one takes B. *)
Theorem ensureGroup_get_or_create :
  (forall (s : Main) (name : string),
     (exists g, In g (groups s) /\ Group.name (groupAt s g) = name) ->
     snd (ensureGroup s name) = s
     /\ exists pre post,
          groups s = pre ++ fst (ensureGroup s name) :: post
          /\ Group.name (groupAt s (fst (ensureGroup s name))) = name
          /\ Forall (fun g => Group.name (groupAt s g) <> name) pre)
  /\ (forall (s : Main) (name : string),
        groupsAllocated s ->
        ensureGroup (snd (ensureGroup s name)) name = ensureGroup s name)
  /\ (forall (s : Main) (name : string),
        (forall g, In g (groups s) -> Group.name (groupAt s g) <> name) ->
        groupsAllocated s ->
        let g := fst (ensureGroup s name) in
        let s1 := snd (ensureGroup s name) in
        ~ In g (groups s)
        /\ Permutation (groups s1) (groups s ++ [g])
        /\ groupAt s1 g
           = Group.new name (getLeastUsedColor s) (defaultShape s) name
        /\ (forall g', In g' (groups s) -> groupAt s1 g' = groupAt s g'))
  /\ (forall s : Main,
        colors s <> [] ->
        (Z.of_nat (length (groups s)) < Js.MAX_SAFE_INTEGER)%Z ->
        exists pre post,
          configuredColors s = pre ++ getLeastUsedColor s :: post
          /\ Forall (fun c' => (usageOf s (getLeastUsedColor s) < usageOf s c')%Z) pre
          /\ Forall (fun c' => (usageOf s (getLeastUsedColor s) <= usageOf s c')%Z) post)
  /\ (forall s : Main, colors s = [] -> getLeastUsedColor s = fallbackColor)
  /\ (forall (s : Main) (nameA nameB A B name1 name2 : string),
        colors s = [(nameA, A); (nameB, B)] -> A <> B ->
        usageOf s A = 0%Z -> usageOf s B = 0%Z ->
        groupsAllocated s ->
        (forall g, In g (groups s) ->
                   Group.name (groupAt s g) <> name1
                   /\ Group.name (groupAt s g) <> name2) ->
        name1 <> name2 ->
        let first := ensureGroup s name1 in
        let second := ensureGroup (snd first) name2 in
        Group.color (groupAt (snd first) (fst first)) = A
        /\ Group.color (groupAt (snd second) (fst second)) = B).
Proof.
  split; [|split; [|split; [|split; [|split]]]].
  - intros s name (g & Hin & Hname). unfold ensureGroup.
    destruct (List.find _ (groups s)) as [g0|] eqn:Hfind.
    + simpl. split; [reflexivity|].
      apply find_first in Hfind as (pre & post & Hsplit & Hn & Hpre).
      exists pre, post. split; [assumption|]. split; [now apply String.eqb_eq|].
      eapply List.Forall_impl; [|exact Hpre]. simpl. intros a Ha.
      now apply String.eqb_neq.
    + exfalso. apply find_none_all in Hfind. rewrite List.Forall_forall in Hfind.
      specialize (Hfind g Hin). simpl in Hfind. apply String.eqb_neq in Hfind.
      contradiction.
  - exact ensureGroup_idempotent.
  - intros s name Hnone Hwf g s1.
    destruct (ensureGroup_creates s name Hnone) as (Hg & Hperm & Hnew & Hold & _).
    fold g in Hg, Hperm, Hnew. fold s1 in Hperm, Hnew, Hold.
    split; [rewrite Hg; now apply groupsAllocated_fresh|].
    split; [exact Hperm|]. split; [exact Hnew|].
    intros g' Hg'. apply Hold. intros ->. now apply (groupsAllocated_fresh s).
  - exact getLeastUsedColor_first_min.
  - intros s Hnil. unfold getLeastUsedColor. now rewrite Hnil.
  - intros s nameA nameB A B name1 name2 Hcolors HAB HuA HuB Hwf Hnames Hne
           first second.
    assert (Hnone1 : forall g, In g (groups s) -> Group.name (groupAt s g) <> name1)
      by (intros g Hg; apply (Hnames g Hg)).
    destruct (ensureGroup_creates s name1 Hnone1)
      as (Hg1 & Hperm1 & Hnew1 & Hold1 & Hcol1 & _).
    fold first in Hg1, Hperm1, Hnew1, Hold1, Hcol1.
    assert (Hleast : getLeastUsedColor s = A).
    { rewrite getLeastUsedColor_scan by (rewrite Hcolors; discriminate).
      unfold configuredColors. rewrite Hcolors. simpl map.
      rewrite scanLeast_two by (rewrite HuA; unfold Js.MAX_SAFE_INTEGER; lia).
      rewrite HuA, HuB. reflexivity. }
    assert (Hnone2 : forall g, In g (groups (snd first)) ->
                               Group.name (groupAt (snd first) g) <> name2).
    { intros g Hg. apply (Permutation_in _ Hperm1) in Hg.
      apply in_app_or in Hg as [Hg|[<-|[]]].
      - rewrite Hold1; [apply (Hnames g Hg)|].
        intros ->. now apply (groupsAllocated_fresh s).
      - rewrite Hnew1. simpl. exact Hne. }
    destruct (ensureGroup_creates (snd first) name2 Hnone2)
      as (_ & _ & Hnew2 & _).
    fold second in Hnew2.
    split.
    + rewrite Hnew1. simpl. exact Hleast.
    + rewrite Hnew2. simpl.
      rewrite getLeastUsedColor_scan by (rewrite Hcol1, Hcolors; discriminate).
      unfold configuredColors. rewrite Hcol1, Hcolors. simpl map.
      assert (HuA1 : usageOf (snd first) A = 1%Z).
      { unfold first. rewrite (usageOf_after_create s name1 _ Hnone1 Hwf).
        now rewrite Hleast, HuA, String.eqb_refl. }
      assert (HuB1 : usageOf (snd first) B = 0%Z).
      { unfold first. rewrite (usageOf_after_create s name1 _ Hnone1 Hwf).
        rewrite Hleast, HuB.
        replace (String.eqb A B) with false
          by (symmetry; now apply String.eqb_neq).
        reflexivity. }
      rewrite scanLeast_two by (rewrite HuA1; unfold Js.MAX_SAFE_INTEGER; lia).
      rewrite HuA1, HuB1. reflexivity.
Qed.

(** The sample of the two colors: after start-up, with red then blue
    configured and unused, the first new group is red and the next blue. *)
Lemma ensureGroup_get_or_create_witness :
  Group.color (groupAt (snd (ensureGroup sampleStart "first"))
                       (fst (ensureGroup sampleStart "first")))
  = "ff0000ff"
  /\ Group.color
       (groupAt (snd (ensureGroup (snd (ensureGroup sampleStart "first")) "second"))
                (fst (ensureGroup (snd (ensureGroup sampleStart "first")) "second")))
     = "0000ffff".
Proof.
  apply (proj2 (proj2 (proj2 (proj2 (proj2 ensureGroup_get_or_create))))
           sampleStart "red" "blue" "ff0000ff" "0000ffff" "first" "second").
  - reflexivity.
  - discriminate.
  - vm_compute. reflexivity.
  - vm_compute. reflexivity.
  - vm_compute. repeat constructor.
  - intros g Hg. vm_compute in Hg.
    destruct Hg as [<-|[<-|[]]]; vm_compute; split; discriminate.
  - discriminate.
Defined.

(** ** The empty state and its clean-up (C6) *)

Lemma isEmpty_iff (s : Main) :
  isEmpty s = true
  <-> bookmarks s = []
      /\ exists g,
           groups s = [g]
           /\ Group.name (groupAt s g) = defaultGroupName (host s).
Proof.
  unfold isEmpty. split.
  - intros H. apply andb_true_iff in H as [Hb H].
    apply andb_true_iff in H as [Hg Hn].
    destruct (bookmarks s); [|simpl length in Hb; lia].
    split; [reflexivity|].
    destruct (groups s) as [|g [|g' gs]];
      [discriminate Hn | | simpl length in Hg; lia].
    exists g. split; [reflexivity|]. now apply String.eqb_eq.
  - intros (-> & g & -> & Hn). simpl. now apply String.eqb_eq.
Qed.

(** C6, amended. [isEmpty] holds exactly when the store has no bookmark and
    one group whose name is the default group name, whatever its color, shape
    or icon text.  In such a state, with a storage path configured,
    [saveState] returns false and writes nothing: the artifact is gone
    afterwards, every other file is as before, the time of the last save is
    not touched; the directory of the artifact is removed when the artifact
    was there and nothing else is left in the directory, and stays
    otherwise. *)
Theorem isEmpty_by_name_and_save_cleans_up (s : Main) :
  (isEmpty s = true
   <-> bookmarks s = []
       /\ exists g,
            groups s = [g]
            /\ Group.name (groupAt s g) = defaultGroupName (host s))
  /\ (forall path,
        savedBookmarksFilePath s = Some path -> isEmpty s = true ->
        let s' := snd (saveState s) in
        let unlinked := unlinkSync path (fs s) in
        fst (saveState s) = false
        /\ files (fs s') = delete path (files (fs s))
        /\ lastSaveTimestamp s' = lastSaveTimestamp s
        /\ (existsSync path (fs s) = true ->
            existsSync (directoryOf path) unlinked = true ->
            readdirSync (directoryOf path) unlinked = [] ->
            dirs (fs s') = dirs (fs s) ∖ {[directoryOf path]})
        /\ (existsSync path (fs s) = false
            \/ existsSync (directoryOf path) unlinked = false
            \/ readdirSync (directoryOf path) unlinked <> [] ->
            dirs (fs s') = dirs (fs s))).
Proof.
  split; [apply isEmpty_iff|].
  intros path Hpath Hempty s' unlinked. subst s'. unfold saveState.
  rewrite Hpath.
  change (isEmpty (set_workspaceState _ s)) with (isEmpty s). rewrite Hempty.
  change (fs (set_workspaceState _ s)) with (fs s). fold unlinked.
  destruct (existsSync path (fs s)) eqn:Hexists.
  - destruct (existsSync (directoryOf path) unlinked) eqn:Hdir.
    + destruct (readdirSync (directoryOf path) unlinked) as [|entry rest] eqn:Hls.
      * cbn. repeat split; try reflexivity.
        intros [H|[H|H]]; congruence.
      * cbn. repeat split; try reflexivity. discriminate.
    + cbn. repeat split; try reflexivity. discriminate.
  - cbn. split; [reflexivity|]. split.
    + symmetry. apply delete_id.
      unfold existsSync in Hexists. apply orb_false_iff in Hexists as [Hfile _].
      apply bool_decide_eq_false in Hfile.
      destruct (files (fs s) !! path) eqn:E; [|reflexivity].
      exfalso. apply Hfile. eauto.
    + split; [reflexivity|]. split; [discriminate | reflexivity].
Qed.

(** C6, as stated, fails: at the sample the only group is the default group
    with the star shape and there is no bookmark; [isEmpty] holds although
    the group is customized. *)
Lemma isEmpty_ignores_customization :
  isEmpty sampleCustomized = true
  /\ map (groupAt sampleCustomized) (groups sampleCustomized)
     = [Group.mk "default" "00ddddff" "star" EmptyString false false]
  /\ defaultShape sampleCustomized = "bookmark"
  /\ ~ emptyAsSpecified sampleCustomized.
Proof.
  split; [vm_compute; reflexivity|]. split; [vm_compute; reflexivity|].
  split; [vm_compute; reflexivity|].
  intros (_ & g & Hg & _ & _ & Hshape & _).
  vm_compute in Hg. injection Hg as <-. vm_compute in Hshape. discriminate.
Qed.

(** The amended statement at the sample: deleting the external group leaves
    an empty state, and the save that follows removes the artifact. *)
Lemma isEmpty_by_name_and_save_cleans_up_witness :
  files (fs (snd (saveState sampleCustomized)))
  = delete "/ws/.vscode/bookmarks-labeled.json" (files (fs sampleCustomized)).
Proof.
  exact (proj1 (proj2
           (proj2 (isEmpty_by_name_and_save_cleans_up sampleCustomized)
                  "/ws/.vscode/bookmarks-labeled.json" eq_refl eq_refl))).
Defined.

(** ** Saving and loading (C1) *)

(** The call of [loadState] hands the decoration factory over where the
    group getter is expected: the first saved bookmark throws. *)
Lemma restoreBookmarks_throws (sb : SerializableBookmark.t)
    (rest : list SerializableBookmark.t) (s : Main) :
  restoreBookmarks (sb :: rest) s = Threw s.
Proof. reflexivity. Qed.

Lemma setGroupVisibilities_bookmarks (s : Main) :
  bookmarks (setGroupVisibilities s) = bookmarks s.
Proof.
  unfold setGroupVisibilities. generalize (groups s) at 1. intros gs.
  revert s. induction gs as [|g gs IH]; intros s; simpl; [reflexivity|].
  now rewrite IH.
Qed.

Lemma ensureGroup_bookmarks (s : Main) (name : string) :
  bookmarks (snd (ensureGroup s name)) = bookmarks s.
Proof.
  unfold ensureGroup. now destruct (List.find _ (groups s)).
Qed.

Lemma activateGroup_bookmarks (s : Main) (name : string) :
  bookmarks (activateGroup s name) = bookmarks s.
Proof.
  unfold activateGroup. pose proof (ensureGroup_bookmarks s name) as H.
  destruct (ensureGroup s name) as [g s1]. simpl in H.
  destruct (g =? activeGroup s1)%nat; [assumption|].
  now rewrite setGroupVisibilities_bookmarks.
Qed.

Lemma restoreGroups_frame (l : list SerializableGroup.t) (s : Main) :
  workspaceState (restoreGroups l s) = workspaceState s
  /\ host (restoreGroups l s) = host s.
Proof.
  unfold restoreGroups, sortGroups. cbn [workspaceState host set_groups].
  revert s. induction l as [|sg l IH]; intros s; simpl; [auto|].
  destruct (IH (addNewGroup (nextRef s)
                  (snd (allocGroup (fromSerializableGroup sg) s)))) as [H1 H2].
  simpl in H1, H2. auto.
Qed.

(** A load of an artifact that holds a saved bookmark restores none. *)
Lemma loadState_restores_no_bookmark (s : Main) (path : string)
    (obj : SavedObject) (sb : SerializableBookmark.t)
    (rest : list SerializableBookmark.t) :
  savedBookmarksFilePath s = Some path ->
  files (fs s) !! path = Some obj ->
  fileVersion obj = Some savedBookmarksFileVersionValue ->
  savedBookmarks (payload obj) = Some (sb :: rest) ->
  fst (loadState s) = true /\ bookmarks (snd (loadState s)) = [].
Proof.
  intros Hpath Hfile Hversion Hsaved. unfold loadState. rewrite Hpath.
  assert (Hexists : existsSync path (fs s) = true).
  { unfold existsSync. rewrite bool_decide_eq_true_2 by eauto. reflexivity. }
  rewrite Hexists, Hfile. cbn [negb].
  rewrite bool_decide_eq_true_2 by assumption.
  split; [reflexivity|]. cbn [snd]. rewrite activateGroup_bookmarks.
  cbn [bookmarks resetTempLists set_tempGroupBookmarks set_tempDocumentBookmarks].
  match goal with
  | |- bookmarks (match savedBookmarks (workspaceState (set_bookmarks [] ?s4)) with
                  | Some _ => _ | None => _ end) = [] =>
      assert (Hws : workspaceState (set_bookmarks [] s4) = payload obj);
      [| rewrite Hws, Hsaved, restoreBookmarks_throws; reflexivity]
  end.
  cbn [workspaceState set_bookmarks].
  match goal with
  | |- workspaceState (match ?o with Some l => restoreGroups l ?s3 | None => _ end) = _ =>
      destruct o; [rewrite (proj1 (restoreGroups_frame _ s3))|]; reflexivity
  end.
Qed.

(** Whatever the state, once a bookmark is saved the load that follows
    restores none. *)
Lemma load_after_save_restores_no_bookmark (s : Main) (path : string) :
  savedBookmarksFilePath s = Some path -> bookmarks s <> [] ->
  fst (saveState s) = true
  /\ fst (loadState (snd (saveState s))) = true
  /\ bookmarks (snd (loadState (snd (saveState s)))) = [].
Proof.
  intros Hpath Hne.
  assert (Hnot : isEmpty s = false).
  { unfold isEmpty. destruct (bookmarks s); [congruence | reflexivity]. }
  destruct (bookmarks s) as [|b bs] eqn:Hbs; [congruence|].
  assert (Hsave : exists obj,
             saveState s
             = (true,
                set_fs (writeFileSync path obj
                          (mkdirSync (directoryOf path) (fs s)))
                  (set_lastSaveTimestamp (clock s)
                     (set_fs (mkdirSync (directoryOf path) (fs s))
                        (set_workspaceState (payload obj) s))))
             /\ fileVersion obj = Some savedBookmarksFileVersionValue
             /\ savedBookmarks (payload obj)
                = Some (fromBookmark s (bookmarkAt s b)
                        :: map (fun x => fromBookmark s (bookmarkAt s x)) bs)).
  { unfold saveState. rewrite Hpath.
    change (isEmpty (set_workspaceState _ s)) with (isEmpty s). rewrite Hnot.
    rewrite Hbs. eexists. split; [reflexivity|]. split; reflexivity. }
  destruct Hsave as (obj & -> & Hversion & Hsaved).
  cbn [fst snd]. split; [reflexivity|].
  eapply loadState_restores_no_bookmark; eauto.
  cbn. apply lookup_insert_eq.
Qed.

(** C1 at a concrete state.  Two bookmarks of the default group are in the
    store and saved.  The load that follows succeeds, restores both groups,
    the active group name and the two flags, but no bookmark: it ends with
    the error message of the failed restoration.  Handed the group getter of
    the registry instead, [fromSerializableBookMark] turns each saved entry
    back into the bookmark it came from. *)
Theorem load_after_save_loses_the_bookmarks :
  let saved := snd (saveState sampleTwoBookmarks) in
  let loaded := snd (loadState saved) in
  fst (saveState sampleTwoBookmarks) = true
  /\ fst (loadState saved) = true
  /\ map Bookmark.lineNumber (bookmarkValues sampleTwoBookmarks) = [3; 7]%Z
  /\ bookmarkValues loaded = []
  /\ notifications loaded
     = [Vscode.ErrorMessage
          "LOAD Restoring bookmarks failed (TypeError: groupGetter is not a function)"]
  /\ map (fun g => fromGroup (groupAt loaded g)) (groups loaded)
     = Js.arraySort
         (fun a b => Js.localeCompare (SerializableGroup.name a) (SerializableGroup.name b))
         (map (fun g => fromGroup (groupAt sampleTwoBookmarks g))
              (groups sampleTwoBookmarks))
  /\ Group.name (groupAt loaded (activeGroup loaded))
     = Group.name (groupAt sampleTwoBookmarks (activeGroup sampleTwoBookmarks))
  /\ hideInactiveGroups loaded = hideInactiveGroups sampleTwoBookmarks
  /\ hideAll loaded = hideAll sampleTwoBookmarks
  /\ map (fun b =>
            fromSerializableBookMark (host saved)
              (fromBookmark saved (bookmarkAt saved b))
              (GroupGetter (getGroupByName saved)) DecorationFactory)
         (bookmarks saved)
     = map Some (bookmarkValues sampleTwoBookmarks).
Proof. vm_compute. repeat split. Qed.

(** ** The failed-jump flag under the operations (C8) *)

Lemma keepsFlags_refl (s : Main) : keepsFlags s s.
Proof. split; auto. Qed.

Lemma keepsFlags_trans (s1 s2 s3 : Main) :
  keepsFlags s1 s2 -> keepsFlags s2 s3 -> keepsFlags s1 s3.
Proof.
  intros [Hn1 H1] [Hn2 H2]. split; [lia|].
  intros b Hb. rewrite H2 by lia. now apply H1.
Qed.

Lemma keepsFlags_same_heap (s s' : Main) :
  bheap s' = bheap s -> (nextRef s <= nextRef s')%nat -> keepsFlags s s'.
Proof.
  intros Hheap Hn. split; [assumption|]. intros b _.
  now rewrite (failedAt_ext s' s).
Qed.

Create HintDb flags.

Lemma K_updateBookmark (r : nat) (f : Bookmark.t -> Bookmark.t) (s : Main) :
  (forall x, Bookmark.failedJump (f x) = Bookmark.failedJump x) ->
  keepsFlags s (updateBookmark r f s).
Proof.
  intros Hf. split; [reflexivity|]. intros b _. unfold failedAt.
  destruct (Nat.eq_dec r b) as [->|Hne].
  - rewrite bookmarkAt_updateBookmark. apply Hf.
  - now rewrite bookmarkAt_updateBookmark_other.
Qed.

Lemma K_updateGroup (r : nat) (f : Group.t -> Group.t) (s : Main) :
  keepsFlags s (updateGroup r f s).
Proof. now apply keepsFlags_same_heap. Qed.

Lemma K_allocBookmark (b : Bookmark.t) (s : Main) :
  keepsFlags s (snd (allocBookmark b s)).
Proof.
  split; [simpl; lia|]. intros r Hr. unfold failedAt, bookmarkAt. simpl.
  rewrite lookup_total_insert_ne by lia. reflexivity.
Qed.

Lemma K_allocGroup (g : Group.t) (s : Main) :
  keepsFlags s (snd (allocGroup g s)).
Proof. apply keepsFlags_same_heap; simpl; [reflexivity | lia]. Qed.

Lemma K_showMessage (n : Vscode.Notification) (s : Main) :
  keepsFlags s (showMessage n s).
Proof. now apply keepsFlags_same_heap. Qed.

Lemma K_forgetFile (p : string) (s : Main) : keepsFlags s (forgetFile p s).
Proof. now apply keepsFlags_same_heap. Qed.

Lemma K_forgetGroup (g : nat) (s : Main) : keepsFlags s (forgetGroup g s).
Proof. now apply keepsFlags_same_heap. Qed.

Lemma K_set_bookmarks (v : list nat) (s : Main) : keepsFlags s (set_bookmarks v s).
Proof. now apply keepsFlags_same_heap. Qed.

Lemma K_set_groups (v : list nat) (s : Main) : keepsFlags s (set_groups v s).
Proof. now apply keepsFlags_same_heap. Qed.

Lemma K_set_activeGroup (v : nat) (s : Main) : keepsFlags s (set_activeGroup v s).
Proof. now apply keepsFlags_same_heap. Qed.

Lemma K_set_hideAll (v : bool) (s : Main) : keepsFlags s (set_hideAll v s).
Proof. now apply keepsFlags_same_heap. Qed.

Lemma K_set_hideInactiveGroups (v : bool) (s : Main) :
  keepsFlags s (set_hideInactiveGroups v s).
Proof. now apply keepsFlags_same_heap. Qed.

Lemma K_set_workspaceState (v : Memento) (s : Main) :
  keepsFlags s (set_workspaceState v s).
Proof. now apply keepsFlags_same_heap. Qed.

Lemma K_set_clock (v : Z) (s : Main) : keepsFlags s (set_clock v s).
Proof. now apply keepsFlags_same_heap. Qed.

Lemma K_resetTempLists (s : Main) : keepsFlags s (resetTempLists s).
Proof. now apply keepsFlags_same_heap. Qed.

Lemma K_addNewGroup (g : nat) (s : Main) : keepsFlags s (addNewGroup g s).
Proof. now apply keepsFlags_same_heap. Qed.

Lemma K_addNewDecoratedBookmark (b : nat) (s : Main) :
  keepsFlags s (addNewDecoratedBookmark b s).
Proof. now apply keepsFlags_same_heap. Qed.

Lemma K_sortBookmarks (s : Main) : keepsFlags s (sortBookmarks s).
Proof. now apply keepsFlags_same_heap. Qed.

Lemma K_sortGroups (s : Main) : keepsFlags s (sortGroups s).
Proof. now apply keepsFlags_same_heap. Qed.

Lemma K_deleteBookmark (b : nat) (s : Main) : keepsFlags s (deleteBookmark b s).
Proof.
  apply keepsFlags_same_heap.
  - apply deleteBookmark_frame.
  - unfold deleteBookmark. now destruct (Js.includes b (bookmarks s)).
Qed.

Lemma K_saveState (s : Main) : keepsFlags s (snd (saveState s)).
Proof.
  apply keepsFlags_same_heap; [apply saveState_frame|].
  unfold saveState. destruct (savedBookmarksFilePath s); [|reflexivity].
  destruct (isEmpty _); [destruct (existsSync _ _)|]; reflexivity.
Qed.

Lemma K_getTempDocumentBookmarkList (s : Main) (p : string) :
  keepsFlags s (snd (getTempDocumentBookmarkList s p)).
Proof.
  unfold getTempDocumentBookmarkList.
  destruct (tempDocumentBookmarks s !! p); now apply keepsFlags_same_heap.
Qed.

Lemma K_getTempGroupBookmarkList (s : Main) (g : nat) :
  keepsFlags s (snd (getTempGroupBookmarkList s g)).
Proof.
  unfold getTempGroupBookmarkList.
  destruct (tempGroupBookmarks s !! g); now apply keepsFlags_same_heap.
Qed.

Lemma K_allocBookmark_unfolded (b : Bookmark.t) (s : Main) :
  keepsFlags s
    (set_nextRef (S (nextRef s)) (set_bheap (<[nextRef s := b]> (bheap s)) s)).
Proof. exact (K_allocBookmark b s). Qed.

Lemma K_allocGroup_unfolded (h : gmap nat Group.t) (s : Main) :
  keepsFlags s (set_nextRef (S (nextRef s)) (set_gheap h s)).
Proof. apply keepsFlags_same_heap; simpl; [reflexivity | lia]. Qed.

#[export] Hint Resolve K_allocBookmark_unfolded K_allocGroup_unfolded : flags.

#[export] Hint Resolve K_updateGroup K_allocBookmark K_allocGroup K_showMessage
  K_forgetFile K_forgetGroup K_set_bookmarks K_set_groups K_set_activeGroup
  K_set_hideAll K_set_hideInactiveGroups K_set_workspaceState K_set_clock
  K_resetTempLists K_addNewGroup K_addNewDecoratedBookmark K_sortBookmarks
  K_sortGroups K_deleteBookmark K_saveState K_getTempDocumentBookmarkList
  K_getTempGroupBookmarkList : flags.

(** Loops. *)
Lemma K_fold_left {X : Type} (f : Main -> X -> Main) (l : list X) (s : Main) :
  (forall st x, keepsFlags st (f st x)) -> keepsFlags s (fold_left f l s).
Proof.
  intros H. revert s. induction l as [|x l IH]; intros s; simpl.
  - apply keepsFlags_refl.
  - eapply keepsFlags_trans; [apply H | apply IH].
Qed.

Lemma K_fold_left_fst {X A : Type} (f : Main * A -> X -> Main * A)
    (l : list X) (acc : Main * A) :
  (forall a x, keepsFlags (fst a) (fst (f a x))) ->
  keepsFlags (fst acc) (fst (fold_left f l acc)).
Proof.
  intros H. revert acc. induction l as [|x l IH]; intros acc; simpl.
  - apply keepsFlags_refl.
  - eapply keepsFlags_trans; [apply H | apply IH].
Qed.

Lemma K_bind {A B : Type} (m : Run A) (k : A -> Main -> Run B) (s : Main) :
  keepsFlags s (finalState m) ->
  (forall a st, keepsFlags st (finalState (k a st))) ->
  keepsFlags s (finalState (bind m k)).
Proof.
  intros Hm Hk. destruct m as [a st|st]; simpl in *; [|assumption].
  eapply keepsFlags_trans; [exact Hm | apply Hk].
Qed.

Lemma K_forEachRun {A X : Type} (body : X -> A -> Main -> Run A)
    (xs : list X) (a : A) (s : Main) :
  (forall x a0 st, keepsFlags st (finalState (body x a0 st))) ->
  keepsFlags s (finalState (forEachRun body xs a s)).
Proof.
  intros H. revert a s. induction xs as [|x xs IH]; intros a s; simpl.
  - apply keepsFlags_refl.
  - apply K_bind; [apply H | intros; apply IH].
Qed.

(** Split a pair that a state was threaded through. *)
Ltac split_pair x :=
  let a := fresh "a" in
  let b := fresh "b" in
  let E := fresh "E" in
  destruct x as [a b] eqn:E;
  pose proof (f_equal fst E); pose proof (f_equal snd E);
  simpl fst in *; simpl snd in *; clear E;
  try subst a; try subst b.

Ltac kf :=
  repeat first
    [ apply keepsFlags_refl
    | assumption
    | match goal with
      | |- keepsFlags _ (finalState (Done _ _)) => simpl finalState
      | |- keepsFlags _ (finalState (Threw _)) => simpl finalState
      | |- keepsFlags _ (snd (_, _)) => simpl snd
      | |- keepsFlags _ (fst (_, _)) => simpl fst
      | |- keepsFlags _ (match ?x with (_, _) => _ end) => split_pair x
      | |- keepsFlags _ (finalState (match ?x with (_, _) => _ end)) => split_pair x
      | |- keepsFlags _ (snd (match ?x with (_, _) => _ end)) => split_pair x
      | |- keepsFlags _ (fst (match ?x with (_, _) => _ end)) => split_pair x
      | |- keepsFlags _ (if ?x then _ else _) => destruct x
      | |- keepsFlags _ (finalState (if ?x then _ else _)) => destruct x
      | |- keepsFlags _ (snd (if ?x then _ else _)) => destruct x
      | |- keepsFlags _ (fst (if ?x then _ else _)) => destruct x
      | |- keepsFlags _ (match ?x with _ => _ end) => destruct x
      | |- keepsFlags _ (finalState (match ?x with _ => _ end)) => destruct x
      | |- keepsFlags _ (snd (match ?x with _ => _ end)) => destruct x
      | |- keepsFlags _ (fst (match ?x with _ => _ end)) => destruct x
      end
    | (eapply keepsFlags_trans; [ | solve [eauto 3 with flags] ]) ].

Lemma K_setGroupVisibilities (s : Main) : keepsFlags s (setGroupVisibilities s).
Proof.
  unfold setGroupVisibilities. apply K_fold_left. intros. apply K_updateGroup.
Qed.

Lemma K_ensureGroup (s : Main) (name : string) :
  keepsFlags s (snd (ensureGroup s name)).
Proof. unfold ensureGroup. kf. Qed.

#[export] Hint Resolve K_setGroupVisibilities K_ensureGroup : flags.

Lemma K_activateGroup (s : Main) (name : string) :
  keepsFlags s (activateGroup s name).
Proof. unfold activateGroup. kf. Qed.

Lemma K_setHideAll (v : bool) (s : Main) : keepsFlags s (setHideAll v s).
Proof. unfold setHideAll. kf. Qed.

Lemma K_setHideInactiveGroups (v : bool) (s : Main) :
  keepsFlags s (setHideInactiveGroups v s).
Proof. unfold setHideInactiveGroups. kf. Qed.

#[export] Hint Resolve K_activateGroup K_setHideAll K_setHideInactiveGroups : flags.

Lemma K_refresh (document : Vscode.TextDocument) (b : nat) (s : Main) :
  keepsFlags s (finalState (updateBookmarkLineText document b s)).
Proof.
  unfold updateBookmarkLineText. destruct (Vscode.lineAt _ _); simpl.
  - now apply K_updateBookmark.
  - apply keepsFlags_refl.
Qed.

Lemma K_setLineNumber (b : nat) (g : Z -> Z) (s : Main) :
  keepsFlags s
    (updateBookmark b
       (fun x => Bookmark.setLineNumber (g (Bookmark.lineNumber x)) x) s).
Proof. now apply K_updateBookmark. Qed.

#[export] Hint Resolve K_refresh K_setLineNumber : flags.

Lemma K_shiftDownStep document from by_ first last b c (s : Main) :
  keepsFlags s (finalState (shiftDownStep document from by_ first last b c s)).
Proof.
  unfold shiftDownStep.
  destruct (_ >=? _)%Z.
  - destruct (inLineRange _ _ _ _).
    + apply K_bind; [|intros; apply keepsFlags_refl].
      eapply keepsFlags_trans; [|apply K_refresh].
      apply (K_setLineNumber b (fun l => (l + by_)%Z)).
    + simpl. apply (K_setLineNumber b (fun l => (l + by_)%Z)).
  - destruct (inLineRange _ _ _ _).
    + apply K_bind; [apply K_refresh | intros; apply keepsFlags_refl].
    + apply keepsFlags_refl.
Qed.

Lemma K_shiftUpStep document deleteFrom shiftFrom by_ first last b c (s : Main) :
  keepsFlags s
    (finalState (shiftUpStep document deleteFrom shiftFrom by_ first last b c s)).
Proof.
  unfold shiftUpStep.
  destruct (_ <? first)%Z; [apply keepsFlags_refl|].
  destruct (_ && _); [simpl; apply K_deleteBookmark|].
  destruct (_ >=? _)%Z.
  - destruct (inLineRange _ _ _ _).
    + apply K_bind; [|intros; apply keepsFlags_refl].
      eapply keepsFlags_trans; [|apply K_refresh].
      apply (K_setLineNumber b (fun l => (l - by_)%Z)).
    + simpl. apply (K_setLineNumber b (fun l => (l - by_)%Z)).
  - destruct (inLineRange _ _ _ _).
    + apply K_bind; [apply K_refresh | intros; apply keepsFlags_refl].
    + apply keepsFlags_refl.
Qed.

Lemma K_reconcileChange document list change c (s : Main) :
  keepsFlags s (finalState (reconcileChange document list change c s)).
Proof.
  unfold reconcileChange.
  destruct (_ =? _)%Z.
  - apply K_bind; [|intros; apply keepsFlags_refl].
    unfold updateBookmarkLineTextInRange. apply K_forEachRun. intros.
    apply K_bind; [apply K_refresh | intros; apply keepsFlags_refl].
  - destruct (_ >? _)%Z; [apply K_forEachRun; intros; apply K_shiftDownStep|].
    destruct (_ <? _)%Z; [apply K_forEachRun; intros; apply K_shiftUpStep|].
    apply keepsFlags_refl.
Qed.

Lemma K_onEditorDocumentChanged event (s : Main) :
  keepsFlags s (finalState (onEditorDocumentChanged event s)).
Proof.
  unfold onEditorDocumentChanged.
  pose proof (K_getTempDocumentBookmarkList s (Vscode.fsPath (Vscode.document event))) as H.
  destruct (getTempDocumentBookmarkList s _) as [list s1]. simpl in H.
  destruct (_ =? 0)%Z; [exact H|].
  apply K_bind.
  - eapply keepsFlags_trans; [exact H|].
    apply K_forEachRun. intros. apply K_reconcileChange.
  - intros [] st; simpl; [apply K_saveState | apply keepsFlags_refl].
Qed.

Lemma K_toggleBookmark fsPath lineNumber characterNumber lineText group (s : Main) :
  keepsFlags s (toggleBookmark fsPath lineNumber characterNumber lineText group s).
Proof. unfold toggleBookmark. kf. Qed.

#[export] Hint Resolve K_toggleBookmark : flags.

Lemma K_editorActionToggleBookmark textEditor (s : Main) :
  keepsFlags s (finalState (editorActionToggleBookmark textEditor s)).
Proof.
  unfold editorActionToggleBookmark. apply K_forEachRun. intros. kf.
Qed.

Lemma K_editorActionToggleLabeledBookmark textEditor entered (s : Main) :
  keepsFlags s (finalState (editorActionToggleLabeledBookmark textEditor entered s)).
Proof.
  unfold editorActionToggleLabeledBookmark.
  destruct (Vscode.selections textEditor) as [|selection others];
    [apply keepsFlags_refl|].
  pose proof (K_getTempDocumentBookmarkList s
                (Vscode.fsPath (Vscode.editorDocument textEditor))) as H.
  destruct (getTempDocumentBookmarkList s _) as [list s1]. simpl in H.
  destruct (List.find _ list); [simpl; kf|].
  destruct entered as [[label groupName]|]; [|exact H].
  destruct (_ && _); [exact H|].
  destruct (_ >? _)%Z; [simpl; kf|].
  eapply keepsFlags_trans; [exact H|]. clear H.
  set (s2 := if negb (String.eqb groupName EmptyString)
             then activateGroup s1 groupName else s1).
  assert (H2 : keepsFlags s1 s2) by (unfold s2; kf).
  set (s3 := if (Js.length label =? 1)%Z then _ else s2).
  assert (H3 : keepsFlags s1 s3).
  { eapply keepsFlags_trans; [exact H2|]. unfold s3.
    destruct (Js.length label =? 1)%Z; [|apply keepsFlags_refl].
    pose proof (K_getTempDocumentBookmarkList s2
                  (Vscode.fsPath (Vscode.editorDocument textEditor))) as H.
    destruct (getTempDocumentBookmarkList s2 _) as [list2 s2']. simpl in H.
    destruct (findLabeled _ _ _ _); kf. }
  clearbody s3. clear H2. clearbody s2.
  apply K_bind.
  - destruct (negb (String.eqb label EmptyString)); [|exact H3].
    destruct (Vscode.lineAt _ _); [|exact H3].
    eapply keepsFlags_trans; [exact H3|]. kf.
  - intros. simpl. kf.
Qed.

Lemma K_relabelBookmark bookmark input (s : Main) :
  keepsFlags s (relabelBookmark bookmark input s).
Proof.
  unfold relabelBookmark. destruct input as [input|]; [|apply keepsFlags_refl].
  destruct (String.eqb _ _); [apply keepsFlags_refl|].
  set (s1 := if (Js.length (Js.trim input) =? 1)%Z then _ else s).
  assert (H1 : keepsFlags s s1).
  { unfold s1. destruct (Js.length (Js.trim input) =? 1)%Z; [|apply keepsFlags_refl].
    pose proof (K_getTempDocumentBookmarkList s
                  (Bookmark.fsPath (bookmarkAt s bookmark))) as H.
    destruct (getTempDocumentBookmarkList s _) as [list s']. simpl in H.
    destruct (findLabeled _ _ _ _); kf. }
  clearbody s1. eapply keepsFlags_trans; [exact H1|]. kf.
Qed.

Lemma K_moveBookmarksBetween dst selecteds (s : Main) :
  keepsFlags s (moveBookmarksBetween dst selecteds s).
Proof.
  unfold moveBookmarksBetween. destruct selecteds as [selecteds|];
    [|apply keepsFlags_refl].
  eapply keepsFlags_trans; [|apply K_saveState].
  eapply keepsFlags_trans; [|apply K_sortBookmarks].
  apply K_fold_left. intros st x. kf.
Qed.

Lemma K_deleteAll (l : list nat) (s : Main) :
  keepsFlags s (fold_left (fun st b => deleteBookmark b st) l s).
Proof. apply K_fold_left. intros. apply K_deleteBookmark. Qed.

#[export] Hint Resolve K_deleteAll : flags.

Lemma K_actionDeleteOneBookmark bookmark (s : Main) :
  keepsFlags s (actionDeleteOneBookmark bookmark s).
Proof. unfold actionDeleteOneBookmark. kf. Qed.

Lemma K_deleteBookmarksOfFile fsPath group (s : Main) :
  keepsFlags s (deleteBookmarksOfFile fsPath group s).
Proof. unfold deleteBookmarksOfFile. kf. Qed.

Lemma K_actionDeleteBookmark selecteds (s : Main) :
  keepsFlags s (actionDeleteBookmark selecteds s).
Proof. unfold actionDeleteBookmark. kf. Qed.

Lemma K_setActiveGroup groupName (s : Main) :
  keepsFlags s (setActiveGroup groupName s).
Proof. unfold setActiveGroup. kf. Qed.

Lemma K_actionAddGroup input (s : Main) : keepsFlags s (actionAddGroup input s).
Proof. unfold actionAddGroup. kf. Qed.

Lemma K_renameGroup group input (s : Main) :
  keepsFlags s (renameGroup group input s).
Proof. unfold renameGroup. kf. Qed.

Lemma K_deleteGroups selected (s : Main) : keepsFlags s (deleteGroups selected s).
Proof.
  unfold deleteGroups.
  match goal with
  | |- keepsFlags _ (let '(_, _) := fold_left ?f ?l ?a in _) =>
      pose proof (K_fold_left_fst f l a) as H
  end.
  simpl fst in H at 1.
  match type of H with
  | ?P -> _ => assert (Hstep : P)
  end.
  { intros [st was] group. simpl fst.
    pose proof (K_getTempGroupBookmarkList st group) as Hl.
    destruct (getTempGroupBookmarkList st group) as [list st1]. simpl in Hl.
    simpl fst. eapply keepsFlags_trans; [exact Hl|]. kf. }
  specialize (H Hstep). clear Hstep.
  destruct (fold_left _ selected (s, false)) as [s1 wasActiveGroupDeleted].
  simpl in H. eapply keepsFlags_trans; [exact H|]. kf.
Qed.

Lemma K_actionSetGroupIconShape selected (s : Main) :
  keepsFlags s (actionSetGroupIconShape selected s).
Proof. unfold actionSetGroupIconShape. kf. Qed.

Lemma K_actionSetGroupIconColor selected (s : Main) :
  keepsFlags s (actionSetGroupIconColor selected s).
Proof. unfold actionSetGroupIconColor. kf. Qed.

Lemma K_actionToggleHideAll (s : Main) : keepsFlags s (actionToggleHideAll s).
Proof. unfold actionToggleHideAll. kf. Qed.

Lemma K_actionToggleHideInactiveGroups (s : Main) :
  keepsFlags s (actionToggleHideInactiveGroups s).
Proof. unfold actionToggleHideInactiveGroups. kf. Qed.

Lemma K_setFsPath (b : nat) (v : string) (s : Main) :
  keepsFlags s (updateBookmark b (Bookmark.setFsPath v) s).
Proof. now apply K_updateBookmark. Qed.

#[export] Hint Resolve K_setFsPath : flags.

Lemma K_renameStep rename acc bookmark :
  keepsFlags (fst acc) (fst (renameStep rename acc bookmark)).
Proof.
  unfold renameStep. destruct acc as [st changedFiles]. simpl fst at 1.
  destruct (isDirectory rename).
  - destruct (Js.startsWith _ _); simpl; kf.
  - destruct (String.eqb _ _); simpl; kf.
Qed.

Lemma K_onFilesRenamed files (s : Main) : keepsFlags s (onFilesRenamed files s).
Proof.
  unfold onFilesRenamed.
  match goal with
  | |- keepsFlags _ (let '(_, _) := fold_left ?f ?l ?a in _) =>
      pose proof (K_fold_left_fst f l a) as H
  end.
  simpl fst in H at 1.
  match type of H with
  | ?P -> _ => assert (Hstep : P)
  end.
  { intros acc rename. apply K_fold_left_fst. intros. apply K_renameStep. }
  specialize (H Hstep). clear Hstep.
  destruct (fold_left _ files (s, [])) as [s1 changedFiles].
  simpl in H. eapply keepsFlags_trans; [exact H|].
  assert (H2 : keepsFlags s1
                 (fold_left (fun st '(changedFile, _) => forgetFile changedFile st)
                            changedFiles s1)).
  { apply K_fold_left. intros st [changedFile flag]. apply K_forgetFile. }
  destruct (_ >? 0)%Z; [|exact H2].
  eapply keepsFlags_trans; [exact H2 | apply K_saveState].
Qed.

Lemma K_deleteWhileWalking steps deletedFsPath index changes (s : Main) :
  keepsFlags s (snd (deleteWhileWalking steps deletedFsPath index changes s)).
Proof.
  revert index changes s. induction steps as [|steps IH]; intros index changes s;
    simpl; [apply keepsFlags_refl|].
  destruct (nth_error _ _); [|apply keepsFlags_refl].
  destruct (String.eqb _ _); [|apply IH].
  eapply keepsFlags_trans; [apply K_deleteBookmark | apply IH].
Qed.

Lemma K_onFilesDeleted files (s : Main) : keepsFlags s (onFilesDeleted files s).
Proof.
  unfold onFilesDeleted. apply K_fold_left. intros st deletedFsPath.
  pose proof (K_deleteWhileWalking (length (bookmarks st)) deletedFsPath 0 false st) as H.
  destruct (deleteWhileWalking _ _ _ _ _) as [changesWereMade st1]. simpl in H.
  destruct changesWereMade; [|exact H].
  eapply keepsFlags_trans; [exact H | apply K_saveState].
Qed.

Lemma K_restoreGroups l (s : Main) : keepsFlags s (restoreGroups l s).
Proof.
  unfold restoreGroups. eapply keepsFlags_trans; [|apply K_sortGroups].
  apply K_fold_left. intros st sg. kf.
Qed.

Lemma K_restoreBookmarks l (s : Main) :
  keepsFlags s (finalState (restoreBookmarks l s)).
Proof.
  unfold restoreBookmarks. apply K_bind.
  - apply K_forEachRun. intros sb [] st.
    destruct (fromSerializableBookMark _ _ _ _); simpl; kf.
  - intros. simpl. apply K_sortBookmarks.
Qed.

#[export] Hint Resolve K_restoreGroups : flags.

Lemma K_loadState (s : Main) : keepsFlags s (snd (loadState s)).
Proof.
  unfold loadState.
  destruct (savedBookmarksFilePath s) as [path|]; [|apply keepsFlags_refl].
  destruct (negb _); [apply keepsFlags_refl|].
  destruct (files (fs s) !! path) as [obj|]; [|apply keepsFlags_refl].
  destruct (bool_decide _); [|simpl; kf].
  simpl snd. eapply keepsFlags_trans; [|apply K_activateGroup].
  eapply keepsFlags_trans; [|apply K_resetTempLists].
  set (s5 := set_bookmarks [] _).
  assert (H5 : keepsFlags s s5).
  { unfold s5. eapply keepsFlags_trans; [|apply K_set_bookmarks].
    destruct (savedGroups _); kf. }
  clearbody s5. eapply keepsFlags_trans; [exact H5|].
  destruct (savedBookmarks _) as [l|]; [|apply keepsFlags_refl].
  pose proof (K_restoreBookmarks l s5) as H.
  destruct (restoreBookmarks l s5); simpl in H; [exact H|].
  eapply keepsFlags_trans; [exact H | apply K_showMessage].
Qed.

Lemma K_onWatchedFileChanged (s : Main) : keepsFlags s (onWatchedFileChanged s).
Proof.
  unfold onWatchedFileChanged.
  destruct (_ <? _)%Z; [apply K_loadState | apply keepsFlags_refl].
Qed.

Lemma jumpToBookmark_flags (b : nat) (outcome : JumpOutcome) (s : Main) :
  failedAt (jumpToBookmark b outcome s) b
  = match outcome with Revealed => false | _ => true end
  /\ (forall r, r <> b -> failedAt (jumpToBookmark b outcome s) r = failedAt s r)
  /\ nextRef (jumpToBookmark b outcome s) = nextRef s.
Proof.
  unfold jumpToBookmark, failedAt.
  destruct outcome; simpl; (split; [|split; [|reflexivity]]).
  all: try (intros r Hr;
            change (bookmarkAt (showMessage ?n ?st) r) with (bookmarkAt st r);
            now rewrite bookmarkAt_updateBookmark_other by congruence).
  all: try (change (bookmarkAt (showMessage ?n ?st) b) with (bookmarkAt st b));
       now rewrite bookmarkAt_updateBookmark.
Qed.

(** The clearing command: every bookmark of the store ends up unflagged. *)
Lemma clearFlags_loop (l : list nat) (s : Main) (count : Z) :
  let s' :=
    fst (fold_left
           (fun '(st, count) bookmark =>
              if Bookmark.failedJump (bookmarkAt st bookmark)
              then (updateBookmark bookmark (Bookmark.setFailedJump false) st,
                    (count + 1)%Z)
              else (st, count))
           l (s, count)) in
  (forall b, In b l -> failedAt s' b = false)
  /\ (forall b, failedAt s b = false -> failedAt s' b = false)
  /\ bookmarks s' = bookmarks s.
Proof.
  revert s count. induction l as [|x l IH]; intros s count; simpl.
  - split; [intros b []|]. auto.
  - destruct (Bookmark.failedJump (bookmarkAt s x)) eqn:E.
    + destruct (IH (updateBookmark x (Bookmark.setFailedJump false) s) (count + 1)%Z)
        as (H1 & H2 & H3).
      split; [|split].
      * intros b [<-|Hb]; [|now apply H1].
        apply H2. unfold failedAt. now rewrite bookmarkAt_updateBookmark.
      * intros b Hb. apply H2. unfold failedAt in *.
        destruct (Nat.eq_dec x b) as [->|Hne].
        -- now rewrite bookmarkAt_updateBookmark.
        -- now rewrite bookmarkAt_updateBookmark_other.
      * exact H3.
    + destruct (IH s count) as (H1 & H2 & H3).
      split; [|split]; auto.
      intros b [<-|Hb]; [|now apply H1]. now apply H2.
Qed.

Lemma actionClearFailedJumpFlags_clears (s : Main) (b : nat) :
  In b (bookmarks s) -> failedAt (actionClearFailedJumpFlags s) b = false.
Proof.
  intros Hb. unfold actionClearFailedJumpFlags.
  destruct (clearFlags_loop (bookmarks s) s 0) as (H1 & _ & _).
  destruct (fold_left _ (bookmarks s) (s, 0%Z)) as [s1 clearedFlagCount].
  simpl in H1.
  rewrite (failedAt_ext _ (showMessage
                             (Vscode.InformationMessage
                                "ERROR: Cleared broken bookmark flags") s1)).
  - now apply H1.
  - apply saveState_frame.
Qed.

(** The navigation commands never jump to a flagged bookmark. *)
Lemma navigation_target (s : Main) (test : Bookmark.t -> bool) (l : list nat)
    (s1 : Main) (target : nat) :
  fst (wrapAround s1 l (fst (scanCandidates s1 test l 0))
                       (snd (scanCandidates s1 test l 0))) = Some target ->
  failedAt s1 target = false
  /\ keepsFlags s1 (snd (wrapAround s1 l (fst (scanCandidates s1 test l 0))
                                         (snd (scanCandidates s1 test l 0)))).
Proof.
  intros H. split.
  - now apply (proj1 (scan_then_wrap s1 test l) target).
  - unfold wrapAround.
    destruct (fst (scanCandidates s1 test l 0)); [apply keepsFlags_refl|].
    destruct (_ >? 0)%Z; [|apply keepsFlags_refl].
    destruct (_ >? _)%Z; [|apply K_showMessage].
    destruct (List.find _ l); [apply keepsFlags_refl | apply K_showMessage].
Qed.

Lemma keepsFlags_wrapAround (s1 : Main) l c n :
  keepsFlags s1 (snd (wrapAround s1 l c n)).
Proof.
  unfold wrapAround. destruct c; [apply keepsFlags_refl|].
  destruct (_ >? 0)%Z; [|apply keepsFlags_refl].
  destruct (_ >? _)%Z; [|apply K_showMessage].
  destruct (List.find _ l); [apply keepsFlags_refl | apply K_showMessage].
Qed.

(** A flagged bookmark stays flagged through a jump that a navigation
    command makes. *)
Lemma navigate_keeps_flag (s : Main) (result : option nat * Main)
    (outcome : JumpOutcome) (b : nat) :
  keepsFlags s (snd result) ->
  (forall target, fst result = Some target -> failedAt (snd result) target = false) ->
  (b < nextRef s)%nat -> failedAt s b = true ->
  let s' :=
    match result with
    | (None, s1) => s1
    | (Some target, s1) => jumpToBookmark target outcome s1
    end in
  failedAt s' b = true /\ (b < nextRef s')%nat.
Proof.
  intros [Hn Hk] Htarget Hb Hf. destruct result as [[target|] s1]; simpl in *.
  - destruct (jumpToBookmark_flags target outcome s1) as (Hset & Hother & Hnext).
    split; [|lia].
    destruct (Nat.eq_dec target b) as [->|Hne].
    + specialize (Htarget b eq_refl). rewrite Hk in Htarget by assumption.
      congruence.
    + rewrite Hother by congruence. rewrite Hk by assumption. exact Hf.
  - split; [|lia]. now rewrite Hk.
Qed.

Lemma wrapAround_heap (s1 : Main) l c n :
  bheap (snd (wrapAround s1 l c n)) = bheap s1.
Proof.
  unfold wrapAround. destruct c; [reflexivity|].
  destruct (_ >? 0)%Z; [|reflexivity].
  destruct (_ >? _)%Z; [|reflexivity].
  destruct (List.find _ l); reflexivity.
Qed.

Lemma scan_wrap_flags (s s1 : Main) (test : Bookmark.t -> bool) (l : list nat) :
  keepsFlags s s1 ->
  let result :=
    wrapAround s1 l (fst (scanCandidates s1 test l 0))
                    (snd (scanCandidates s1 test l 0)) in
  keepsFlags s (snd result)
  /\ forall target, fst result = Some target -> failedAt (snd result) target = false.
Proof.
  intros Hs1 result. split.
  - eapply keepsFlags_trans; [exact Hs1 | apply keepsFlags_wrapAround].
  - intros target Htarget.
    rewrite (failedAt_ext _ s1) by apply wrapAround_heap.
    now apply (navigation_target s test l s1 target).
Qed.

Lemma nextBookmark_flags (s : Main) (fsPath : string) (line : Z) :
  keepsFlags s (snd (nextBookmark s fsPath line))
  /\ forall target, fst (nextBookmark s fsPath line) = Some target ->
       failedAt (snd (nextBookmark s fsPath line)) target = false.
Proof.
  rewrite nextBookmark_unfold. apply scan_wrap_flags, K_getTempGroupBookmarkList.
Qed.

Lemma previousBookmark_flags (s : Main) (fsPath : string) (line : Z) :
  keepsFlags s (snd (previousBookmark s fsPath line))
  /\ forall target, fst (previousBookmark s fsPath line) = Some target ->
       failedAt (snd (previousBookmark s fsPath line)) target = false.
Proof.
  rewrite previousBookmark_unfold. apply scan_wrap_flags, K_getTempGroupBookmarkList.
Qed.

(** Every operation other than the clearing command and a successful jump
    to the flagged bookmark itself leaves the flag of a failed jump set. *)
Lemma step_keeps_flag (c : Command) (s : Main) (b : nat) :
  (b < nextRef s)%nat -> failedAt s b = true ->
  c <> ActionClearFailedJumpFlags -> c <> JumpToBookmark b Revealed ->
  failedAt (step c s) b = true /\ (b < nextRef (step c s))%nat.
Proof.
  intros Hb Hf Hclear Hjump.
  assert (Hkeep : forall s', keepsFlags s s' ->
                             failedAt s' b = true /\ (b < nextRef s')%nat).
  { intros s' [Hn Hk]. split; [now rewrite Hk | lia]. }
  destruct c; simpl.
  - apply Hkeep, K_editorActionToggleBookmark.
  - apply Hkeep, K_editorActionToggleLabeledBookmark.
  - apply Hkeep, K_relabelBookmark.
  - apply Hkeep, K_moveBookmarksBetween.
  - apply Hkeep, K_actionDeleteOneBookmark.
  - apply Hkeep, K_deleteBookmarksOfFile.
  - apply Hkeep, K_actionDeleteBookmark.
  - congruence.
  - destruct (jumpToBookmark_flags bookmark outcome s) as (Hset & Hother & Hnext).
    split; [|lia].
    destruct (Nat.eq_dec bookmark b) as [->|Hne].
    + rewrite Hset. destruct outcome; congruence.
    + rewrite Hother by congruence. exact Hf.
  - unfold editorActionnavigateToNextBookmark.
    destruct (Vscode.selections textEditor) as [|selection rest]; [auto|].
    destruct (nextBookmark_flags s (Vscode.fsPath (Vscode.editorDocument textEditor))
                (Vscode.line (Vscode.start selection))) as [Hk Ht].
    now apply (navigate_keeps_flag s _ outcome b).
  - unfold editorActionNavigateToPreviousBookmark.
    destruct (Vscode.selections textEditor) as [|selection rest]; [auto|].
    destruct (previousBookmark_flags s (Vscode.fsPath (Vscode.editorDocument textEditor))
                (Vscode.line (Vscode.start selection))) as [Hk Ht].
    now apply (navigate_keeps_flag s _ outcome b).
  - apply Hkeep, K_setActiveGroup.
  - apply Hkeep, K_actionAddGroup.
  - apply Hkeep, K_renameGroup.
  - apply Hkeep, K_deleteGroups.
  - apply Hkeep, K_actionSetGroupIconShape.
  - apply Hkeep, K_actionSetGroupIconColor.
  - apply Hkeep, K_actionToggleHideAll.
  - apply Hkeep, K_actionToggleHideInactiveGroups.
  - apply Hkeep, K_onEditorDocumentChanged.
  - apply Hkeep, K_onFilesRenamed.
  - apply Hkeep, K_onFilesDeleted.
  - apply Hkeep, K_onWatchedFileChanged.
  - apply Hkeep, K_saveState.
  - exact (Hkeep _ (K_set_clock _ s)).
Qed.

(** C8, amended. A jump that fails sets the flag of its bookmark.  The flag
    of an allocated bookmark then stays set through every sequence of
    operations that holds neither the clearing command nor a successful jump
    to that same bookmark.  The clearing command resets the flag of every
    bookmark of the store, and a successful jump resets the flag of the
    bookmark it went to.  Relabelling, like moving, deletes the bookmark and
    creates another one: at the sample the flagged bookmark leaves the store
    with its flag set, and the bookmark that takes its place is not
    flagged. *)
Theorem failedJump_sticky_until_cleared_or_revisited :
  (forall s b outcome,
      outcome <> Revealed -> failedAt (step (JumpToBookmark b outcome) s) b = true)
  /\ (forall cs s b,
        (b < nextRef s)%nat -> failedAt s b = true ->
        Forall (sparesFlagOf b) cs ->
        failedAt (run cs s) b = true)
  /\ (forall s b,
        In b (bookmarks s) -> failedAt (step ActionClearFailedJumpFlags s) b = false)
  /\ (forall s b, failedAt (step (JumpToBookmark b Revealed) s) b = false)
  /\ (let relabelled := step (RelabelBookmark 3 (Some "x")) sampleFailedJump in
      bookmarks sampleFailedJump = [3; 4]%nat
      /\ bookmarks relabelled = [5; 4]%nat
      /\ failedAt relabelled 3 = true
      /\ map (fun b => (location (bookmarkAt relabelled b), failedAt relabelled b))
             (bookmarks relabelled)
         = [(("/ws/a.ts", 3%Z, 0%Z), false); (("/ws/a.ts", 7%Z, 0%Z), false)]).
Proof.
  split; [|split; [|split; [|split; [|vm_compute; auto]]]].
  - intros s b outcome Hout. simpl.
    rewrite (proj1 (jumpToBookmark_flags b outcome s)).
    destruct outcome; congruence.
  - intros cs. induction cs as [|c cs IH]; intros s b Hb Hf Hcs; [exact Hf|].
    inversion Hcs as [|? ? [Hclear Hjump] Hrest]; subst.
    destruct (step_keeps_flag c s b Hb Hf Hclear Hjump) as [Hf' Hb'].
    simpl. now apply IH.
  - intros s b. apply actionClearFailedJumpFlags_clears.
  - intros s b. simpl. apply (proj1 (jumpToBookmark_flags b Revealed s)).
Qed.

(** C8, as stated, fails: the jump to the first sample bookmark is rejected
    and sets its flag; a later jump to it succeeds, is not the clearing
    command, and leaves the flag cleared. *)
Lemma successful_jump_clears_failed_flag :
  let later := JumpToBookmark 3 Revealed in
  In 3%nat (bookmarks sampleFailedJump)
  /\ failedAt sampleTwoBookmarks 3 = false
  /\ failedAt sampleFailedJump 3 = true
  /\ later <> ActionClearFailedJumpFlags
  /\ failedAt (step later sampleFailedJump) 3 = false.
Proof.
  intros later. split; [vm_compute; auto|].
  split; [vm_compute; reflexivity|]. split; [vm_compute; reflexivity|].
  split; [discriminate|]. vm_compute. reflexivity.
Qed.

(** The amended C8 at the sample: the flag set by the rejected jump is still
    set after a renaming of the active group, a navigation to the next
    bookmark, a successful jump to the other bookmark, a file renaming and a
    save. *)
Lemma failedJump_sticky_until_cleared_or_revisited_witness :
  failedAt
    (run [RenameGroup 2 (Some "work");
          NavigateToNextBookmark (sampleEditor "/ws/a.ts" [0%Z]) Revealed;
          JumpToBookmark 4 Revealed;
          OnFilesRenamed [mkRename "/ws/a.ts" "/ws/b.ts" false];
          SaveState]
         sampleFailedJump) 3
  = true.
Proof.
  apply (proj1 (proj2 failedJump_sticky_until_cleared_or_revisited)).
  - vm_compute. lia.
  - vm_compute. reflexivity.
  - repeat constructor; discriminate.
Defined.

(** ** The order of the bookmark array *)

Lemma compare_refl (a : string) : String.compare a a = Eq.
Proof.
  pose proof (String.compare_antisym a a) as H.
  destruct (String.compare a a); simpl in H; congruence.
Qed.

Lemma compare_Lt_trans (a b c : string) :
  String.compare a b = Lt -> String.compare b c = Lt -> String.compare a c = Lt.
Proof.
  intros Hab Hbc.
  apply OrderedTypeEx.String_as_OT.cmp_lt.
  apply OrderedTypeEx.String_as_OT.lt_trans with b;
    now apply OrderedTypeEx.String_as_OT.cmp_lt.
Qed.

(** The order of the bytes is a collation. *)
Lemma localeCompare_collates : collates Js.localeCompare.
Proof.
  unfold collates, Js.localeCompare. split; [|split].
  - intros a. now rewrite compare_refl.
  - intros a b. rewrite (String.compare_antisym a b).
    destruct (String.compare b a); simpl; lia.
  - intros a b c.
    destruct (String.compare a b) eqn:Eab; [| |lia];
      destruct (String.compare b c) eqn:Ebc; try lia; intros _ _.
    + apply String.compare_eq_iff in Eab, Ebc. subst. now rewrite compare_refl.
    + apply String.compare_eq_iff in Eab. subst. now rewrite Ebc.
    + apply String.compare_eq_iff in Ebc. subst. now rewrite Eab.
    + now rewrite (compare_Lt_trans a b c Eab Ebc).
Qed.

Section Collation.
Variable compare : string -> string -> Z.
Hypothesis compare_collates : collates compare.

Lemma collates_swap_zero (a b : string) :
  compare a b = 0%Z -> compare b a = 0%Z.
Proof.
  destruct compare_collates as (_ & Hswap & _). intros H.
  pose proof (Hswap a b). pose proof (Hswap b a). lia.
Qed.

Lemma collates_before_trans (a b c : string) :
  (compare a b <= 0)%Z -> (compare b c <= 0)%Z ->
  (compare a c <= 0)%Z
  /\ (compare a c = 0%Z -> compare a b = 0%Z /\ compare b c = 0%Z).
Proof.
  destruct compare_collates as (_ & Hswap & Htrans). intros Hab Hbc.
  split; [now apply Htrans with b|]. intros Hac.
  assert (Hca : (compare c a <= 0)%Z)
    by (pose proof (Hswap a c); pose proof (Hswap c a); lia).
  pose proof (Htrans c a b Hca Hab) as Hcb.
  pose proof (Htrans b c a Hbc Hca) as Hba.
  pose proof (Hswap a b). pose proof (Hswap b a).
  pose proof (Hswap b c). pose proof (Hswap c b). lia.
Qed.

(** [Bookmark.sortByLocation] decides the canonical order. *)
Lemma inOrder_canonical (a b : Bookmark.t) :
  inOrder compare a b = true <-> canonicalOrder compare a b.
Proof.
  unfold inOrder, canonicalOrder, lineOrder, Bookmark.sortByLocation, Js.orElse.
  destruct (compare (Bookmark.fsPath a) (Bookmark.fsPath b) =? 0)%Z eqn:E.
  - destruct (Bookmark.lineNumber a - Bookmark.lineNumber b =? 0)%Z eqn:El; lia.
  - lia.
Qed.

Lemma canonicalOrder_total (a b : Bookmark.t) :
  canonicalOrder compare a b \/ canonicalOrder compare b a.
Proof.
  unfold canonicalOrder, lineOrder.
  destruct compare_collates as (_ & Hswap & _).
  pose proof (Hswap (Bookmark.fsPath a) (Bookmark.fsPath b)).
  pose proof (Hswap (Bookmark.fsPath b) (Bookmark.fsPath a)). lia.
Qed.

Lemma canonicalOrder_trans (a b c : Bookmark.t) :
  canonicalOrder compare a b -> canonicalOrder compare b c ->
  canonicalOrder compare a c.
Proof.
  unfold canonicalOrder, lineOrder. intros Hab Hbc.
  destruct (collates_before_trans (Bookmark.fsPath a) (Bookmark.fsPath b)
              (Bookmark.fsPath c)) as [Hle Hzero]; [lia | lia |].
  lia.
Qed.

Lemma inOrder_total (a b : Bookmark.t) :
  inOrder compare a b = false -> inOrder compare b a = true.
Proof.
  intros H. destruct (canonicalOrder_total a b) as [Hc|Hc].
  - apply inOrder_canonical in Hc. congruence.
  - now apply inOrder_canonical.
Qed.

Lemma inOrder_trans (a b c : Bookmark.t) :
  inOrder compare a b = true -> inOrder compare b c = true ->
  inOrder compare a c = true.
Proof.
  rewrite !inOrder_canonical. apply canonicalOrder_trans.
Qed.

Lemma inOrder_refl (a : Bookmark.t) : inOrder compare a a = true.
Proof.
  apply inOrder_canonical. right. split; [apply compare_collates|].
  right. split; [reflexivity|lia].
Qed.
End Collation.

Lemma insertSorted_In {A : Type} (compare : A -> A -> Z) (x y : A) (l : list A) :
  In y (Js.insertSorted compare x l) <-> y = x \/ In y l.
Proof.
  induction l as [|z l IH]; simpl.
  - intuition.
  - destruct (compare x z <=? 0)%Z; simpl; [intuition|].
    rewrite IH. intuition.
Qed.

Lemma insertSorted_map {A B : Type} (f : A -> B) (compare : B -> B -> Z)
    (x : A) (l : list A) :
  map f (Js.insertSorted (fun a b => compare (f a) (f b)) x l)
  = Js.insertSorted compare (f x) (map f l).
Proof.
  induction l as [|y l IH]; simpl; [reflexivity|].
  destruct (compare (f x) (f y) <=? 0)%Z; simpl; [reflexivity|].
  now rewrite IH.
Qed.

Lemma arraySort_map {A B : Type} (f : A -> B) (compare : B -> B -> Z)
    (l : list A) :
  map f (Js.arraySort (fun a b => compare (f a) (f b)) l)
  = Js.arraySort compare (map f l).
Proof.
  unfold Js.arraySort. induction l as [|x l IH]; simpl; [reflexivity|].
  now rewrite insertSorted_map, IH.
Qed.

Lemma insertSorted_sorted (compare : string -> string -> Z)
    (x : Bookmark.t) (l : list Bookmark.t) :
  collates compare ->
  sortedByLocation compare l = true ->
  sortedByLocation compare
    (Js.insertSorted (Bookmark.sortByLocation compare) x l) = true.
Proof.
  intros Hc. induction l as [|y l IH]; simpl; [reflexivity|].
  intros H. apply andb_true_iff in H as [Hy Hl].
  change (Bookmark.sortByLocation compare x y <=? 0)%Z with (inOrder compare x y).
  destruct (inOrder compare x y) eqn:E; simpl.
  - rewrite E, Hy, Hl. simpl. rewrite andb_true_r.
    apply forallb_forall. intros z Hz.
    apply (inOrder_trans compare Hc) with y; [assumption|].
    now apply (proj1 (forallb_forall _ _) Hy).
  - rewrite (IH Hl), andb_true_r.
    apply forallb_forall. intros z Hz.
    apply insertSorted_In in Hz as [->|Hz].
    + now apply (inOrder_total compare Hc).
    + now apply (proj1 (forallb_forall _ _) Hy).
Qed.

(** The array that [sort(Bookmark.sortByLocation)] leaves is in order. *)
Lemma arraySort_sorted (compare : string -> string -> Z) (l : list Bookmark.t) :
  collates compare ->
  sortedByLocation compare
    (Js.arraySort (Bookmark.sortByLocation compare) l) = true.
Proof.
  intros Hc. unfold Js.arraySort. induction l as [|x l IH]; simpl; [reflexivity|].
  now apply insertSorted_sorted.
Qed.

Lemma sortBookmarks_sorted (s : Main) :
  collates (localeCompare (host s)) -> sortedStore (sortBookmarks s).
Proof.
  intros Hc. unfold sortedStore, bookmarkValues, sortBookmarks.
  change (bookmarkAt (set_bookmarks ?l s)) with (bookmarkAt s).
  change (bookmarks (set_bookmarks ?l s)) with l.
  change (host (set_bookmarks ?l s)) with (host s).
  rewrite (arraySort_map (bookmarkAt s)
             (Bookmark.sortByLocation (localeCompare (host s)))).
  now apply arraySort_sorted.
Qed.

Lemma sortedStore_same (s s' : Main) :
  host s' = host s -> bheap s' = bheap s -> bookmarks s' = bookmarks s ->
  sortedStore s -> sortedStore s'.
Proof.
  unfold sortedStore, bookmarkValues. intros Hhost Hheap Hlist H.
  rewrite Hhost, Hlist. rewrite (map_ext _ (bookmarkAt s)); [assumption|].
  intros r. now apply bookmarkAt_ext.
Qed.

Lemma removeFirst_In (r x : nat) (l : list nat) :
  In x (Js.removeFirst r l) -> In x l.
Proof.
  induction l as [|y l IH]; simpl; [auto|].
  destruct (y =? r)%nat; simpl; intuition.
Qed.

(** Taking an entry out leaves the rest in order. *)
Lemma removeFirst_sorted (compare : string -> string -> Z)
    (f : nat -> Bookmark.t) (r : nat) (l : list nat) :
  sortedByLocation compare (map f l) = true ->
  sortedByLocation compare (map f (Js.removeFirst r l)) = true.
Proof.
  induction l as [|y l IH]; simpl; [auto|].
  intros H. apply andb_true_iff in H as [Hy Hl].
  destruct (y =? r)%nat; simpl; [assumption|].
  rewrite (IH Hl), andb_true_r.
  apply forallb_forall. intros z Hz.
  apply in_map_iff in Hz as (x & <- & Hx).
  apply (proj1 (forallb_forall _ _) Hy), in_map, (removeFirst_In r), Hx.
Qed.

(** So does keeping some of the entries. *)
Lemma filter_sorted (compare : string -> string -> Z)
    (f : nat -> Bookmark.t) (keep : nat -> bool) (l : list nat) :
  sortedByLocation compare (map f l) = true ->
  sortedByLocation compare (map f (List.filter keep l)) = true.
Proof.
  induction l as [|y l IH]; simpl; [auto|].
  intros H. apply andb_true_iff in H as [Hy Hl].
  destruct (keep y); simpl; [|now apply IH].
  rewrite (IH Hl), andb_true_r.
  apply forallb_forall. intros z Hz.
  apply in_map_iff in Hz as (x & <- & Hx). apply List.filter_In in Hx as [Hx _].
  apply (proj1 (forallb_forall _ _) Hy), in_map, Hx.
Qed.

Lemma saveState_host (s : Main) : host (snd (saveState s)) = host s.
Proof.
  unfold saveState.
  destruct (savedBookmarksFilePath s); [|reflexivity].
  destruct (isEmpty _); [destruct (existsSync _ _)|]; reflexivity.
Qed.

Lemma saveState_sorted (s : Main) :
  sortedStore s -> sortedStore (snd (saveState s)).
Proof.
  apply sortedStore_same; [apply saveState_host | apply saveState_frame..].
Qed.



(** * Further properties of the code *)

(** ** Deleting bookmarks *)

Lemma removeFirst_absent (b : nat) (l : list nat) :
  ~ In b l -> Js.removeFirst b l = l.
Proof.
  induction l as [|x l IH]; simpl; [reflexivity|]. intros H.
  destruct (x =? b)%nat eqn:E.
  - apply Nat.eqb_eq in E. subst. exfalso. apply H. now left.
  - f_equal. apply IH. intros Hb. apply H. now right.
Qed.

Lemma removeFirst_length (b : nat) (l : list nat) :
  In b l -> S (length (Js.removeFirst b l)) = length l.
Proof.
  induction l as [|x l IH]; simpl; [intros []|]. intros H.
  destruct (x =? b)%nat eqn:E; [reflexivity|]. simpl. f_equal.
  apply IH. destruct H as [->|H]; [|assumption].
  rewrite Nat.eqb_refl in E. discriminate.
Qed.

Lemma filter_not_In (b : nat) (l : list nat) :
  ~ In b (List.filter (fun x => negb (x =? b)%nat) l).
Proof.
  intros H. apply List.filter_In in H as [_ H].
  now rewrite Nat.eqb_refl in H.
Qed.

(** X1. [deleteBookmark] on a bookmark that the array does not hold changes
    nothing.  Otherwise it takes the first occurrence out of the array and
    touches no object; when the array holds no reference twice the bookmark
    is gone, the others stay in their order, and the lists fetched afterwards
    for the file and for the group of the bookmark do not hold it, since
    both cache entries were dropped. *)
Theorem deleteBookmark_then_lookups (s : Main) (b : nat) :
  let s' := deleteBookmark b s in
  let fsPath := Bookmark.fsPath (bookmarkAt s b) in
  let group := Bookmark.group (bookmarkAt s b) in
  (~ In b (bookmarks s) -> s' = s)
  /\ bheap s' = bheap s
  /\ bookmarks s' = Js.removeFirst b (bookmarks s)
  /\ (In b (bookmarks s) ->
      S (length (bookmarks s')) = length (bookmarks s)
      /\ tempDocumentBookmarks s' = delete fsPath (tempDocumentBookmarks s)
      /\ tempGroupBookmarks s' = delete group (tempGroupBookmarks s))
  /\ (List.NoDup (bookmarks s) ->
      ~ In b (bookmarks s')
      /\ bookmarks s' = List.filter (fun x => negb (x =? b)%nat) (bookmarks s)
      /\ (In b (bookmarks s) ->
          ~ In b (fst (getTempDocumentBookmarkList s' fsPath))
          /\ ~ In b (fst (getTempGroupBookmarkList s' group)))).
Proof.
  intros s' fsPath group.
  destruct (deleteBookmark_frame s b) as [Hheap Hbs]. fold s' in Hheap, Hbs.
  split; [|split; [exact Hheap | split; [exact Hbs | split]]].
  - intros Hb. unfold s', deleteBookmark.
    now rewrite (proj2 (includes_not_In b (bookmarks s)) Hb).
  - intros Hb. split; [rewrite Hbs; now apply removeFirst_length|].
    unfold s', deleteBookmark.
    rewrite (proj2 (includes_In b (bookmarks s)) Hb). simpl. auto.
  - intros Hnd.
    assert (Hf : bookmarks s' = List.filter (fun x => negb (x =? b)%nat) (bookmarks s))
      by (rewrite Hbs; now apply removeFirst_filter).
    split; [rewrite Hf; apply filter_not_In | split; [exact Hf|]].
    intros Hb. unfold s', deleteBookmark.
    rewrite (proj2 (includes_In b (bookmarks s)) Hb).
    unfold getTempDocumentBookmarkList, getTempGroupBookmarkList. simpl.
    rewrite !lookup_delete_eq. simpl.
    rewrite (removeFirst_filter b _ Hnd).
    split; intros H; apply List.filter_In in H as [H _];
      now apply filter_not_In in H.
Qed.

Lemma deleteBookmark_NoDup (b : nat) (s : Main) :
  List.NoDup (bookmarks s) -> List.NoDup (bookmarks (deleteBookmark b s)).
Proof.
  intros H. rewrite (proj2 (deleteBookmark_frame s b)), removeFirst_filter by assumption.
  now apply NoDup_filter_list.
Qed.

(** A run of [deleteBookmark] over a list fixed beforehand. *)
Lemma deleteAll_filter (l : list nat) (s : Main) :
  List.NoDup (bookmarks s) ->
  let s' := fold_left (fun st b => deleteBookmark b st) l s in
  bheap s' = bheap s
  /\ bookmarks s'
     = List.filter (fun x => negb (Js.includes x l)) (bookmarks s).
Proof.
  revert s. induction l as [|b l IH]; intros s Hnd; simpl.
  - split; [reflexivity|]. symmetry. now apply filter_all_true.
  - destruct (IH (deleteBookmark b s) (deleteBookmark_NoDup b s Hnd)) as [Hheap Hbs].
    destruct (deleteBookmark_frame s b) as [Hheap1 Hbs1].
    split; [congruence|]. rewrite Hbs, Hbs1, removeFirst_filter by assumption.
    rewrite filter_twice. apply filter_ext_in_eq. intros x _.
    unfold Js.includes. simpl. rewrite (Nat.eqb_sym x b).
    now destruct (b =? x)%nat.
Qed.

(** X2. With no reference twice in the array, [deleteBookmarksOfFile] takes
    out exactly the bookmarks of the file (of the given group, when one is
    given): the others stay in their order, no object is touched, and no
    bookmark of the file (and group) is left.  [actionDeleteBookmark] takes
    out exactly the selected bookmarks. *)
Theorem deleteBookmarksOfFile_removes_exactly (s : Main) (fsPath : string)
    (group : option nat) (selecteds : list nat) :
  List.NoDup (bookmarks s) ->
  let chosen := fun b =>
    ofFile s fsPath b
    && match group with
       | None => true
       | Some g => (g =? Bookmark.group (bookmarkAt s b))%nat
       end in
  let s' := deleteBookmarksOfFile fsPath group s in
  let s'' := actionDeleteBookmark (Some selecteds) s in
  (bookmarks s' = List.filter (fun b => negb (chosen b)) (bookmarks s)
   /\ bheap s' = bheap s
   /\ forall b, In b (bookmarks s') ->
        In b (bookmarks s) /\ bookmarkAt s' b = bookmarkAt s b /\ chosen b = false)
  /\ (bookmarks s''
      = List.filter (fun b => negb (Js.includes b selecteds)) (bookmarks s)
      /\ bheap s'' = bheap s).
Proof.
  intros Hnd chosen s' s''. split.
  - assert (Hs' : s' = snd (saveState
                             (fold_left (fun st b => deleteBookmark b st)
                                (List.filter chosen (bookmarks s)) s)))
      by reflexivity.
    destruct (saveState_frame
                (fold_left (fun st b => deleteBookmark b st)
                   (List.filter chosen (bookmarks s)) s)) as (Hheap & Hbs & _).
    destruct (deleteAll_filter (List.filter chosen (bookmarks s)) s Hnd)
      as [Hheap1 Hbs1].
    assert (Hkept : bookmarks s'
                    = List.filter (fun b => negb (chosen b)) (bookmarks s)).
    { rewrite Hs', Hbs, Hbs1. apply filter_ext_in_eq. intros x Hx. f_equal.
      destruct (chosen x) eqn:E.
      - apply includes_In, List.filter_In. auto.
      - apply includes_not_In. intros H. apply List.filter_In in H as [_ H].
        congruence. }
    split; [exact Hkept|].
    assert (Hh : bheap s' = bheap s) by (rewrite Hs'; congruence).
    split; [exact Hh|].
    intros b Hb. rewrite Hkept in Hb. apply List.filter_In in Hb as [Hb Hc].
    split; [assumption|]. split; [now apply bookmarkAt_ext|].
    now destruct (chosen b).
  - unfold s'', actionDeleteBookmark.
    destruct (saveState_frame
                (fold_left (fun st b => deleteBookmark b st) selecteds s))
      as (Hheap & Hbs & _).
    destruct (deleteAll_filter selecteds s Hnd) as [Hheap1 Hbs1].
    split; congruence.
Qed.

Lemma deleteBookmarksOfFile_removes_exactly_witness :
  bookmarks (deleteBookmarksOfFile "/ws/a.ts" None sampleThreeBookmarks) = [].
Proof.
  assert (Hnd : List.NoDup (bookmarks sampleThreeBookmarks))
    by (vm_compute; repeat constructor; simpl; intuition lia).
  destruct (deleteBookmarksOfFile_removes_exactly
              sampleThreeBookmarks "/ws/a.ts" None [] Hnd) as [[H _] _].
  rewrite H. vm_compute. reflexivity.
Defined.

(** ** Files deleted on disk *)

Lemma walkFrom_ext (hit hit' : nat -> bool) (stepOver : bool) (l : list nat) :
  (forall x, hit x = hit' x) -> walkFrom hit stepOver l = walkFrom hit' stepOver l.
Proof.
  intros H. revert stepOver. induction l as [|x l IH]; intros stepOver; simpl.
  - reflexivity.
  - rewrite (H x). destruct stepOver; [now rewrite IH|].
    destruct (hit' x); now rewrite IH.
Qed.

Lemma walkFrom_In (hit : nat -> bool) (stepOver : bool) (l : list nat) (x : nat) :
  In x (walkFrom hit stepOver l) -> In x l.
Proof.
  revert stepOver. induction l as [|y l IH]; intros stepOver; simpl; [auto|].
  destruct stepOver; simpl.
  - intros [H|H]; [auto | right; eapply IH; eauto].
  - destruct (hit y); simpl.
    + intros H. right. eapply IH; eauto.
    + intros [H|H]; [auto | right; eapply IH; eauto].
Qed.

Lemma walkFrom_keeps (hit : nat -> bool) (stepOver : bool) (l : list nat) (x : nat) :
  In x l -> hit x = false -> In x (walkFrom hit stepOver l).
Proof.
  revert stepOver. induction l as [|y l IH]; intros stepOver; simpl; [auto|].
  intros [->|Hx] Hh.
  - destruct stepOver; [now left|]. rewrite Hh. now left.
  - destruct stepOver; [right; now apply IH|].
    destruct (hit y); [|right]; now apply IH.
Qed.

(** Without two hits side by side the walk misses none. *)
Lemma walkFrom_filter (hit : nat -> bool) (l : list nat) :
  adjacentHits hit l = false ->
  walkFrom hit false l = List.filter (fun x => negb (hit x)) l.
Proof.
  induction l as [|x l IH]; intros H; [reflexivity|].
  assert (Hl : adjacentHits hit l = false).
  { simpl in H. destruct l; [reflexivity|].
    now apply orb_false_iff in H as [_ H]. }
  specialize (IH Hl). simpl.
  destruct (hit x) eqn:E; simpl; [|now rewrite IH].
  destruct l as [|y l]; [reflexivity|].
  simpl in H. rewrite E in H. simpl in H.
  apply orb_false_iff in H as [Hy _].
  rewrite <- IH. simpl. now rewrite Hy.
Qed.

Lemma deleteWhileWalking_past_end (steps : nat) (fsPath : string) (index : nat)
    (changed : bool) (s : Main) :
  (length (bookmarks s) <= index)%nat ->
  deleteWhileWalking steps fsPath index changed s = (changed, s).
Proof.
  intros H. destruct steps; simpl; [reflexivity|].
  now rewrite (proj2 (List.nth_error_None (bookmarks s) index) H).
Qed.

(** The loop of [onFilesDeleted] from position [length pre] on. *)
Lemma deleteWhileWalking_walk (steps : nat) (fsPath : string) :
  forall (pre rest : list nat) (changed : bool) (s : Main),
    List.NoDup (bookmarks s) ->
    bookmarks s = pre ++ rest ->
    (length rest <= steps)%nat ->
    let s' := snd (deleteWhileWalking steps fsPath (length pre) changed s) in
    bookmarks s' = pre ++ walkFrom (ofFile s fsPath) false rest
    /\ bheap s' = bheap s.
Proof.
  induction steps as [|steps IH]; intros pre rest changed s Hnd Hbs Hlen.
  - destruct rest; [|simpl in Hlen; lia]. simpl. now rewrite Hbs.
  - destruct rest as [|x rest].
    { rewrite deleteWhileWalking_past_end
        by (rewrite Hbs, List.length_app; simpl; lia).
      simpl. now rewrite Hbs. }
    simpl deleteWhileWalking.
    assert (Hnth : nth_error (bookmarks s) (length pre) = Some x).
    { rewrite Hbs, List.nth_error_app2 by lia.
      now rewrite Nat.sub_diag. }
    rewrite Hnth.
    change (String.eqb (Bookmark.fsPath (bookmarkAt s x)) fsPath)
      with (ofFile s fsPath x).
    simpl walkFrom. simpl in Hlen.
    destruct (ofFile s fsPath x) eqn:E.
    + destruct (deleteBookmark_frame s x) as [Hheap Hbs1].
      assert (Hx : ~ In x pre).
      { rewrite Hbs in Hnd. apply List.NoDup_remove_2 in Hnd.
        intros H. apply Hnd. apply List.in_or_app. now left. }
      assert (Hbs2 : bookmarks (deleteBookmark x s) = pre ++ rest).
      { rewrite Hbs1, Hbs. clear -Hx.
        induction pre as [|y pre IHp]; simpl.
        - now rewrite Nat.eqb_refl.
        - destruct (y =? x)%nat eqn:E.
          + apply Nat.eqb_eq in E. subst. exfalso. apply Hx. now left.
          + f_equal. apply IHp. intros H. apply Hx. now right. }
      destruct rest as [|y rest].
      * rewrite deleteWhileWalking_past_end
          by (rewrite Hbs2, List.length_app; simpl; lia).
        simpl. rewrite Hbs2. auto.
      * assert (Hbs3 : bookmarks (deleteBookmark x s) = (pre ++ [y]) ++ rest)
          by (rewrite Hbs2, <- List.app_assoc; reflexivity).
        destruct (IH (pre ++ [y]) rest true (deleteBookmark x s)
                    (deleteBookmark_NoDup x s Hnd) Hbs3) as [H1 H2];
          [simpl in Hlen; lia|].
        rewrite List.length_app in H1, H2. simpl in H1, H2.
        rewrite Nat.add_1_r in H1, H2.
        split; [|congruence]. rewrite H1, <- List.app_assoc. simpl.
        do 2 f_equal. apply walkFrom_ext. intros r. unfold ofFile.
        now rewrite (bookmarkAt_ext _ s r Hheap).
    + assert (Hbs3 : bookmarks s = (pre ++ [x]) ++ rest)
        by (rewrite Hbs, <- List.app_assoc; reflexivity).
      destruct (IH (pre ++ [x]) rest changed s Hnd Hbs3) as [H1 H2]; [lia|].
      rewrite List.length_app in H1, H2. simpl in H1, H2.
      rewrite Nat.add_1_r in H1, H2.
      split; [|exact H2]. rewrite H1, <- List.app_assoc. reflexivity.
Qed.

Lemma walkFrom_prefix (hit : nat -> bool) (pre l : list nat) :
  Forall (fun x => hit x = false) pre ->
  walkFrom hit false (pre ++ l) = pre ++ walkFrom hit false l.
Proof.
  induction 1 as [|x pre Hx _ IH]; simpl; [reflexivity|].
  now rewrite Hx, IH.
Qed.

Lemma onFilesDeleted_single (s : Main) (deletedFsPath : string) :
  List.NoDup (bookmarks s) ->
  bookmarks (onFilesDeleted [deletedFsPath] s)
  = walkFrom (ofFile s deletedFsPath) false (bookmarks s)
  /\ bheap (onFilesDeleted [deletedFsPath] s) = bheap s.
Proof.
  intros Hnd. unfold onFilesDeleted. simpl fold_left.
  destruct (deleteWhileWalking_walk (length (bookmarks s)) deletedFsPath
              [] (bookmarks s) false s Hnd eq_refl (le_n _)) as [H1 H2].
  simpl in H1, H2.
  destruct (deleteWhileWalking (length (bookmarks s)) deletedFsPath 0 false s)
    as [changesWereMade st1].
  simpl in H1, H2. destruct changesWereMade; [|auto].
  destruct (saveState_frame st1) as (Hheap & Hbs & _). split; congruence.
Qed.

(** X3. [onFilesDeleted] walks the live array while [deleteBookmark] splices
    it, so the entry behind a deleted one is stepped over.  With no reference
    twice in the array, what is left after one deleted path is the walk of
    the array: no object is touched, nothing is added, every bookmark of
    another file stays; the first bookmark of the deleted file goes, and a
    bookmark of the deleted file that sits right behind it stays.  When no
    two bookmarks of the file are side by side, all of them go. *)
Theorem onFilesDeleted_steps_over_neighbours (s : Main) (deletedFsPath : string) :
  List.NoDup (bookmarks s) ->
  let hit := ofFile s deletedFsPath in
  let s' := onFilesDeleted [deletedFsPath] s in
  bookmarks s' = walkFrom hit false (bookmarks s)
  /\ bheap s' = bheap s
  /\ (forall b, In b (bookmarks s') -> In b (bookmarks s))
  /\ (forall b, In b (bookmarks s) -> hit b = false -> In b (bookmarks s'))
  /\ (forall pre a b post,
        bookmarks s = pre ++ a :: b :: post ->
        Forall (fun x => hit x = false) pre -> hit a = true ->
        ~ In a (bookmarks s') /\ In b (bookmarks s'))
  /\ (adjacentHits hit (bookmarks s) = false ->
      bookmarks s' = List.filter (fun b => negb (hit b)) (bookmarks s)).
Proof.
  intros Hnd hit s'.
  destruct (onFilesDeleted_single s deletedFsPath Hnd) as [Hbs Hheap].
  fold hit in Hbs. fold s' in Hbs, Hheap.
  split; [exact Hbs|]. split; [exact Hheap|]. rewrite Hbs.
  split; [intros b; apply walkFrom_In|].
  split; [intros b; apply walkFrom_keeps|].
  split; [|apply walkFrom_filter].
  intros pre a b post Hsplit Hpre Ha.
  rewrite Hsplit, (walkFrom_prefix hit pre _ Hpre). simpl. rewrite Ha.
  rewrite Hsplit in Hnd.
  split.
  - intros H. apply List.in_app_or in H as [H|[H|H]].
    + apply List.NoDup_remove_2 in Hnd. apply Hnd. apply List.in_or_app. now left.
    + apply List.NoDup_remove_2 in Hnd. apply Hnd. apply List.in_or_app.
      right. now left.
    + apply walkFrom_In in H.
      apply List.NoDup_remove_2 in Hnd. apply Hnd. apply List.in_or_app.
      right. now right.
  - apply List.in_or_app. right. now left.
Qed.

(** The sample with bookmarks 3, 4 and 5 on three lines of one file: the
    handler leaves the one in the middle. *)
Lemma onFilesDeleted_steps_over_neighbours_witness :
  bookmarks (onFilesDeleted ["/ws/a.ts"] sampleThreeBookmarks) = [4%nat].
Proof.
  assert (Hnd : List.NoDup (bookmarks sampleThreeBookmarks))
    by (vm_compute; repeat constructor; simpl; intuition lia).
  destruct (onFilesDeleted_steps_over_neighbours
              sampleThreeBookmarks "/ws/a.ts" Hnd) as [H _].
  rewrite H. vm_compute. reflexivity.
Defined.

(** ** Files renamed on disk *)

Lemma renameStep_own (rename : Rename) (s : Main) (changedFiles : list (string * bool))
    (b : nat) :
  let s' := fst (renameStep rename (s, changedFiles) b) in
  bookmarks s' = bookmarks s
  /\ bookmarkAt s' b = renamed rename (bookmarkAt s b)
  /\ forall r, r <> b -> bookmarkAt s' r = bookmarkAt s r.
Proof.
  unfold renameStep, renamed.
  destruct (isDirectory rename);
    [destruct (Js.startsWith _ _) | destruct (String.eqb _ _)]; simpl;
    (split; [reflexivity|]); split; try reflexivity; try tauto.
  all: try (apply bookmarkAt_updateBookmark).
  all: intros r Hr; apply bookmarkAt_updateBookmark_other; congruence.
Qed.

Lemma renameLoop_own (rename : Rename) (l : list nat) :
  List.NoDup l ->
  forall (s : Main) (changedFiles : list (string * bool)),
    let s' := fst (fold_left (renameStep rename) l (s, changedFiles)) in
    bookmarks s' = bookmarks s
    /\ (forall b, In b l -> bookmarkAt s' b = renamed rename (bookmarkAt s b))
    /\ (forall r, ~ In r l -> bookmarkAt s' r = bookmarkAt s r).
Proof.
  induction 1 as [|x l Hx Hl IH]; intros s changedFiles.
  - simpl. split; [reflexivity|]. split; [intros b []|reflexivity].
  - cbn [fold_left].
    destruct (renameStep_own rename s changedFiles x) as (Hbs & Hown & Hother).
    destruct (renameStep rename (s, changedFiles) x) as [s1 changed1].
    simpl in Hbs, Hown, Hother.
    destruct (IH s1 changed1) as (Hbs' & Hin & Hout).
    split; [congruence|]. split.
    + intros b [<-|Hb].
      * now rewrite (Hout _ Hx).
      * rewrite (Hin b Hb). f_equal. apply Hother. intros ->. contradiction.
    + intros r Hr. rewrite Hout by (intros H; apply Hr; now right).
      apply Hother. intros ->. apply Hr. now left.
Qed.

Lemma renames_own (files : list Rename) :
  forall (s : Main) (changedFiles : list (string * bool)),
    List.NoDup (bookmarks s) ->
    let s' :=
      fst (fold_left
             (fun acc rename => fold_left (renameStep rename) (bookmarks (fst acc)) acc)
             files (s, changedFiles)) in
    bookmarks s' = bookmarks s
    /\ (forall b, In b (bookmarks s) ->
          bookmarkAt s' b
          = fold_left (fun v rename => renamed rename v) files (bookmarkAt s b))
    /\ (forall r, ~ In r (bookmarks s) -> bookmarkAt s' r = bookmarkAt s r).
Proof.
  induction files as [|rename files IH]; intros s changedFiles Hnd.
  - simpl. auto.
  - cbn [fold_left fst].
    destruct (renameLoop_own rename (bookmarks s) Hnd s changedFiles)
      as (Hbs & Hin & Hout).
    destruct (fold_left (renameStep rename) (bookmarks s) (s, changedFiles))
      as [s1 changed1].
    simpl in Hbs, Hin, Hout.
    destruct (IH s1 changed1) as (Hbs' & Hin' & Hout'); [now rewrite Hbs|].
    split; [congruence|]. split.
    + intros b Hb. rewrite Hin' by now rewrite Hbs. now rewrite Hin.
    + intros r Hr. rewrite Hout' by now rewrite Hbs. now apply Hout.
Qed.

Lemma forgetFiles_frame (changedFiles : list (string * bool)) (s : Main) :
  let s' :=
    fold_left (fun st '(changedFile, _) => forgetFile changedFile st)
              changedFiles s in
  bheap s' = bheap s /\ bookmarks s' = bookmarks s.
Proof.
  revert s. induction changedFiles as [|[f v] l IH]; intros s; simpl; [auto|].
  destruct (IH (forgetFile f s)) as [H1 H2]. split; [rewrite H1|rewrite H2];
    reflexivity.
Qed.

Lemma onFilesRenamed_pointwise (files : list Rename) (s : Main) :
  List.NoDup (bookmarks s) ->
  bookmarks (onFilesRenamed files s) = bookmarks s
  /\ (forall b, In b (bookmarks s) ->
        bookmarkAt (onFilesRenamed files s) b
        = fold_left (fun v rename => renamed rename v) files (bookmarkAt s b))
  /\ (forall r, ~ In r (bookmarks s) ->
        bookmarkAt (onFilesRenamed files s) r = bookmarkAt s r).
Proof.
  intros Hnd. unfold onFilesRenamed.
  destruct (renames_own files s [] Hnd) as (Hbs & Hin & Hout).
  destruct (fold_left _ files (s, [])) as [s1 changedFiles].
  simpl in Hbs, Hin, Hout.
  destruct (forgetFiles_frame changedFiles s1) as [Hheap2 Hbs2].
  set (s2 := fold_left _ changedFiles s1) in *.
  assert (H : bheap (if (Z.of_nat (length changedFiles) >? 0)%Z
                     then snd (saveState s2) else s2) = bheap s1
              /\ bookmarks (if (Z.of_nat (length changedFiles) >? 0)%Z
                            then snd (saveState s2) else s2) = bookmarks s1).
  { destruct (_ >? _)%Z; [|auto].
    destruct (saveState_frame s2) as (H1 & H2 & _). split; congruence. }
  destruct H as [Hh Hb].
  split; [congruence|]. split.
  - intros b Hin'. rewrite (bookmarkAt_ext _ s1 b Hh). now apply Hin.
  - intros r Hr. rewrite (bookmarkAt_ext _ s1 r Hh). now apply Hout.
Qed.

Lemma renamed_sameButPath (rename : Rename) (v : Bookmark.t) :
  sameButPath (renamed rename v) v.
Proof.
  unfold renamed, sameButPath.
  destruct (isDirectory rename);
    [destruct (Js.startsWith _ _) | destruct (String.eqb _ _)]; simpl; tauto.
Qed.

Lemma renamedAll_sameButPath (files : list Rename) (v : Bookmark.t) :
  sameButPath (fold_left (fun v rename => renamed rename v) files v) v.
Proof.
  revert v. induction files as [|rename files IH]; intros v; simpl.
  - unfold sameButPath. tauto.
  - specialize (IH (renamed rename v)).
    pose proof (renamed_sameButPath rename v) as H.
    unfold sameButPath in *. intuition congruence.
Qed.

Lemma prefix_app (p rest : string) : String.prefix p (p ++ rest) = true.
Proof.
  induction p as [|c p IH]; simpl; [now destruct rest|].
  destruct (Ascii.ascii_dec c c); [exact IH | congruence].
Qed.

Lemma substring_all (t : string) : String.substring 0 (String.length t) t = t.
Proof. induction t as [|c t IH]; simpl; [reflexivity | now rewrite IH]. Qed.

Lemma substring_after_prefix (p rest : string) :
  Js.substring (Js.len p) (Js.len (p ++ rest)) (p ++ rest) = rest.
Proof.
  unfold Js.substring, Js.clamp, Js.len.
  assert (Hlen : String.length (p ++ rest)
                 = (String.length p + String.length rest)%nat).
  { clear. induction p as [|c p IH]; simpl; [reflexivity | now rewrite IH]. }
  rewrite Hlen.
  replace (Z.min _ _) with (Z.of_nat (String.length p)) by lia.
  replace (Z.max _ _) with (Z.of_nat (String.length p + String.length rest)) by lia.
  replace (Z.to_nat (_ - _)) with (String.length rest) by lia.
  rewrite Nat2Z.id. clear Hlen.
  induction p as [|c p IH]; simpl; [apply substring_all | exact IH].
Qed.

(** X4. With no reference twice in the array, [onFilesRenamed] keeps the
    array as it is (same bookmarks, same order) and rewrites paths only:
    every bookmark of the array ends with the path that the renames of the
    event, applied in turn, make of its path, and keeps its line, column,
    label, text, flags and group; objects outside the array are not touched.
    Under a renamed directory a path keeps what follows the old directory
    path, character by character.  Renaming a file to a path that no
    bookmark has and back restores every bookmark. *)
Theorem onFilesRenamed_rewrites_paths (s : Main) (files : list Rename) :
  List.NoDup (bookmarks s) ->
  let s' := onFilesRenamed files s in
  bookmarks s' = bookmarks s
  /\ (forall b, In b (bookmarks s) ->
        bookmarkAt s' b
        = fold_left (fun v rename => renamed rename v) files (bookmarkAt s b))
  /\ (forall b, ~ In b (bookmarks s) -> bookmarkAt s' b = bookmarkAt s b)
  /\ (forall b, sameButPath (bookmarkAt s' b) (bookmarkAt s b))
  /\ (forall oldPath newPath rest b,
        files = [mkRename oldPath newPath true] ->
        In b (bookmarks s) ->
        Bookmark.fsPath (bookmarkAt s b) = (oldPath ++ rest)%string ->
        Bookmark.fsPath (bookmarkAt s' b) = (newPath ++ rest)%string)
  /\ (forall oldPath newPath,
        (forall b, In b (bookmarks s) ->
           Bookmark.fsPath (bookmarkAt s b) <> newPath) ->
        forall b,
          bookmarkAt
            (onFilesRenamed [mkRename newPath oldPath false]
               (onFilesRenamed [mkRename oldPath newPath false] s)) b
          = bookmarkAt s b).
Proof.
  intros Hnd s'.
  destruct (onFilesRenamed_pointwise files s Hnd) as (Hbs & Hin & Hout).
  fold s' in Hbs, Hin, Hout.
  split; [exact Hbs|]. split; [exact Hin|]. split; [exact Hout|].
  split; [|split].
  - intros b. destruct (List.in_dec Nat.eq_dec b (bookmarks s)) as [Hb|Hb].
    + rewrite (Hin b Hb). apply renamedAll_sameButPath.
    + rewrite (Hout b Hb). unfold sameButPath. tauto.
  - intros oldPath newPath rest b -> Hb Hpath.
    rewrite (Hin b Hb). simpl. unfold renamed. simpl.
    rewrite Hpath. unfold Js.startsWith. rewrite prefix_app. simpl.
    now rewrite substring_after_prefix.
  - intros oldPath newPath Hfresh b.
    destruct (onFilesRenamed_pointwise [mkRename oldPath newPath false] s Hnd)
      as (Hbs1 & Hin1 & Hout1).
    set (s1 := onFilesRenamed [mkRename oldPath newPath false] s) in *.
    destruct (onFilesRenamed_pointwise [mkRename newPath oldPath false] s1)
      as (Hbs2 & Hin2 & Hout2); [now rewrite Hbs1|].
    destruct (List.in_dec Nat.eq_dec b (bookmarks s)) as [Hb|Hb].
    + rewrite Hin2 by now rewrite Hbs1. rewrite (Hin1 b Hb).
      specialize (Hfresh b Hb). simpl. unfold renamed. simpl.
      destruct (String.eqb_spec (Bookmark.fsPath (bookmarkAt s b)) oldPath) as [E|E].
      * simpl. rewrite String.eqb_refl. rewrite <- E.
        now destruct (bookmarkAt s b).
      * destruct (String.eqb_spec (Bookmark.fsPath (bookmarkAt s b)) newPath);
          [contradiction | reflexivity].
    + rewrite Hout2 by now rewrite Hbs1. now apply Hout1.
Qed.

(** The sample with two bookmarks in [/ws/a.ts]: the directory [/ws] becomes
    [/work]. *)
Lemma onFilesRenamed_rewrites_paths_witness :
  Bookmark.fsPath
    (bookmarkAt (onFilesRenamed [mkRename "/ws" "/work" true] sampleTwoBookmarks) 3)
  = "/work/a.ts".
Proof.
  assert (Hnd : List.NoDup (bookmarks sampleTwoBookmarks))
    by (vm_compute; repeat constructor; simpl; intuition lia).
  destruct (onFilesRenamed_rewrites_paths
              sampleTwoBookmarks [mkRename "/ws" "/work" true] Hnd)
    as (_ & _ & _ & _ & Hdir & _).
  apply (Hdir "/ws" "/work" "/a.ts" 3%nat eq_refl).
  - vm_compute. auto.
  - vm_compute. reflexivity.
Defined.

(** ** The array after a rename (C9) *)

(** C9. The handler of file renames rewrites the path, the first key of
    the order of the array, in place and never sorts: whatever the renames,
    the array holds the same bookmarks in the same places afterwards.  With
    one bookmark on line 3 of [/ws/a.ts] and one on line 5 of [/ws/m.ts],
    an array in order, renaming [/ws/a.ts] to [/ws/z.ts] leaves the two
    where they were, the bookmark of [/ws/z.ts] before the one of
    [/ws/m.ts]: the array is out of order.  The next bookmark from the top
    of [/ws/b.ts] is then the one in [/ws/z.ts], although the one in
    [/ws/m.ts] comes first, as it does once the array is sorted. *)
Theorem rename_leaves_bookmarks_unsorted :
  (forall s files,
     List.NoDup (bookmarks s) -> bookmarks (onFilesRenamed files s) = bookmarks s)
  /\ sortedStore sampleTwoFiles
  /\ map location (bookmarkValues sampleTwoFiles)
     = [("/ws/a.ts", 3%Z, 0%Z); ("/ws/m.ts", 5%Z, 0%Z)]
  /\ sampleRenamed
     = onFilesRenamed [mkRename "/ws/a.ts" "/ws/z.ts" false] sampleTwoFiles
  /\ bookmarks sampleRenamed = bookmarks sampleTwoFiles
  /\ map location (bookmarkValues sampleRenamed)
     = [("/ws/z.ts", 3%Z, 0%Z); ("/ws/m.ts", 5%Z, 0%Z)]
  /\ sortedByLocation (localeCompare (host sampleRenamed))
       (bookmarkValues sampleRenamed) = false
  /\ ~ sortedStore sampleRenamed
  /\ fst (nextBookmark sampleRenamed "/ws/b.ts" 0) = Some 3%nat
  /\ map location (bookmarkValues (sortBookmarks sampleRenamed))
     = [("/ws/m.ts", 5%Z, 0%Z); ("/ws/z.ts", 3%Z, 0%Z)]
  /\ fst (nextBookmark (sortBookmarks sampleRenamed) "/ws/b.ts" 0) = Some 4%nat.
Proof.
  split.
  { intros s files Hnd. now destruct (onFilesRenamed_pointwise files s Hnd). }
  assert (Hout : sortedByLocation (localeCompare (host sampleRenamed))
                   (bookmarkValues sampleRenamed) = false)
    by (vm_compute; reflexivity).
  split; [vm_compute; reflexivity|].
  split; [vm_compute; reflexivity|].
  split; [reflexivity|].
  split; [vm_compute; reflexivity|].
  split; [vm_compute; reflexivity|].
  split; [exact Hout|].
  split; [unfold sortedStore; rewrite Hout; discriminate|].
  split; [vm_compute; reflexivity|].
  split; vm_compute; reflexivity.
Qed.

(** ** The group registry *)

Lemma len_zero (t : string) : (Js.length t =? 0)%Z = String.eqb t EmptyString.
Proof.
  destruct t as [|c t]; [reflexivity|]. unfold Js.length. simpl.
  assert (H := fun pending => unitsFrom_nonnegative t pending).
  destruct (Js.isContinuation c).
  - specialize (H 0%nat). lia.
  - repeat match goal with
           | |- context [if ?x then _ else _] => destruct x
           end;
      [specialize (H 0%nat) | specialize (H 1%nat) | specialize (H 2%nat)
       | specialize (H 3%nat)]; lia.
Qed.

Lemma find_existsb {A : Type} (p : A -> bool) (l : list A) :
  existsb p l = match List.find p l with Some _ => true | None => false end.
Proof.
  induction l as [|x l IH]; simpl; [reflexivity|].
  destruct (p x); [reflexivity | exact IH].
Qed.

(** Giving one element of a list with distinct images a new image that no
    other element has keeps the images distinct. *)
Lemma NoDup_map_update {B : Type} (f : nat -> B) (k : nat) (v : B) (l : list nat) :
  List.NoDup (map f l) ->
  (forall x, In x l -> x <> k -> f x <> v) ->
  List.NoDup (map (fun x => if (x =? k)%nat then v else f x) l).
Proof.
  induction l as [|x l IH]; simpl; intros Hnd Hv; [constructor|].
  inversion Hnd as [|? ? Hx Hl]; subst.
  constructor; [|apply IH; auto].
  intros Hin. apply in_map_iff in Hin as (y & Hy & Hyl).
  destruct (Nat.eqb_spec x k) as [Exk|Hxk]; destruct (Nat.eqb_spec y k) as [Eyk|Hyk].
  - apply Hx. rewrite Exk, <- Eyk. now apply in_map.
  - apply (Hv y); auto.
  - apply (Hv x); auto.
  - apply Hx. rewrite <- Hy. now apply in_map.
Qed.

Lemma groupAt_updateGroup (s : Main) (r : nat) (f : Group.t -> Group.t) :
  groupAt (updateGroup r f s) r = f (groupAt s r)
  /\ forall r', r' <> r -> groupAt (updateGroup r f s) r' = groupAt s r'.
Proof.
  unfold groupAt, updateGroup. simpl. split.
  - apply lookup_total_insert_eq.
  - intros r' Hr. apply lookup_total_insert_ne. congruence.
Qed.

Lemma groupAt_ext (s s' : Main) (r : nat) :
  gheap s = gheap s' -> groupAt s r = groupAt s' r.
Proof. unfold groupAt. now intros ->. Qed.

(** X5. [renameGroup] changes nothing when the box is dismissed or the
    trimmed input is empty or the name the group has; it only shows an error
    when the trimmed input is longer than [maxGroupNameLength] or is the name
    of another group of the registry.  Otherwise the group object gets the
    trimmed input as its name and keeps everything else: no other group, no
    bookmark and neither array changes (the group keeps its place), the
    active group stays, and distinct names stay distinct. *)
Theorem renameGroup_validates (s : Main) (group : nat) (input : string) :
  let newName := Js.trim input in
  let s' := renameGroup group (Some input) s in
  renameGroup group None s = s
  /\ (newName = EmptyString \/ newName = Group.name (groupAt s group) -> s' = s)
  /\ (newName <> EmptyString -> newName <> Group.name (groupAt s group) ->
      (Js.length newName > maxGroupNameLength (host s))%Z
      \/ nameTaken s group newName = true ->
      exists message, s' = showMessage (Vscode.ErrorMessage message) s)
  /\ (newName <> EmptyString -> newName <> Group.name (groupAt s group) ->
      (Js.length newName <= maxGroupNameLength (host s))%Z ->
      nameTaken s group newName = false ->
      groupAt s' group = Group.setName newName (groupAt s group)
      /\ (forall g, g <> group -> groupAt s' g = groupAt s g)
      /\ groups s' = groups s /\ activeGroup s' = activeGroup s
      /\ bookmarks s' = bookmarks s /\ bheap s' = bheap s
      /\ notifications s' = notifications s
      /\ (List.NoDup (groupNames s) -> List.NoDup (groupNames s'))).
Proof.
  intros newName s'. split; [reflexivity|].
  unfold s', renameGroup. fold newName. rewrite len_zero.
  unfold nameTaken. rewrite find_existsb.
  split; [|split].
  - intros [H|H]; rewrite H; [reflexivity|].
    rewrite String.eqb_refl. now destruct (String.eqb _ EmptyString).
  - intros Hne Hcur Hbad.
    rewrite (proj2 (String.eqb_neq _ _) Hne), (proj2 (String.eqb_neq _ _) Hcur).
    destruct (Js.length newName >? maxGroupNameLength (host s))%Z eqn:E; [eauto|].
    destruct Hbad as [Hlong|Htaken]; [lia|].
    destruct (List.find _ (groups s)); [eauto | discriminate].
  - intros Hne Hcur Hlen Hfree.
    rewrite (proj2 (String.eqb_neq _ _) Hne), (proj2 (String.eqb_neq _ _) Hcur).
    replace (Js.length newName >? maxGroupNameLength (host s))%Z with false by lia.
    destruct (List.find _ (groups s)) eqn:Hfind; [discriminate|].
    set (s1 := updateGroup group (Group.setName newName) s).
    destruct (saveState_frame s1) as (Hb & Hbs & Hg & Hgs & Ha & Hn).
    destruct (groupAt_updateGroup s group (Group.setName newName)) as [Hown Hother].
    fold s1 in Hown, Hother.
    split; [now rewrite (groupAt_ext _ s1 group Hg)|].
    split; [intros g Hgne; rewrite (groupAt_ext _ s1 g Hg); now apply Hother|].
    repeat (split; [assumption|]).
    intros Hnd. unfold groupNames. rewrite Hgs. simpl.
    rewrite (map_ext_in _ (fun g => if (g =? group)%nat then newName
                                    else Group.name (groupAt s g))).
    + apply NoDup_map_update; [exact Hnd|].
      intros x Hx Hxg Hname.
      apply find_none_all in Hfind. rewrite List.Forall_forall in Hfind.
      specialize (Hfind x Hx). simpl in Hfind.
      rewrite (proj2 (Nat.eqb_neq x group) Hxg), Hname, String.eqb_refl in Hfind.
      discriminate.
    + intros g _. rewrite (groupAt_ext _ s1 g Hg).
      destruct (Nat.eqb_spec g group) as [->|Hgne].
      * now rewrite Hown.
      * now rewrite Hother.
Qed.

Lemma setGroupVisibilities_loop (l : list nat) (s : Main) :
  let s' :=
    fold_left
      (fun st group =>
         updateGroup group (fun g => Group.setIsVisible (visibleFor st g) g) st)
      l s in
  set_gheap (gheap s) s' = s
  /\ forall g,
       groupAt s' g
       = if Js.includes g l
         then Group.setIsVisible (visibleFor s (groupAt s g)) (groupAt s g)
         else groupAt s g.
Proof.
  revert s. induction l as [|x l IH]; intros s; simpl.
  - split; [now destruct s | reflexivity].
  - destruct (IH (updateGroup x
                    (fun g => Group.setIsVisible (visibleFor s g) g) s))
      as [Hframe Hat].
    destruct (groupAt_updateGroup s x
                (fun g => Group.setIsVisible (visibleFor s g) g)) as [Hown Hother].
    split.
    + pose proof (f_equal (set_gheap (gheap s)) Hframe) as H.
      unfold updateGroup in H. destruct s. exact H.
    + intros g. rewrite Hat. unfold Js.includes. simpl.
      rewrite (Nat.eqb_sym g x).
      destruct (Nat.eqb_spec x g) as [<-|Hne]; simpl.
      * rewrite Hown. now destruct (existsb _ l).
      * rewrite Hother by congruence. reflexivity.
Qed.

Lemma setGroupVisibilities_spec (s : Main) :
  set_gheap (gheap s) (setGroupVisibilities s) = s
  /\ forall g,
       groupAt (setGroupVisibilities s) g
       = if Js.includes g (groups s)
         then Group.setIsVisible (visibleFor s (groupAt s g)) (groupAt s g)
         else groupAt s g.
Proof. exact (setGroupVisibilities_loop (groups s) s). Qed.

Lemma set_gheap_fields (s s' : Main) :
  set_gheap (gheap s) s' = s ->
  groups s' = groups s /\ activeGroup s' = activeGroup s
  /\ bookmarks s' = bookmarks s /\ bheap s' = bheap s
  /\ nextRef s' = nextRef s /\ hideAll s' = hideAll s
  /\ hideInactiveGroups s' = hideInactiveGroups s
  /\ notifications s' = notifications s /\ host s' = host s.
Proof. intros <-. simpl. repeat split. Qed.

(** What [ensureGroup] hands back, whichever way it takes. *)
Lemma ensureGroup_result (s : Main) (name : string) :
  let g := fst (ensureGroup s name) in
  let s1 := snd (ensureGroup s name) in
  In g (groups s1)
  /\ Group.name (groupAt s1 g) = name
  /\ activeGroup s1 = activeGroup s /\ bookmarks s1 = bookmarks s
  /\ bheap s1 = bheap s /\ hideAll s1 = hideAll s
  /\ hideInactiveGroups s1 = hideInactiveGroups s
  /\ notifications s1 = notifications s /\ host s1 = host s
  /\ (nextRef s <= nextRef s1)%nat
  /\ (forall x, In x (groups s) -> In x (groups s1)).
Proof.
  unfold ensureGroup.
  destruct (List.find _ (groups s)) as [g|] eqn:Hfind; simpl.
  - apply List.find_some in Hfind as [Hin Hname].
    apply String.eqb_eq in Hname. repeat split; auto.
  - assert (Hperm : Permutation
                      (Js.arraySort
                         (fun a b =>
                            Group.sortByName
                              (groupAt (addNewGroup (nextRef s)
                                          (snd (allocGroup
                                                  (Group.new name (getLeastUsedColor s)
                                                     (defaultShape s) name) s))) a)
                              (groupAt (addNewGroup (nextRef s)
                                          (snd (allocGroup
                                                  (Group.new name (getLeastUsedColor s)
                                                     (defaultShape s) name) s))) b))
                         (groups s ++ [nextRef s]))
                      (groups s ++ [nextRef s]))
      by apply arraySort_Permutation.
    split; [|split].
    + eapply Permutation_in; [symmetry; exact Hperm|].
      apply List.in_or_app. right. now left.
    + unfold groupAt. simpl. now rewrite lookup_total_insert_eq.
    + repeat split; auto. intros x Hx.
      eapply Permutation_in; [symmetry; exact Hperm|].
      apply List.in_or_app. now left.
Qed.

Lemma setIsVisible_sameButFlags (v : bool) (g : Group.t) :
  sameButFlags (Group.setIsVisible v g) g.
Proof. unfold sameButFlags. simpl. tauto. Qed.

(** What [activateGroup] leaves, read against the state that [ensureGroup]
    hands over. *)
Lemma activateGroup_spec (s : Main) (name : string) :
  let g := fst (ensureGroup s name) in
  let s1 := snd (ensureGroup s name) in
  let s' := activateGroup s name in
  activeGroup s' = g
  /\ groups s' = groups s1 /\ bookmarks s' = bookmarks s /\ bheap s' = bheap s
  /\ nextRef s' = nextRef s1 /\ hideAll s' = hideAll s
  /\ hideInactiveGroups s' = hideInactiveGroups s
  /\ notifications s' = notifications s /\ host s' = host s
  /\ (forall r, sameButFlags (groupAt s' r) (groupAt s1 r))
  /\ (g = activeGroup s -> s' = s1)
  /\ (g <> activeGroup s ->
      Group.isActive (groupAt s' g) = true
      /\ Group.isActive (groupAt s' (activeGroup s)) = false
      /\ (forall r, r <> g -> r <> activeGroup s ->
            Group.isActive (groupAt s' r) = Group.isActive (groupAt s1 r))
      /\ forall r, In r (groups s') ->
           Group.isVisible (groupAt s' r) = visibleFor s (groupAt s' r)).
Proof.
  intros g s1 s'.
  destruct (ensureGroup_result s name)
    as (Hin & Hname & Ha & Hbs & Hb & Hh1 & Hh2 & Hn & Hhost & Hnext & Hsub).
  fold g in Hin, Hname. fold s1 in Hin, Hname, Ha, Hbs, Hb, Hh1, Hh2, Hn, Hhost, Hnext, Hsub.
  unfold s', activateGroup.
  destruct (ensureGroup s name) eqn:E; simpl in *.
  fold g s1. cbv iota beta.
  destruct (Nat.eqb_spec g (activeGroup s1)) as [Heq|Hneq].
  - rewrite Ha in Heq.
    repeat (split; [first [assumption | reflexivity | congruence]|]).
    split; [intros r; unfold sameButFlags; tauto|].
    split; [reflexivity|]. intros H. contradiction.
  - set (s2 := updateGroup (activeGroup s1) (Group.setIsActive false) s1).
    set (s3 := set_activeGroup g s2).
    set (s4 := updateGroup g (Group.setIsActive true) s3).
    destruct (setGroupVisibilities_spec s4) as [Hframe Hat].
    destruct (set_gheap_fields s4 _ Hframe)
      as (Fg & Fa & Fbs & Fb & Fn & Fh1 & Fh2 & Fnote & Fhost).
    destruct (groupAt_updateGroup s1 (activeGroup s1) (Group.setIsActive false))
      as [Hold Hold'].
    fold s2 in Hold, Hold'.
    destruct (groupAt_updateGroup s3 g (Group.setIsActive true)) as [Hnew Hnew'].
    fold s4 in Hnew, Hnew'.
    assert (H3 : forall r, groupAt s3 r = groupAt s2 r) by reflexivity.
    assert (Hvis : forall r, visibleFor s4 r = visibleFor s r).
    { intros r. unfold visibleFor. simpl. now rewrite Hh1, Hh2. }
    split; [rewrite Fa; reflexivity|].
    split; [rewrite Fg; reflexivity|].
    split; [rewrite Fbs; exact Hbs|]. split; [rewrite Fb; exact Hb|].
    split; [rewrite Fn; reflexivity|]. split; [rewrite Fh1; exact Hh1|].
    split; [rewrite Fh2; exact Hh2|]. split; [rewrite Fnote; exact Hn|].
    split; [rewrite Fhost; exact Hhost|].
    assert (Hflags : forall r, sameButFlags (groupAt s4 r) (groupAt s1 r)).
    { intros r. destruct (Nat.eq_dec r g) as [->|Hr].
      - rewrite Hnew, H3, Hold' by congruence. unfold sameButFlags. simpl. tauto.
      - rewrite Hnew', H3 by assumption.
        destruct (Nat.eq_dec r (activeGroup s1)) as [->|Hr'].
        + rewrite Hold. unfold sameButFlags. simpl. tauto.
        + rewrite Hold' by assumption. unfold sameButFlags. tauto. }
    assert (Hact : forall r, Group.isActive (groupAt (setGroupVisibilities s4) r)
                             = Group.isActive (groupAt s4 r)).
    { intros r. rewrite Hat. now destruct (Js.includes r (groups s4)). }
    split.
    { intros r. rewrite Hat. specialize (Hflags r).
      destruct (Js.includes r (groups s4)); [|exact Hflags].
      unfold sameButFlags in *. simpl. exact Hflags. }
    split; [intros H; rewrite Ha in Hneq; contradiction|].
    intros _. rewrite !Hact. rewrite <- Ha.
    split; [now rewrite Hnew|].
    split; [rewrite Hnew', H3, Hold by congruence; reflexivity|].
    split.
    + intros r Hr1 Hr2. rewrite Hact, Hnew', H3, Hold' by assumption. reflexivity.
    + intros r Hr. rewrite Fg in Hr. rewrite Hat.
      rewrite (proj2 (includes_In r (groups s4)) Hr). simpl.
      unfold visibleFor. simpl. now rewrite Hh1, Hh2.
Qed.

(** [saveState] writes the memento, the file system and the time of the
    last save, and nothing else. *)
Lemma saveState_touches (s : Main) :
  set_fs (fs s)
    (set_lastSaveTimestamp (lastSaveTimestamp s)
       (set_workspaceState (workspaceState s) (snd (saveState s)))) = s.
Proof.
  unfold saveState. destruct (savedBookmarksFilePath s); [|now destruct s].
  destruct (isEmpty _); [destruct (existsSync _ _)|]; now destruct s.
Qed.

Lemma saveState_hide (s : Main) :
  hideAll (snd (saveState s)) = hideAll s
  /\ hideInactiveGroups (snd (saveState s)) = hideInactiveGroups s
  /\ nextRef (snd (saveState s)) = nextRef s
  /\ host (snd (saveState s)) = host s
  /\ clock (snd (saveState s)) = clock s
  /\ tempDocumentBookmarks (snd (saveState s)) = tempDocumentBookmarks s
  /\ tempGroupBookmarks (snd (saveState s)) = tempGroupBookmarks s
  /\ colors (snd (saveState s)) = colors s
  /\ defaultShape (snd (saveState s)) = defaultShape s.
Proof.
  pose proof (saveState_touches s) as H.
  rewrite <- H at 2 4 6 8 10 12 14 16 18. simpl. repeat split.
Qed.

Lemma NoDup_map_injective {A B : Type} (f : A -> B) (l : list A) (x y : A) :
  List.NoDup (map f l) -> In x l -> In y l -> f x = f y -> x = y.
Proof.
  induction l as [|z l IH]; simpl; [tauto|].
  intros Hnd [->|Hx] [->|Hy] E; auto; inversion Hnd as [|? ? Hz Hl]; subst.
  - exfalso. apply Hz. rewrite E. now apply in_map.
  - exfalso. apply Hz. rewrite <- E. now apply in_map.
  - now apply IH.
Qed.

Lemma find_name_In (s : Main) (name : string) :
  In name (groupNames s)
  <-> exists g,
        List.find (fun group => String.eqb (Group.name (groupAt s group)) name)
                  (groups s) = Some g.
Proof.
  unfold groupNames. rewrite in_map_iff. split.
  - intros (g & Hname & Hin).
    destruct (List.find _ (groups s)) as [g'|] eqn:E; [eauto|].
    apply find_none_all in E. rewrite List.Forall_forall in E.
    specialize (E g Hin). simpl in E. rewrite Hname, String.eqb_refl in E.
    discriminate.
  - intros (g & Hfind). apply List.find_some in Hfind as [Hin Hname].
    apply String.eqb_eq in Hname. eauto.
Qed.

(** X6. [actionAddGroup] changes nothing when the box is dismissed or the
    trimmed input is empty, and only shows an error when the trimmed input
    is longer than [maxGroupNameLength].  Otherwise the active group ends up
    being a group of the registry that bears the trimmed input as its name;
    no group leaves the registry and no bookmark is touched; the registry is
    as it was when a group had that name already, and holds one more group,
    the new one, when none had. *)
Theorem actionAddGroup_validates_and_activates (s : Main) (input : string) :
  let groupName := Js.trim input in
  let s' := actionAddGroup (Some input) s in
  actionAddGroup None s = s
  /\ (groupName = EmptyString -> s' = s)
  /\ (groupName <> EmptyString ->
      (Js.length groupName > maxGroupNameLength (host s))%Z ->
      exists message, s' = showMessage (Vscode.ErrorMessage message) s)
  /\ (groupName <> EmptyString ->
      (Js.length groupName <= maxGroupNameLength (host s))%Z ->
      Group.name (groupAt s' (activeGroup s')) = groupName
      /\ In (activeGroup s') (groups s')
      /\ (forall g, In g (groups s) -> In g (groups s'))
      /\ bookmarks s' = bookmarks s /\ bheap s' = bheap s
      /\ (In groupName (groupNames s) -> groups s' = groups s)
      /\ (~ In groupName (groupNames s) ->
          Permutation (groups s') (groups s ++ [nextRef s])
          /\ activeGroup s' = nextRef s)).
Proof.
  intros groupName s'. split; [reflexivity|].
  unfold s', actionAddGroup. fold groupName.
  split; [intros ->; reflexivity|]. split.
  - intros Hne Hlong. rewrite (proj2 (String.eqb_neq _ _) Hne).
    replace (Js.length groupName >? maxGroupNameLength (host s))%Z with true by lia.
    eauto.
  - intros Hne Hlen. rewrite (proj2 (String.eqb_neq _ _) Hne).
    replace (Js.length groupName >? maxGroupNameLength (host s))%Z with false by lia.
    destruct (saveState_frame (activateGroup s groupName))
      as (Hb & Hbs & Hg & Hgs & Ha & _).
    destruct (activateGroup_spec s groupName)
      as (Fa & Fg & Fbs & Fb & _ & _ & _ & _ & _ & Fflags & _).
    destruct (ensureGroup_result s groupName)
      as (Hin & Hname & _ & _ & _ & _ & _ & _ & _ & _ & Hsub).
    rewrite Ha, Hgs, Hbs, Hb, Fa, Fg, Fbs, Fb.
    rewrite (groupAt_ext _ (activateGroup s groupName) _ Hg).
    split; [rewrite (proj1 (Fflags _)); exact Hname|].
    split; [exact Hin|]. split; [exact Hsub|].
    split; [reflexivity|]. split; [reflexivity|]. split.
    + intros Hold. apply find_name_In in Hold as (g & Hfind).
      now rewrite (ensureGroup_finds s groupName g Hfind).
    + intros Hnew.
      assert (Hfresh : forall g, In g (groups s) ->
                                 Group.name (groupAt s g) <> groupName).
      { intros g Hgin Hgname. apply Hnew. unfold groupNames.
        apply in_map_iff. eauto. }
      destruct (ensureGroup_creates s groupName Hfresh) as (H1 & H2 & _).
      rewrite H1 in H2. auto.
Qed.

(** X7. After [setActiveGroup] the active group is a group of the registry
    that bears the given name.  When that is another group than before, it
    is flagged active, the group that was active is flagged inactive, no
    other group changes its active flag, and every group of the registry is
    visible exactly when nothing is hidden, or only inactive groups are and
    it is the active one; names, colors and shapes are untouched.
    Activating the name of the active group changes nothing in a registry
    with distinct names. *)
Theorem setActiveGroup_switches_flags (s : Main) (name : string) :
  let s1 := snd (ensureGroup s name) in
  let s' := setActiveGroup name s in
  let was := activeGroup s in
  let now := activeGroup s' in
  Group.name (groupAt s' now) = name
  /\ In now (groups s')
  /\ (forall r, sameButFlags (groupAt s' r) (groupAt s1 r))
  /\ (now <> was ->
      Group.isActive (groupAt s' now) = true
      /\ Group.isActive (groupAt s' was) = false
      /\ (forall r, r <> now -> r <> was ->
            Group.isActive (groupAt s' r) = Group.isActive (groupAt s1 r))
      /\ forall r, In r (groups s') ->
           Group.isVisible (groupAt s' r) = visibleFor s' (groupAt s' r))
  /\ (In was (groups s) -> List.NoDup (groupNames s) ->
      Group.name (groupAt s was) = name ->
      activateGroup s name = s).
Proof.
  intros s1 s' was now.
  destruct (saveState_frame (activateGroup s name))
    as (Hb & Hbs & Hg & Hgs & Ha & _).
  destruct (activateGroup_spec s name)
    as (Fa & Fg & _ & _ & _ & Fh1 & Fh2 & _ & _ & Fflags & Fsame & Fswitch).
  destruct (ensureGroup_result s name) as (Hin & Hname & _).
  fold s1 in Fg, Fflags, Fsame, Fswitch, Hin, Hname.
  assert (Hat : forall r, groupAt s' r = groupAt (activateGroup s name) r)
    by (intros r; now apply groupAt_ext).
  assert (Hnow : now = fst (ensureGroup s name))
    by (unfold now, s', setActiveGroup; congruence).
  split; [rewrite Hat, (proj1 (Fflags _)), Hnow; exact Hname|].
  split; [unfold s', setActiveGroup; rewrite Hgs, Fg, Hnow; exact Hin|].
  split; [intros r; rewrite Hat; apply Fflags|].
  split.
  - intros Hne. rewrite Hnow in Hne. destruct (Fswitch Hne) as (A1 & A2 & A3 & A4).
    rewrite !Hat, Hnow. split; [exact A1|]. split; [exact A2|].
    split; [intros r Hr1 Hr2; rewrite Hat; now apply A3|].
    intros r Hr. rewrite Hat.
    assert (Hvis : forall g, visibleFor s' g = visibleFor s g).
    { intros g. unfold visibleFor, s', setActiveGroup.
      destruct (saveState_hide (activateGroup s name)) as (E1 & E2 & _).
      now rewrite E1, E2, Fh1, Fh2. }
    rewrite Hvis. apply A4. unfold s', setActiveGroup in Hr. now rewrite Hgs in Hr.
  - intros Hwas Hnd Hwasname.
    assert (Hfind : List.find
                      (fun group => String.eqb (Group.name (groupAt s group)) name)
                      (groups s) = Some was).
    { apply find_unique; [assumption | now apply String.eqb_eq|].
      intros x Hx Hxname. apply String.eqb_eq in Hxname.
      unfold groupNames in Hnd.
      apply (NoDup_map_injective (fun g => Group.name (groupAt s g)) (groups s));
        auto; congruence. }
    unfold activateGroup. rewrite (ensureGroup_finds s name was Hfind).
    now rewrite Nat.eqb_refl.
Qed.

Lemma setHide_spec (s : Main) :
  let s1 := setHideAll (negb (hideAll s)) s in
  let s2 := setHideInactiveGroups (negb (hideInactiveGroups s)) s in
  (hideAll s1 = negb (hideAll s)
   /\ hideInactiveGroups s1 = hideInactiveGroups s
   /\ groups s1 = groups s /\ activeGroup s1 = activeGroup s
   /\ bookmarks s1 = bookmarks s /\ bheap s1 = bheap s
   /\ forall g,
        groupAt s1 g
        = if Js.includes g (groups s)
          then Group.setIsVisible (visibleFor s1 (groupAt s g)) (groupAt s g)
          else groupAt s g)
  /\ (hideInactiveGroups s2 = negb (hideInactiveGroups s)
      /\ hideAll s2 = hideAll s
      /\ groups s2 = groups s /\ activeGroup s2 = activeGroup s
      /\ bookmarks s2 = bookmarks s /\ bheap s2 = bheap s
      /\ forall g,
           groupAt s2 g
           = if Js.includes g (groups s)
             then Group.setIsVisible (visibleFor s2 (groupAt s g)) (groupAt s g)
             else groupAt s g).
Proof.
  intros s1 s2. split.
  - unfold s1, setHideAll. rewrite Bool.eqb_negb2.
    destruct (setGroupVisibilities_spec (set_hideAll (negb (hideAll s)) s))
      as [Hframe Hat].
    destruct (set_gheap_fields _ _ Hframe)
      as (Hg & Ha & Hbs & Hb & _ & Hh & Hi & _).
    repeat (split; [assumption|]).
    intros g. rewrite Hat. unfold visibleFor. now rewrite Hh, Hi.
  - unfold s2, setHideInactiveGroups. rewrite Bool.eqb_negb2.
    destruct (setGroupVisibilities_spec
                (set_hideInactiveGroups (negb (hideInactiveGroups s)) s))
      as [Hframe Hat].
    destruct (set_gheap_fields _ _ Hframe)
      as (Hg & Ha & Hbs & Hb & _ & Hh & Hi & _).
    repeat (split; [assumption|]).
    intros g. rewrite Hat. unfold visibleFor. now rewrite Hh, Hi.
Qed.

(** X8. [actionToggleHideAll] and [actionToggleHideInactiveGroups] flip
    their flag and nothing else of the store but the visibility of the
    groups of the registry: each is then visible exactly when nothing is
    hidden, or only inactive groups are and it is flagged active.  So after
    hiding all no group of the registry is visible; names, colors, shapes,
    active flags, the arrays and the bookmarks stay. *)
Theorem hide_toggles_recompute_visibility (s : Main) :
  let s1 := actionToggleHideAll s in
  let s2 := actionToggleHideInactiveGroups s in
  (hideAll s1 = negb (hideAll s)
   /\ hideInactiveGroups s1 = hideInactiveGroups s
   /\ (forall r, In r (groups s1) ->
         Group.isVisible (groupAt s1 r) = visibleFor s1 (groupAt s1 r))
   /\ (hideAll s = false ->
       forall r, In r (groups s1) -> Group.isVisible (groupAt s1 r) = false))
  /\ (hideInactiveGroups s2 = negb (hideInactiveGroups s)
      /\ hideAll s2 = hideAll s
      /\ (forall r, In r (groups s2) ->
            Group.isVisible (groupAt s2 r) = visibleFor s2 (groupAt s2 r)))
  /\ forall s', s' = s1 \/ s' = s2 ->
       groups s' = groups s /\ activeGroup s' = activeGroup s
       /\ bookmarks s' = bookmarks s /\ bheap s' = bheap s
       /\ forall r, sameButFlags (groupAt s' r) (groupAt s r)
                    /\ Group.isActive (groupAt s' r) = Group.isActive (groupAt s r).
Proof.
  intros s1 s2.
  destruct (setHide_spec s)
    as [(A1 & A2 & A3 & A4 & A5 & A6 & A7) (B1 & B2 & B3 & B4 & B5 & B6 & B7)].
  set (t1 := setHideAll (negb (hideAll s)) s) in *.
  set (t2 := setHideInactiveGroups (negb (hideInactiveGroups s)) s) in *.
  destruct (saveState_frame t1) as (Cb & Cbs & Cg & Cgs & Ca & _).
  destruct (saveState_hide t1) as (Ch & Ci & _).
  destruct (saveState_frame t2) as (Db & Dbs & Dg & Dgs & Da & _).
  destruct (saveState_hide t2) as (Dh & Di & _).
  assert (Hat1 : forall r, groupAt s1 r = groupAt t1 r)
    by (intros r; now apply groupAt_ext).
  assert (Hat2 : forall r, groupAt s2 r = groupAt t2 r)
    by (intros r; now apply groupAt_ext).
  assert (Hv1 : forall g, visibleFor s1 g = visibleFor t1 g)
    by (intros g; unfold visibleFor, s1, actionToggleHideAll; fold t1;
        now rewrite Ch, Ci).
  assert (Hv2 : forall g, visibleFor s2 g = visibleFor t2 g)
    by (intros g; unfold visibleFor, s2, actionToggleHideInactiveGroups; fold t2;
        now rewrite Dh, Di).
  assert (V1 : forall r, In r (groups s1) ->
                 Group.isVisible (groupAt s1 r) = visibleFor s1 (groupAt s1 r)).
  { intros r Hr. unfold s1, actionToggleHideAll in Hr. fold t1 in Hr.
    rewrite Cgs, A3 in Hr. rewrite Hv1, Hat1, A7.
    now rewrite (proj2 (includes_In r (groups s)) Hr). }
  split; [|split].
  - unfold s1 at 1 2, actionToggleHideAll. fold t1. rewrite Ch, Ci.
    split; [exact A1|]. split; [exact A2|]. split; [exact V1|].
    intros Hshown r Hr. rewrite (V1 r Hr). unfold visibleFor.
    unfold s1, actionToggleHideAll. fold t1. rewrite Ch, A1, Hshown. reflexivity.
  - unfold s2 at 1 2, actionToggleHideInactiveGroups. fold t2. rewrite Dh, Di.
    split; [exact B1|]. split; [exact B2|].
    intros r Hr. unfold s2, actionToggleHideInactiveGroups in Hr. fold t2 in Hr.
    rewrite Dgs, B3 in Hr. rewrite Hv2, Hat2, B7.
    now rewrite (proj2 (includes_In r (groups s)) Hr).
  - intros s' [->| ->].
    + unfold s1, actionToggleHideAll. fold t1. rewrite Cgs, Ca, Cbs, Cb.
      repeat (split; [assumption|]). intros r.
      change (snd (saveState t1)) with s1. rewrite Hat1, A7.
      destruct (Js.includes r (groups s)); unfold sameButFlags; simpl; tauto.
    + unfold s2, actionToggleHideInactiveGroups. fold t2. rewrite Dgs, Da, Dbs, Db.
      repeat (split; [assumption|]). intros r.
      change (snd (saveState t2)) with s2. rewrite Hat2, B7.
      destruct (Js.includes r (groups s)); unfold sameButFlags; simpl; tauto.
Qed.

(** ** Deleting groups *)

Lemma groupList_coherent (s : Main) (group : nat) :
  groupCacheCoherent s group ->
  fst (getTempGroupBookmarkList s group)
  = List.filter (ofGroup s group) (bookmarks s).
Proof.
  unfold groupCacheCoherent, getTempGroupBookmarkList.
  destruct (tempGroupBookmarks s !! group); simpl; auto.
Qed.

Lemma getTempGroupBookmarkList_cache (s : Main) (group other : nat) :
  other <> group ->
  tempGroupBookmarks (snd (getTempGroupBookmarkList s group)) !! other
  = tempGroupBookmarks s !! other.
Proof.
  intros H. unfold getTempGroupBookmarkList.
  destruct (tempGroupBookmarks s !! group); simpl; [reflexivity|].
  now apply lookup_insert_ne.
Qed.

Lemma getTempGroupBookmarkList_fields (s : Main) (group : nat) :
  set_tempGroupBookmarks (tempGroupBookmarks s)
    (snd (getTempGroupBookmarkList s group)) = s.
Proof.
  unfold getTempGroupBookmarkList.
  destruct (tempGroupBookmarks s !! group); now destruct s.
Qed.

(** A run of [deleteBookmark] over bookmarks of one group leaves the cached
    lists of the other groups alone, and touches the caches only. *)
Lemma deleteAll_caches (group : nat) (l : list nat) (s : Main) :
  (forall b, In b l -> Bookmark.group (bookmarkAt s b) = group) ->
  let s' := fold_left (fun st b => deleteBookmark b st) l s in
  (forall other, other <> group ->
     tempGroupBookmarks s' !! other = tempGroupBookmarks s !! other)
  /\ groups s' = groups s /\ gheap s' = gheap s /\ activeGroup s' = activeGroup s
  /\ nextRef s' = nextRef s /\ host s' = host s
  /\ notifications s' = notifications s.
Proof.
  revert s. induction l as [|b l IH]; intros s Hl; simpl; [auto 10|].
  destruct (IH (deleteBookmark b s)) as (H1 & H2 & H3 & H4 & H5 & H6 & H7).
  { intros x Hx. rewrite (bookmarkAt_ext _ s x (proj1 (deleteBookmark_frame s b))).
    apply Hl. now right. }
  assert (Hd : (forall other, other <> group ->
                  tempGroupBookmarks (deleteBookmark b s) !! other
                  = tempGroupBookmarks s !! other)
               /\ groups (deleteBookmark b s) = groups s
               /\ gheap (deleteBookmark b s) = gheap s
               /\ activeGroup (deleteBookmark b s) = activeGroup s
               /\ nextRef (deleteBookmark b s) = nextRef s
               /\ host (deleteBookmark b s) = host s
               /\ notifications (deleteBookmark b s) = notifications s).
  { unfold deleteBookmark. destruct (Js.includes b (bookmarks s)); simpl; [|auto 10].
    split; [|auto 10]. intros other Ho.
    rewrite <- (Hl b (or_introl eq_refl)) in Ho.
    apply lookup_delete_ne. intros E. apply Ho. symmetry. exact E. }
  destruct Hd as (D1 & D2 & D3 & D4 & D5 & D6 & D7).
  split; [intros other Ho; rewrite H1, D1; auto|].
  repeat split; congruence.
Qed.

Lemma deleteGroups_unfold (selected : list nat) (s : Main) :
  deleteGroups selected s
  = let '(s1, wasActiveGroupDeleted) :=
      fold_left deleteOneGroup selected (s, false) in
    let s2 :=
      match groups s1 with
      | [] => activateGroup s1 (defaultGroupName (host s1))
      | first :: _ =>
          if wasActiveGroupDeleted
          then activateGroup s1 (Group.name (groupAt s1 first)) else s1
      end in
    snd (saveState s2).
Proof. reflexivity. Qed.

Lemma removeFirst_or_keep (g : nat) (l : list nat) :
  List.NoDup l ->
  (if Js.includes g l then Js.removeFirst g l else l)
  = List.filter (fun x => negb (x =? g)%nat) l.
Proof.
  intros Hnd. destruct (Js.includes g l) eqn:E.
  - now apply removeFirst_filter.
  - apply includes_not_In in E. symmetry. apply filter_all_true.
    intros x Hx. destruct (Nat.eqb_spec x g); [subst; contradiction | reflexivity].
Qed.

Lemma deleteOneGroup_spec (st : Main) (was : bool) (g : nat) :
  List.NoDup (groups st) -> List.NoDup (bookmarks st) ->
  groupCacheCoherent st g ->
  let r := deleteOneGroup (st, was) g in
  groups (fst r) = List.filter (fun x => negb (x =? g)%nat) (groups st)
  /\ bookmarks (fst r)
     = List.filter (fun b => negb (ofGroup st g b)) (bookmarks st)
  /\ snd r = was || (g =? activeGroup st)%nat
  /\ bheap (fst r) = bheap st /\ gheap (fst r) = gheap st
  /\ activeGroup (fst r) = activeGroup st /\ nextRef (fst r) = nextRef st
  /\ host (fst r) = host st /\ notifications (fst r) = notifications st
  /\ (forall other, other <> g ->
        tempGroupBookmarks (fst r) !! other = tempGroupBookmarks st !! other)
  /\ tempGroupBookmarks (fst r) !! g = None.
Proof.
  intros Hng Hnb Hcache r. unfold r, deleteOneGroup.
  pose proof (groupList_coherent st g Hcache) as Hlist.
  pose proof (getTempGroupBookmarkList_fields st g) as Hfields.
  pose proof (fun other => getTempGroupBookmarkList_cache st g other) as Hc1.
  destruct (getTempGroupBookmarkList st g) as [list st1]. simpl in Hlist, Hfields, Hc1.
  assert (F1 : bookmarks st1 = bookmarks st /\ bheap st1 = bheap st
               /\ groups st1 = groups st /\ gheap st1 = gheap st
               /\ activeGroup st1 = activeGroup st /\ nextRef st1 = nextRef st
               /\ host st1 = host st /\ notifications st1 = notifications st)
    by (rewrite <- Hfields; simpl; repeat split).
  destruct F1 as (Fbs & Fb & Fgs & Fg & Fa & Fn & Fh & Fnote).
  destruct (deleteAll_filter list st1) as [Hheap Hbs]; [now rewrite Fbs|].
  destruct (deleteAll_caches g list st1) as (Hc2 & Hgs & Hgh & Ha & Hn & Hh & Hnote).
  { intros b Hb. rewrite Hlist in Hb. apply List.filter_In in Hb as [_ Hb].
    unfold ofGroup in Hb. apply Nat.eqb_eq in Hb.
    now rewrite (bookmarkAt_ext st1 st b Fb). }
  set (st2 := fold_left (fun st' b => deleteBookmark b st') list st1) in *.
  assert (H3 : groups (if Js.includes g (groups st2)
                       then set_groups (Js.removeFirst g (groups st2)) st2 else st2)
               = List.filter (fun x => negb (x =? g)%nat) (groups st)).
  { rewrite <- (removeFirst_or_keep g (groups st) Hng), <- Fgs, <- Hgs.
    now destruct (Js.includes g (groups st2)). }
  set (st3 := if Js.includes g (groups st2)
              then set_groups (Js.removeFirst g (groups st2)) st2 else st2) in *.
  assert (F3 : bookmarks st3 = bookmarks st2 /\ bheap st3 = bheap st2
               /\ gheap st3 = gheap st2 /\ activeGroup st3 = activeGroup st2
               /\ nextRef st3 = nextRef st2 /\ host st3 = host st2
               /\ notifications st3 = notifications st2
               /\ tempGroupBookmarks st3 = tempGroupBookmarks st2)
    by (unfold st3; destruct (Js.includes g (groups st2)); simpl; repeat split).
  destruct F3 as (Gbs & Gb & Gg & Ga & Gn & Gh & Gnote & Gc).
  simpl. split; [exact H3|]. split.
  { rewrite Gbs, Hbs, Fbs. apply filter_ext_in_eq. intros x Hx. f_equal.
    destruct (ofGroup st g x) eqn:E.
    - apply includes_In. rewrite Hlist. apply List.filter_In. auto.
    - apply includes_not_In. rewrite Hlist. intros H.
      apply List.filter_In in H as [_ H]. congruence. }
  split; [reflexivity|].
  split; [congruence|]. split; [congruence|]. split; [congruence|].
  split; [congruence|]. split; [congruence|]. split; [congruence|]. split.
  - intros other Ho. rewrite lookup_delete_ne by congruence.
    rewrite Gc, Hc2, Hc1 by assumption. reflexivity.
  - apply lookup_delete_eq.
Qed.

Lemma coherent_after_deleteOneGroup (st : Main) (was : bool) (g g' : nat) :
  List.NoDup (groups st) -> List.NoDup (bookmarks st) ->
  groupCacheCoherent st g -> groupCacheCoherent st g' ->
  groupCacheCoherent (fst (deleteOneGroup (st, was) g)) g'.
Proof.
  intros Hng Hnb Hg Hg'.
  destruct (deleteOneGroup_spec st was g Hng Hnb Hg)
    as (_ & Hbs & _ & Hb & _ & _ & _ & _ & _ & Hother & Hnone).
  unfold groupCacheCoherent in *.
  destruct (Nat.eq_dec g' g) as [->|Hne]; [now rewrite Hnone|].
  rewrite (Hother g' Hne).
  destruct (tempGroupBookmarks st !! g') as [list|]; [|exact I].
  rewrite Hg', Hbs, filter_twice. apply filter_ext_in_eq. intros x _.
  unfold ofGroup. rewrite (bookmarkAt_ext _ st x Hb).
  destruct (Nat.eqb_spec (Bookmark.group (bookmarkAt st x)) g') as [E|E];
    [|now rewrite andb_false_r].
  rewrite E. now destruct (Nat.eqb_spec g' g).
Qed.

(** The loop of [deleteGroups], from any point of the run on. *)
Lemma deleteGroups_loop (selected : list nat) (st : Main) (was : bool) :
  List.NoDup (groups st) -> List.NoDup (bookmarks st) ->
  (forall g, In g selected -> groupCacheCoherent st g) ->
  let r := fold_left deleteOneGroup selected (st, was) in
  groups (fst r)
  = List.filter (fun g => negb (Js.includes g selected)) (groups st)
  /\ bookmarks (fst r)
     = List.filter
         (fun b => negb (Js.includes (Bookmark.group (bookmarkAt st b)) selected))
         (bookmarks st)
  /\ snd r = was || Js.includes (activeGroup st) selected
  /\ bheap (fst r) = bheap st /\ gheap (fst r) = gheap st
  /\ activeGroup (fst r) = activeGroup st /\ nextRef (fst r) = nextRef st
  /\ host (fst r) = host st /\ notifications (fst r) = notifications st.
Proof.
  revert st was. induction selected as [|g selected IH]; intros st was Hng Hnb Hc.
  - simpl. rewrite orb_false_r.
    rewrite !filter_all_true by reflexivity. auto 10.
  - cbn [fold_left].
    destruct (deleteOneGroup_spec st was g Hng Hnb (Hc g (or_introl eq_refl)))
      as (Hgs & Hbs & Hwas & Hb & Hg & Ha & Hn & Hh & Hnote & _).
    pose proof (fun g' (H : In g' selected) =>
                  coherent_after_deleteOneGroup st was g g' Hng Hnb
                    (Hc g (or_introl eq_refl)) (Hc g' (or_intror H))) as Hc'.
    destruct (deleteOneGroup (st, was) g) as [st1 was1]. simpl in *.
    destruct (IH st1 was1) as (I1 & I2 & I3 & I4 & I5 & I6 & I7 & I8 & I9).
    { rewrite Hgs. now apply NoDup_filter_list. }
    { rewrite Hbs. now apply NoDup_filter_list. }
    { exact Hc'. }
    split. { rewrite I1, Hgs, filter_twice. apply filter_ext_eq. intros x.
             now rewrite negb_orb. }
    split. { rewrite I2, Hbs, filter_twice. apply filter_ext_in_eq. intros x _.
             unfold ofGroup. rewrite (bookmarkAt_ext st1 st x Hb).
             now rewrite negb_orb. }
    split. { rewrite I3, Hwas, Ha, <- orb_assoc. f_equal. f_equal.
             apply Nat.eqb_sym. }
    repeat split; congruence.
Qed.

Lemma ensureGroup_first (s : Main) (first : nat) (rest : list nat) :
  groups s = first :: rest ->
  ensureGroup s (Group.name (groupAt s first)) = (first, s).
Proof.
  intros H. unfold ensureGroup. rewrite H. simpl. now rewrite String.eqb_refl.
Qed.

Lemma ensureGroup_empty (s : Main) (name : string) :
  groups s = [] ->
  let g := fst (ensureGroup s name) in
  let s1 := snd (ensureGroup s name) in
  g = nextRef s /\ groups s1 = [g] /\ Group.name (groupAt s1 g) = name.
Proof.
  intros H. unfold ensureGroup. rewrite H. simpl. rewrite H. simpl.
  split; [reflexivity|]. split; [reflexivity|].
  unfold groupAt. simpl. now rewrite lookup_total_insert_eq.
Qed.

(** X9. [deleteGroups] deletes with each chosen group the bookmarks of that
    group, and no other bookmark; no bookmark object changes.  The registry
    never ends empty: when groups remain they are the ones not chosen, in
    their order, with their names and icons, and the active group stays
    unless it was chosen, in which case the first remaining group becomes
    the active one; when none remains, one new group with the default name
    is created and is the active one.  An active group of the registry
    stays one. *)
Theorem deleteGroups_cascades_and_keeps_a_group (selected : list nat) (s : Main) :
  List.NoDup (groups s) -> List.NoDup (bookmarks s) ->
  (forall g, In g selected -> groupCacheCoherent s g) ->
  let s' := deleteGroups selected s in
  let remaining :=
    List.filter (fun g => negb (Js.includes g selected)) (groups s) in
  bookmarks s'
  = List.filter
      (fun b => negb (Js.includes (Bookmark.group (bookmarkAt s b)) selected))
      (bookmarks s)
  /\ bheap s' = bheap s
  /\ groups s' <> []
  /\ (In (activeGroup s) (groups s) -> In (activeGroup s') (groups s'))
  /\ match remaining with
     | first :: _ =>
         groups s' = remaining
         /\ (forall r, sameButFlags (groupAt s' r) (groupAt s r))
         /\ activeGroup s'
            = (if Js.includes (activeGroup s) selected then first
               else activeGroup s)
     | [] =>
         groups s' = [activeGroup s']
         /\ Group.name (groupAt s' (activeGroup s')) = defaultGroupName (host s)
     end.
Proof.
  intros Hng Hnb Hc s' remaining.
  destruct (deleteGroups_loop selected s false Hng Hnb Hc)
    as (L1 & L2 & L3 & L4 & L5 & L6 & L7 & L8 & L9).
  unfold s'. rewrite deleteGroups_unfold.
  destruct (fold_left deleteOneGroup selected (s, false)) as [s1 was].
  simpl in L1, L2, L3, L4, L5, L6, L7, L8, L9. fold remaining in L1.
  cbv zeta.
  match goal with |- context [snd (saveState ?x)] => set (s2 := x) end.
  destruct (saveState_frame s2) as (Sb & Sbs & Sg & Sgs & Sa & _).
  rewrite Sb, Sbs, Sgs, Sa.
  assert (Hat : forall r, groupAt (snd (saveState s2)) r = groupAt s2 r)
    by (intros r; now apply groupAt_ext).
  destruct remaining as [|first rest] eqn:Hrem.
  - rewrite Hat.
    pose proof (activateGroup_spec s1 (defaultGroupName (host s1)))
      as (A1 & A2 & A3 & A4 & _ & _ & _ & _ & _ & A10 & _).
    destruct (ensureGroup_empty s1 (defaultGroupName (host s1)) L1)
      as (E1 & E2 & E3).
    assert (Hs2 : s2 = activateGroup s1 (defaultGroupName (host s1)))
      by (unfold s2; now rewrite L1).
    rewrite Hs2, A1, A2, A3, A4, E2.
    split; [exact L2|]. split; [exact L4|]. split; [discriminate|].
    split; [intros _; now left|]. split; [reflexivity|].
    destruct (A10 (fst (ensureGroup s1 (defaultGroupName (host s1)))))
      as (An & _).
    now rewrite An, E3, L8.
  - assert (Hfirst : ~ In first selected).
    { assert (H : In first (first :: rest)) by now left.
      rewrite <- Hrem in H. apply List.filter_In in H as [_ H].
      apply negb_true_iff, includes_not_In in H. exact H. }
    assert (Hs2 : s2 = if was then activateGroup s1 (Group.name (groupAt s1 first))
                       else s1)
      by (unfold s2; now rewrite L1).
    pose proof (activateGroup_spec s1 (Group.name (groupAt s1 first)))
      as (A1 & A2 & A3 & A4 & _ & _ & _ & _ & _ & A10 & _).
    rewrite (ensureGroup_first s1 first rest L1) in A1, A2, A10.
    simpl in A1, A2, A10.
    assert (Hat1 : forall r, groupAt s1 r = groupAt s r)
      by (intros r; now apply groupAt_ext).
    rewrite <- L3. clearbody s2.
    destruct was; subst s2.
    + rewrite A1, A2, A3, A4, L1.
      split; [exact L2|]. split; [exact L4|]. split; [discriminate|].
      split; [intros _; now left|]. split; [reflexivity|].
      split; [|reflexivity]. intros r. rewrite Hat, <- Hat1. apply A10.
    + rewrite L1, L6.
      split; [exact L2|]. split; [exact L4|]. split; [discriminate|].
      split.
      { intros Hin. rewrite <- Hrem. apply List.filter_In. split; [exact Hin|].
        now rewrite <- L3. }
      split; [reflexivity|]. split; [|reflexivity].
      intros r. rewrite Hat, Hat1. unfold sameButFlags. tauto.
Qed.

Lemma deleteGroups_cascades_and_keeps_a_group_witness :
  bookmarks (deleteGroups [2%nat] sampleThreeBookmarks) = [].
Proof.
  assert (Hng : List.NoDup (groups sampleThreeBookmarks))
    by (vm_compute; repeat constructor; simpl; intuition lia).
  assert (Hnb : List.NoDup (bookmarks sampleThreeBookmarks))
    by (vm_compute; repeat constructor; simpl; intuition lia).
  assert (Hc : forall g, In g [2%nat] -> groupCacheCoherent sampleThreeBookmarks g).
  { intros g [<-|[]]. vm_compute. exact I. }
  destruct (deleteGroups_cascades_and_keeps_a_group
              [2%nat] sampleThreeBookmarks Hng Hnb Hc) as [H _].
  rewrite H. vm_compute. reflexivity.
Defined.

(** ** The watcher and the saves of the extension itself *)

(** What a save leaves on disk and in the fields: nothing at the path of the
    artifact when it answers [false] with a path set, and the artifact with
    the version tag and the time of the save when it answers [true]. *)
Lemma saveState_outcome (s : Main) :
  let s' := snd (saveState s) in
  clock s' = clock s /\ host s' = host s
  /\ (fst (saveState s) = false ->
      lastSaveTimestamp s' = lastSaveTimestamp s
      /\ forall path, savedBookmarksFilePath s = Some path ->
           files (fs s') !! path = None)
  /\ (fst (saveState s) = true ->
      lastSaveTimestamp s' = clock s
      /\ exists path obj,
           savedBookmarksFilePath s = Some path
           /\ files (fs s') !! path = Some obj
           /\ fileVersion obj = Some savedBookmarksFileVersionValue
           /\ payload obj = workspaceState s').
Proof.
  unfold saveState. destruct (savedBookmarksFilePath s) as [path|] eqn:Hpath.
  2: { simpl. repeat split; try discriminate. }
  cbv zeta.
  match goal with |- context [isEmpty ?x] => destruct (isEmpty x) end.
  - match goal with |- context [existsSync path ?f] =>
      destruct (existsSync path f) eqn:Hex end; simpl.
    + repeat split; try discriminate.
      intros p [= <-].
      match goal with |- context [if ?c then _ else _] => destruct c end;
        [match goal with |- context [if ?c then _ else _] => destruct c end|];
        simpl; apply lookup_delete_eq.
    + repeat split; try discriminate.
      intros p [= <-]. unfold existsSync in Hex. simpl in Hex.
      apply orb_false_iff in Hex as [Hex _].
      apply bool_decide_eq_false in Hex.
      destruct (files (fs s) !! path) eqn:E; [|reflexivity].
      exfalso. apply Hex. eauto.
  - simpl. repeat split; try discriminate.
    eexists path, _. split; [reflexivity|]. split; [apply lookup_insert_eq|].
    split; reflexivity.
Qed.

(** X10. A change of the artifact that the watcher reports within
    [savedBookmarksDelay] (2500 ms) of a save is not loaded: the state stays
    as it is.  The comparison is strict, so a report exactly 2500 ms after
    the save is still ignored; a later one loads the artifact that the save
    wrote.  After a save that wrote nothing (no workspace folder, or an
    empty store, whose artifact is deleted) a report changes nothing at any
    time. *)
Theorem watcher_skips_the_save_of_the_extension (s : Main) (milliseconds : Z) :
  let saved := run [SaveState; TimePasses milliseconds] s in
  ((milliseconds <= savedBookmarksDelay)%Z \/ fst (saveState s) = false ->
   step OnWatchedFileChanged saved = saved)
  /\ ((savedBookmarksDelay < milliseconds)%Z ->
      fst (saveState s) = true ->
      step OnWatchedFileChanged saved = snd (loadState saved)
      /\ fst (loadState saved) = true).
Proof.
  intros saved.
  destruct (saveState_outcome s) as (Hclock & Hhost & Hfalse & Htrue).
  assert (Hsaved : saved
                   = set_clock (clock s + Z.max 0 milliseconds) (snd (saveState s))).
  { unfold saved, run. simpl. now rewrite Hclock. }
  assert (Hpath : savedBookmarksFilePath saved = savedBookmarksFilePath s).
  { rewrite Hsaved. unfold savedBookmarksFilePath. simpl. now rewrite Hhost. }
  cbn [step]. unfold onWatchedFileChanged.
  assert (Hc : clock saved = (clock s + Z.max 0 milliseconds)%Z)
    by now rewrite Hsaved.
  assert (Hl : lastSaveTimestamp saved = lastSaveTimestamp (snd (saveState s)))
    by now rewrite Hsaved.
  assert (Hfs : fs saved = fs (snd (saveState s))) by now rewrite Hsaved.
  rewrite Hc, Hl. unfold savedBookmarksDelay in *.
  split.
  - intros Hcase. destruct (fst (saveState s)) eqn:Hw.
    + destruct Hcase as [Hms|]; [|discriminate].
      destruct (Htrue eq_refl) as [-> _].
      destruct (Z.ltb_spec (clock s) (clock s + Z.max 0 milliseconds - 2500)%Z);
        [lia | reflexivity].
    + destruct (Hfalse eq_refl) as [_ Hnone].
      destruct (_ <? _)%Z; [|reflexivity].
      unfold loadState. rewrite Hpath.
      destruct (savedBookmarksFilePath s) as [path|]; [|reflexivity].
      rewrite Hfs, (Hnone path eq_refl).
      now destruct (negb _).
  - intros Hms Hw. destruct (Htrue Hw) as (-> & path & obj & Hp & Hfile & Hv & _).
    destruct (Z.ltb_spec (clock s) (clock s + Z.max 0 milliseconds - 2500)%Z);
      [|lia].
    split; [reflexivity|].
    unfold loadState. rewrite Hpath, Hp, Hfs.
    assert (Hex : existsSync path (fs (snd (saveState s))) = true).
    { unfold existsSync. rewrite bool_decide_eq_true_2; [reflexivity|].
      rewrite Hfile. eauto. }
    rewrite Hex, Hfile. simpl. now rewrite bool_decide_eq_true_2.
Qed.

(** ** What a load restores of a save *)

Lemma saveState_memento (s : Main) (path : string) :
  savedBookmarksFilePath s = Some path ->
  workspaceState (snd (saveState s))
  = mkMemento
      (Some (map (fun bookmark => fromBookmark s (bookmarkAt s bookmark))
                 (bookmarks s)))
      (Some (map (fun group => fromGroup (groupAt s group)) (groups s)))
      (Some (Group.name (groupAt s (activeGroup s))))
      (Some (hideInactiveGroups s)) (Some (hideAll s)).
Proof.
  intros Hpath. unfold saveState. rewrite Hpath. cbv zeta.
  match goal with |- context [isEmpty ?x] => destruct (isEmpty x) end;
    [match goal with |- context [existsSync path ?f] =>
       destruct (existsSync path f) end|]; reflexivity.
Qed.

(** The loop of [restoreGroups]: one new object per saved entry, pushed in
    the order of the entries. *)
Lemma restoreGroups_loop (l : list SerializableGroup.t) (s : Main) :
  let s' :=
    fold_left
      (fun st sg =>
         let '(group, st1) := allocGroup (fromSerializableGroup sg) st in
         addNewGroup group st1)
      l s in
  groups s' = groups s ++ seq (nextRef s) (length l)
  /\ map (groupAt s') (seq (nextRef s) (length l)) = map fromSerializableGroup l
  /\ (forall r, (r < nextRef s)%nat -> groupAt s' r = groupAt s r)
  /\ nextRef s' = (nextRef s + length l)%nat
  /\ set_groups (groups s) (set_gheap (gheap s) (set_nextRef (nextRef s) s')) = s.
Proof.
  revert s. induction l as [|sg l IH]; intros s; cbn [fold_left length seq map].
  - rewrite app_nil_r, Nat.add_0_r. repeat split; auto. now destruct s.
  - set (s1 := addNewGroup (nextRef s) (snd (allocGroup (fromSerializableGroup sg) s))).
    change (let '(group, st1) := allocGroup (fromSerializableGroup sg) s in
            addNewGroup group st1) with s1.
    destruct (IH s1) as (H1 & H2 & H3 & H4 & H5).
    assert (Hn : nextRef s1 = S (nextRef s)) by reflexivity.
    assert (Hg : groups s1 = groups s ++ [nextRef s]) by reflexivity.
    rewrite Hn in H1, H2, H3, H4.
    destruct (groupAt_allocGroup s (fromSerializableGroup sg)) as [Hnew Hold].
    assert (Hat : forall r, groupAt s1 r
                            = groupAt (snd (allocGroup (fromSerializableGroup sg) s)) r)
      by reflexivity.
    split; [rewrite H1, Hg, <- app_assoc; reflexivity|].
    split; [f_equal; [rewrite H3, Hat by lia; exact Hnew | exact H2]|].
    split; [intros r Hr; rewrite H3, Hat by lia; apply Hold; lia|].
    split; [lia|].
    match goal with |- context [set_nextRef _ ?x] => set (s' := x) in * end.
    clearbody s'. unfold s1 in H5. clear - H5.
    destruct s', s.
    unfold addNewGroup, set_groups, set_gheap, set_nextRef in *. simpl in *.
    injection H5; intros; subst; reflexivity.
Qed.

(** A load of an artifact with the version tag, step by step. *)
Lemma loadState_reads (s : Main) (path : string) (obj : SavedObject) :
  savedBookmarksFilePath s = Some path ->
  files (fs s) !! path = Some obj ->
  fileVersion obj = Some savedBookmarksFileVersionValue ->
  let m := payload obj in
  let s2 :=
    set_hideAll (default false (savedHideAll m))
      (set_hideInactiveGroups (default false (savedHideInactiveGroups m))
         (set_workspaceState m s)) in
  let s4 :=
    match savedGroups m with
    | Some serializedGroups => restoreGroups serializedGroups (set_groups [] s2)
    | None => set_groups [] s2
    end in
  let s6 :=
    match savedBookmarks m with
    | Some serializedBookmarks =>
        match restoreBookmarks serializedBookmarks (set_bookmarks [] s4) with
        | Done _ st => st
        | Threw st =>
            showMessage
              (Vscode.ErrorMessage
                 "LOAD Restoring bookmarks failed (TypeError: groupGetter is not a function)")
              st
        end
    | None => set_bookmarks [] s4
    end in
  loadState s
  = (true,
     activateGroup (resetTempLists s6)
       (default (defaultGroupName (host s)) (savedActiveGroup m))).
Proof.
  intros Hpath Hfile Hversion m s2 s4 s6. unfold loadState. rewrite Hpath.
  assert (Hexists : existsSync path (fs s) = true).
  { unfold existsSync. rewrite bool_decide_eq_true_2 by eauto. reflexivity. }
  rewrite Hexists, Hfile. cbn [negb].
  rewrite bool_decide_eq_true_2 by assumption.
  cbv zeta.
  assert (Hws : workspaceState (set_bookmarks [] s4) = m).
  { unfold s4. cbn [workspaceState set_bookmarks].
    destruct (savedGroups m);
      [rewrite (proj1 (restoreGroups_frame _ _))|]; reflexivity. }
  cbn [workspaceState set_workspaceState set_hideAll set_hideInactiveGroups
       set_groups host].
  fold m. fold s2. fold s4. rewrite Hws. fold s6. reflexivity.
Qed.

Lemma fromGroup_fromSerializableGroup (sg : SerializableGroup.t) :
  fromGroup (fromSerializableGroup sg) = sg.
Proof. now destruct sg. Qed.

Lemma sameButFlags_fromGroup (a b : Group.t) :
  sameButFlags a b -> fromGroup a = fromGroup b.
Proof.
  unfold sameButFlags, fromGroup. intros (-> & -> & -> & ->). reflexivity.
Qed.

Lemma fromGroup_sorted (gs : list Group.t) :
  map fromGroup (Js.arraySort Group.sortByName gs)
  = Js.arraySort
      (fun a b => Js.localeCompare (SerializableGroup.name a)
                                   (SerializableGroup.name b))
      (map fromGroup gs).
Proof.
  exact (arraySort_map fromGroup
           (fun a b => Js.localeCompare (SerializableGroup.name a)
                                        (SerializableGroup.name b)) gs).
Qed.

(** What [restoreGroups] makes of an empty registry: the saved entries as
    new groups, sorted by name. *)
Lemma restoreGroups_spec (l : list SerializableGroup.t) (s : Main) :
  groups s = [] ->
  let s' := restoreGroups l s in
  map (fun g => fromGroup (groupAt s' g)) (groups s')
  = Js.arraySort
      (fun a b => Js.localeCompare (SerializableGroup.name a)
                                   (SerializableGroup.name b)) l
  /\ set_groups (groups s) (set_gheap (gheap s) (set_nextRef (nextRef s) s')) = s.
Proof.
  intros Hempty s'. unfold s', restoreGroups.
  destruct (restoreGroups_loop l s) as (H1 & H2 & _ & _ & H5).
  set (t := fold_left _ l s) in *. rewrite Hempty in H1. simpl in H1.
  split.
  - unfold sortGroups. cbn [groups set_groups].
    rewrite (map_ext (fun g => fromGroup (groupAt (set_groups _ t) g))
                     (fun g => fromGroup (groupAt t g))) by reflexivity.
    rewrite H1.
    rewrite <- (map_map (groupAt t) fromGroup).
    rewrite (arraySort_map (groupAt t) Group.sortByName).
    rewrite H2.
    rewrite (fromGroup_sorted (map fromSerializableGroup l)).
    f_equal. rewrite map_map.
    rewrite (map_ext _ (fun x => x)) by apply fromGroup_fromSerializableGroup.
    apply map_id.
  - rewrite <- H5 at 2. unfold sortGroups. now destruct t.
Qed.

(** X11. A load that follows a save which wrote the artifact succeeds and
    restores the registry by value: the groups come back as new objects with
    the saved names, colors, shapes and icon texts, sorted by name; the
    active group is the group of the registry that bears the name of the
    group that was active; both hide flags are the saved ones.  For a store
    without bookmarks the load shows no message and leaves no bookmark. *)
Theorem load_after_save_restores_groups_and_flags (s : Main) :
  fst (saveState s) = true ->
  In (activeGroup s) (groups s) ->
  let saved := snd (saveState s) in
  let loaded := snd (loadState saved) in
  fst (loadState saved) = true
  /\ map (fun g => fromGroup (groupAt loaded g)) (groups loaded)
     = Js.arraySort
         (fun a b => Js.localeCompare (SerializableGroup.name a)
                                      (SerializableGroup.name b))
         (map (fun g => fromGroup (groupAt s g)) (groups s))
  /\ In (activeGroup loaded) (groups loaded)
  /\ Group.name (groupAt loaded (activeGroup loaded))
     = Group.name (groupAt s (activeGroup s))
  /\ hideInactiveGroups loaded = hideInactiveGroups s
  /\ hideAll loaded = hideAll s
  /\ (bookmarks s = [] ->
      bookmarks loaded = [] /\ notifications loaded = notifications s).
Proof.
  intros Hsave Hactive saved loaded.
  destruct (saveState_outcome s) as (_ & Hhost & _ & Htrue).
  destruct (Htrue Hsave) as (_ & path & obj & Hpath & Hfile & Hversion & Hpayload).
  rewrite (saveState_memento s path Hpath) in Hpayload.
  fold saved in Hhost, Hfile.
  assert (Hpath' : savedBookmarksFilePath saved = Some path).
  { unfold savedBookmarksFilePath in *. now rewrite Hhost. }
  pose proof (loadState_reads saved path obj Hpath' Hfile Hversion) as Hload.
  cbv zeta in Hload. rewrite Hpayload in Hload.
  cbn [savedHideAll savedHideInactiveGroups savedGroups savedBookmarks
       savedActiveGroup default] in Hload.
  set (l := map (fun group => fromGroup (groupAt s group)) (groups s)) in *.
  set (lb := map (fun bookmark => fromBookmark s (bookmarkAt s bookmark))
                 (bookmarks s)) in *.
  set (m := mkMemento (Some lb) (Some l)
              (Some (Group.name (groupAt s (activeGroup s))))
              (Some (hideInactiveGroups s)) (Some (hideAll s))) in *.
  set (s2 := set_hideAll (hideAll s)
               (set_hideInactiveGroups (hideInactiveGroups s)
                  (set_workspaceState m saved))) in *.
  destruct (restoreGroups_spec l (set_groups [] s2) eq_refl) as [E4 F4].
  set (s4 := restoreGroups l (set_groups [] s2)) in *.
  set (name := Group.name (groupAt s (activeGroup s))) in *.
  match type of Hload with
  | _ = (true, activateGroup (resetTempLists ?x) _) => set (s6 := x) in *
  end.
  assert (F6 : groups s6 = groups s4 /\ gheap s6 = gheap s4
               /\ hideAll s6 = hideAll s4
               /\ hideInactiveGroups s6 = hideInactiveGroups s4
               /\ (bookmarks s = [] ->
                   bookmarks s6 = [] /\ notifications s6 = notifications s4)).
  { unfold s6, lb. destruct (bookmarks s) as [|b0 rest]; cbn [map].
    - simpl. repeat split; auto.
    - rewrite restoreBookmarks_throws. simpl.
      repeat split; auto; discriminate. }
  destruct F6 as (G1 & G2 & G3 & G4 & G5).
  set (s7 := resetTempLists s6) in *.
  assert (Hat : forall r, groupAt s7 r = groupAt s4 r)
    by (intros r; apply groupAt_ext; exact G2).
  assert (Hnames : In name (groupNames s7)).
  { unfold groupNames. change (groups s7) with (groups s6). rewrite G1.
    rewrite (map_ext (fun g => Group.name (groupAt s7 g))
               (fun g => SerializableGroup.name (fromGroup (groupAt s4 g))))
      by (intros g; now rewrite Hat).
    rewrite <- (map_map (fun g => fromGroup (groupAt s4 g)) SerializableGroup.name).
    rewrite E4.
    apply (in_map SerializableGroup.name _ (fromGroup (groupAt s (activeGroup s)))).
    apply (Permutation_in _ (Permutation_sym (arraySort_Permutation _ l))).
    unfold l. apply (in_map (fun g => fromGroup (groupAt s g))). exact Hactive. }
  apply find_name_In in Hnames as [g Hfind].
  pose proof (ensureGroup_finds s7 name g Hfind) as Hensure.
  destruct (activateGroup_spec s7 name)
    as (A1 & A2 & A3 & _ & _ & A6 & A7 & A8 & _ & A10 & _).
  rewrite Hensure in A1, A2, A10. simpl in A1, A2, A10.
  apply List.find_some in Hfind as [Hin Hname]. apply String.eqb_eq in Hname.
  assert (Hloaded : loaded = activateGroup s7 name)
    by (unfold loaded; now rewrite Hload).
  rewrite Hload, Hloaded. cbn [fst].
  split; [reflexivity|].
  split.
  { rewrite A2. change (groups s7) with (groups s6). rewrite G1, <- E4.
    apply map_ext. intros r. rewrite <- Hat. apply sameButFlags_fromGroup, A10. }
  split; [now rewrite A1, A2|].
  split.
  { rewrite A1. destruct (A10 g) as [-> _]. exact Hname. }
  split.
  { rewrite A7. change (hideInactiveGroups s7) with (hideInactiveGroups s6).
    rewrite G4. apply (f_equal hideInactiveGroups F4). }
  split.
  { rewrite A6. change (hideAll s7) with (hideAll s6).
    rewrite G3. apply (f_equal hideAll F4). }
  intros Hnone. destruct (G5 Hnone) as [Hb Hn].
  rewrite A3, A8.
  change (bookmarks s7) with (bookmarks s6).
  change (notifications s7) with (notifications s6).
  rewrite Hb, Hn. split; [reflexivity|].
  transitivity (notifications (set_groups [] s2));
    [exact (f_equal notifications F4)|].
  apply (proj2 (proj2 (proj2 (proj2 (proj2 (saveState_frame s)))))).
Qed.

Lemma load_after_save_restores_groups_and_flags_witness :
  Group.name
    (groupAt (snd (loadState (snd (saveState sampleTwoBookmarks))))
       (activeGroup (snd (loadState (snd (saveState sampleTwoBookmarks))))))
  = "default"%string.
Proof.
  assert (Hsave : fst (saveState sampleTwoBookmarks) = true)
    by (vm_compute; reflexivity).
  assert (Hactive : In (activeGroup sampleTwoBookmarks) (groups sampleTwoBookmarks))
    by (vm_compute; auto).
  destruct (load_after_save_restores_groups_and_flags
              sampleTwoBookmarks Hsave Hactive) as (_ & _ & _ & H & _).
  rewrite H. vm_compute. reflexivity.
Defined.

(** ** Toggling a bookmark *)

Lemma find_filter {A : Type} (p q : A -> bool) (l : list A) :
  List.find p (List.filter q l) = List.find (fun x => q x && p x) l.
Proof.
  induction l as [|x l IH]; simpl; [reflexivity|].
  destruct (q x); simpl; [destruct (p x)|]; auto.
Qed.

Section InsertionSort.
Variable compare : string -> string -> Z.
Hypothesis compare_collates : collates compare.
Variable f : nat -> Bookmark.t.

Let byLocation (a b : nat) : Z := Bookmark.sortByLocation compare (f a) (f b).

Lemma insertSorted_head (x y : nat) (rest : list nat) :
  inOrder compare (f x) (f y) = true ->
  Js.insertSorted byLocation x (y :: rest) = x :: y :: rest.
Proof.
  unfold inOrder, byLocation. simpl. now intros ->.
Qed.

(** A sorted array is a fixed point of the sort. *)
Lemma arraySort_of_sorted (l : list nat) :
  sortedByLocation compare (map f l) = true -> Js.arraySort byLocation l = l.
Proof.
  unfold Js.arraySort.
  induction l as [|x l IH]; cbn [fold_right map sortedByLocation];
    [reflexivity|].
  intros H. apply andb_true_iff in H as [Hx Hl].
  rewrite (IH Hl).
  destruct l as [|y rest]; [reflexivity|].
  apply insertSorted_head. simpl in Hx. now apply andb_true_iff in Hx as [Hx _].
Qed.

(** In a sorted array, taking one entry out and inserting another one
    commute. *)
Lemma insertSorted_removeFirst (x n : nat) (l : list nat) :
  x <> n -> sortedByLocation compare (map f l) = true ->
  Js.removeFirst n (Js.insertSorted byLocation x l)
  = Js.insertSorted byLocation x (Js.removeFirst n l).
Proof.
  intros Hx. induction l as [|y rest IH]; intros Hsorted.
  - simpl. destruct (Nat.eqb_spec x n); [contradiction | reflexivity].
  - cbn [map sortedByLocation] in Hsorted.
    apply andb_true_iff in Hsorted as [Hy Hrest].
    cbn [Js.insertSorted]. fold byLocation.
    destruct (byLocation x y <=? 0)%Z eqn:Hcmp.
    + cbn [Js.removeFirst].
      destruct (Nat.eqb_spec x n) as [|_]; [contradiction|].
      destruct (Nat.eqb_spec y n) as [Hyn|Hyn].
      * destruct rest as [|z rest']; [reflexivity|].
        symmetry. apply insertSorted_head.
        apply (inOrder_trans compare compare_collates _ (f y)); [exact Hcmp|].
        simpl in Hy. now apply andb_true_iff in Hy as [Hy _].
      * cbn [Js.insertSorted]. fold byLocation. now rewrite Hcmp.
    + cbn [Js.removeFirst].
      destruct (Nat.eqb_spec y n) as [Hyn|Hyn]; [reflexivity|].
      cbn [Js.insertSorted]. fold byLocation. rewrite Hcmp. f_equal.
      apply IH, Hrest.
Qed.

Lemma fold_insertSorted_sorted (l acc : list nat) :
  sortedByLocation compare (map f acc) = true ->
  sortedByLocation compare
    (map f (fold_right (Js.insertSorted byLocation) acc l)) = true.
Proof.
  intros Hacc. induction l as [|x l IH]; simpl; [exact Hacc|].
  unfold byLocation at 1.
  rewrite (insertSorted_map f (Bookmark.sortByLocation compare)).
  now apply insertSorted_sorted.
Qed.

(** Sorting an array with one more entry at its end and taking that entry
    out again is sorting the array. *)
Lemma arraySort_removeFirst_last (n : nat) (l : list nat) :
  ~ In n l ->
  Js.removeFirst n (Js.arraySort byLocation (l ++ [n])) = Js.arraySort byLocation l.
Proof.
  intros Hn. unfold Js.arraySort. rewrite fold_right_app. cbn [fold_right].
  induction l as [|x l IH]; simpl.
  - now rewrite Nat.eqb_refl.
  - rewrite insertSorted_removeFirst.
    + f_equal. apply IH. intros H. apply Hn. now right.
    + intros ->. apply Hn. now left.
    + apply fold_insertSorted_sorted. reflexivity.
Qed.
End InsertionSort.

Lemma getTempDocumentBookmarkList_fields (s : Main) (fsPath : string) :
  set_tempDocumentBookmarks (tempDocumentBookmarks s)
    (snd (getTempDocumentBookmarkList s fsPath)) = s.
Proof.
  unfold getTempDocumentBookmarkList.
  destruct (tempDocumentBookmarks s !! fsPath); now destruct s.
Qed.

Lemma arraySort_ext {A : Type} (compare compare' : A -> A -> Z) (l : list A) :
  (forall a b, compare a b = compare' a b) ->
  Js.arraySort compare l = Js.arraySort compare' l.
Proof.
  intros H. unfold Js.arraySort. induction l as [|x l IH]; simpl; [reflexivity|].
  rewrite IH. generalize (fold_right (Js.insertSorted compare') [] l).
  intros acc. induction acc as [|y acc IHacc]; simpl; [reflexivity|].
  now rewrite H, IHacc.
Qed.

(** What the toggle looks for, in terms of the array. *)
Lemma toggleBookmark_finds fsPath lineNumber group (s : Main) :
  cacheCoherent s fsPath ->
  let '(list, s1) := getTempDocumentBookmarkList s fsPath in
  List.find
    (fun bookmark =>
       (Bookmark.lineNumber (bookmarkAt s1 bookmark) =? lineNumber)%Z
       && (Bookmark.group (bookmarkAt s1 bookmark) =? group)%nat)
    list
  = List.find (toggledAt s fsPath lineNumber group) (bookmarks s).
Proof.
  intros Hcache.
  pose proof (fileList_coherent s fsPath Hcache) as Hlist.
  destruct (getTempDocumentBookmarkList_frame s fsPath) as (Hheap & _).
  destruct (getTempDocumentBookmarkList s fsPath) as [list s1].
  simpl in Hlist, Hheap. rewrite Hlist, find_filter.
  unfold toggledAt. clear Hlist.
  induction (bookmarks s) as [|b l IH]; simpl; [reflexivity|].
  rewrite (bookmarkAt_ext s1 s b Hheap), IH. reflexivity.
Qed.

Lemma toggleBookmark_hit fsPath lineNumber characterNumber lineText group
    (s : Main) (existing : nat) :
  cacheCoherent s fsPath ->
  List.find (toggledAt s fsPath lineNumber group) (bookmarks s) = Some existing ->
  let s' := toggleBookmark fsPath lineNumber characterNumber lineText group s in
  bookmarks s' = Js.removeFirst existing (bookmarks s) /\ bheap s' = bheap s
  /\ nextRef s' = nextRef s.
Proof.
  intros Hcache Hfind s'. unfold s', toggleBookmark.
  pose proof (toggleBookmark_finds fsPath lineNumber group s Hcache) as Hsame.
  pose proof (getTempDocumentBookmarkList_fields s fsPath) as Hfields.
  destruct (getTempDocumentBookmarkList s fsPath) as [list s1].
  simpl in Hfields. rewrite Hsame, Hfind.
  destruct (saveState_frame (deleteBookmark existing s1)) as (Sb & Sbs & _).
  destruct (saveState_hide (deleteBookmark existing s1)) as (_ & _ & Sn & _).
  destruct (deleteBookmark_frame s1 existing) as [Db Dbs].
  rewrite Sbs, Sb, Sn, Dbs, Db.
  assert (H1 : bookmarks s1 = bookmarks s) by exact (f_equal bookmarks Hfields).
  assert (H2 : bheap s1 = bheap s) by exact (f_equal bheap Hfields).
  assert (H3 : nextRef s1 = nextRef s) by exact (f_equal nextRef Hfields).
  rewrite H1, H2, <- H3.
  split; [reflexivity|]. split; [reflexivity|].
  unfold deleteBookmark. now destruct (Js.includes existing (bookmarks s1)).
Qed.

Lemma toggleBookmark_miss fsPath lineNumber characterNumber lineText group
    (s : Main) :
  cacheCoherent s fsPath ->
  List.find (toggledAt s fsPath lineNumber group) (bookmarks s) = None ->
  let s' := toggleBookmark fsPath lineNumber characterNumber lineText group s in
  bookmarks s'
  = Js.arraySort
      (fun a b =>
         Bookmark.sortByLocation (localeCompare (host s))
           (bookmarkAt s' a) (bookmarkAt s' b))
      (bookmarks s ++ [nextRef s])
  /\ bheap s'
     = <[nextRef s := Bookmark.new fsPath lineNumber characterNumber None
                        lineText group]> (bheap s)
  /\ nextRef s' = S (nextRef s)
  /\ tempDocumentBookmarks s' !! fsPath = None
  /\ host s' = host s.
Proof.
  intros Hcache Hfind s'. unfold s', toggleBookmark.
  pose proof (toggleBookmark_finds fsPath lineNumber group s Hcache) as Hsame.
  pose proof (getTempDocumentBookmarkList_fields s fsPath) as Hfields.
  destruct (getTempDocumentBookmarkList s fsPath) as [list s1].
  simpl in Hfields. rewrite Hsame, Hfind. cbv zeta. cbn [allocBookmark].
  match goal with |- context [snd (saveState ?x)] => set (s5 := x) end.
  destruct (saveState_frame s5) as (Sb & Sbs & _).
  destruct (saveState_hide s5) as (_ & _ & Sn & Sh & _ & Sc & _).
  rewrite Sbs, Sn, Sc, Sh.
  assert (H1 : bookmarks s1 = bookmarks s) by exact (f_equal bookmarks Hfields).
  assert (H2 : bheap s1 = bheap s) by exact (f_equal bheap Hfields).
  assert (H3 : nextRef s1 = nextRef s) by exact (f_equal nextRef Hfields).
  assert (H4 : host s1 = host s) by exact (f_equal host Hfields).
  rewrite (arraySort_ext _
             (fun a b =>
                Bookmark.sortByLocation (localeCompare (host s1))
                  (bookmarkAt s5 a) (bookmarkAt s5 b)))
    by (intros a b; rewrite H4; now rewrite !(bookmarkAt_ext _ s5 _ Sb)).
  rewrite Sb.
  unfold s5. simpl. rewrite H1, H2, H3, H4.
  split; [reflexivity|]. split; [reflexivity|]. split; [reflexivity|].
  split; [apply lookup_delete_eq | reflexivity].
Qed.

(** X12. [toggleBookmark] removes the first bookmark of the array that sits
    on the line of the file in the group, when there is one, and touches no
    bookmark object; otherwise it creates one bookmark there, with the given
    column and text, no label and no failed jump, adds it to the array and
    changes no other object.  In a sorted array the toggle that follows on
    the same line for the same group, whatever its column and text, brings
    the array back. *)
Theorem toggleBookmark_adds_or_removes (fsPath : string)
    (lineNumber characterNumber : Z) (lineText : string) (group : nat)
    (s : Main) :
  List.NoDup (bookmarks s) -> bookmarksAllocated s -> cacheCoherent s fsPath ->
  let s' := toggleBookmark fsPath lineNumber characterNumber lineText group s in
  match List.find (toggledAt s fsPath lineNumber group) (bookmarks s) with
  | Some existing =>
      bookmarks s'
      = List.filter (fun b => negb (b =? existing)%nat) (bookmarks s)
      /\ bheap s' = bheap s
  | None =>
      Permutation (bookmarks s') (nextRef s :: bookmarks s)
      /\ bookmarkAt s' (nextRef s)
         = Bookmark.new fsPath lineNumber characterNumber None lineText group
      /\ (forall b, b <> nextRef s -> bookmarkAt s' b = bookmarkAt s b)
      /\ (collates (localeCompare (host s)) -> sortedStore s ->
          forall characterNumber' lineText',
            bookmarks
              (toggleBookmark fsPath lineNumber characterNumber' lineText' group s')
            = bookmarks s)
  end.
Proof.
  intros Hnd Halloc Hcache s'.
  destruct (List.find _ (bookmarks s)) as [existing|] eqn:Hfind.
  - destruct (toggleBookmark_hit fsPath lineNumber characterNumber lineText group
                s existing Hcache Hfind) as (H1 & H2 & _).
    fold s' in H1, H2. split; [|exact H2].
    rewrite H1. now apply removeFirst_filter.
  - destruct (toggleBookmark_miss fsPath lineNumber characterNumber lineText group
                s Hcache Hfind) as (H1 & H2 & H3 & H4 & H5).
    fold s' in H1, H2, H3, H4, H5.
    assert (Hnew : bookmarkAt s' (nextRef s)
                   = Bookmark.new fsPath lineNumber characterNumber None
                       lineText group)
      by (unfold bookmarkAt; rewrite H2; apply lookup_total_insert_eq).
    assert (Hold : forall b, b <> nextRef s -> bookmarkAt s' b = bookmarkAt s b).
    { intros b Hb. unfold bookmarkAt. rewrite H2.
      apply lookup_total_insert_ne. congruence. }
    split.
    { rewrite H1. etransitivity; [apply arraySort_Permutation|].
      symmetry. apply Permutation_cons_append. }
    split; [exact Hnew|]. split; [exact Hold|].
    intros Hcollates Hsorted characterNumber' lineText'.
    assert (Hfresh : ~ In (nextRef s) (bookmarks s))
      by (intros H; apply Halloc in H; lia).
    assert (Hcache' : cacheCoherent s' fsPath)
      by (unfold cacheCoherent; now rewrite H4).
    assert (Hin : In (nextRef s) (bookmarks s')).
    { rewrite H1.
      apply (Permutation_in _ (Permutation_sym (arraySort_Permutation _ _))).
      apply in_or_app. right. now left. }
    assert (Hfind' : List.find (toggledAt s' fsPath lineNumber group) (bookmarks s')
                     = Some (nextRef s)).
    { apply find_unique; [exact Hin| |].
      - unfold toggledAt. rewrite Hnew. simpl.
        now rewrite String.eqb_refl, Z.eqb_refl, Nat.eqb_refl.
      - intros x Hx Hhit.
        destruct (Nat.eq_dec x (nextRef s)) as [|Hne]; [assumption|].
        exfalso. rewrite H1 in Hx.
        apply (Permutation_in _ (arraySort_Permutation _ _)) in Hx.
        apply in_app_or in Hx as [Hx|[Hx|[]]]; [|congruence].
        apply (List.find_none _ _ Hfind) in Hx.
        unfold toggledAt in Hx, Hhit. rewrite (Hold x Hne) in Hhit. congruence. }
    destruct (toggleBookmark_hit fsPath lineNumber characterNumber' lineText' group
                s' (nextRef s) Hcache' Hfind') as (R1 & _).
    rewrite R1, H1, (arraySort_removeFirst_last _ Hcollates) by exact Hfresh.
    apply arraySort_of_sorted.
    unfold sortedStore, bookmarkValues in Hsorted.
    rewrite (map_ext_in (bookmarkAt s') (bookmarkAt s)); [exact Hsorted|].
    intros b Hb. apply Hold. intros ->. contradiction.
Qed.

Lemma toggleBookmark_adds_or_removes_witness :
  bookmarks (toggleBookmark "/ws/a.ts" 7 0 "line 7" 2 sampleTwoBookmarks)
  = [3%nat].
Proof.
  assert (Hnd : List.NoDup (bookmarks sampleTwoBookmarks))
    by (vm_compute; repeat constructor; simpl; intuition lia).
  assert (Halloc : bookmarksAllocated sampleTwoBookmarks)
    by (intros b Hb; vm_compute in Hb; vm_compute; intuition lia).
  assert (Hcache : cacheCoherent sampleTwoBookmarks "/ws/a.ts")
    by (vm_compute; exact I).
  pose proof (toggleBookmark_adds_or_removes "/ws/a.ts" 7 0 "line 7" 2
                sampleTwoBookmarks Hnd Halloc Hcache) as H.
  vm_compute in H. destruct H as [H _]. vm_compute. exact H.
Defined.

(** ** Navigation in a sorted store *)

Lemma scan_first (s : Main) test l n b n' :
  scanCandidates s test l n = (Some b, n') ->
  exists pre post,
    l = pre ++ b :: post
    /\ Forall (fun x => failedAt s x = false -> test (bookmarkAt s x) = false) pre
    /\ failedAt s b = false /\ test (bookmarkAt s b) = true.
Proof.
  revert n. induction l as [|x l IH]; intros n H; simpl in H; [discriminate|].
  unfold failedAt.
  destruct (Bookmark.failedJump (bookmarkAt s x)) eqn:Hf.
  - destruct (IH _ H) as (pre & post & -> & Hpre & Hb & Ht).
    exists (x :: pre), post. repeat split; auto.
    constructor; [|exact Hpre]. unfold failedAt. congruence.
  - destruct (test (bookmarkAt s x)) eqn:Ht.
    + injection H as <- _. exists [], l. repeat split; auto.
    + destruct (IH _ H) as (pre & post & -> & Hpre & Hb & Ht').
      exists (x :: pre), post. repeat split; auto.
Qed.

Lemma scan_finds (s : Main) test l n x :
  In x l -> failedAt s x = false -> test (bookmarkAt s x) = true ->
  exists b n', scanCandidates s test l n = (Some b, n').
Proof.
  revert n. induction l as [|y l IH]; intros n Hin Hf Ht; [contradiction|].
  simpl. destruct (Bookmark.failedJump (bookmarkAt s y)) eqn:Hfy.
  - destruct Hin as [->|Hin]; [unfold failedAt in Hf; congruence|]. now apply IH.
  - destruct (test (bookmarkAt s y)) eqn:Hty; [eauto|].
    destruct Hin as [->|Hin]; [congruence|]. now apply IH.
Qed.

(** In a sorted list every entry is in order with the ones behind it. *)
Lemma sorted_split (compare : string -> string -> Z) (f : nat -> Bookmark.t)
    (pre post : list nat) (b : nat) :
  sortedByLocation compare (map f (pre ++ b :: post)) = true ->
  (forall x, In x pre -> inOrder compare (f x) (f b) = true)
  /\ (forall x, In x post -> inOrder compare (f b) (f x) = true).
Proof.
  induction pre as [|y pre IH]; cbn [app map sortedByLocation]; intros H;
    apply andb_true_iff in H as [Hhead Htail].
  - split; [intros x []|]. intros x Hx. rewrite forallb_forall in Hhead.
    apply Hhead. now apply in_map.
  - destruct (IH Htail) as [Hpre Hpost]. split; [|exact Hpost].
    intros x [->|Hx]; [|now apply Hpre].
    rewrite forallb_forall in Hhead. apply Hhead.
    rewrite map_app. apply in_or_app. right. now left.
Qed.

Lemma groupList_sorted (s : Main) :
  sortedStore s ->
  sortedByLocation (localeCompare (host s))
    (map (bookmarkAt s)
         (List.filter (ofGroup s (activeGroup s)) (bookmarks s))) = true.
Proof.
  intros H. now apply filter_sorted.
Qed.

(** The answer of a scan over a sorted list of the group: the first
    bookmark that may be answered with, and none of them lies before it. *)
Lemma scan_sorted (s s1 : Main) (test : Bookmark.t -> bool) (l : list nat)
    (x : nat) :
  bheap s1 = bheap s ->
  (forall b, In b l -> In b (bookmarks s) /\ ofGroup s (activeGroup s) b = true) ->
  In x l -> navigable s test x = true ->
  exists b pre post,
    wrapAround s1 l (fst (scanCandidates s1 test l 0))
                    (snd (scanCandidates s1 test l 0)) = (Some b, s1)
    /\ In b (bookmarks s) /\ navigable s test b = true
    /\ l = pre ++ b :: post /\ (x = b \/ In x post).
Proof.
  intros Hheap Hl Hx Hnav. unfold navigable in Hnav.
  apply andb_true_iff in Hnav as [_ Hnav].
  apply andb_true_iff in Hnav as [Hf Ht]. apply negb_true_iff in Hf.
  rewrite (scanCandidates_ext s1 s test l 0 Hheap).
  destruct (scan_finds s test l 0 x Hx Hf Ht) as (b & n' & Hscan).
  rewrite Hscan. cbn [fst snd wrapAround].
  destruct (scan_first s test l 0 b n' Hscan) as (pre & post & El & Hpre & Hfb & Htb).
  exists b, pre, post. split; [reflexivity|].
  assert (Hb : In b l) by (rewrite El; apply in_or_app; right; now left).
  destruct (Hl b Hb) as [Hin Hgroup].
  split; [exact Hin|]. split.
  { unfold navigable. now rewrite Hgroup, Hfb, Htb. }
  split; [exact El|].
  rewrite El in Hx. apply in_app_or in Hx as [Hx|[Hx|Hx]]; auto.
  rewrite List.Forall_forall in Hpre. specialize (Hpre x Hx Hf). congruence.
Qed.

(** X13. In a store that is sorted by [Bookmark.sortByLocation] under the
    collation of the host (a text compares equal to itself) and whose cached
    list of the active group is up to date, [nextBookmark] answers with the
    nearest bookmark behind the position: when some bookmark of the active
    group that is not flagged follows the position, the answer is such a
    bookmark, it is in the canonical order before every other one of them,
    and no warning is shown.  [previousBookmark] answers likewise with the
    nearest one before the position. *)
Theorem navigation_answers_with_the_nearest (s : Main) (fsPath : string)
    (line : Z) :
  collates (localeCompare (host s)) ->
  sortedStore s -> groupCacheCoherent s (activeGroup s) ->
  let follows := followsPosition (localeCompare (host s)) fsPath line in
  let precedes := precedesPosition (localeCompare (host s)) fsPath line in
  (forall x,
     In x (bookmarks s) -> navigable s follows x = true ->
     exists b,
       fst (nextBookmark s fsPath line) = Some b
       /\ In b (bookmarks s)
       /\ navigable s follows b = true
       /\ canonicalOrder (localeCompare (host s)) (bookmarkAt s b) (bookmarkAt s x)
       /\ notifications (snd (nextBookmark s fsPath line)) = notifications s)
  /\ (forall x,
        In x (bookmarks s) -> navigable s precedes x = true ->
        exists b,
          fst (previousBookmark s fsPath line) = Some b
          /\ In b (bookmarks s)
          /\ navigable s precedes b = true
          /\ canonicalOrder (localeCompare (host s)) (bookmarkAt s x) (bookmarkAt s b)
          /\ notifications (snd (previousBookmark s fsPath line)) = notifications s).
Proof.
  intros Hcollates Hsorted Hcache follows precedes.
  pose proof (groupList_coherent s (activeGroup s) Hcache) as Hlist.
  destruct (getTempGroupBookmarkList_frame s (activeGroup s)) as [Hheap Hnote].
  pose proof (groupList_sorted s Hsorted) as Hs. rewrite <- Hlist in Hs.
  set (l := fst (getTempGroupBookmarkList s (activeGroup s))) in *.
  set (s1 := snd (getTempGroupBookmarkList s (activeGroup s))) in *.
  assert (Hl : forall b, In b l ->
                 In b (bookmarks s) /\ ofGroup s (activeGroup s) b = true)
    by (intros b Hb; rewrite Hlist in Hb; now apply List.filter_In in Hb).
  assert (Hin : forall test x, In x (bookmarks s) -> navigable s test x = true ->
                  In x l).
  { intros test x Hx Hnav. rewrite Hlist. apply List.filter_In. split; [exact Hx|].
    unfold navigable in Hnav. now apply andb_true_iff in Hnav as [Hnav _]. }
  split; intros x Hx Hnav.
  - rewrite nextBookmark_unfold. fold l s1 follows.
    destruct (scan_sorted s s1 _ l x Hheap Hl (Hin _ x Hx Hnav) Hnav)
      as (b & pre & post & -> & Hb & Hnavb & El & Hpos).
    exists b. cbn [fst snd]. repeat (split; [assumption || reflexivity|]).
    split; [|exact Hnote].
    apply inOrder_canonical.
    destruct Hpos as [->|Hpos]; [now apply inOrder_refl|].
    rewrite El in Hs. now apply (sorted_split _ (bookmarkAt s) pre post b Hs).
  - rewrite previousBookmark_unfold. fold l s1 precedes.
    assert (Hl' : forall b, In b (rev l) ->
                    In b (bookmarks s) /\ ofGroup s (activeGroup s) b = true)
      by (intros b Hb; apply Hl; now apply List.in_rev).
    assert (Hx' : In x (rev l)) by (apply List.in_rev; rewrite List.rev_involutive; eauto).
    destruct (scan_sorted s s1 _ (rev l) x Hheap Hl' Hx' Hnav)
      as (b & pre & post & -> & Hb & Hnavb & El & Hpos).
    exists b. cbn [fst snd]. repeat (split; [assumption || reflexivity|]).
    split; [|exact Hnote].
    apply inOrder_canonical.
    destruct Hpos as [->|Hpos]; [now apply inOrder_refl|].
    assert (El' : l = rev post ++ b :: rev pre).
    { rewrite <- (List.rev_involutive l), El, List.rev_app_distr. simpl.
      now rewrite <- List.app_assoc. }
    rewrite El' in Hs.
    apply (sorted_split _ (bookmarkAt s) (rev post) (rev pre) b Hs).
    now apply List.in_rev in Hpos.
Qed.

Lemma sampleTwoBookmarks_host : host sampleTwoBookmarks = sampleHost.
Proof. vm_compute. reflexivity. Qed.

Lemma navigation_answers_with_the_nearest_witness :
  exists b,
    fst (nextBookmark sampleTwoBookmarks "/ws/a.ts" 5) = Some b
    /\ canonicalOrder Js.localeCompare (bookmarkAt sampleTwoBookmarks b)
                      (bookmarkAt sampleTwoBookmarks 4).
Proof.
  assert (Hcollates : collates (localeCompare (host sampleTwoBookmarks)))
    by (rewrite sampleTwoBookmarks_host; exact localeCompare_collates).
  assert (Hsorted : sortedStore sampleTwoBookmarks) by (vm_compute; reflexivity).
  assert (Hcache : groupCacheCoherent sampleTwoBookmarks
                     (activeGroup sampleTwoBookmarks)) by (vm_compute; exact I).
  assert (Hin : In 4%nat (bookmarks sampleTwoBookmarks)) by (vm_compute; auto).
  assert (Hnav : navigable sampleTwoBookmarks
                   (followsPosition (localeCompare (host sampleTwoBookmarks))
                      "/ws/a.ts" 5) 4
                 = true) by (vm_compute; reflexivity).
  destruct (navigation_answers_with_the_nearest sampleTwoBookmarks "/ws/a.ts" 5
              Hcollates Hsorted Hcache) as [H _].
  destruct (H 4%nat Hin Hnav) as (b & H1 & _ & _ & H4 & _).
  exists b. split; [assumption|].
  rewrite sampleTwoBookmarks_host in H4. exact H4.
Defined.

(** ** Well-formed stores *)

Lemma orderly_refl (s : Main) : orderly s s.
Proof.
  unfold orderly, arraysTidy. repeat split; auto; tauto.
Qed.

Lemma orderly_tidy (s s' : Main) : orderly s s' -> arraysTidy s -> arraysTidy s'.
Proof.
  intros (Hn & Hb & Hg & Hnd & _) Ht. destruct (Hnd Ht) as [Hndb Hndg].
  destruct Ht as (_ & Hab & _ & Hag).
  unfold arraysTidy, bookmarksAllocated, groupsAllocated in *.
  rewrite List.Forall_forall in *.
  repeat split; auto.
  - intros b Hin. destruct (Hb b Hin) as [H|H]; [apply Hab in H|]; lia.
  - intros g Hin. destruct (Hg g Hin) as [H|H]; [apply Hag in H|]; lia.
Qed.

Lemma orderly_trans (s1 s2 s3 : Main) :
  orderly s1 s2 -> orderly s2 s3 -> orderly s1 s3.
Proof.
  intros H12 H23. pose proof (orderly_tidy s1 s2 H12) as Ht.
  destruct H12 as (Hn1 & Hb1 & Hg1 & Hnd1 & Ha1).
  destruct H23 as (Hn2 & Hb2 & Hg2 & Hnd2 & Ha2).
  split; [lia|]. split; [|split; [|split]].
  - intros b Hin. destruct (Hb2 b Hin) as [H|H]; [|right; lia].
    destruct (Hb1 b H) as [H'|H']; [now left | right; lia].
  - intros g Hin. destruct (Hg2 g Hin) as [H|H]; [|right; lia].
    destruct (Hg1 g H) as [H'|H']; [now left | right; lia].
  - auto.
  - auto.
Qed.

Lemma orderly_wellFormed (s s' : Main) :
  orderly s s' -> wellFormed s -> wellFormed s'.
Proof.
  intros H [Ht Ha]. split; [now apply (orderly_tidy s)|].
  now apply H.
Qed.

(** An operation that leaves both arrays and the active group alone. *)
Lemma O_frame (s s' : Main) :
  bookmarks s' = bookmarks s -> groups s' = groups s ->
  activeGroup s' = activeGroup s -> (nextRef s <= nextRef s')%nat ->
  orderly s s'.
Proof.
  intros Hb Hg Ha Hn. unfold orderly, arraysTidy. rewrite Hb, Hg, Ha.
  repeat split; auto; tauto.
Qed.

(** An operation on the bookmark array that only takes entries out or
    reorders them. *)
Lemma O_bookmarks (s s' : Main) :
  (forall b, In b (bookmarks s') -> In b (bookmarks s)) ->
  (List.NoDup (bookmarks s) -> List.NoDup (bookmarks s')) ->
  groups s' = groups s -> activeGroup s' = activeGroup s ->
  (nextRef s <= nextRef s')%nat ->
  orderly s s'.
Proof.
  intros Hb Hnd Hg Ha Hn. unfold orderly, arraysTidy. rewrite Hg, Ha.
  repeat split; auto; tauto.
Qed.

Create HintDb tidy.

Lemma O_updateBookmark (r : nat) (f : Bookmark.t -> Bookmark.t) (s : Main) :
  orderly s (updateBookmark r f s).
Proof. now apply O_frame. Qed.

Lemma O_updateGroup (r : nat) (f : Group.t -> Group.t) (s : Main) :
  orderly s (updateGroup r f s).
Proof. now apply O_frame. Qed.

Lemma O_allocBookmark (b : Bookmark.t) (s : Main) :
  orderly s (snd (allocBookmark b s)).
Proof. apply O_frame; simpl; auto. Qed.

Lemma O_allocGroup (g : Group.t) (s : Main) :
  orderly s (snd (allocGroup g s)).
Proof. apply O_frame; simpl; auto. Qed.

Lemma O_showMessage (n : Vscode.Notification) (s : Main) :
  orderly s (showMessage n s).
Proof. now apply O_frame. Qed.

Lemma O_forgetFile (p : string) (s : Main) : orderly s (forgetFile p s).
Proof. now apply O_frame. Qed.

Lemma O_forgetGroup (g : nat) (s : Main) : orderly s (forgetGroup g s).
Proof. now apply O_frame. Qed.

Lemma O_set_hideAll (v : bool) (s : Main) : orderly s (set_hideAll v s).
Proof. now apply O_frame. Qed.

Lemma O_set_hideInactiveGroups (v : bool) (s : Main) :
  orderly s (set_hideInactiveGroups v s).
Proof. now apply O_frame. Qed.

Lemma O_set_workspaceState (v : Memento) (s : Main) :
  orderly s (set_workspaceState v s).
Proof. now apply O_frame. Qed.

Lemma O_set_clock (v : Z) (s : Main) : orderly s (set_clock v s).
Proof. now apply O_frame. Qed.

Lemma O_resetTempLists (s : Main) : orderly s (resetTempLists s).
Proof. now apply O_frame. Qed.

Lemma O_sortBookmarks (s : Main) : orderly s (sortBookmarks s).
Proof.
  apply O_bookmarks; try reflexivity; unfold sortBookmarks; cbn [bookmarks set_bookmarks].
  - intros b. apply Permutation_in, arraySort_Permutation.
  - apply Permutation_NoDup. symmetry. apply arraySort_Permutation.
Qed.

Lemma O_sortGroups (s : Main) : orderly s (sortGroups s).
Proof.
  unfold orderly, arraysTidy, sortGroups. cbn [groups bookmarks nextRef activeGroup set_groups].
  split; [lia|]. split; [auto|]. split; [|split].
  - intros g Hg. left. revert Hg. apply Permutation_in, arraySort_Permutation.
  - intros (Hb & _ & Hg & _). split; [exact Hb|].
    revert Hg. apply Permutation_NoDup. symmetry. apply arraySort_Permutation.
  - apply Permutation_in. symmetry. apply arraySort_Permutation.
Qed.

Lemma O_deleteBookmark (b : nat) (s : Main) : orderly s (deleteBookmark b s).
Proof.
  destruct (deleteBookmark_frame s b) as [_ Hbs].
  apply O_bookmarks.
  - rewrite Hbs. intros x. apply removeFirst_In.
  - apply deleteBookmark_NoDup.
  - unfold deleteBookmark. now destruct (Js.includes b (bookmarks s)).
  - unfold deleteBookmark. now destruct (Js.includes b (bookmarks s)).
  - unfold deleteBookmark. now destruct (Js.includes b (bookmarks s)).
Qed.

Lemma O_saveState (s : Main) : orderly s (snd (saveState s)).
Proof.
  destruct (saveState_frame s) as (_ & Hbs & _ & Hgs & Ha & _).
  destruct (saveState_hide s) as (_ & _ & Hn & _).
  apply O_frame; auto. now rewrite Hn.
Qed.

Lemma O_getTempDocumentBookmarkList (s : Main) (p : string) :
  orderly s (snd (getTempDocumentBookmarkList s p)).
Proof.
  unfold getTempDocumentBookmarkList.
  destruct (tempDocumentBookmarks s !! p); now apply O_frame.
Qed.

Lemma O_getTempGroupBookmarkList (s : Main) (g : nat) :
  orderly s (snd (getTempGroupBookmarkList s g)).
Proof.
  unfold getTempGroupBookmarkList.
  destruct (tempGroupBookmarks s !! g); now apply O_frame.
Qed.

Lemma NoDup_snoc_fresh (l : list nat) (n : nat) :
  List.NoDup l -> (forall b, In b l -> (b < n)%nat) -> List.NoDup (l ++ [n]).
Proof.
  intros Hnd Hlt. apply (Permutation_NoDup (Permutation_cons_append l n)).
  constructor; [|exact Hnd]. intros H. apply Hlt in H. lia.
Qed.

(** [new Bookmark(...)] followed by the push of the new bookmark. *)
Lemma O_pushBookmark (s : Main) (h : gmap nat Bookmark.t) (l : list nat) :
  l = bookmarks s ->
  orderly s
    (set_bookmarks (l ++ [nextRef s]) (set_nextRef (S (nextRef s)) (set_bheap h s))).
Proof.
  intros ->. unfold orderly, arraysTidy.
  cbn [bookmarks groups nextRef activeGroup set_bookmarks set_nextRef set_bheap].
  split; [lia|]. split; [|split; [auto|split; [|auto]]].
  - intros b Hb. apply in_app_or in Hb as [Hb|[<-|[]]]; [now left | right; lia].
  - intros (Hb & Hab & Hg & _). split; [|exact Hg].
    now apply NoDup_snoc_fresh.
Qed.

Lemma O_addNewDecoratedBookmark (s : Main) (h : gmap nat Bookmark.t) :
  orderly s
    (addNewDecoratedBookmark (nextRef s)
       (set_nextRef (S (nextRef s)) (set_bheap h s))).
Proof. exact (O_pushBookmark s h (bookmarks s) eq_refl). Qed.

(** [new Bookmark(...)], the removal of another bookmark, and then the push
    of the new one, as in [relabelBookmark]. *)
Lemma O_replaceBookmark (s : Main) (h : gmap nat Bookmark.t) (b : nat) :
  orderly s
    (addNewDecoratedBookmark (nextRef s)
       (deleteBookmark b (set_nextRef (S (nextRef s)) (set_bheap h s)))).
Proof.
  set (s1 := set_nextRef (S (nextRef s)) (set_bheap h s)).
  destruct (O_deleteBookmark b s1) as (Hn & Hb & Hg & Hnd & Ha).
  destruct (deleteBookmark_frame s1 b) as [_ Hbs].
  unfold orderly, arraysTidy, addNewDecoratedBookmark in *.
  cbn [bookmarks groups nextRef activeGroup set_bookmarks] in *.
  change (nextRef s1) with (S (nextRef s)) in *.
  change (bookmarks s1) with (bookmarks s) in *.
  change (groups s1) with (groups s) in *.
  change (activeGroup s1) with (activeGroup s) in *.
  assert (Hsame : nextRef (deleteBookmark b s1) = S (nextRef s))
    by (unfold deleteBookmark; now destruct (Js.includes b (bookmarks s1))).
  rewrite Hsame in *.
  split; [lia|]. split; [|split; [|split; [|exact Ha]]].
  - intros x Hx. apply in_app_or in Hx as [Hx|[<-|[]]]; [|right; lia].
    destruct (Hb x Hx) as [H|H]; [now left | lia].
  - intros g Hx. destruct (Hg g Hx) as [H|H]; [now left | lia].
  - intros (Hndb & Hab & Hndg & Hag).
    assert (Htidy : List.NoDup (bookmarks s) /\ bookmarksAllocated s1
                    /\ List.NoDup (groups s) /\ groupsAllocated s1).
    { repeat split; auto.
      - intros x Hx. apply Hab in Hx. simpl. lia.
      - unfold groupsAllocated in *. rewrite List.Forall_forall in *.
        intros x Hx. apply Hag in Hx. simpl. lia. }
    destruct (Hnd Htidy) as [H1 H2]. split; [|exact H2].
    apply NoDup_snoc_fresh; [exact H1|].
    intros x Hx. rewrite Hbs in Hx. apply removeFirst_In in Hx. now apply Hab.
Qed.

#[export] Hint Resolve O_pushBookmark O_addNewDecoratedBookmark
  O_replaceBookmark : tidy.

#[export] Hint Resolve O_updateBookmark O_updateGroup O_allocBookmark
  O_allocGroup O_showMessage O_forgetFile O_forgetGroup O_set_hideAll
  O_set_hideInactiveGroups O_set_workspaceState O_set_clock O_resetTempLists
  O_sortBookmarks O_sortGroups O_deleteBookmark O_saveState
  O_getTempDocumentBookmarkList O_getTempGroupBookmarkList : tidy.

Lemma O_fold_left {X : Type} (f : Main -> X -> Main) (l : list X) (s : Main) :
  (forall st x, orderly st (f st x)) -> orderly s (fold_left f l s).
Proof.
  intros H. revert s. induction l as [|x l IH]; intros s; simpl.
  - apply orderly_refl.
  - eapply orderly_trans; [apply H | apply IH].
Qed.

Lemma O_fold_left_fst {X A : Type} (f : Main * A -> X -> Main * A)
    (l : list X) (acc : Main * A) :
  (forall a x, orderly (fst a) (fst (f a x))) ->
  orderly (fst acc) (fst (fold_left f l acc)).
Proof.
  intros H. revert acc. induction l as [|x l IH]; intros acc; simpl.
  - apply orderly_refl.
  - eapply orderly_trans; [apply H | apply IH].
Qed.

Lemma O_bind {A B : Type} (m : Run A) (k : A -> Main -> Run B) (s : Main) :
  orderly s (finalState m) ->
  (forall a st, orderly st (finalState (k a st))) ->
  orderly s (finalState (bind m k)).
Proof.
  intros Hm Hk. destruct m as [a st|st]; simpl in *; [|assumption].
  eapply orderly_trans; [exact Hm | apply Hk].
Qed.

Lemma O_forEachRun {A X : Type} (body : X -> A -> Main -> Run A)
    (xs : list X) (a : A) (s : Main) :
  (forall x a0 st, orderly st (finalState (body x a0 st))) ->
  orderly s (finalState (forEachRun body xs a s)).
Proof.
  intros H. revert a s. induction xs as [|x xs IH]; intros a s; simpl.
  - apply orderly_refl.
  - apply O_bind; [apply H | intros; apply IH].
Qed.

Ltac ord :=
  repeat first
    [ apply orderly_refl
    | assumption
    | match goal with
      | |- orderly _ (finalState (Done _ _)) => simpl finalState
      | |- orderly _ (finalState (Threw _)) => simpl finalState
      | |- orderly _ (snd (_, _)) => simpl snd
      | |- orderly _ (fst (_, _)) => simpl fst
      | |- orderly _ (match ?x with (_, _) => _ end) => split_pair x
      | |- orderly _ (finalState (match ?x with (_, _) => _ end)) => split_pair x
      | |- orderly _ (snd (match ?x with (_, _) => _ end)) => split_pair x
      | |- orderly _ (fst (match ?x with (_, _) => _ end)) => split_pair x
      | |- orderly _ (if ?x then _ else _) => destruct x
      | |- orderly _ (finalState (if ?x then _ else _)) => destruct x
      | |- orderly _ (snd (if ?x then _ else _)) => destruct x
      | |- orderly _ (fst (if ?x then _ else _)) => destruct x
      | |- orderly _ (match ?x with _ => _ end) => destruct x
      | |- orderly _ (finalState (match ?x with _ => _ end)) => destruct x
      | |- orderly _ (snd (match ?x with _ => _ end)) => destruct x
      | |- orderly _ (fst (match ?x with _ => _ end)) => destruct x
      end
    | (eapply orderly_trans; [ | solve [eauto 3 with tidy] ]) ].

Lemma O_setGroupVisibilities (s : Main) : orderly s (setGroupVisibilities s).
Proof.
  unfold setGroupVisibilities. apply O_fold_left. intros. apply O_updateGroup.
Qed.

(** [ensureGroup] finds the group or pushes a new one. *)
Lemma O_ensureGroup (s : Main) (name : string) :
  orderly s (snd (ensureGroup s name)).
Proof.
  unfold ensureGroup. destruct (List.find _ (groups s)); [apply orderly_refl|].
  cbn [allocGroup snd]. eapply orderly_trans; [|apply O_sortGroups].
  unfold orderly, arraysTidy, addNewGroup.
  cbn [bookmarks groups nextRef activeGroup set_groups set_nextRef set_gheap].
  split; [lia|]. split; [auto|]. split; [|split].
  - intros g Hg. apply in_app_or in Hg as [Hg|[<-|[]]]; [now left | right; lia].
  - intros (Hb & _ & Hg & Hag). split; [exact Hb|].
    apply NoDup_snoc_fresh; [exact Hg|].
    unfold groupsAllocated in Hag. now rewrite List.Forall_forall in Hag.
  - intros H. apply in_or_app. now left.
Qed.

(** After [activateGroup] the active group is a group of the registry,
    whatever it was before. *)
Lemma activateGroup_active (s : Main) (name : string) :
  In (activeGroup (activateGroup s name)) (groups (activateGroup s name)).
Proof.
  destruct (activateGroup_spec s name) as (A1 & A2 & _).
  destruct (ensureGroup_result s name) as (Hin & _).
  now rewrite A1, A2.
Qed.

Lemma O_activateGroup (s : Main) (name : string) :
  orderly s (activateGroup s name).
Proof.
  pose proof (O_ensureGroup s name) as (Hn & Hb & Hg & Hnd & _).
  destruct (activateGroup_spec s name) as (A1 & A2 & A3 & _ & A5 & _).
  destruct (ensureGroup_result s name) as (_ & _ & _ & Hbs & _).
  unfold orderly. rewrite A2, A3, A5.
  split; [exact Hn|]. split; [auto|]. split; [exact Hg|]. split.
  - intros Ht. destruct (Hnd Ht) as [_ H2]. split; [apply Ht | exact H2].
  - intros _. rewrite <- A2. apply activateGroup_active.
Qed.

#[export] Hint Resolve O_setGroupVisibilities O_ensureGroup O_activateGroup : tidy.

Lemma O_setHideAll (v : bool) (s : Main) : orderly s (setHideAll v s).
Proof. unfold setHideAll. ord. Qed.

Lemma O_setHideInactiveGroups (v : bool) (s : Main) :
  orderly s (setHideInactiveGroups v s).
Proof. unfold setHideInactiveGroups. ord. Qed.

#[export] Hint Resolve O_setHideAll O_setHideInactiveGroups : tidy.

Lemma O_refresh (document : Vscode.TextDocument) (b : nat) (s : Main) :
  orderly s (finalState (updateBookmarkLineText document b s)).
Proof.
  unfold updateBookmarkLineText. destruct (Vscode.lineAt _ _); simpl.
  - apply O_updateBookmark.
  - apply orderly_refl.
Qed.

#[export] Hint Resolve O_refresh : tidy.

Lemma O_shiftDownStep document from by_ first last b c (s : Main) :
  orderly s (finalState (shiftDownStep document from by_ first last b c s)).
Proof.
  unfold shiftDownStep.
  destruct (_ >=? _)%Z.
  - destruct (inLineRange _ _ _ _).
    + apply O_bind; [|intros; apply orderly_refl].
      eapply orderly_trans; [|apply O_refresh].
      apply O_updateBookmark.
    + simpl. apply O_updateBookmark.
  - destruct (inLineRange _ _ _ _).
    + apply O_bind; [apply O_refresh | intros; apply orderly_refl].
    + apply orderly_refl.
Qed.

Lemma O_shiftUpStep document deleteFrom shiftFrom by_ first last b c (s : Main) :
  orderly s
    (finalState (shiftUpStep document deleteFrom shiftFrom by_ first last b c s)).
Proof.
  unfold shiftUpStep.
  destruct (_ <? first)%Z; [apply orderly_refl|].
  destruct (_ && _); [simpl; apply O_deleteBookmark|].
  destruct (_ >=? _)%Z.
  - destruct (inLineRange _ _ _ _).
    + apply O_bind; [|intros; apply orderly_refl].
      eapply orderly_trans; [|apply O_refresh].
      apply O_updateBookmark.
    + simpl. apply O_updateBookmark.
  - destruct (inLineRange _ _ _ _).
    + apply O_bind; [apply O_refresh | intros; apply orderly_refl].
    + apply orderly_refl.
Qed.

Lemma O_reconcileChange document list change c (s : Main) :
  orderly s (finalState (reconcileChange document list change c s)).
Proof.
  unfold reconcileChange.
  destruct (_ =? _)%Z.
  - apply O_bind; [|intros; apply orderly_refl].
    unfold updateBookmarkLineTextInRange. apply O_forEachRun. intros.
    apply O_bind; [apply O_refresh | intros; apply orderly_refl].
  - destruct (_ >? _)%Z; [apply O_forEachRun; intros; apply O_shiftDownStep|].
    destruct (_ <? _)%Z; [apply O_forEachRun; intros; apply O_shiftUpStep|].
    apply orderly_refl.
Qed.

Lemma O_onEditorDocumentChanged event (s : Main) :
  orderly s (finalState (onEditorDocumentChanged event s)).
Proof.
  unfold onEditorDocumentChanged.
  pose proof (O_getTempDocumentBookmarkList s (Vscode.fsPath (Vscode.document event))) as H.
  destruct (getTempDocumentBookmarkList s _) as [list s1]. simpl in H.
  destruct (_ =? 0)%Z; [exact H|].
  apply O_bind.
  - eapply orderly_trans; [exact H|].
    apply O_forEachRun. intros. apply O_reconcileChange.
  - intros [] st; simpl; [apply O_saveState | apply orderly_refl].
Qed.

Lemma O_toggleBookmark fsPath lineNumber characterNumber lineText group (s : Main) :
  orderly s (toggleBookmark fsPath lineNumber characterNumber lineText group s).
Proof. unfold toggleBookmark. ord. Qed.

#[export] Hint Resolve O_toggleBookmark : tidy.

Lemma O_editorActionToggleBookmark textEditor (s : Main) :
  orderly s (finalState (editorActionToggleBookmark textEditor s)).
Proof.
  unfold editorActionToggleBookmark. apply O_forEachRun. intros. ord.
Qed.

Lemma O_editorActionToggleLabeledBookmark textEditor entered (s : Main) :
  orderly s (finalState (editorActionToggleLabeledBookmark textEditor entered s)).
Proof.
  unfold editorActionToggleLabeledBookmark.
  destruct (Vscode.selections textEditor) as [|selection others];
    [apply orderly_refl|].
  pose proof (O_getTempDocumentBookmarkList s
                (Vscode.fsPath (Vscode.editorDocument textEditor))) as H.
  destruct (getTempDocumentBookmarkList s _) as [list s1]. simpl in H.
  destruct (List.find _ list); [simpl; ord|].
  destruct entered as [[label groupName]|]; [|exact H].
  destruct (_ && _); [exact H|].
  destruct (_ >? _)%Z; [simpl; ord|].
  eapply orderly_trans; [exact H|]. clear H.
  set (s2 := if negb (String.eqb groupName EmptyString)
             then activateGroup s1 groupName else s1).
  assert (H2 : orderly s1 s2) by (unfold s2; ord).
  set (s3 := if (Js.length label =? 1)%Z then _ else s2).
  assert (H3 : orderly s1 s3).
  { eapply orderly_trans; [exact H2|]. unfold s3.
    destruct (Js.length label =? 1)%Z; [|apply orderly_refl].
    pose proof (O_getTempDocumentBookmarkList s2
                  (Vscode.fsPath (Vscode.editorDocument textEditor))) as H.
    destruct (getTempDocumentBookmarkList s2 _) as [list2 s2']. simpl in H.
    destruct (findLabeled _ _ _ _); ord. }
  clearbody s3. clear H2. clearbody s2.
  apply O_bind.
  - destruct (negb (String.eqb label EmptyString)); [|exact H3].
    destruct (Vscode.lineAt _ _); [|exact H3].
    eapply orderly_trans; [exact H3|]. ord.
  - intros. simpl. ord.
Qed.

Lemma O_relabelBookmark bookmark input (s : Main) :
  orderly s (relabelBookmark bookmark input s).
Proof.
  unfold relabelBookmark. destruct input as [input|]; [|apply orderly_refl].
  destruct (String.eqb _ _); [apply orderly_refl|].
  set (s1 := if (Js.length (Js.trim input) =? 1)%Z then _ else s).
  assert (H1 : orderly s s1).
  { unfold s1. destruct (Js.length (Js.trim input) =? 1)%Z; [|apply orderly_refl].
    pose proof (O_getTempDocumentBookmarkList s
                  (Bookmark.fsPath (bookmarkAt s bookmark))) as H.
    destruct (getTempDocumentBookmarkList s _) as [list s']. simpl in H.
    destruct (findLabeled _ _ _ _); ord. }
  clearbody s1. eapply orderly_trans; [exact H1|]. ord.
Qed.

Lemma O_moveBookmarksBetween dst selecteds (s : Main) :
  orderly s (moveBookmarksBetween dst selecteds s).
Proof.
  unfold moveBookmarksBetween. destruct selecteds as [selecteds|];
    [|apply orderly_refl].
  eapply orderly_trans; [|apply O_saveState].
  eapply orderly_trans; [|apply O_sortBookmarks].
  apply O_fold_left. intros st x. ord.
Qed.

Lemma O_deleteAll (l : list nat) (s : Main) :
  orderly s (fold_left (fun st b => deleteBookmark b st) l s).
Proof. apply O_fold_left. intros. apply O_deleteBookmark. Qed.

#[export] Hint Resolve O_deleteAll : tidy.

Lemma O_actionDeleteOneBookmark bookmark (s : Main) :
  orderly s (actionDeleteOneBookmark bookmark s).
Proof. unfold actionDeleteOneBookmark. ord. Qed.

Lemma O_deleteBookmarksOfFile fsPath group (s : Main) :
  orderly s (deleteBookmarksOfFile fsPath group s).
Proof. unfold deleteBookmarksOfFile. ord. Qed.

Lemma O_actionDeleteBookmark selecteds (s : Main) :
  orderly s (actionDeleteBookmark selecteds s).
Proof. unfold actionDeleteBookmark. ord. Qed.

Lemma O_actionClearFailedJumpFlags (s : Main) :
  orderly s (actionClearFailedJumpFlags s).
Proof.
  unfold actionClearFailedJumpFlags.
  match goal with
  | |- orderly _ (let '(_, _) := fold_left ?f ?l ?a in _) =>
      pose proof (O_fold_left_fst f l a) as H
  end.
  simpl fst in H at 1.
  match type of H with
  | ?P -> _ => assert (Hstep : P)
  end.
  { intros [st count] bookmark. cbn beta iota. simpl fst at 1.
    destruct (Bookmark.failedJump _); simpl fst; [apply O_updateBookmark|].
    apply orderly_refl. }
  specialize (H Hstep). clear Hstep.
  destruct (fold_left _ (bookmarks s) (s, 0%Z)) as [s1 clearedFlagCount].
  simpl in H. eapply orderly_trans; [exact H|]. clear H. ord.
Qed.

Lemma O_jumpToBookmark bookmark outcome (s : Main) :
  orderly s (jumpToBookmark bookmark outcome s).
Proof. unfold jumpToBookmark. ord. Qed.

Lemma O_wrapAround (s1 : Main) l c n : orderly s1 (snd (wrapAround s1 l c n)).
Proof.
  unfold wrapAround. destruct c; [apply orderly_refl|].
  destruct (_ >? 0)%Z; [|apply orderly_refl].
  destruct (_ >? _)%Z; [|apply O_showMessage].
  destruct (List.find _ l); [apply orderly_refl | apply O_showMessage].
Qed.

Lemma O_nextBookmark (s : Main) fsPath line :
  orderly s (snd (nextBookmark s fsPath line)).
Proof.
  rewrite nextBookmark_unfold.
  eapply orderly_trans; [apply O_getTempGroupBookmarkList | apply O_wrapAround].
Qed.

Lemma O_previousBookmark (s : Main) fsPath line :
  orderly s (snd (previousBookmark s fsPath line)).
Proof.
  rewrite previousBookmark_unfold.
  eapply orderly_trans; [apply O_getTempGroupBookmarkList | apply O_wrapAround].
Qed.

Lemma O_navigateToNext textEditor outcome (s : Main) :
  orderly s (editorActionnavigateToNextBookmark textEditor outcome s).
Proof.
  unfold editorActionnavigateToNextBookmark.
  destruct (Vscode.selections textEditor); [apply orderly_refl|].
  pose proof (O_nextBookmark s (Vscode.fsPath (Vscode.editorDocument textEditor))
                (Vscode.line (Vscode.start r))) as H.
  destruct (nextBookmark s _ _) as [[b|] s1]; simpl in H; [|exact H].
  eapply orderly_trans; [exact H | apply O_jumpToBookmark].
Qed.

Lemma O_navigateToPrevious textEditor outcome (s : Main) :
  orderly s (editorActionNavigateToPreviousBookmark textEditor outcome s).
Proof.
  unfold editorActionNavigateToPreviousBookmark.
  destruct (Vscode.selections textEditor); [apply orderly_refl|].
  pose proof (O_previousBookmark s (Vscode.fsPath (Vscode.editorDocument textEditor))
                (Vscode.line (Vscode.start r))) as H.
  destruct (previousBookmark s _ _) as [[b|] s1]; simpl in H; [|exact H].
  eapply orderly_trans; [exact H | apply O_jumpToBookmark].
Qed.

Lemma O_setActiveGroup groupName (s : Main) :
  orderly s (setActiveGroup groupName s).
Proof. unfold setActiveGroup. ord. Qed.

Lemma O_actionAddGroup input (s : Main) : orderly s (actionAddGroup input s).
Proof. unfold actionAddGroup. ord. Qed.

Lemma O_renameGroup group input (s : Main) :
  orderly s (renameGroup group input s).
Proof. unfold renameGroup. ord. Qed.

Lemma O_actionSetGroupIconShape selected (s : Main) :
  orderly s (actionSetGroupIconShape selected s).
Proof. unfold actionSetGroupIconShape. ord. Qed.

Lemma O_actionSetGroupIconColor selected (s : Main) :
  orderly s (actionSetGroupIconColor selected s).
Proof. unfold actionSetGroupIconColor. ord. Qed.

Lemma O_actionToggleHideAll (s : Main) : orderly s (actionToggleHideAll s).
Proof. unfold actionToggleHideAll. ord. Qed.

Lemma O_actionToggleHideInactiveGroups (s : Main) :
  orderly s (actionToggleHideInactiveGroups s).
Proof. unfold actionToggleHideInactiveGroups. ord. Qed.

Lemma O_renameStep rename acc bookmark :
  orderly (fst acc) (fst (renameStep rename acc bookmark)).
Proof.
  unfold renameStep. destruct acc as [st changedFiles]. simpl fst at 1.
  destruct (isDirectory rename).
  - destruct (Js.startsWith _ _); simpl; ord.
  - destruct (String.eqb _ _); simpl; ord.
Qed.

Lemma O_onFilesRenamed files (s : Main) : orderly s (onFilesRenamed files s).
Proof.
  unfold onFilesRenamed.
  match goal with
  | |- orderly _ (let '(_, _) := fold_left ?f ?l ?a in _) =>
      pose proof (O_fold_left_fst f l a) as H
  end.
  simpl fst in H at 1.
  match type of H with
  | ?P -> _ => assert (Hstep : P)
  end.
  { intros acc rename. apply O_fold_left_fst. intros. apply O_renameStep. }
  specialize (H Hstep). clear Hstep.
  destruct (fold_left _ files (s, [])) as [s1 changedFiles].
  simpl in H. eapply orderly_trans; [exact H|].
  assert (H2 : orderly s1
                 (fold_left (fun st '(changedFile, _) => forgetFile changedFile st)
                            changedFiles s1)).
  { apply O_fold_left. intros st [changedFile flag]. apply O_forgetFile. }
  destruct (_ >? 0)%Z; [|exact H2].
  eapply orderly_trans; [exact H2 | apply O_saveState].
Qed.

Lemma O_deleteWhileWalking steps deletedFsPath index changes (s : Main) :
  orderly s (snd (deleteWhileWalking steps deletedFsPath index changes s)).
Proof.
  revert index changes s. induction steps as [|steps IH]; intros index changes s;
    simpl; [apply orderly_refl|].
  destruct (nth_error _ _); [|apply orderly_refl].
  destruct (String.eqb _ _); [|apply IH].
  eapply orderly_trans; [apply O_deleteBookmark | apply IH].
Qed.

Lemma O_onFilesDeleted files (s : Main) : orderly s (onFilesDeleted files s).
Proof.
  unfold onFilesDeleted. apply O_fold_left. intros st deletedFsPath.
  pose proof (O_deleteWhileWalking (length (bookmarks st)) deletedFsPath 0 false st) as H.
  destruct (deleteWhileWalking _ _ _ _ _) as [changesWereMade st1]. simpl in H.
  destruct changesWereMade; [|exact H].
  eapply orderly_trans; [exact H | apply O_saveState].
Qed.

Lemma deleteAll_registry (l : list nat) (s : Main) :
  let s' := fold_left (fun st b => deleteBookmark b st) l s in
  groups s' = groups s /\ activeGroup s' = activeGroup s
  /\ nextRef s' = nextRef s.
Proof.
  revert s. induction l as [|b l IH]; intros s; simpl; [auto|].
  destruct (IH (deleteBookmark b s)) as (H1 & H2 & H3).
  rewrite H1, H2, H3. unfold deleteBookmark.
  now destruct (Js.includes b (bookmarks s)).
Qed.

Lemma removeFirst_other (g x : nat) (l : list nat) :
  In x l -> x <> g -> In x (Js.removeFirst g l).
Proof.
  intros Hin Hne. induction l as [|y l IH]; simpl; [contradiction|].
  destruct (Nat.eqb_spec y g) as [->|Hy].
  - destruct Hin as [->|Hin]; [contradiction | exact Hin].
  - destruct Hin as [->|Hin]; [now left | right; auto].
Qed.

Lemma removeFirst_NoDup (g : nat) (l : list nat) :
  List.NoDup l -> List.NoDup (Js.removeFirst g l).
Proof.
  intros H. rewrite removeFirst_filter by assumption. now apply NoDup_filter_list.
Qed.

(** One round of the loop of [deleteGroups]: entries leave the arrays, none
    comes in, and no group but the one of the round leaves the registry. *)
Lemma deleteOneGroup_shrinks (st : Main) (was : bool) (g : nat) :
  let r := deleteOneGroup (st, was) g in
  nextRef (fst r) = nextRef st /\ activeGroup (fst r) = activeGroup st
  /\ (forall b, In b (bookmarks (fst r)) -> In b (bookmarks st))
  /\ (forall x, In x (groups (fst r)) -> In x (groups st))
  /\ (List.NoDup (bookmarks st) -> List.NoDup (bookmarks (fst r)))
  /\ (List.NoDup (groups st) -> List.NoDup (groups (fst r)))
  /\ snd r = was || (g =? activeGroup st)%nat
  /\ (forall x, In x (groups st) -> x <> g -> In x (groups (fst r))).
Proof.
  unfold deleteOneGroup.
  pose proof (O_getTempGroupBookmarkList st g) as H1.
  pose proof (getTempGroupBookmarkList_fields st g) as Hfields.
  destruct (getTempGroupBookmarkList st g) as [list st1]. simpl in H1, Hfields.
  assert (F1 : bookmarks st1 = bookmarks st /\ groups st1 = groups st
               /\ activeGroup st1 = activeGroup st /\ nextRef st1 = nextRef st)
    by (rewrite <- Hfields; simpl; repeat split).
  destruct F1 as (Fb & Fg & Fa & Fn).
  destruct (deleteAll_registry list st1) as (Dg & Da & Dn).
  pose proof (O_deleteAll list st1) as (_ & Db & _ & Dnd & _).
  set (st2 := fold_left (fun st' b => deleteBookmark b st') list st1) in *.
  set (st3 := if Js.includes g (groups st2)
              then set_groups (Js.removeFirst g (groups st2)) st2 else st2).
  assert (F3 : bookmarks st3 = bookmarks st2 /\ activeGroup st3 = activeGroup st2
               /\ nextRef st3 = nextRef st2
               /\ groups st3
                  = if Js.includes g (groups st2)
                    then Js.removeFirst g (groups st2) else groups st2)
    by (unfold st3; destruct (Js.includes g (groups st2)); simpl; repeat split).
  destruct F3 as (Gb & Ga & Gn & Gg).
  cbn [fst snd forgetGroup bookmarks groups nextRef activeGroup
       set_tempGroupBookmarks].
  rewrite Gb, Ga, Gn, Gg, Dg, Da, Dn, Fg, Fa, Fn.
  split; [reflexivity|]. split; [reflexivity|]. split.
  { intros b Hb. destruct (Db b Hb) as [H|H]; [now rewrite <- Fb | lia]. }
  split.
  { intros x Hx. destruct (Js.includes g (groups st)); [|exact Hx].
    now apply removeFirst_In in Hx. }
  split.
  { intros Hnd. rewrite <- Fb in Hnd.
    assert (Hgen : forall l s0, List.NoDup (bookmarks s0) ->
              List.NoDup (bookmarks (fold_left (fun st' b => deleteBookmark b st') l s0))).
    { intros l. induction l as [|b l IH]; intros s0 H0; simpl; [exact H0|].
      apply IH. now apply deleteBookmark_NoDup. }
    now apply Hgen. }
  split.
  { intros Hnd. destruct (Js.includes g (groups st)); [|exact Hnd].
    now apply removeFirst_NoDup. }
  split; [reflexivity|].
  intros x Hx Hne. destruct (Js.includes g (groups st)); [|exact Hx].
  now apply removeFirst_other.
Qed.

Lemma deleteGroups_loop_was (selected : list nat) (st : Main) (was : bool) :
  snd (fold_left deleteOneGroup selected (st, was)) = false -> was = false.
Proof.
  revert st was. induction selected as [|x l IH]; intros st was Hr;
    cbn [fold_left] in Hr; [exact Hr|].
  pose proof (deleteOneGroup_shrinks st was x) as (_ & _ & _ & _ & _ & _ & Hs & _).
  destruct (deleteOneGroup (st, was) x) as [st2 was2]. simpl in Hs.
  apply IH in Hr. rewrite Hr in Hs. symmetry in Hs.
  now apply orb_false_iff in Hs as [Hs _].
Qed.

Lemma deleteGroups_loop_shrinks (selected : list nat) (st : Main) (was : bool) :
  let r := fold_left deleteOneGroup selected (st, was) in
  nextRef (fst r) = nextRef st /\ activeGroup (fst r) = activeGroup st
  /\ (forall b, In b (bookmarks (fst r)) -> In b (bookmarks st))
  /\ (forall x, In x (groups (fst r)) -> In x (groups st))
  /\ (List.NoDup (bookmarks st) -> List.NoDup (bookmarks (fst r)))
  /\ (List.NoDup (groups st) -> List.NoDup (groups (fst r)))
  /\ (snd r = false ->
      In (activeGroup st) (groups st) -> In (activeGroup st) (groups (fst r))).
Proof.
  revert st was. induction selected as [|g selected IH]; intros st was;
    cbn [fold_left]; [simpl; auto 10|].
  destruct (deleteOneGroup_shrinks st was g)
    as (H1 & H2 & H3 & H4 & H5 & H6 & H7 & H8).
  destruct (deleteOneGroup (st, was) g) as [st1 was1]. simpl in *.
  destruct (IH st1 was1) as (I1 & I2 & I3 & I4 & I5 & I6 & I7).
  split; [congruence|]. split; [congruence|].
  split; [auto|]. split; [auto|]. split; [auto|]. split; [auto|].
  intros Hr Hin. specialize (I7 Hr). rewrite H2 in I7. apply I7.
  pose proof (deleteGroups_loop_was selected st1 was1 Hr) as Hwas1.
  rewrite Hwas1 in H7. symmetry in H7. apply orb_false_iff in H7 as [_ H7].
  apply H8; [exact Hin|]. apply Nat.eqb_neq in H7. congruence.
Qed.

Lemma O_deleteGroups selected (s : Main) : orderly s (deleteGroups selected s).
Proof.
  rewrite deleteGroups_unfold.
  destruct (deleteGroups_loop_shrinks selected s false)
    as (L1 & L2 & L3 & L4 & L5 & L6 & L7).
  destruct (fold_left deleteOneGroup selected (s, false)) as [s1 was].
  simpl in L1, L2, L3, L4, L5, L6, L7. cbv zeta.
  match goal with |- orderly _ (snd (saveState ?x)) => set (s2 := x) end.
  assert (H12 : orderly s1 s2)
    by (unfold s2; destruct (groups s1); [|destruct was]; ord).
  assert (Hactive : In (activeGroup s) (groups s) -> In (activeGroup s2) (groups s2)).
  { intros Hin. unfold s2. destruct (groups s1) as [|first rest] eqn:Hg.
    - apply activateGroup_active.
    - destruct was; [apply activateGroup_active|].
      rewrite L2, Hg. now apply L7. }
  pose proof (orderly_trans s1 s2 _ H12 (O_saveState s2))
    as (Hn & Hb & Hg & Hnd & _).
  destruct (O_saveState s2) as (_ & _ & _ & _ & Ha2).
  unfold orderly. rewrite <- L1.
  split; [exact Hn|]. split; [|split; [|split]].
  - intros b Hin. destruct (Hb b Hin) as [H|H]; [left; auto | now right].
  - intros g Hin. destruct (Hg g Hin) as [H|H]; [left; auto | now right].
  - intros (T1 & T2 & T3 & T4). apply Hnd.
    unfold arraysTidy, bookmarksAllocated, groupsAllocated in *.
    rewrite List.Forall_forall in *. rewrite L1.
    repeat split; auto.
  - auto.
Qed.

(** A load that fails leaves the store as it is, but for a warning. *)
Lemma loadState_failure (s : Main) :
  fst (loadState s) = false ->
  snd (loadState s) = s
  \/ exists message, snd (loadState s) = showMessage message s.
Proof.
  unfold loadState.
  destruct (savedBookmarksFilePath s) as [path|]; [|now left].
  destruct (negb _); [now left|].
  destruct (files (fs s) !! path) as [obj|]; [|now left].
  destruct (bool_decide _); [discriminate|].
  intros _. right. eexists. reflexivity.
Qed.

(** A load that succeeds builds both arrays anew: no bookmark, the groups
    as new objects, and then the saved active group is activated. *)
Lemma loadState_rebuilds (s : Main) :
  fst (loadState s) = true ->
  exists s7 name,
    snd (loadState s) = activateGroup s7 name
    /\ (nextRef s <= nextRef s7)%nat /\ bookmarks s7 = []
    /\ (forall g, In g (groups s7) -> (nextRef s <= g < nextRef s7)%nat)
    /\ List.NoDup (groups s7).
Proof.
  unfold loadState.
  destruct (savedBookmarksFilePath s) as [path|]; [|discriminate].
  destruct (negb _); [discriminate|].
  destruct (files (fs s) !! path) as [obj|]; [|discriminate].
  destruct (bool_decide _); [|discriminate].
  intros _. cbv zeta. cbn [snd]. eexists _, _. split; [reflexivity|].
  cbn [nextRef bookmarks groups resetTempLists set_tempGroupBookmarks
       set_tempDocumentBookmarks].
  match goal with
  | |- context [set_bookmarks [] ?x] => set (s4 := x)
  end.
  match type of s4 with _ => idtac end.
  assert (H4 : (nextRef s <= nextRef s4)%nat
               /\ (forall g, In g (groups s4) -> (nextRef s <= g < nextRef s4)%nat)
               /\ List.NoDup (groups s4)).
  { unfold s4.
    match goal with
    | |- context [match ?o with Some l => restoreGroups l ?s3 | None => _ end] =>
        destruct o as [l|];
          [destruct (restoreGroups_loop l s3) as (R1 & _ & _ & R4 & _)
          |simpl; split; [lia|]; split; [intros g []|constructor]]
    end.
    unfold restoreGroups, sortGroups.
    cbn [nextRef groups set_groups] in *.
    set (t := fold_left _ _ _) in *.
    change (nextRef (set_groups [] ?x)) with (nextRef x) in R4.
    cbn [nextRef set_hideAll set_hideInactiveGroups set_workspaceState] in R4.
    simpl in R1.
    split; [lia|]. split.
    - intros g Hg. apply (Permutation_in _ (arraySort_Permutation _ _)) in Hg.
      rewrite R1 in Hg. apply in_seq in Hg. lia.
    - apply (Permutation_NoDup (Permutation_sym (arraySort_Permutation _ _))).
      rewrite R1. apply seq_NoDup. }
  destruct H4 as (N4 & G4 & D4).
  set (s5 := set_bookmarks [] s4).
  match goal with
  | |- context [match ?o with Some l => _ | None => _ end] =>
      destruct o as [[|sb rest]|]
  end.
  - simpl. auto.
  - rewrite restoreBookmarks_throws. simpl. auto.
  - simpl. auto.
Qed.

Lemma orderly_rebuilt (s s7 s' : Main) :
  (nextRef s <= nextRef s7)%nat -> bookmarks s7 = [] ->
  (forall g, In g (groups s7) -> (nextRef s <= g < nextRef s7)%nat) ->
  List.NoDup (groups s7) ->
  orderly s7 s' -> In (activeGroup s') (groups s') ->
  orderly s s'.
Proof.
  intros Hn Hb Hg Hnd (On & Ob & Og & Ond & _) Ha.
  assert (Ht : arraysTidy s7).
  { unfold arraysTidy, bookmarksAllocated, groupsAllocated.
    rewrite Hb, List.Forall_forall. repeat split; auto.
    - constructor.
    - intros b [].
    - intros g Hin. apply Hg in Hin. lia. }
  unfold orderly. split; [lia|]. split; [|split; [|split]]; auto.
  - intros b Hin. destruct (Ob b Hin) as [H|H]; [rewrite Hb in H; contradiction|].
    right. lia.
  - intros g Hin. right. destruct (Og g Hin) as [H|H]; [apply Hg in H|]; lia.
Qed.

Lemma O_loadState (s : Main) : orderly s (snd (loadState s)).
Proof.
  destruct (fst (loadState s)) eqn:Hloaded.
  - destruct (loadState_rebuilds s Hloaded)
      as (s7 & name & -> & Hn & Hb & Hg & Hnd).
    apply (orderly_rebuilt s s7); auto.
    + apply O_activateGroup.
    + apply activateGroup_active.
  - destruct (loadState_failure s Hloaded) as [->|[message ->]].
    + apply orderly_refl.
    + apply O_showMessage.
Qed.

Lemma O_onWatchedFileChanged (s : Main) : orderly s (onWatchedFileChanged s).
Proof.
  unfold onWatchedFileChanged.
  destruct (_ <? _)%Z; [apply O_loadState | apply orderly_refl].
Qed.

(** Every operation is orderly. *)
Lemma O_step (c : Command) (s : Main) : orderly s (step c s).
Proof.
  destruct c; cbn [step].
  - apply O_editorActionToggleBookmark.
  - apply O_editorActionToggleLabeledBookmark.
  - apply O_relabelBookmark.
  - apply O_moveBookmarksBetween.
  - apply O_actionDeleteOneBookmark.
  - apply O_deleteBookmarksOfFile.
  - apply O_actionDeleteBookmark.
  - apply O_actionClearFailedJumpFlags.
  - apply O_jumpToBookmark.
  - apply O_navigateToNext.
  - apply O_navigateToPrevious.
  - apply O_setActiveGroup.
  - apply O_actionAddGroup.
  - apply O_renameGroup.
  - apply O_deleteGroups.
  - apply O_actionSetGroupIconShape.
  - apply O_actionSetGroupIconColor.
  - apply O_actionToggleHideAll.
  - apply O_actionToggleHideInactiveGroups.
  - apply O_onEditorDocumentChanged.
  - apply O_onFilesRenamed.
  - apply O_onFilesDeleted.
  - apply O_onWatchedFileChanged.
  - apply O_saveState.
  - apply O_set_clock.
Qed.

Lemma construct_wellFormed (h : Host) (configuredColors : list (string * string))
    (configuredShape : string) (disk : FileSystem) (now : Z) :
  wellFormed (construct h configuredColors configuredShape disk now).
Proof.
  unfold construct.
  set (s0 := initialState h configuredColors configuredShape disk now).
  assert (Ht0 : arraysTidy s0).
  { unfold arraysTidy, bookmarksAllocated, groupsAllocated. simpl.
    split; [constructor|]. split; [intros x []|]. split; constructor. }
  pose proof (O_loadState s0) as Hord.
  pose proof (loadState_rebuilds s0) as Hre.
  pose proof (loadState_failure s0) as Hfail.
  destruct (loadState s0) as [[|] s1]; cbn [fst snd] in *.
  - split; [now apply (orderly_tidy s0)|].
    destruct (Hre eq_refl) as (s7 & name & -> & _). apply activateGroup_active.
  - match goal with |- wellFormed (let '(_, _) := ?a in _) => set (alloc1 := a) end.
    assert (F1 : bookmarks s1 = [] /\ groups s1 = [])
      by (destruct (Hfail eq_refl) as [->|[message ->]]; now split).
    destruct F1 as [Hb Hg].
    unfold alloc1. cbn [allocGroup]. cbv zeta.
    match goal with |- wellFormed (snd (saveState ?x)) => set (s6 := x) end.
    apply (orderly_wellFormed s6); [apply O_saveState|].
    unfold wellFormed, arraysTidy, bookmarksAllocated, groupsAllocated, s6.
    cbn [bookmarks groups nextRef activeGroup set_activeGroup set_groups
         set_nextRef set_gheap].
    rewrite Hb, Hg. simpl.
    repeat split.
    + constructor.
    + intros b [].
    + constructor; [simpl; lia|]. constructor; [simpl; tauto | constructor].
    + repeat constructor; lia.
    + now right; left.
Qed.

(** X14. Every store that the extension reaches is well formed: whatever
    the disk held at start-up and whatever operations followed, no bookmark
    and no group is twice in its array, every entry of the arrays is an
    object created before, and the active group is a group of the registry,
    which therefore is never empty. *)
Theorem reachable_stores_are_well_formed (h : Host)
    (configuredColors : list (string * string)) (configuredShape : string)
    (disk : FileSystem) (now : Z) (operations : list Command) :
  let s :=
    run operations (construct h configuredColors configuredShape disk now) in
  List.NoDup (bookmarks s) /\ List.NoDup (groups s)
  /\ In (activeGroup s) (groups s) /\ groups s <> []
  /\ bookmarksAllocated s /\ groupsAllocated s.
Proof.
  intros s.
  assert (H : wellFormed s).
  { unfold s, run.
    generalize (construct_wellFormed h configuredColors configuredShape disk now).
    generalize (construct h configuredColors configuredShape disk now).
    induction operations as [|c cs IH]; intros s0 H0; simpl; [exact H0|].
    apply IH. apply (orderly_wellFormed s0); [apply O_step | exact H0]. }
  destruct H as [(H1 & H2 & H3 & H4) H5].
  repeat split; auto.
  intros Hnil. rewrite Hnil in H5. contradiction.
Qed.

(** ** The cached lists of the files stay sound *)

Lemma keepsCaches_refl (s : Main) : keepsCaches s s.
Proof. intros dirty H. exact H. Qed.

Lemma keepsCaches_trans (s1 s2 s3 : Main) :
  keepsCaches s1 s2 -> keepsCaches s2 s3 -> keepsCaches s1 s3.
Proof. intros H12 H23 dirty H. apply H23, H12, H. Qed.

Lemma soundBut_weaken (dirty dirty' : string -> Prop) (s : Main) :
  (forall q, dirty q -> dirty' q) -> soundBut dirty s -> soundBut dirty' s.
Proof.
  intros Hsub (Hnd & Hab & Hs). split; [exact Hnd|]. split; [exact Hab|].
  intros q Hq. apply Hs. auto.
Qed.

(** The one way a list stays sound: it was cached and sound before and the
    bookmarks of its file are the same, or it is cached anew from the
    array. *)
Lemma soundBut_transfer (dirty dirty' : string -> Prop) (s s' : Main) :
  soundBut dirty s ->
  List.NoDup (bookmarks s') -> bookmarksAllocated s' ->
  (forall q list, ~ dirty' q -> tempDocumentBookmarks s' !! q = Some list ->
     fileListOf s' q list
     \/ (~ dirty q /\ tempDocumentBookmarks s !! q = Some list
         /\ forall b,
              In b (bookmarks s') /\ Bookmark.fsPath (bookmarkAt s' b) = q
              <-> In b (bookmarks s) /\ Bookmark.fsPath (bookmarkAt s b) = q)) ->
  soundBut dirty' s'.
Proof.
  intros (_ & _ & Hs) Hnd Hab H. split; [exact Hnd|]. split; [exact Hab|].
  intros q Hq. unfold cacheSound.
  destruct (tempDocumentBookmarks s' !! q) as [list|] eqn:E; [|exact I].
  destruct (H q list Hq E) as [Hf|(Hd & E' & Hiff)]; [exact Hf|].
  specialize (Hs q Hd). unfold cacheSound in Hs. rewrite E' in Hs.
  destruct Hs as [Hndl Hmem]. split; [exact Hndl|].
  intros b. rewrite Hmem. symmetry. apply Hiff.
Qed.

(** An operation that leaves the array, the paths of its bookmarks and the
    cached lists of the files alone. *)
Lemma C_paths (s s' : Main) :
  bookmarks s' = bookmarks s -> (nextRef s <= nextRef s')%nat ->
  (bookmarksAllocated s -> forall b, In b (bookmarks s) ->
     Bookmark.fsPath (bookmarkAt s' b) = Bookmark.fsPath (bookmarkAt s b)) ->
  tempDocumentBookmarks s' = tempDocumentBookmarks s ->
  keepsCaches s s'.
Proof.
  intros Hb Hn Hp Hc dirty H. pose proof H as (Hnd & Hab & _).
  apply (soundBut_transfer dirty dirty s s' H).
  - now rewrite Hb.
  - intros b Hin. rewrite Hb in Hin. apply Hab in Hin. lia.
  - intros q list Hq E. right. split; [exact Hq|]. split; [congruence|].
    intros b. rewrite Hb. split; intros [Hin Hpath]; (split; [exact Hin|]).
    + now rewrite <- (Hp Hab b Hin).
    + now rewrite (Hp Hab b Hin).
Qed.

Lemma C_frame (s s' : Main) :
  bookmarks s' = bookmarks s -> (nextRef s <= nextRef s')%nat ->
  bheap s' = bheap s ->
  tempDocumentBookmarks s' = tempDocumentBookmarks s ->
  keepsCaches s s'.
Proof.
  intros Hb Hn Hh Hc. apply C_paths; auto.
  intros _ b _. unfold bookmarkAt. now rewrite Hh.
Qed.

Create HintDb caches.

Lemma C_updateBookmark (r : nat) (f : Bookmark.t -> Bookmark.t) (s : Main) :
  (forall b, Bookmark.fsPath (f b) = Bookmark.fsPath b) ->
  keepsCaches s (updateBookmark r f s).
Proof.
  intros Hf. apply C_paths; [reflexivity|reflexivity| |reflexivity].
  intros _ b _. unfold updateBookmark, bookmarkAt. cbn [bheap set_bheap].
  destruct (Nat.eq_dec b r) as [->|Hne].
  - rewrite lookup_total_insert_eq. apply Hf.
  - now rewrite lookup_total_insert_ne.
Qed.

Lemma C_updateGroup (r : nat) (f : Group.t -> Group.t) (s : Main) :
  keepsCaches s (updateGroup r f s).
Proof. now apply C_frame. Qed.

Lemma C_allocBookmark (b : Bookmark.t) (s : Main) :
  keepsCaches s (snd (allocBookmark b s)).
Proof.
  apply C_paths; [reflexivity|simpl; lia| |reflexivity].
  intros Hab r Hr. apply Hab in Hr.
  unfold bookmarkAt. cbn [allocBookmark snd bheap set_bheap set_nextRef].
  rewrite lookup_total_insert_ne by lia. reflexivity.
Qed.

Lemma C_allocGroup (g : Group.t) (s : Main) :
  keepsCaches s (snd (allocGroup g s)).
Proof. apply C_frame; simpl; auto. Qed.

Lemma C_showMessage (n : Vscode.Notification) (s : Main) :
  keepsCaches s (showMessage n s).
Proof. now apply C_frame. Qed.

Lemma C_forgetGroup (g : nat) (s : Main) : keepsCaches s (forgetGroup g s).
Proof. now apply C_frame. Qed.

Lemma C_set_groups (v : list nat) (s : Main) : keepsCaches s (set_groups v s).
Proof. now apply C_frame. Qed.

Lemma C_set_activeGroup (v : nat) (s : Main) :
  keepsCaches s (set_activeGroup v s).
Proof. now apply C_frame. Qed.

Lemma C_set_hideAll (v : bool) (s : Main) : keepsCaches s (set_hideAll v s).
Proof. now apply C_frame. Qed.

Lemma C_set_hideInactiveGroups (v : bool) (s : Main) :
  keepsCaches s (set_hideInactiveGroups v s).
Proof. now apply C_frame. Qed.

Lemma C_set_workspaceState (v : Memento) (s : Main) :
  keepsCaches s (set_workspaceState v s).
Proof. now apply C_frame. Qed.

Lemma C_set_clock (v : Z) (s : Main) : keepsCaches s (set_clock v s).
Proof. now apply C_frame. Qed.

Lemma C_addNewGroup (g : nat) (s : Main) : keepsCaches s (addNewGroup g s).
Proof. now apply C_frame. Qed.

Lemma C_sortGroups (s : Main) : keepsCaches s (sortGroups s).
Proof. now apply C_frame. Qed.

Lemma C_saveState (s : Main) : keepsCaches s (snd (saveState s)).
Proof.
  destruct (saveState_frame s) as (Hh & Hbs & _).
  destruct (saveState_hide s) as (_ & _ & Hn & _ & _ & Hc & _).
  apply C_frame; auto. now rewrite Hn.
Qed.

Lemma C_getTempGroupBookmarkList (s : Main) (g : nat) :
  keepsCaches s (snd (getTempGroupBookmarkList s g)).
Proof.
  apply C_frame; unfold getTempGroupBookmarkList;
    now destruct (tempGroupBookmarks s !! g).
Qed.

(** A list dropped from the cache is no list to keep sound; in particular
    the files of [dirty] may be forgotten one by one. *)
Lemma soundBut_forgetFile (dirty dirty' : string -> Prop) (p : string) (s : Main) :
  (forall q, dirty q -> q <> p -> dirty' q) ->
  soundBut dirty s -> soundBut dirty' (forgetFile p s).
Proof.
  intros Hsub H. pose proof H as (Hnd & Hab & _).
  apply (soundBut_transfer dirty dirty' s (forgetFile p s) H Hnd Hab).
  intros q list Hq E. unfold forgetFile in E.
  cbn [tempDocumentBookmarks set_tempDocumentBookmarks] in E.
  apply lookup_delete_Some in E as [Hne E].
  right. split; [|split; [exact E|reflexivity]].
  intros Hd. apply Hq, Hsub; auto.
Qed.

Lemma C_forgetFile (p : string) (s : Main) : keepsCaches s (forgetFile p s).
Proof. intros dirty. apply soundBut_forgetFile. auto. Qed.

Lemma C_resetTempLists (s : Main) : keepsCaches s (resetTempLists s).
Proof.
  intros dirty H. pose proof H as (Hnd & Hab & _).
  apply (soundBut_transfer dirty dirty s (resetTempLists s) H Hnd Hab).
  intros q list _ E. simpl in E. now rewrite lookup_empty in E.
Qed.

Lemma C_sortBookmarks (s : Main) : keepsCaches s (sortBookmarks s).
Proof.
  intros dirty H. pose proof H as (Hnd & Hab & _).
  assert (Hperm : forall b, In b (bookmarks (sortBookmarks s)) <-> In b (bookmarks s)).
  { intros b. unfold sortBookmarks. cbn [bookmarks set_bookmarks].
    split; apply Permutation_in; [|symmetry]; apply arraySort_Permutation. }
  apply (soundBut_transfer dirty dirty s _ H).
  - revert Hnd. apply Permutation_NoDup. symmetry. apply arraySort_Permutation.
  - intros b Hb. apply Hperm in Hb. now apply Hab.
  - intros q list Hq E. right. split; [exact Hq|]. split; [exact E|].
    intros b. now rewrite Hperm.
Qed.

Lemma deleteBookmark_nextRef (b : nat) (s : Main) :
  nextRef (deleteBookmark b s) = nextRef s.
Proof. unfold deleteBookmark. now destruct (Js.includes b (bookmarks s)). Qed.

Lemma C_deleteBookmark (b : nat) (s : Main) : keepsCaches s (deleteBookmark b s).
Proof.
  intros dirty H. pose proof H as (Hnd & Hab & _).
  destruct (deleteBookmark_frame s b) as [Hh Hbs].
  apply (soundBut_transfer dirty dirty s _ H).
  { now apply deleteBookmark_NoDup. }
  { intros x Hx. rewrite Hbs in Hx. apply removeFirst_In in Hx.
    rewrite deleteBookmark_nextRef. now apply Hab. }
  intros q list Hq E. right. split; [exact Hq|].
  unfold bookmarkAt. rewrite Hh, Hbs. fold (bookmarkAt s).
  unfold deleteBookmark in E. destruct (Js.includes b (bookmarks s)) eqn:Hin.
  - cbn [tempDocumentBookmarks set_tempDocumentBookmarks set_tempGroupBookmarks
         set_bookmarks bookmarkAt bheap] in E.
    apply lookup_delete_Some in E as [Hne E]. split; [exact E|].
    intros x. split; intros [Hx Hpath]; (split; [|exact Hpath]).
    + now apply removeFirst_In in Hx.
    + apply removeFirst_other; [exact Hx|]. intros ->. apply Hne.
      exact Hpath.
  - split; [exact E|].
    apply includes_not_In in Hin.
    intros x. split; intros [Hx Hpath]; (split; [|exact Hpath]).
    + now apply removeFirst_In in Hx.
    + apply removeFirst_other; [exact Hx|]. intros ->. contradiction.
Qed.

Lemma C_getTempDocumentBookmarkList (s : Main) (p : string) :
  keepsCaches s (snd (getTempDocumentBookmarkList s p)).
Proof.
  intros dirty H. pose proof H as (Hnd & Hab & _).
  destruct (getTempDocumentBookmarkList_frame s p) as (Hh & Hbs & _).
  apply (soundBut_transfer dirty dirty s _ H).
  { now rewrite Hbs. }
  { intros x Hx. rewrite Hbs in Hx. apply Hab in Hx.
    unfold getTempDocumentBookmarkList.
    now destruct (tempDocumentBookmarks s !! p). }
  intros q list Hq E. unfold getTempDocumentBookmarkList in *.
  destruct (tempDocumentBookmarks s !! p) as [cached|] eqn:Ep.
  - right. split; [exact Hq|]. split; [exact E|reflexivity].
  - cbn [snd tempDocumentBookmarks set_tempDocumentBookmarks bookmarks bookmarkAt] in *.
    apply lookup_insert_Some in E as [[<- <-]|[Hne E]].
    + left. split; [now apply NoDup_filter_list|].
      intros b. rewrite List.filter_In, String.eqb_eq. tauto.
    + right. split; [exact Hq|]. split; [exact E|reflexivity].
Qed.

(** A bookmark that is pushed makes the cached list of its file stale. *)
Lemma soundBut_push (dirty : string -> Prop) (r : nat) (s : Main) :
  soundBut dirty s -> (r < nextRef s)%nat -> ~ In r (bookmarks s) ->
  dirty (Bookmark.fsPath (bookmarkAt s r)) ->
  soundBut dirty (addNewDecoratedBookmark r s).
Proof.
  intros H Hr Hnew Hd. pose proof H as (Hnd & Hab & _).
  apply (soundBut_transfer dirty dirty s _ H).
  - unfold addNewDecoratedBookmark. cbn [bookmarks set_bookmarks].
    apply (Permutation_NoDup (Permutation_cons_append (bookmarks s) r)).
    now constructor.
  - intros b Hb. unfold addNewDecoratedBookmark in *.
    cbn [bookmarks set_bookmarks nextRef] in *.
    apply in_app_or in Hb as [Hb|[<-|[]]]; [now apply Hab | exact Hr].
  - intros q list Hq E. right. split; [exact Hq|]. split; [exact E|].
    intros b. unfold addNewDecoratedBookmark.
    cbn [bookmarks set_bookmarks bookmarkAt bheap]. fold (bookmarkAt s b).
    rewrite in_app_iff. split; [|tauto].
    intros [[Hb|[<-|[]]] Hpath]; [tauto|].
    exfalso. apply Hq. now rewrite <- Hpath.
Qed.

(** [new Bookmark(...)] followed by the push of the new bookmark. *)
Lemma soundBut_allocPush (dirty : string -> Prop) (b : Bookmark.t) (s : Main) :
  soundBut dirty s -> dirty (Bookmark.fsPath b) ->
  soundBut dirty
    (addNewDecoratedBookmark (nextRef s) (snd (allocBookmark b s))).
Proof.
  intros H Hd. pose proof H as (_ & Hab & _).
  apply soundBut_push.
  - now apply C_allocBookmark.
  - simpl. lia.
  - simpl. intros Hin. apply Hab in Hin. lia.
  - unfold bookmarkAt. simpl. now rewrite lookup_total_insert_eq.
Qed.

(** A bookmark that changes its file makes the cached lists of both files
    stale. *)
Lemma soundBut_setFsPath (dirty : string -> Prop) (r : nat) (v : string)
    (s : Main) :
  soundBut dirty s -> dirty (Bookmark.fsPath (bookmarkAt s r)) -> dirty v ->
  soundBut dirty (updateBookmark r (Bookmark.setFsPath v) s).
Proof.
  intros H Hold Hnew. pose proof H as (Hnd & Hab & _).
  apply (soundBut_transfer dirty dirty s (updateBookmark r (Bookmark.setFsPath v) s)
           H Hnd Hab).
  intros q list Hq E. right. split; [exact Hq|]. split; [exact E|].
  intros b. unfold updateBookmark, bookmarkAt. cbn [bookmarks bheap set_bheap].
  destruct (Nat.eq_dec b r) as [->|Hne].
  - rewrite lookup_total_insert_eq. fold (bookmarkAt s r).
    split; intros [_ Hpath]; exfalso; apply Hq; rewrite <- Hpath.
    + destruct (bookmarkAt s r). exact Hnew.
    + exact Hold.
  - now rewrite lookup_total_insert_ne.
Qed.

#[export] Hint Resolve C_updateGroup C_allocBookmark C_allocGroup C_showMessage
  C_forgetFile C_forgetGroup C_set_groups C_set_activeGroup C_set_hideAll
  C_set_hideInactiveGroups C_set_workspaceState C_set_clock C_addNewGroup
  C_resetTempLists C_sortBookmarks C_sortGroups C_deleteBookmark C_saveState
  C_getTempDocumentBookmarkList C_getTempGroupBookmarkList : caches.

Lemma C_allocBookmark_unfolded (b : Bookmark.t) (s : Main) :
  keepsCaches s
    (set_nextRef (S (nextRef s)) (set_bheap (<[nextRef s := b]> (bheap s)) s)).
Proof. exact (C_allocBookmark b s). Qed.

Lemma C_allocGroup_unfolded (h : gmap nat Group.t) (s : Main) :
  keepsCaches s (set_nextRef (S (nextRef s)) (set_gheap h s)).
Proof. apply C_frame; simpl; auto. Qed.

#[export] Hint Resolve C_allocBookmark_unfolded C_allocGroup_unfolded : caches.

Lemma C_fold_left {X : Type} (f : Main -> X -> Main) (l : list X) (s : Main) :
  (forall st x, keepsCaches st (f st x)) -> keepsCaches s (fold_left f l s).
Proof.
  intros H. revert s. induction l as [|x l IH]; intros s; simpl.
  - apply keepsCaches_refl.
  - eapply keepsCaches_trans; [apply H | apply IH].
Qed.

Lemma C_fold_left_fst {X A : Type} (f : Main * A -> X -> Main * A)
    (l : list X) (acc : Main * A) :
  (forall a x, keepsCaches (fst a) (fst (f a x))) ->
  keepsCaches (fst acc) (fst (fold_left f l acc)).
Proof.
  intros H. revert acc. induction l as [|x l IH]; intros acc; simpl.
  - apply keepsCaches_refl.
  - eapply keepsCaches_trans; [apply H | apply IH].
Qed.

Lemma C_bind {A B : Type} (m : Run A) (k : A -> Main -> Run B) (s : Main) :
  keepsCaches s (finalState m) ->
  (forall a st, keepsCaches st (finalState (k a st))) ->
  keepsCaches s (finalState (bind m k)).
Proof.
  intros Hm Hk. destruct m as [a st|st]; simpl in *; [|assumption].
  eapply keepsCaches_trans; [exact Hm | apply Hk].
Qed.

Lemma C_forEachRun {A X : Type} (body : X -> A -> Main -> Run A)
    (xs : list X) (a : A) (s : Main) :
  (forall x a0 st, keepsCaches st (finalState (body x a0 st))) ->
  keepsCaches s (finalState (forEachRun body xs a s)).
Proof.
  intros H. revert a s. induction xs as [|x xs IH]; intros a s; simpl.
  - apply keepsCaches_refl.
  - apply C_bind; [apply H | intros; apply IH].
Qed.

Ltac kc :=
  repeat first
    [ apply keepsCaches_refl
    | assumption
    | match goal with
      | |- keepsCaches _ (finalState (Done _ _)) => simpl finalState
      | |- keepsCaches _ (finalState (Threw _)) => simpl finalState
      | |- keepsCaches _ (snd (_, _)) => simpl snd
      | |- keepsCaches _ (fst (_, _)) => simpl fst
      | |- keepsCaches _ (match ?x with (_, _) => _ end) => split_pair x
      | |- keepsCaches _ (finalState (match ?x with (_, _) => _ end)) => split_pair x
      | |- keepsCaches _ (snd (match ?x with (_, _) => _ end)) => split_pair x
      | |- keepsCaches _ (fst (match ?x with (_, _) => _ end)) => split_pair x
      | |- keepsCaches _ (if ?x then _ else _) => destruct x
      | |- keepsCaches _ (finalState (if ?x then _ else _)) => destruct x
      | |- keepsCaches _ (snd (if ?x then _ else _)) => destruct x
      | |- keepsCaches _ (fst (if ?x then _ else _)) => destruct x
      | |- keepsCaches _ (match ?x with _ => _ end) => destruct x
      | |- keepsCaches _ (finalState (match ?x with _ => _ end)) => destruct x
      | |- keepsCaches _ (snd (match ?x with _ => _ end)) => destruct x
      | |- keepsCaches _ (fst (match ?x with _ => _ end)) => destruct x
      end
    | (eapply keepsCaches_trans; [ | solve [eauto 3 with caches] ]) ].

Lemma C_setGroupVisibilities (s : Main) : keepsCaches s (setGroupVisibilities s).
Proof.
  unfold setGroupVisibilities. apply C_fold_left. intros. apply C_updateGroup.
Qed.

Lemma C_ensureGroup (s : Main) (name : string) :
  keepsCaches s (snd (ensureGroup s name)).
Proof. unfold ensureGroup. kc. Qed.

#[export] Hint Resolve C_setGroupVisibilities C_ensureGroup : caches.

Lemma C_activateGroup (s : Main) (name : string) :
  keepsCaches s (activateGroup s name).
Proof. unfold activateGroup. kc. Qed.

Lemma C_setHideAll (v : bool) (s : Main) : keepsCaches s (setHideAll v s).
Proof. unfold setHideAll. kc. Qed.

Lemma C_setHideInactiveGroups (v : bool) (s : Main) :
  keepsCaches s (setHideInactiveGroups v s).
Proof. unfold setHideInactiveGroups. kc. Qed.

#[export] Hint Resolve C_activateGroup C_setHideAll C_setHideInactiveGroups : caches.

Lemma C_refresh (document : Vscode.TextDocument) (b : nat) (s : Main) :
  keepsCaches s (finalState (updateBookmarkLineText document b s)).
Proof.
  unfold updateBookmarkLineText. destruct (Vscode.lineAt _ _); simpl.
  - now apply C_updateBookmark.
  - apply keepsCaches_refl.
Qed.

Lemma C_setLineNumber (b : nat) (g : Z -> Z) (s : Main) :
  keepsCaches s
    (updateBookmark b
       (fun x => Bookmark.setLineNumber (g (Bookmark.lineNumber x)) x) s).
Proof. now apply C_updateBookmark. Qed.

Lemma C_setFailedJump (b : nat) (v : bool) (s : Main) :
  keepsCaches s (updateBookmark b (Bookmark.setFailedJump v) s).
Proof. now apply C_updateBookmark. Qed.

#[export] Hint Resolve C_refresh C_setLineNumber C_setFailedJump : caches.

Lemma C_shiftDownStep document from by_ first last b c (s : Main) :
  keepsCaches s (finalState (shiftDownStep document from by_ first last b c s)).
Proof.
  unfold shiftDownStep.
  destruct (_ >=? _)%Z.
  - destruct (inLineRange _ _ _ _).
    + apply C_bind; [|intros; apply keepsCaches_refl].
      eapply keepsCaches_trans; [|apply C_refresh].
      apply (C_setLineNumber b (fun l => (l + by_)%Z)).
    + simpl. apply (C_setLineNumber b (fun l => (l + by_)%Z)).
  - destruct (inLineRange _ _ _ _).
    + apply C_bind; [apply C_refresh | intros; apply keepsCaches_refl].
    + apply keepsCaches_refl.
Qed.

Lemma C_shiftUpStep document deleteFrom shiftFrom by_ first last b c (s : Main) :
  keepsCaches s
    (finalState (shiftUpStep document deleteFrom shiftFrom by_ first last b c s)).
Proof.
  unfold shiftUpStep.
  destruct (_ <? first)%Z; [apply keepsCaches_refl|].
  destruct (_ && _); [simpl; apply C_deleteBookmark|].
  destruct (_ >=? _)%Z.
  - destruct (inLineRange _ _ _ _).
    + apply C_bind; [|intros; apply keepsCaches_refl].
      eapply keepsCaches_trans; [|apply C_refresh].
      apply (C_setLineNumber b (fun l => (l - by_)%Z)).
    + simpl. apply (C_setLineNumber b (fun l => (l - by_)%Z)).
  - destruct (inLineRange _ _ _ _).
    + apply C_bind; [apply C_refresh | intros; apply keepsCaches_refl].
    + apply keepsCaches_refl.
Qed.

Lemma C_reconcileChange document list change c (s : Main) :
  keepsCaches s (finalState (reconcileChange document list change c s)).
Proof.
  unfold reconcileChange.
  destruct (_ =? _)%Z.
  - apply C_bind; [|intros; apply keepsCaches_refl].
    unfold updateBookmarkLineTextInRange. apply C_forEachRun. intros.
    apply C_bind; [apply C_refresh | intros; apply keepsCaches_refl].
  - destruct (_ >? _)%Z; [apply C_forEachRun; intros; apply C_shiftDownStep|].
    destruct (_ <? _)%Z; [apply C_forEachRun; intros; apply C_shiftUpStep|].
    apply keepsCaches_refl.
Qed.

Lemma C_onEditorDocumentChanged event (s : Main) :
  keepsCaches s (finalState (onEditorDocumentChanged event s)).
Proof.
  unfold onEditorDocumentChanged.
  pose proof (C_getTempDocumentBookmarkList s (Vscode.fsPath (Vscode.document event))) as H.
  destruct (getTempDocumentBookmarkList s _) as [list s1]. simpl in H.
  destruct (_ =? 0)%Z; [exact H|].
  apply C_bind.
  - eapply keepsCaches_trans; [exact H|].
    apply C_forEachRun. intros. apply C_reconcileChange.
  - intros [] st; simpl; [apply C_saveState | apply keepsCaches_refl].
Qed.

(** The ways a new bookmark comes into the array: each of them forgets the
    cached list of its file afterwards. *)
Lemma C_pushed (p : string) (b : Bookmark.t) (s : Main) :
  Bookmark.fsPath b = p ->
  keepsCaches s
    (forgetFile p
       (sortBookmarks
          (addNewDecoratedBookmark (nextRef s) (snd (allocBookmark b s))))).
Proof.
  intros Hp dirty H.
  apply (soundBut_forgetFile (fun q => q = p \/ dirty q)); [tauto|].
  apply C_sortBookmarks, soundBut_allocPush; [|now left].
  revert H. apply soundBut_weaken. tauto.
Qed.

Lemma C_toggleBookmark fsPath lineNumber characterNumber lineText group (s : Main) :
  keepsCaches s (toggleBookmark fsPath lineNumber characterNumber lineText group s).
Proof.
  unfold toggleBookmark.
  pose proof (C_getTempDocumentBookmarkList s fsPath) as H.
  destruct (getTempDocumentBookmarkList s fsPath) as [list s1]. simpl in H.
  destruct (List.find _ list); [kc|].
  eapply keepsCaches_trans; [exact H|].
  eapply keepsCaches_trans; [|apply C_saveState].
  eapply keepsCaches_trans; [|apply C_forgetGroup].
  apply (C_pushed fsPath
           (Bookmark.new fsPath lineNumber characterNumber None lineText group)).
  reflexivity.
Qed.

#[export] Hint Resolve C_toggleBookmark : caches.

Lemma C_editorActionToggleBookmark textEditor (s : Main) :
  keepsCaches s (finalState (editorActionToggleBookmark textEditor s)).
Proof.
  unfold editorActionToggleBookmark. apply C_forEachRun. intros. kc.
Qed.

Lemma C_editorActionToggleLabeledBookmark textEditor entered (s : Main) :
  keepsCaches s (finalState (editorActionToggleLabeledBookmark textEditor entered s)).
Proof.
  unfold editorActionToggleLabeledBookmark.
  destruct (Vscode.selections textEditor) as [|selection others];
    [apply keepsCaches_refl|].
  pose proof (C_getTempDocumentBookmarkList s
                (Vscode.fsPath (Vscode.editorDocument textEditor))) as H.
  destruct (getTempDocumentBookmarkList s _) as [list s1]. simpl in H.
  destruct (List.find _ list); [simpl; kc|].
  destruct entered as [[label groupName]|]; [|exact H].
  destruct (_ && _); [exact H|].
  destruct (_ >? _)%Z; [simpl; kc|].
  eapply keepsCaches_trans; [exact H|]. clear H.
  set (s2 := if negb (String.eqb groupName EmptyString)
             then activateGroup s1 groupName else s1).
  assert (H2 : keepsCaches s1 s2) by (unfold s2; kc).
  set (s3 := if (Js.length label =? 1)%Z then _ else s2).
  assert (H3 : keepsCaches s1 s3).
  { eapply keepsCaches_trans; [exact H2|]. unfold s3.
    destruct (Js.length label =? 1)%Z; [|apply keepsCaches_refl].
    pose proof (C_getTempDocumentBookmarkList s2
                  (Vscode.fsPath (Vscode.editorDocument textEditor))) as H.
    destruct (getTempDocumentBookmarkList s2 _) as [list2 s2']. simpl in H.
    destruct (findLabeled _ _ _ _); kc. }
  clearbody s3. clear H2. clearbody s2.
  eapply keepsCaches_trans; [exact H3|]. clear H3.
  destruct (negb (String.eqb label EmptyString)); [|simpl; kc].
  destruct (Vscode.lineAt _ _) as [text|]; [|apply keepsCaches_refl].
  cbn [bind finalState]. cbv zeta.
  eapply keepsCaches_trans; [|apply C_saveState].
  eapply keepsCaches_trans; [|apply C_forgetGroup].
  apply (C_pushed (Vscode.fsPath (Vscode.editorDocument textEditor))
           (Bookmark.new (Vscode.fsPath (Vscode.editorDocument textEditor))
              (Vscode.line (Vscode.start selection))
              (Vscode.character (Vscode.start selection))
              (Some label) (Js.trim text) (activeGroup s3))).
  reflexivity.
Qed.

(** [new Bookmark(...)], the removal of another bookmark, and then the push
    of the new one, as in [relabelBookmark]. *)
Lemma soundBut_replace (dirty : string -> Prop) (b : Bookmark.t) (old : nat)
    (s : Main) :
  soundBut dirty s -> dirty (Bookmark.fsPath b) ->
  soundBut dirty
    (addNewDecoratedBookmark (nextRef s)
       (deleteBookmark old (snd (allocBookmark b s)))).
Proof.
  intros H Hd. pose proof H as (_ & Hab & _).
  destruct (deleteBookmark_frame (snd (allocBookmark b s)) old) as [Hh Hbs].
  apply soundBut_push.
  - now apply C_deleteBookmark, C_allocBookmark.
  - rewrite deleteBookmark_nextRef. simpl. lia.
  - rewrite Hbs. intros Hin. apply removeFirst_In in Hin. simpl in Hin.
    apply Hab in Hin. lia.
  - unfold bookmarkAt. rewrite Hh. simpl. now rewrite lookup_total_insert_eq.
Qed.

Lemma C_relabelBookmark bookmark input (s : Main) :
  keepsCaches s (relabelBookmark bookmark input s).
Proof.
  unfold relabelBookmark. destruct input as [input|]; [|apply keepsCaches_refl].
  destruct (String.eqb _ _); [apply keepsCaches_refl|].
  set (s1 := if (Js.length (Js.trim input) =? 1)%Z then _ else s).
  assert (H1 : keepsCaches s s1).
  { unfold s1. destruct (Js.length (Js.trim input) =? 1)%Z; [|apply keepsCaches_refl].
    pose proof (C_getTempDocumentBookmarkList s
                  (Bookmark.fsPath (bookmarkAt s bookmark))) as H.
    destruct (getTempDocumentBookmarkList s _) as [list s']. simpl in H.
    destruct (findLabeled _ _ _ _); kc. }
  clearbody s1. eapply keepsCaches_trans; [exact H1|]. clear H1.
  cbn [allocBookmark]. cbv zeta.
  set (newLabel := if (Js.length (Js.trim input) =? 0)%Z then None
                   else Some (Js.trim input)).
  set (old := bookmarkAt s1 bookmark).
  set (b := Bookmark.new (Bookmark.fsPath old) (Bookmark.lineNumber old)
              (Bookmark.characterNumber old) newLabel (Bookmark.lineText old)
              (Bookmark.group old)).
  change (set_nextRef (S (nextRef s1)) (set_bheap (<[nextRef s1 := b]> (bheap s1)) s1))
    with (snd (allocBookmark b s1)).
  set (s4 := sortBookmarks _).
  assert (Hpath : Bookmark.fsPath (bookmarkAt s4 bookmark) = Bookmark.fsPath old).
  { unfold s4, sortBookmarks, addNewDecoratedBookmark, bookmarkAt.
    cbn [bheap set_bookmarks].
    rewrite (proj1 (deleteBookmark_frame _ bookmark)). simpl.
    destruct (Nat.eq_dec bookmark (nextRef s1)) as [->|Hne].
    - now rewrite lookup_total_insert_eq.
    - now rewrite lookup_total_insert_ne. }
  rewrite Hpath.
  eapply keepsCaches_trans; [|apply C_saveState].
  eapply keepsCaches_trans; [|apply C_forgetGroup].
  intros dirty H.
  apply (soundBut_forgetFile (fun q => q = Bookmark.fsPath old \/ dirty q));
    [tauto|].
  apply C_sortBookmarks, soundBut_replace; [|now left].
  revert H. apply soundBut_weaken. tauto.
Qed.

Lemma C_moveBookmarksBetween dst selecteds (s : Main) :
  keepsCaches s (moveBookmarksBetween dst selecteds s).
Proof.
  unfold moveBookmarksBetween. destruct selecteds as [selecteds|];
    [|apply keepsCaches_refl].
  eapply keepsCaches_trans; [|apply C_saveState].
  eapply keepsCaches_trans; [|apply C_sortBookmarks].
  apply C_fold_left. intros st x.
  eapply keepsCaches_trans; [apply (C_deleteBookmark x)|].
  set (st1 := deleteBookmark x st). set (old := bookmarkAt st1 x).
  cbn [allocBookmark]. cbv zeta.
  eapply keepsCaches_trans; [|apply C_forgetGroup].
  intros dirty H.
  apply (soundBut_forgetFile (fun q => q = Bookmark.fsPath old \/ dirty q));
    [tauto|].
  apply (soundBut_allocPush _
           (Bookmark.new (Bookmark.fsPath old) (Bookmark.lineNumber old)
              (Bookmark.characterNumber old) (Bookmark.label old)
              (Bookmark.lineText old) dst)); [|now left].
  revert H. apply soundBut_weaken. tauto.
Qed.

Lemma C_deleteAll (l : list nat) (s : Main) :
  keepsCaches s (fold_left (fun st b => deleteBookmark b st) l s).
Proof. apply C_fold_left. intros. apply C_deleteBookmark. Qed.

#[export] Hint Resolve C_deleteAll : caches.

Lemma C_actionDeleteOneBookmark bookmark (s : Main) :
  keepsCaches s (actionDeleteOneBookmark bookmark s).
Proof. unfold actionDeleteOneBookmark. kc. Qed.

Lemma C_deleteBookmarksOfFile fsPath group (s : Main) :
  keepsCaches s (deleteBookmarksOfFile fsPath group s).
Proof. unfold deleteBookmarksOfFile. kc. Qed.

Lemma C_actionDeleteBookmark selecteds (s : Main) :
  keepsCaches s (actionDeleteBookmark selecteds s).
Proof. unfold actionDeleteBookmark. kc. Qed.

Lemma C_actionClearFailedJumpFlags (s : Main) :
  keepsCaches s (actionClearFailedJumpFlags s).
Proof.
  unfold actionClearFailedJumpFlags.
  match goal with
  | |- keepsCaches _ (let '(_, _) := fold_left ?f ?l ?a in _) =>
      pose proof (C_fold_left_fst f l a) as H
  end.
  simpl fst in H at 1.
  match type of H with
  | ?P -> _ => assert (Hstep : P)
  end.
  { intros [st count] bookmark. cbn beta iota. simpl fst at 1.
    destruct (Bookmark.failedJump _); simpl fst; [apply C_setFailedJump|].
    apply keepsCaches_refl. }
  specialize (H Hstep). clear Hstep.
  destruct (fold_left _ (bookmarks s) (s, 0%Z)) as [s1 clearedFlagCount].
  simpl in H. eapply keepsCaches_trans; [exact H|]. clear H. kc.
Qed.

Lemma C_jumpToBookmark bookmark outcome (s : Main) :
  keepsCaches s (jumpToBookmark bookmark outcome s).
Proof. unfold jumpToBookmark. kc. Qed.

Lemma C_wrapAround (s1 : Main) l c n : keepsCaches s1 (snd (wrapAround s1 l c n)).
Proof.
  unfold wrapAround. destruct c; [apply keepsCaches_refl|].
  destruct (_ >? 0)%Z; [|apply keepsCaches_refl].
  destruct (_ >? _)%Z; [|apply C_showMessage].
  destruct (List.find _ l); [apply keepsCaches_refl | apply C_showMessage].
Qed.

Lemma C_nextBookmark (s : Main) fsPath line :
  keepsCaches s (snd (nextBookmark s fsPath line)).
Proof.
  rewrite nextBookmark_unfold.
  eapply keepsCaches_trans; [apply C_getTempGroupBookmarkList | apply C_wrapAround].
Qed.

Lemma C_previousBookmark (s : Main) fsPath line :
  keepsCaches s (snd (previousBookmark s fsPath line)).
Proof.
  rewrite previousBookmark_unfold.
  eapply keepsCaches_trans; [apply C_getTempGroupBookmarkList | apply C_wrapAround].
Qed.

Lemma C_navigateToNext textEditor outcome (s : Main) :
  keepsCaches s (editorActionnavigateToNextBookmark textEditor outcome s).
Proof.
  unfold editorActionnavigateToNextBookmark.
  destruct (Vscode.selections textEditor); [apply keepsCaches_refl|].
  pose proof (C_nextBookmark s (Vscode.fsPath (Vscode.editorDocument textEditor))
                (Vscode.line (Vscode.start r))) as H.
  destruct (nextBookmark s _ _) as [[b|] s1]; simpl in H; [|exact H].
  eapply keepsCaches_trans; [exact H | apply C_jumpToBookmark].
Qed.

Lemma C_navigateToPrevious textEditor outcome (s : Main) :
  keepsCaches s (editorActionNavigateToPreviousBookmark textEditor outcome s).
Proof.
  unfold editorActionNavigateToPreviousBookmark.
  destruct (Vscode.selections textEditor); [apply keepsCaches_refl|].
  pose proof (C_previousBookmark s (Vscode.fsPath (Vscode.editorDocument textEditor))
                (Vscode.line (Vscode.start r))) as H.
  destruct (previousBookmark s _ _) as [[b|] s1]; simpl in H; [|exact H].
  eapply keepsCaches_trans; [exact H | apply C_jumpToBookmark].
Qed.

Lemma C_setActiveGroup groupName (s : Main) :
  keepsCaches s (setActiveGroup groupName s).
Proof. unfold setActiveGroup. kc. Qed.

Lemma C_actionAddGroup input (s : Main) : keepsCaches s (actionAddGroup input s).
Proof. unfold actionAddGroup. kc. Qed.

Lemma C_renameGroup group input (s : Main) :
  keepsCaches s (renameGroup group input s).
Proof. unfold renameGroup. kc. Qed.

Lemma C_deleteGroups selected (s : Main) : keepsCaches s (deleteGroups selected s).
Proof.
  unfold deleteGroups.
  match goal with
  | |- keepsCaches _ (let '(_, _) := fold_left ?f ?l ?a in _) =>
      pose proof (C_fold_left_fst f l a) as H
  end.
  simpl fst in H at 1.
  match type of H with
  | ?P -> _ => assert (Hstep : P)
  end.
  { intros [st was] group. simpl fst.
    pose proof (C_getTempGroupBookmarkList st group) as Hl.
    destruct (getTempGroupBookmarkList st group) as [list st1]. simpl in Hl.
    simpl fst. eapply keepsCaches_trans; [exact Hl|]. kc. }
  specialize (H Hstep). clear Hstep.
  destruct (fold_left _ selected (s, false)) as [s1 wasActiveGroupDeleted].
  simpl in H. eapply keepsCaches_trans; [exact H|]. kc.
Qed.

Lemma C_actionSetGroupIconShape selected (s : Main) :
  keepsCaches s (actionSetGroupIconShape selected s).
Proof. unfold actionSetGroupIconShape. kc. Qed.

Lemma C_actionSetGroupIconColor selected (s : Main) :
  keepsCaches s (actionSetGroupIconColor selected s).
Proof. unfold actionSetGroupIconColor. kc. Qed.

Lemma C_actionToggleHideAll (s : Main) : keepsCaches s (actionToggleHideAll s).
Proof. unfold actionToggleHideAll. kc. Qed.

Lemma C_actionToggleHideInactiveGroups (s : Main) :
  keepsCaches s (actionToggleHideInactiveGroups s).
Proof. unfold actionToggleHideInactiveGroups. kc. Qed.

Lemma mapSet_keys {V : Type} (k : string) (v : V) (m : list (string * V))
    (q : string) :
  In q (map fst (Js.mapSet k v m)) <-> q = k \/ In q (map fst m).
Proof.
  induction m as [|[k' v'] m IH]; simpl; [intuition|].
  destruct (String.eqb_spec k' k) as [->|Hne]; simpl; [intuition|].
  rewrite IH. intuition.
Qed.

Lemma soundBut_moved (dirty : string -> Prop) (bookmark : nat) (moved : string)
    (st : Main) (changedFiles : list (string * bool)) :
  soundBut (touched changedFiles dirty) st ->
  soundBut
    (touched
       (Js.mapSet moved true
          (Js.mapSet (Bookmark.fsPath (bookmarkAt st bookmark)) true changedFiles))
       dirty)
    (updateBookmark bookmark (Bookmark.setFsPath moved) st).
Proof.
  intros H. apply soundBut_setFsPath.
  - revert H. apply soundBut_weaken. unfold touched. intros q.
    rewrite !mapSet_keys. tauto.
  - left. rewrite !mapSet_keys. auto.
  - left. rewrite !mapSet_keys. auto.
Qed.

Lemma C_renameStep (dirty : string -> Prop) rename acc bookmark :
  soundBut (touched (snd acc) dirty) (fst acc) ->
  soundBut (touched (snd (renameStep rename acc bookmark)) dirty)
           (fst (renameStep rename acc bookmark)).
Proof.
  unfold renameStep. destruct acc as [st changedFiles]. cbn [fst snd].
  intros H. destruct (isDirectory rename).
  - destruct (Js.startsWith _ _); [|exact H].
    cbn [fst snd]. now apply soundBut_moved.
  - destruct (String.eqb_spec (Bookmark.fsPath (bookmarkAt st bookmark))
                              (oldFsPath rename)) as [Heq|Hne]; [|exact H].
    cbn [fst snd]. rewrite <- Heq. now apply soundBut_moved.
Qed.

Lemma C_renameLoop (dirty : string -> Prop) (files : list Rename)
    (acc : Main * list (string * bool)) :
  soundBut (touched (snd acc) dirty) (fst acc) ->
  let acc' :=
    fold_left
      (fun acc rename => fold_left (renameStep rename) (bookmarks (fst acc)) acc)
      files acc in
  soundBut (touched (snd acc') dirty) (fst acc').
Proof.
  revert acc. induction files as [|rename files IH]; intros acc H;
    cbn [fold_left]; [exact H|].
  apply IH. generalize (bookmarks (fst acc)). intros l. revert acc H.
  induction l as [|b l IHl]; intros acc H; cbn [fold_left]; [exact H|].
  apply IHl. now apply C_renameStep.
Qed.

Lemma C_forgetTouched (dirty : string -> Prop)
    (changedFiles : list (string * bool)) (s : Main) :
  soundBut (touched changedFiles dirty) s ->
  soundBut dirty
    (fold_left (fun st '(changedFile, _) => forgetFile changedFile st)
               changedFiles s).
Proof.
  revert s. induction changedFiles as [|[p flag] l IH]; intros s H;
    cbn [fold_left].
  - revert H. apply soundBut_weaken. unfold touched. simpl. tauto.
  - apply IH. revert H. apply soundBut_forgetFile.
    unfold touched. simpl. intros q [[Hq|Hq]|Hq] Hne; auto.
    congruence.
Qed.

Lemma C_onFilesRenamed files (s : Main) : keepsCaches s (onFilesRenamed files s).
Proof.
  intros dirty H. unfold onFilesRenamed.
  pose proof (C_renameLoop dirty files (s, [])) as Hloop.
  cbn [fst snd] in Hloop.
  destruct (fold_left _ files (s, [])) as [s1 changedFiles].
  cbn [fst snd] in Hloop.
  assert (H1 : soundBut (touched changedFiles dirty) s1).
  { apply Hloop. revert H. apply soundBut_weaken. unfold touched. auto. }
  apply C_forgetTouched in H1.
  destruct (_ >? 0)%Z; [now apply C_saveState | exact H1].
Qed.

Lemma C_deleteWhileWalking steps deletedFsPath index changes (s : Main) :
  keepsCaches s (snd (deleteWhileWalking steps deletedFsPath index changes s)).
Proof.
  revert index changes s. induction steps as [|steps IH]; intros index changes s;
    simpl; [apply keepsCaches_refl|].
  destruct (nth_error _ _); [|apply keepsCaches_refl].
  destruct (String.eqb _ _); [|apply IH].
  eapply keepsCaches_trans; [apply C_deleteBookmark | apply IH].
Qed.

Lemma C_onFilesDeleted files (s : Main) : keepsCaches s (onFilesDeleted files s).
Proof.
  unfold onFilesDeleted. apply C_fold_left. intros st deletedFsPath.
  pose proof (C_deleteWhileWalking (length (bookmarks st)) deletedFsPath 0 false st) as H.
  destruct (deleteWhileWalking _ _ _ _ _) as [changesWereMade st1]. simpl in H.
  destruct changesWereMade; [|exact H].
  eapply keepsCaches_trans; [exact H | apply C_saveState].
Qed.

(** A load that succeeds empties the array and the caches before it
    activates the saved group. *)
Lemma loadState_resets (s : Main) :
  fst (loadState s) = true ->
  exists s7 name,
    snd (loadState s) = activateGroup s7 name
    /\ bookmarks s7 = [] /\ tempDocumentBookmarks s7 = ∅.
Proof.
  unfold loadState.
  destruct (savedBookmarksFilePath s) as [path|]; [|discriminate].
  destruct (negb _); [discriminate|].
  destruct (files (fs s) !! path) as [obj|]; [|discriminate].
  destruct (bool_decide _); [|discriminate].
  intros _. cbv zeta. cbn [snd]. eexists _, _. split; [reflexivity|].
  split; [|reflexivity].
  cbn [bookmarks resetTempLists set_tempGroupBookmarks set_tempDocumentBookmarks].
  match goal with
  | |- context [match ?o with Some l => _ | None => _ end] =>
      destruct o as [[|sb rest]|]
  end; [reflexivity| |reflexivity].
  rewrite restoreBookmarks_throws. reflexivity.
Qed.

Lemma C_loadState (s : Main) : keepsCaches s (snd (loadState s)).
Proof.
  destruct (fst (loadState s)) eqn:Hloaded.
  - destruct (loadState_resets s Hloaded) as (s7 & name & -> & Hb & Hc).
    intros dirty _. apply C_activateGroup.
    split; [rewrite Hb; constructor|]. split; [intros b; now rewrite Hb|].
    intros q _. unfold cacheSound. now rewrite Hc, lookup_empty.
  - destruct (loadState_failure s Hloaded) as [->|[message ->]].
    + apply keepsCaches_refl.
    + apply C_showMessage.
Qed.

Lemma C_onWatchedFileChanged (s : Main) : keepsCaches s (onWatchedFileChanged s).
Proof.
  unfold onWatchedFileChanged.
  destruct (_ <? _)%Z; [apply C_loadState | apply keepsCaches_refl].
Qed.

(** Every operation keeps the cached lists of the files sound. *)
Lemma C_step (c : Command) (s : Main) : keepsCaches s (step c s).
Proof.
  destruct c; cbn [step].
  - apply C_editorActionToggleBookmark.
  - apply C_editorActionToggleLabeledBookmark.
  - apply C_relabelBookmark.
  - apply C_moveBookmarksBetween.
  - apply C_actionDeleteOneBookmark.
  - apply C_deleteBookmarksOfFile.
  - apply C_actionDeleteBookmark.
  - apply C_actionClearFailedJumpFlags.
  - apply C_jumpToBookmark.
  - apply C_navigateToNext.
  - apply C_navigateToPrevious.
  - apply C_setActiveGroup.
  - apply C_actionAddGroup.
  - apply C_renameGroup.
  - apply C_deleteGroups.
  - apply C_actionSetGroupIconShape.
  - apply C_actionSetGroupIconColor.
  - apply C_actionToggleHideAll.
  - apply C_actionToggleHideInactiveGroups.
  - apply C_onEditorDocumentChanged.
  - apply C_onFilesRenamed.
  - apply C_onFilesDeleted.
  - apply C_onWatchedFileChanged.
  - apply C_saveState.
  - apply C_set_clock.
Qed.

Lemma construct_sound (h : Host) (configuredColors : list (string * string))
    (configuredShape : string) (disk : FileSystem) (now : Z) :
  soundBut (fun _ => False)
    (construct h configuredColors configuredShape disk now).
Proof.
  unfold construct.
  set (s0 := initialState h configuredColors configuredShape disk now).
  assert (H0 : soundBut (fun _ => False) s0).
  { split; [constructor|]. split; [intros b []|].
    intros q _. unfold cacheSound. simpl. now rewrite lookup_empty. }
  apply (C_loadState s0) in H0.
  destruct (loadState s0) as [[|] s1]; cbn [fst snd] in *; [exact H0|].
  match goal with
  | |- soundBut _ ?x => assert (Hk : keepsCaches s1 x)
  end.
  { cbn [allocGroup]. cbv zeta. kc. }
  now apply Hk.
Qed.

(** Whatever the disk held at start-up and whatever operations followed, no
    bookmark is twice in the array and every cached list of a file is
    sound. *)
Lemma run_sound (h : Host) (configuredColors : list (string * string))
    (configuredShape : string) (disk : FileSystem) (now : Z)
    (operations : list Command) (fsPath : string) :
  let s :=
    run operations (construct h configuredColors configuredShape disk now) in
  List.NoDup (bookmarks s) /\ cacheSound s fsPath.
Proof.
  intros s.
  assert (H : soundBut (fun _ => False) s).
  { unfold s, run.
    generalize (construct_sound h configuredColors configuredShape disk now).
    generalize (construct h configuredColors configuredShape disk now).
    induction operations as [|c cs IH]; intros s0 H0; simpl; [exact H0|].
    apply IH. now apply C_step. }
  destruct H as (Hnd & _ & Hs). split; [exact Hnd|]. apply Hs. tauto.
Qed.

(** ** Edits at the stores the extension reaches (C2, C3) *)






(** ** The cached lists at the stores the extension reaches *)

(** X24. At every store that the extension reaches, whatever the disk held
    at start-up and whatever operations followed, the list that is cached
    for a file, when there is one, holds the bookmarks of the array that are
    in the file, each once; so the list that an operation fetches for a
    file is always the list of the bookmarks of that file, in some order. *)
Theorem reachable_caches_are_sound (h : Host)
    (configuredColors : list (string * string)) (configuredShape : string)
    (disk : FileSystem) (now : Z) (operations : list Command)
    (fsPath : string) :
  let s :=
    run operations (construct h configuredColors configuredShape disk now) in
  let fetched := fst (getTempDocumentBookmarkList s fsPath) in
  cacheSound s fsPath
  /\ List.NoDup fetched
  /\ (forall b, In b fetched
                <-> In b (bookmarks s) /\ Bookmark.fsPath (bookmarkAt s b) = fsPath)
  /\ Permutation fetched
       (List.filter
          (fun b => String.eqb (Bookmark.fsPath (bookmarkAt s b)) fsPath)
          (bookmarks s)).
Proof.
  intros s fetched.
  destruct (run_sound h configuredColors configuredShape disk now operations
              fsPath) as [Hnd Hs].
  fold s in Hnd, Hs.
  destruct (fileList_sound s fsPath Hnd Hs) as [Hndl Hmem].
  fold fetched in Hndl, Hmem.
  split; [exact Hs|]. split; [exact Hndl|]. split; [exact Hmem|].
  apply Stdlib.Sorting.Permutation.NoDup_Permutation;
    [exact Hndl | now apply NoDup_filter_list|].
  intros b. rewrite Hmem, List.filter_In, String.eqb_eq. tauto.
Qed.

(** ** Relabelling and moving bookmarks *)

(** The first part of [relabelBookmark]: the holder of a one-character
    label is taken out of the array. *)
Lemma relabel_clears_label (s : Main) (bookmark : nat) (newLabel : string) :
  cacheCoherent s (Bookmark.fsPath (bookmarkAt s bookmark)) ->
  let s1 :=
    if (Js.length newLabel =? 1)%Z then
      let '(list, s') :=
        getTempDocumentBookmarkList s (Bookmark.fsPath (bookmarkAt s bookmark)) in
      match findLabeled s' list (Bookmark.group (bookmarkAt s' bookmark)) newLabel with
      | Some existingBookmark => deleteBookmark existingBookmark s'
      | None => s'
      end
    else s in
  bheap s1 = bheap s /\ nextRef s1 = nextRef s
  /\ bookmarks s1
     = match labelHolder s bookmark newLabel with
       | Some e => Js.removeFirst e (bookmarks s)
       | None => bookmarks s
       end
  /\ host s1 = host s.
Proof.
  intros Hcache. unfold labelHolder.
  destruct (Js.length newLabel =? 1)%Z; [|simpl; auto].
  pose proof (fileList_coherent s _ Hcache) as Hlist.
  pose proof (getTempDocumentBookmarkList_fields s
                (Bookmark.fsPath (bookmarkAt s bookmark))) as Hfields.
  destruct (getTempDocumentBookmarkList s _) as [list s']. simpl in Hlist, Hfields.
  assert (H1 : bookmarks s' = bookmarks s) by exact (f_equal bookmarks Hfields).
  assert (H2 : bheap s' = bheap s) by exact (f_equal bheap Hfields).
  assert (H3 : nextRef s' = nextRef s) by exact (f_equal nextRef Hfields).
  assert (Hfind : findLabeled s' list (Bookmark.group (bookmarkAt s' bookmark)) newLabel
                  = List.find
                      (fun bm =>
                         String.eqb (Bookmark.fsPath (bookmarkAt s bm))
                                    (Bookmark.fsPath (bookmarkAt s bookmark))
                         && ((Bookmark.group (bookmarkAt s bm)
                              =? Bookmark.group (bookmarkAt s bookmark))%nat
                             && match Bookmark.label (bookmarkAt s bm) with
                                | Some l => String.eqb l newLabel
                                | None => false
                                end))
                      (bookmarks s)).
  { unfold findLabeled. rewrite Hlist, find_filter.
    rewrite (bookmarkAt_ext s' s bookmark H2).
    clear - H2. induction (bookmarks s) as [|b l IH]; simpl; [reflexivity|].
    rewrite (bookmarkAt_ext s' s b H2), IH. reflexivity. }
  assert (H4 : host s' = host s) by exact (f_equal host Hfields).
  rewrite Hfind. destruct (List.find _ (bookmarks s)) as [e|].
  - destruct (deleteBookmark_frame s' e) as [Db Dbs].
    rewrite Db, Dbs, H1, H2, deleteBookmark_host. repeat split; [|exact H4].
    unfold deleteBookmark. now destruct (Js.includes e (bookmarks s')).
  - auto.
Qed.

(** X15. [relabelBookmark] changes nothing when the box is dismissed or the
    trimmed input is the label the bookmark has (the empty input for a
    bookmark without label).  Otherwise it puts a new bookmark in the place
    of the old one: same file, line, column, text and group, the trimmed
    input as its label (no label for the empty input), no failed jump.  The
    old bookmark leaves the array, and with it the first bookmark of the
    same file and group that bore the new label, when that label is one
    character long; no other bookmark object changes, and the array ends up
    sorted. *)
Theorem relabelBookmark_replaces (bookmark : nat) (input : string) (s : Main) :
  List.NoDup (bookmarks s) ->
  cacheCoherent s (Bookmark.fsPath (bookmarkAt s bookmark)) ->
  let old := bookmarkAt s bookmark in
  let newLabel := Js.trim input in
  let holder := labelHolder s bookmark newLabel in
  let s' := relabelBookmark bookmark (Some input) s in
  relabelBookmark bookmark None s = s
  /\ (newLabel = default EmptyString (Bookmark.label old) -> s' = s)
  /\ (newLabel <> default EmptyString (Bookmark.label old) ->
      bookmarkAt s' (nextRef s)
      = Bookmark.new (Bookmark.fsPath old) (Bookmark.lineNumber old)
          (Bookmark.characterNumber old)
          (if (Js.length newLabel =? 0)%Z then None else Some newLabel)
          (Bookmark.lineText old) (Bookmark.group old)
      /\ (forall b, b <> nextRef s -> bookmarkAt s' b = bookmarkAt s b)
      /\ Permutation (bookmarks s')
           (nextRef s
            :: List.filter
                 (fun b => negb (b =? bookmark)%nat && negb (isHolder holder b))
                 (bookmarks s))
      /\ (collates (localeCompare (host s)) -> sortedStore s')).
Proof.
  intros Hnd Hcache old newLabel holder s'.
  split; [reflexivity|]. unfold s', relabelBookmark.
  split.
  { intros E. fold old newLabel. rewrite E. now rewrite String.eqb_refl. }
  intros Hne. apply String.eqb_neq in Hne. unfold newLabel, old in Hne.
  rewrite Hne.
  destruct (relabel_clears_label s bookmark newLabel Hcache)
    as (R1 & R2 & R3 & R4).
  fold holder in R3. unfold newLabel in R1, R2, R3, R4.
  match type of R1 with bheap ?x = _ => set (s1 := x) in * end.
  cbv zeta. cbn [allocBookmark].
  rewrite (bookmarkAt_ext s1 s bookmark R1). fold old newLabel.
  set (new := Bookmark.new (Bookmark.fsPath old) (Bookmark.lineNumber old)
                (Bookmark.characterNumber old)
                (if (Js.length newLabel =? 0)%Z then None else Some newLabel)
                (Bookmark.lineText old) (Bookmark.group old)).
  set (s2 := set_nextRef (S (nextRef s1)) (set_bheap (<[nextRef s1 := new]> (bheap s1)) s1)).
  destruct (deleteBookmark_frame s2 bookmark) as [Db Dbs].
  set (s3 := deleteBookmark bookmark s2) in *.
  set (s4 := sortBookmarks (addNewDecoratedBookmark (nextRef s1) s3)).
  match goal with |- context [snd (saveState ?x)] => set (s5 := x) end.
  destruct (saveState_frame s5) as (Sb & Sbs & _).
  assert (Hheap : bheap (snd (saveState s5)) = <[nextRef s := new]> (bheap s)).
  { rewrite Sb. unfold s5, s4. simpl. rewrite Db. unfold s2. simpl.
    now rewrite R1, R2. }
  assert (Hbs : bookmarks (snd (saveState s5))
                = Js.arraySort
                    (fun a b =>
                       Bookmark.sortByLocation (localeCompare (host s3))
                         (bookmarkAt s3 a) (bookmarkAt s3 b))
                    (Js.removeFirst bookmark (bookmarks s1) ++ [nextRef s]))
    by (rewrite Sbs; unfold s5, s4; simpl; now rewrite Dbs, R2).
  split.
  { unfold bookmarkAt. rewrite Hheap. apply lookup_total_insert_eq. }
  split.
  { intros b Hb. unfold bookmarkAt. rewrite Hheap.
    apply lookup_total_insert_ne. congruence. }
  split.
  { rewrite Hbs. etransitivity; [apply arraySort_Permutation|].
    etransitivity; [symmetry; apply Permutation_cons_append|].
    constructor. rewrite R3.
    assert (Hnd1 : List.NoDup (match holder with
                               | Some e => Js.removeFirst e (bookmarks s)
                               | None => bookmarks s
                               end))
      by (destruct holder; [apply removeFirst_NoDup|]; exact Hnd).
    rewrite removeFirst_filter by exact Hnd1.
    destruct holder as [e|]; simpl.
    - rewrite removeFirst_filter, filter_twice by exact Hnd.
      erewrite filter_ext_eq; [reflexivity|].
      intros x. unfold isHolder. apply andb_comm.
    - erewrite filter_ext_eq; [reflexivity|].
      intros x. simpl. symmetry. apply andb_true_r. }
  intros Hcollates.
  apply saveState_sorted. apply (sortedStore_same s4); [reflexivity..|].
  apply sortBookmarks_sorted.
  change (collates (localeCompare (host s3))).
  unfold s3. rewrite deleteBookmark_host. unfold s2. simpl. now rewrite R4.
Qed.

Lemma relabelBookmark_replaces_witness :
  Bookmark.label
    (bookmarkAt (relabelBookmark 3 (Some " a ") sampleTwoBookmarks)
       (nextRef sampleTwoBookmarks))
  = Some "a"%string.
Proof.
  assert (Hnd : List.NoDup (bookmarks sampleTwoBookmarks))
    by (vm_compute; repeat constructor; simpl; intuition lia).
  assert (Hcache : cacheCoherent sampleTwoBookmarks
                     (Bookmark.fsPath (bookmarkAt sampleTwoBookmarks 3)))
    by (vm_compute; exact I).
  destruct (relabelBookmark_replaces 3 " a " sampleTwoBookmarks Hnd Hcache)
    as (_ & _ & H).
  destruct H as [H _]; [vm_compute; discriminate|].
  rewrite H. vm_compute. reflexivity.
Defined.

Lemma moveBookmarksBetween_unfold (dst : nat) (selecteds : list nat) (s : Main) :
  moveBookmarksBetween dst (Some selecteds) s
  = snd (saveState (sortBookmarks (fold_left (moveOne dst) selecteds s))).
Proof. reflexivity. Qed.

Lemma moveOne_spec (dst : nat) (st : Main) (old : nat) :
  let st' := moveOne dst st old in
  bookmarks st' = Js.removeFirst old (bookmarks st) ++ [nextRef st]
  /\ nextRef st' = S (nextRef st)
  /\ bheap st' = <[nextRef st := movedTo dst (bookmarkAt st old)]> (bheap st).
Proof.
  unfold moveOne. cbv zeta. cbn [allocBookmark].
  destruct (deleteBookmark_frame st old) as [Db Dbs].
  assert (Dn : nextRef (deleteBookmark old st) = nextRef st)
    by (unfold deleteBookmark; now destruct (Js.includes old (bookmarks st))).
  cbn [forgetGroup forgetFile addNewDecoratedBookmark bookmarks nextRef bheap
       set_tempGroupBookmarks set_tempDocumentBookmarks set_bookmarks
       set_nextRef set_bheap].
  rewrite Dbs, Dn, Db, (bookmarkAt_ext _ st old Db). auto.
Qed.

Lemma removeFirst_app_absent (x : nat) (l r : list nat) :
  ~ In x r -> Js.removeFirst x (l ++ r) = Js.removeFirst x l ++ r.
Proof.
  intros Hr. induction l as [|y l IH]; simpl.
  - now apply removeFirst_absent.
  - destruct (y =? x)%nat; [reflexivity|]. now rewrite IH.
Qed.

(** The loop of [moveBookmarksBetween]: the selected bookmarks leave the
    array, and one new bookmark per selected one is pushed behind the
    others, in the order of the selection. *)
Lemma moveAll_spec (dst : nat) (selecteds : list nat) (st : Main) :
  List.NoDup (bookmarks st) -> bookmarksAllocated st ->
  (forall b, In b selecteds -> (b < nextRef st)%nat) ->
  let st' := fold_left (moveOne dst) selecteds st in
  bookmarks st'
  = List.filter (fun b => negb (Js.includes b selecteds)) (bookmarks st)
    ++ seq (nextRef st) (length selecteds)
  /\ nextRef st' = (nextRef st + length selecteds)%nat
  /\ (forall b, (b < nextRef st)%nat -> bookmarkAt st' b = bookmarkAt st b)
  /\ map (bookmarkAt st') (seq (nextRef st) (length selecteds))
     = map (fun b => movedTo dst (bookmarkAt st b)) selecteds.
Proof.
  revert st. induction selecteds as [|old rest IH]; intros st Hnd Halloc Hsel;
    cbn [fold_left length seq map].
  - rewrite app_nil_r, Nat.add_0_r, filter_all_true by reflexivity. auto.
  - destruct (moveOne_spec dst st old) as (M1 & M2 & M3).
    set (st1 := moveOne dst st old) in *.
    assert (Hold1 : forall b, (b < nextRef st)%nat -> bookmarkAt st1 b = bookmarkAt st b).
    { intros b Hb. unfold bookmarkAt. rewrite M3.
      apply lookup_total_insert_ne. lia. }
    assert (Hnew1 : bookmarkAt st1 (nextRef st) = movedTo dst (bookmarkAt st old))
      by (unfold bookmarkAt; rewrite M3; apply lookup_total_insert_eq).
    destruct (IH st1) as (I1 & I2 & I3 & I4).
    { rewrite M1. apply NoDup_snoc_fresh; [now apply removeFirst_NoDup|].
      intros b Hb. apply removeFirst_In in Hb. now apply Halloc. }
    { intros b Hb. rewrite M1 in Hb. rewrite M2.
      apply in_app_or in Hb as [Hb|[<-|[]]]; [|lia].
      apply removeFirst_In in Hb. apply Halloc in Hb. lia. }
    { intros b Hb. rewrite M2. specialize (Hsel b (or_intror Hb)). lia. }
    rewrite M2 in I1, I2, I3, I4.
    split.
    { rewrite I1, M1, List.filter_app. cbn [List.filter].
      assert (Hfresh : Js.includes (nextRef st) rest = false).
      { apply includes_not_In. intros H. specialize (Hsel _ (or_intror H)). lia. }
      rewrite Hfresh. cbn [negb].
      rewrite removeFirst_filter, filter_twice by exact Hnd.
      rewrite <- List.app_assoc. f_equal.
      apply filter_ext_eq. intros x. unfold Js.includes. cbn [existsb].
      now rewrite negb_orb, (Nat.eqb_sym x old). }
    split; [lia|]. split.
    { intros b Hb. rewrite I3 by lia. now apply Hold1. }
    f_equal.
    + rewrite I3 by lia. exact Hnew1.
    + rewrite I4. apply map_ext_in. intros b Hb. f_equal. apply Hold1.
      apply Hsel. now right.
Qed.

Lemma moveAll_host (dst : nat) (selecteds : list nat) (st : Main) :
  host (fold_left (moveOne dst) selecteds st) = host st.
Proof.
  revert st. induction selecteds as [|old rest IH]; intros st; simpl;
    [reflexivity|].
  rewrite IH. unfold moveOne. cbv zeta. cbn [allocBookmark]. simpl.
  apply deleteBookmark_host.
Qed.

(** X16. [moveBookmarksBetween] does nothing when the pick list is
    dismissed.  Otherwise every selected bookmark leaves the array, and for
    each of them, in the order of the selection, one new bookmark is
    created with the same file, line, column, label and text in the
    destination group, without a failed jump; the other bookmarks stay, no
    object created before changes, and the array ends up sorted. *)
Theorem moveBookmarksBetween_copies_into_group (dst : nat)
    (selecteds : list nat) (s : Main) :
  List.NoDup (bookmarks s) -> bookmarksAllocated s ->
  (forall b, In b selecteds -> (b < nextRef s)%nat) ->
  let s' := moveBookmarksBetween dst (Some selecteds) s in
  let created := seq (nextRef s) (length selecteds) in
  moveBookmarksBetween dst None s = s
  /\ Permutation (bookmarks s')
       (List.filter (fun b => negb (Js.includes b selecteds)) (bookmarks s)
        ++ created)
  /\ map (bookmarkAt s') created
     = map (fun b => movedTo dst (bookmarkAt s b)) selecteds
  /\ (forall b, (b < nextRef s)%nat -> bookmarkAt s' b = bookmarkAt s b)
  /\ (collates (localeCompare (host s)) -> sortedStore s').
Proof.
  intros Hnd Halloc Hsel s' created. split; [reflexivity|].
  unfold s', created. rewrite moveBookmarksBetween_unfold.
  destruct (moveAll_spec dst selecteds s Hnd Halloc Hsel) as (L1 & L2 & L3 & L4).
  set (s1 := fold_left (moveOne dst) selecteds s) in *.
  destruct (saveState_frame (sortBookmarks s1)) as (Sb & Sbs & _).
  assert (Hat : forall b, bookmarkAt (snd (saveState (sortBookmarks s1))) b
                          = bookmarkAt s1 b)
    by (intros b; apply bookmarkAt_ext; exact Sb).
  split.
  { rewrite Sbs. unfold sortBookmarks. cbn [bookmarks set_bookmarks].
    rewrite <- L1. apply arraySort_Permutation. }
  split.
  { rewrite <- L4. apply map_ext. exact Hat. }
  split.
  { intros b Hb. rewrite Hat. now apply L3. }
  intros Hcollates. apply saveState_sorted, sortBookmarks_sorted.
  unfold s1. now rewrite moveAll_host.
Qed.

Lemma moveBookmarksBetween_copies_into_group_witness :
  map (bookmarkAt (moveBookmarksBetween 1 (Some [3%nat]) sampleTwoBookmarks))
      (seq (nextRef sampleTwoBookmarks) 1)
  = [movedTo 1 (bookmarkAt sampleTwoBookmarks 3)].
Proof.
  assert (Hnd : List.NoDup (bookmarks sampleTwoBookmarks))
    by (vm_compute; repeat constructor; simpl; intuition lia).
  assert (Halloc : bookmarksAllocated sampleTwoBookmarks)
    by (intros b Hb; vm_compute in Hb; vm_compute; intuition lia).
  assert (Hsel : forall b, In b [3%nat] -> (b < nextRef sampleTwoBookmarks)%nat)
    by (intros b [<-|[]]; vm_compute; lia).
  destruct (moveBookmarksBetween_copies_into_group 1 [3%nat] sampleTwoBookmarks
              Hnd Halloc Hsel) as (_ & _ & H & _).
  exact H.
Defined.

(** ** The saved form of a bookmark *)

Lemma getGroupByName_own (s : Main) (g : nat) :
  In g (groups s) -> List.NoDup (groupNames s) ->
  getGroupByName s (Group.name (groupAt s g)) = g.
Proof.
  intros Hin Hnd. unfold getGroupByName.
  rewrite (find_unique _ (groups s) g); [reflexivity | exact Hin | |].
  - apply String.eqb_refl.
  - intros x Hx Hname. apply String.eqb_eq in Hname.
    now apply (NoDup_map_injective (fun r => Group.name (groupAt s r)) (groups s)).
Qed.

(** X17. The saved form of a bookmark reads back as the bookmark it was
    made of, but for its two flags, which start anew: handed the getter of
    a registry with distinct names that holds the group of the bookmark,
    [fromSerializableBookMark] makes of the result of [fromBookmark] a
    bookmark with the same path, line, column, label, text and group,
    provided the path functions of the runtime bring the path back. *)
Theorem saved_bookmark_reads_back (s : Main) (b : Bookmark.t) :
  In (Bookmark.group b) (groups s) -> List.NoDup (groupNames s) ->
  pathComesBack (host s) (Bookmark.fsPath b) ->
  fromSerializableBookMark (host s) (fromBookmark s b)
    (GroupGetter (getGroupByName s)) DecorationFactory
  = Some (Bookmark.new (Bookmark.fsPath b) (Bookmark.lineNumber b)
            (Bookmark.characterNumber b) (Bookmark.label b)
            (Bookmark.lineText b) (Bookmark.group b)).
Proof.
  intros Hin Hnd Hpath.
  unfold fromSerializableBookMark, fromBookmark, pathComesBack in *.
  cbn [callArgument SerializableBookmark.groupName SerializableBookmark.new
       SerializableBookmark.fsPath SerializableBookmark.lineNumber
       SerializableBookmark.characterNumber SerializableBookmark.label
       SerializableBookmark.lineText].
  rewrite (getGroupByName_own s _ Hin Hnd). f_equal. f_equal.
  destruct (truthy (workspaceFolder (host s))) as [w|]; [|reflexivity].
  destruct (Js.startsWith w (Bookmark.fsPath b)).
  - destruct Hpath as [-> ->]. reflexivity.
  - now rewrite Hpath.
Qed.

Lemma saved_bookmark_reads_back_witness :
  fromSerializableBookMark (host sampleTwoBookmarks)
    (fromBookmark sampleTwoBookmarks (bookmarkAt sampleTwoBookmarks 3))
    (GroupGetter (getGroupByName sampleTwoBookmarks)) DecorationFactory
  = Some (Bookmark.new "/ws/a.ts" 3 0 None "line 3" 2).
Proof.
  assert (Hin : In (Bookmark.group (bookmarkAt sampleTwoBookmarks 3))
                   (groups sampleTwoBookmarks)) by (vm_compute; auto).
  assert (Hnd : List.NoDup (groupNames sampleTwoBookmarks)).
  { vm_compute. constructor; [simpl; intros [H|[]]; discriminate|].
    constructor; [simpl; tauto | constructor]. }
  assert (Hpath : pathComesBack (host sampleTwoBookmarks)
                    (Bookmark.fsPath (bookmarkAt sampleTwoBookmarks 3)))
    by (vm_compute; split; reflexivity).
  rewrite (saved_bookmark_reads_back sampleTwoBookmarks _ Hin Hnd Hpath).
  vm_compute. reflexivity.
Defined.

(** ** Edits that keep the number of lines *)





(** ** Start-up *)

(** The artifact is loaded exactly when it is a file with the version tag
    of the extension. *)
Lemma loadState_succeeds_iff (s : Main) :
  fst (loadState s) = true
  <-> exists path obj,
        savedBookmarksFilePath s = Some path
        /\ files (fs s) !! path = Some obj
        /\ fileVersion obj = Some savedBookmarksFileVersionValue.
Proof.
  unfold loadState. split.
  - destruct (savedBookmarksFilePath s) as [path|]; [|discriminate].
    destruct (negb _); [discriminate|].
    destruct (files (fs s) !! path) as [obj|] eqn:Hfile; [|discriminate].
    destruct (bool_decide _) eqn:Hv; [|discriminate].
    intros _. exists path, obj. split; [reflexivity|]. split; [exact Hfile|].
    now apply bool_decide_eq_true in Hv.
  - intros (path & obj & -> & Hfile & Hv).
    assert (Hexists : existsSync path (fs s) = true).
    { unfold existsSync. rewrite bool_decide_eq_true_2 by eauto. reflexivity. }
    rewrite Hexists, Hfile. cbn [negb].
    now rewrite bool_decide_eq_true_2.
Qed.

Lemma saveState_writes (s : Main) (path : string) :
  savedBookmarksFilePath s = Some path -> isEmpty s = false ->
  fst (saveState s) = true.
Proof.
  intros Hpath Hempty. unfold saveState. rewrite Hpath. cbv zeta.
  change (isEmpty (set_workspaceState _ s)) with (isEmpty s).
  now rewrite Hempty.
Qed.

(** X19. At start-up the artifact is loaded exactly when it is a file with
    the version tag of the extension.  When it is not (no workspace folder,
    no file, or another version), the registry is made of the external and
    the default group, in this order, the default group is the active one
    and there is no bookmark.  That store is not empty in the sense of
    [isEmpty], so with a workspace folder the constructor writes the
    artifact, replacing one of another version; without a workspace folder
    the disk is not touched. *)
Theorem start_up_without_artifact (h : Host)
    (configuredColors : list (string * string)) (configuredShape : string)
    (disk : FileSystem) (now : Z) :
  let s0 := initialState h configuredColors configuredShape disk now in
  let s := construct h configuredColors configuredShape disk now in
  (fst (loadState s0) = true
   <-> exists path obj,
         savedBookmarksFilePath s0 = Some path
         /\ files disk !! path = Some obj
         /\ fileVersion obj = Some savedBookmarksFileVersionValue)
  /\ (fst (loadState s0) = false ->
      bookmarks s = []
      /\ groupNames s = [externalGroupName h; defaultGroupName h]
      /\ Group.name (groupAt s (activeGroup s)) = defaultGroupName h
      /\ List.last (groups s) (activeGroup s) = activeGroup s
      /\ isEmpty s = false
      /\ (forall path,
            savedBookmarksFilePath s0 = Some path ->
            exists obj,
              files (fs s) !! path = Some obj
              /\ fileVersion obj = Some savedBookmarksFileVersionValue
              /\ savedBookmarks (payload obj) = Some []
              /\ option_map (map SerializableGroup.name) (savedGroups (payload obj))
                 = Some [externalGroupName h; defaultGroupName h]
              /\ savedActiveGroup (payload obj) = Some (defaultGroupName h))
      /\ (savedBookmarksFilePath s0 = None -> fs s = disk)).
Proof.
  intros s0 s. split; [apply (loadState_succeeds_iff s0)|].
  intros Hfail. unfold s, construct. fold s0.
  pose proof (loadState_failure s0) as Hs1.
  destruct (loadState s0) as [loaded s1]. cbn [fst snd] in *. subst loaded.
  specialize (Hs1 eq_refl).
  assert (F1 : bookmarks s1 = [] /\ groups s1 = [] /\ nextRef s1 = 1%nat
               /\ host s1 = h /\ fs s1 = disk
               /\ defaultShape s1 = configuredShape)
    by (destruct Hs1 as [->|[message ->]]; repeat split).
  destruct F1 as (Hb & Hg & Hn & Hh & Hfs & Hshape).
  cbn [allocGroup]. cbv zeta.
  match goal with |- context [snd (saveState ?x)] => set (s6 := x) end.
  assert (G6 : bookmarks s6 = [] /\ groups s6 = [1%nat; 2%nat]
               /\ activeGroup s6 = 2%nat /\ host s6 = h /\ fs s6 = disk
               /\ Group.name (groupAt s6 1) = externalGroupName h
               /\ Group.name (groupAt s6 2) = defaultGroupName h).
  { unfold s6, groupAt.
    cbn [bookmarks groups activeGroup host fs gheap nextRef set_activeGroup
         set_groups set_nextRef set_gheap].
    rewrite Hb, Hg, Hn, Hh, Hfs. cbn [app List.last].
    repeat split.
    - rewrite lookup_total_insert_ne by lia. now rewrite lookup_total_insert_eq.
    - now rewrite lookup_total_insert_eq. }
  destruct G6 as (B6 & R6 & A6 & H6 & D6 & N1 & N2).
  assert (Hempty : isEmpty s6 = false) by (unfold isEmpty; now rewrite B6, R6).
  destruct (saveState_frame s6) as (Sb & Sbs & Sg & Sgs & Sa & _).
  destruct (saveState_hide s6) as (_ & _ & _ & Sh & _).
  assert (Hat : forall r, groupAt (snd (saveState s6)) r = groupAt s6 r)
    by (intros r; now apply groupAt_ext).
  assert (Hp0 : savedBookmarksFilePath s6 = savedBookmarksFilePath s0)
    by (unfold savedBookmarksFilePath; now rewrite H6).
  split; [now rewrite Sbs|]. split.
  { unfold groupNames. rewrite Sgs, R6. simpl. now rewrite !Hat, N1, N2. }
  split; [now rewrite Sa, Hat, A6|].
  split; [now rewrite Sgs, Sa, R6, A6|].
  split.
  { unfold isEmpty. rewrite Sbs, Sgs, B6, R6. reflexivity. }
  split.
  - intros path Hpath. rewrite <- Hp0 in Hpath.
    destruct (saveState_outcome s6) as (_ & _ & _ & Htrue).
    destruct (Htrue (saveState_writes s6 path Hpath Hempty))
      as (_ & path' & obj & Hp' & Hfile & Hv & Hpayload).
    assert (path' = path) by congruence. subst path'.
    exists obj. split; [exact Hfile|]. split; [exact Hv|].
    rewrite Hpayload, (saveState_memento s6 path Hpath), B6, R6, A6. simpl.
    rewrite N1, N2. auto.
  - intros Hnone. rewrite <- Hp0 in Hnone.
    unfold saveState. rewrite Hnone. exact D6.
Qed.

Lemma start_up_without_artifact_witness :
  groupNames sampleStart = ["external"; "default"]%string.
Proof.
  destruct (start_up_without_artifact sampleHost sampleColors "bookmark"
              (mkFileSystem ∅ ∅) 0) as [_ H].
  destruct H as (_ & H & _); [vm_compute; reflexivity|].
  exact H.
Defined.

(** ** Expanding the selection to a bookmark *)

(** X20. The two commands that expand the primary selection (whose start
    column is not negative) only ever make it grow, onto a line that holds
    a bookmark of the active group in the file.  [actionExpandSelectionToNextBookmark] keeps the start of the
    selection and moves its end strictly further down, and it finds a
    bookmark whenever one of the active group lies at or below the line it
    searches from; [actionExpandSelectionToPreviousBookmark] keeps the end
    and moves the start strictly further up.  Neither touches a bookmark or
    the array. *)
Theorem expandSelection_grows_onto_a_bookmark (editor : Vscode.TextEditor)
    (s : Main) (selection : Vscode.Range) (others : list Vscode.Range) :
  Vscode.selections editor = selection :: others ->
  (0 <= Vscode.character (Vscode.start selection))%Z ->
  let document := Vscode.editorDocument editor in
  let list := fst (getTempDocumentBookmarkList s (Vscode.fsPath document)) in
  let onBookmark (p : Vscode.Position) :=
    exists b, In b list /\ Bookmark.group (bookmarkAt s b) = activeGroup s
              /\ Bookmark.lineNumber (bookmarkAt s b) = Vscode.line p in
  (forall sel' s1,
     actionExpandSelectionToNextBookmark editor s = Done (Some sel') s1 ->
     anchor sel' = Vscode.start selection
     /\ isBefore (Vscode.end_ selection) (active sel')
     /\ onBookmark (active sel'))
  /\ (forall sel' s1,
        actionExpandSelectionToPreviousBookmark editor s = Done (Some sel') s1 ->
        active sel' = Vscode.end_ selection
        /\ isBefore (anchor sel') (Vscode.start selection)
        /\ onBookmark (anchor sel'))
  /\ (forall endLine b,
        Vscode.lineAt document (Vscode.line (Vscode.end_ selection)) = Some endLine ->
        In b list -> Bookmark.group (bookmarkAt s b) = activeGroup s ->
        (Vscode.line (Vscode.end_ selection) < Bookmark.lineNumber (bookmarkAt s b))%Z ->
        exists sel' s1,
          actionExpandSelectionToNextBookmark editor s = Done (Some sel') s1)
  /\ bheap (finalState (actionExpandSelectionToNextBookmark editor s)) = bheap s
  /\ bookmarks (finalState (actionExpandSelectionToNextBookmark editor s))
     = bookmarks s
  /\ bheap (finalState (actionExpandSelectionToPreviousBookmark editor s)) = bheap s
  /\ bookmarks (finalState (actionExpandSelectionToPreviousBookmark editor s))
     = bookmarks s.
Proof.
  intros Hsel Hchar document list onBookmark.
  unfold actionExpandSelectionToNextBookmark, actionExpandSelectionToPreviousBookmark.
  rewrite Hsel. fold document.
  pose proof (getTempDocumentBookmarkList_fields s (Vscode.fsPath document)) as Hfields.
  unfold onBookmark, list. clear onBookmark list.
  destruct (getTempDocumentBookmarkList s (Vscode.fsPath document)) as [list s1].
  cbn [fst snd] in *.
  assert (Hheap : bheap s1 = bheap s) by exact (f_equal bheap Hfields).
  assert (Hbs : bookmarks s1 = bookmarks s) by exact (f_equal bookmarks Hfields).
  assert (Hactive : activeGroup s1 = activeGroup s)
    by exact (f_equal activeGroup Hfields).
  assert (Hat : forall b, bookmarkAt s1 b = bookmarkAt s b)
    by (intros b; now apply bookmarkAt_ext).
  rewrite Hactive.
  split; [|split; [|split; [|split; [|split; [|split]]]]].
  - intros sel' s1'.
    destruct (Vscode.lineAt document (Vscode.line (Vscode.end_ selection)))
      as [endLine|]; [|discriminate].
    destruct (List.find _ list) as [nb|] eqn:Hfind; [|discriminate].
    intros [= <- <-]. apply List.find_some in Hfind as [Hin Hp].
    rewrite Hat in Hp. apply andb_true_iff in Hp as [Hg Hl].
    apply Nat.eqb_eq in Hg. rewrite Hat. cbn [anchor active].
    split; [reflexivity|]. split.
    + unfold isBefore. cbn [Vscode.line Vscode.character].
      destruct (Z.geb_spec (Vscode.character (Vscode.end_ selection)) (Js.length endLine));
        destruct (Z.eqb_spec (Bookmark.lineNumber (bookmarkAt s nb))
                             (Vscode.line (Vscode.end_ selection))); lia.
    + exists nb. auto.
  - intros sel' s1'.
    destruct (Vscode.lineAt document (Vscode.line (Vscode.start selection)))
      as [startLine|]; [|discriminate].
    destruct (List.find _ (rev list)) as [nb|] eqn:Hfind; [|discriminate].
    apply List.find_some in Hfind as [Hin Hp]. apply List.in_rev in Hin.
    rewrite Hat in Hp. apply andb_true_iff in Hp as [Hg Hl].
    apply Nat.eqb_eq in Hg. rewrite Hat.
    destruct (Z.eqb_spec (Bookmark.lineNumber (bookmarkAt s nb))
                         (Vscode.line (Vscode.start selection))) as [E|E].
    + intros [= <- <-]. cbn [anchor active].
      split; [reflexivity|]. split; [|exists nb; auto].
      unfold isBefore. cbn [Vscode.line Vscode.character].
      destruct (Z.eqb_spec (Vscode.character (Vscode.start selection)) 0);
        apply Z.leb_le in Hl; lia.
    + destruct (Vscode.lineAt document _) as [text|]; [|discriminate].
      intros [= <- <-]. cbn [anchor active].
      split; [reflexivity|]. split; [|exists nb; auto].
      unfold isBefore. cbn [Vscode.line Vscode.character].
      destruct (Z.eqb_spec (Vscode.character (Vscode.start selection)) 0);
        apply Z.leb_le in Hl; lia.
  - intros endLine b Hline Hin Hg Hl. rewrite Hline.
    destruct (List.find _ list) as [nb|] eqn:Hfind; [eauto|].
    exfalso. apply (List.find_none _ _ Hfind) in Hin.
    rewrite Hat, Hg, Nat.eqb_refl in Hin. cbn [andb] in Hin.
    destruct (Z.geb_spec (Vscode.character (Vscode.end_ selection)) (Js.length endLine));
      lia.
  - destruct (Vscode.lineAt document _); [|exact Hheap].
    destruct (List.find _ list); exact Hheap.
  - destruct (Vscode.lineAt document _); [|exact Hbs].
    destruct (List.find _ list); exact Hbs.
  - destruct (Vscode.lineAt document _); [|exact Hheap].
    destruct (List.find _ (rev list)); [|exact Hheap].
    destruct (_ =? _)%Z; [exact Hheap|].
    destruct (Vscode.lineAt document _); exact Hheap.
  - destruct (Vscode.lineAt document _); [|exact Hbs].
    destruct (List.find _ (rev list)); [|exact Hbs].
    destruct (_ =? _)%Z; [exact Hbs|].
    destruct (Vscode.lineAt document _); exact Hbs.
Qed.

Lemma expandSelection_grows_onto_a_bookmark_witness :
  exists sel' s1,
    actionExpandSelectionToNextBookmark (sampleEditor "/ws/a.ts" [3%Z])
      sampleTwoBookmarks
    = Done (Some sel') s1.
Proof.
  assert (Hchar : (0 <= Vscode.character (Vscode.start (cursorAt 3 0)))%Z)
    by (simpl; lia).
  destruct (expandSelection_grows_onto_a_bookmark
              (sampleEditor "/ws/a.ts" [3%Z]) sampleTwoBookmarks
              (cursorAt 3 0) [] eq_refl Hchar) as (_ & _ & H & _).
  apply (H "  line 3"%string 4%nat).
  - reflexivity.
  - vm_compute. auto.
  - vm_compute. reflexivity.
  - vm_compute. reflexivity.
Defined.

(** ** Distinct group names *)

Lemma keepsNames_refl (s : Main) : keepsNames s s.
Proof. split; auto. Qed.

Lemma keepsNames_trans (s1 s2 s3 : Main) :
  keepsNames s1 s2 -> keepsNames s2 s3 -> keepsNames s1 s3.
Proof. intros [H1 T1] [H2 T2]. split; [congruence | auto]. Qed.

(** An operation that leaves the disk, the registry and the names alone. *)
Lemma V_names (s s' : Main) :
  host s' = host s -> fs s' = fs s -> groups s' = groups s ->
  (forall g, Group.name (groupAt s' g) = Group.name (groupAt s g)) ->
  (nextRef s <= nextRef s')%nat ->
  keepsNames s s'.
Proof.
  intros Hh Hf Hg Hn Hr. split; [exact Hh|].
  unfold registryTidy, groupsAllocated, groupNames. rewrite Hh, Hf, Hg.
  intros (Ha & Hnd & Hd). split; [|split; [|exact Hd]].
  - rewrite List.Forall_forall in *. intros g Hin. specialize (Ha g Hin). lia.
  - rewrite (map_ext _ (fun g => Group.name (groupAt s g))) by exact Hn.
    exact Hnd.
Qed.

Lemma V_frame (s s' : Main) :
  host s' = host s -> fs s' = fs s -> groups s' = groups s ->
  gheap s' = gheap s -> (nextRef s <= nextRef s')%nat ->
  keepsNames s s'.
Proof.
  intros Hh Hf Hg Hheap Hr. apply V_names; auto.
  intros g. now rewrite (groupAt_ext s' s g Hheap).
Qed.

Create HintDb names.

Lemma V_updateBookmark (r : nat) (f : Bookmark.t -> Bookmark.t) (s : Main) :
  keepsNames s (updateBookmark r f s).
Proof. now apply V_frame. Qed.

Lemma V_updateGroup (r : nat) (f : Group.t -> Group.t) (s : Main) :
  (forall x, Group.name (f x) = Group.name x) ->
  keepsNames s (updateGroup r f s).
Proof.
  intros Hf. apply V_names; auto. intros g.
  destruct (groupAt_updateGroup s r f) as [Hown Hother].
  destruct (Nat.eq_dec g r) as [->|Hne]; [now rewrite Hown | now rewrite Hother].
Qed.

Lemma V_setIsActive (r : nat) (v : bool) (s : Main) :
  keepsNames s (updateGroup r (Group.setIsActive v) s).
Proof. now apply V_updateGroup. Qed.

Lemma V_setColor (r : nat) (v : string) (s : Main) :
  keepsNames s (updateGroup r (Group.setColor v) s).
Proof. now apply V_updateGroup. Qed.

Lemma V_setShapeAndIconText (r : nat) (sh txt : string) (s : Main) :
  keepsNames s (updateGroup r (Group.setShapeAndIconText sh txt) s).
Proof. now apply V_updateGroup. Qed.

Lemma V_allocBookmark (b : Bookmark.t) (s : Main) :
  keepsNames s (snd (allocBookmark b s)).
Proof. apply V_frame; simpl; auto. Qed.

Lemma V_allocBookmark_unfolded (h : gmap nat Bookmark.t) (s : Main) :
  keepsNames s (set_nextRef (S (nextRef s)) (set_bheap h s)).
Proof. apply V_frame; simpl; auto. Qed.

Lemma V_showMessage (n : Vscode.Notification) (s : Main) :
  keepsNames s (showMessage n s).
Proof. now apply V_frame. Qed.

Lemma V_forgetFile (p : string) (s : Main) : keepsNames s (forgetFile p s).
Proof. now apply V_frame. Qed.

Lemma V_forgetGroup (g : nat) (s : Main) : keepsNames s (forgetGroup g s).
Proof. now apply V_frame. Qed.

Lemma V_set_bookmarks (v : list nat) (s : Main) : keepsNames s (set_bookmarks v s).
Proof. now apply V_frame. Qed.

Lemma V_set_activeGroup (v : nat) (s : Main) : keepsNames s (set_activeGroup v s).
Proof. now apply V_frame. Qed.

Lemma V_set_hideAll (v : bool) (s : Main) : keepsNames s (set_hideAll v s).
Proof. now apply V_frame. Qed.

Lemma V_set_hideInactiveGroups (v : bool) (s : Main) :
  keepsNames s (set_hideInactiveGroups v s).
Proof. now apply V_frame. Qed.

Lemma V_set_workspaceState (v : Memento) (s : Main) :
  keepsNames s (set_workspaceState v s).
Proof. now apply V_frame. Qed.

Lemma V_set_clock (v : Z) (s : Main) : keepsNames s (set_clock v s).
Proof. now apply V_frame. Qed.

Lemma V_resetTempLists (s : Main) : keepsNames s (resetTempLists s).
Proof. now apply V_frame. Qed.

Lemma V_addNewDecoratedBookmark (b : nat) (s : Main) :
  keepsNames s (addNewDecoratedBookmark b s).
Proof. now apply V_frame. Qed.

Lemma V_sortBookmarks (s : Main) : keepsNames s (sortBookmarks s).
Proof. now apply V_frame. Qed.

Lemma V_deleteBookmark (b : nat) (s : Main) : keepsNames s (deleteBookmark b s).
Proof.
  unfold deleteBookmark. destruct (Js.includes b (bookmarks s));
    [now apply V_frame | apply keepsNames_refl].
Qed.

Lemma V_getTempDocumentBookmarkList (s : Main) (p : string) :
  keepsNames s (snd (getTempDocumentBookmarkList s p)).
Proof.
  unfold getTempDocumentBookmarkList.
  destruct (tempDocumentBookmarks s !! p); now apply V_frame.
Qed.

Lemma V_getTempGroupBookmarkList (s : Main) (g : nat) :
  keepsNames s (snd (getTempGroupBookmarkList s g)).
Proof.
  unfold getTempGroupBookmarkList.
  destruct (tempGroupBookmarks s !! g); now apply V_frame.
Qed.

(** Sorting the registry permutes the names. *)
Lemma V_sortGroups (s : Main) : keepsNames s (sortGroups s).
Proof.
  split; [reflexivity|].
  unfold registryTidy, groupsAllocated, groupNames, sortGroups.
  cbn [groups host fs nextRef set_groups].
  intros (Ha & Hnd & Hd).
  pose proof (arraySort_Permutation
                (fun a b => Group.sortByName (groupAt s a) (groupAt s b))
                (groups s)) as Hperm.
  split; [|split; [|exact Hd]].
  - rewrite List.Forall_forall in *. intros g Hg. apply Ha.
    now apply (Permutation_in _ Hperm).
  - apply (Permutation_NoDup
             (Permutation_map (fun g => Group.name (groupAt s g))
                              (Permutation_sym Hperm))).
    exact Hnd.
Qed.

(** Taking a group out of the registry. *)
Lemma V_removeGroup (g : nat) (s : Main) :
  keepsNames s (set_groups (Js.removeFirst g (groups s)) s).
Proof.
  split; [reflexivity|].
  unfold registryTidy, groupsAllocated, groupNames.
  cbn [groups host fs nextRef set_groups].
  intros (Ha & Hnd & Hd). split; [|split; [|exact Hd]].
  - rewrite List.Forall_forall in *. intros x Hx. apply Ha.
    now apply removeFirst_In in Hx.
  - clear - Hnd. induction (groups s) as [|x l IH]; simpl; [constructor|].
    simpl in Hnd. inversion Hnd as [|? ? Hx Hl]; subst.
    destruct (x =? g)%nat; [exact Hl|]. simpl. constructor; [|now apply IH].
    intros Hin. apply Hx. apply in_map_iff in Hin as (y & Hy & Hyl).
    apply in_map_iff. exists y. split; [exact Hy|]. now apply removeFirst_In in Hyl.
Qed.

(** A save writes the groups of the registry, or removes the artifact. *)
Lemma V_saveState (s : Main) : keepsNames s (snd (saveState s)).
Proof.
  destruct (saveState_frame s) as (_ & _ & Hg & Hgs & _).
  destruct (saveState_hide s) as (_ & _ & Hn & Hh & _).
  split; [exact Hh|].
  unfold registryTidy, groupsAllocated, groupNames. rewrite Hgs, Hn, Hh.
  intros (Ha & Hnd & Hd). split; [exact Ha|]. split.
  { rewrite (map_ext _ (fun g => Group.name (groupAt s g)));
      [exact Hnd | intros g; now rewrite (groupAt_ext _ s g Hg)]. }
  intros w obj l Hw Hfile Hv Hl.
  assert (Hpath : savedBookmarksFilePath s
                  = Some (Js.replaceBackslashes w ++ "/.vscode/bookmarks-labeled.json")%string)
    by (unfold savedBookmarksFilePath; now rewrite Hw).
  destruct (saveState_outcome s) as (_ & _ & Hfalse & Htrue).
  destruct (fst (saveState s)).
  - destruct (Htrue eq_refl) as (_ & path & obj' & Hp & Hfile' & _ & Hpayload).
    rewrite Hpath in Hp. injection Hp as <-.
    rewrite Hfile in Hfile'. injection Hfile' as <-.
    rewrite Hpayload, (saveState_memento s _ Hpath) in Hl. simpl in Hl.
    injection Hl as <-. rewrite map_map. exact Hnd.
  - destruct (Hfalse eq_refl) as [_ Hnone].
    rewrite (Hnone _ Hpath) in Hfile. discriminate.
Qed.

#[export] Hint Resolve V_updateBookmark V_setIsActive V_setColor
  V_setShapeAndIconText V_allocBookmark V_allocBookmark_unfolded V_showMessage
  V_forgetFile V_forgetGroup V_set_bookmarks V_set_activeGroup V_set_hideAll
  V_set_hideInactiveGroups V_set_workspaceState V_set_clock V_resetTempLists
  V_addNewDecoratedBookmark V_sortBookmarks V_deleteBookmark
  V_getTempDocumentBookmarkList V_getTempGroupBookmarkList V_sortGroups
  V_removeGroup V_saveState : names.

Lemma V_fold_left {X : Type} (f : Main -> X -> Main) (l : list X) (s : Main) :
  (forall st x, keepsNames st (f st x)) -> keepsNames s (fold_left f l s).
Proof.
  intros H. revert s. induction l as [|x l IH]; intros s; simpl.
  - apply keepsNames_refl.
  - eapply keepsNames_trans; [apply H | apply IH].
Qed.

Lemma V_fold_left_fst {X A : Type} (f : Main * A -> X -> Main * A)
    (l : list X) (acc : Main * A) :
  (forall a x, keepsNames (fst a) (fst (f a x))) ->
  keepsNames (fst acc) (fst (fold_left f l acc)).
Proof.
  intros H. revert acc. induction l as [|x l IH]; intros acc; simpl.
  - apply keepsNames_refl.
  - eapply keepsNames_trans; [apply H | apply IH].
Qed.

Lemma V_bind {A B : Type} (m : Run A) (k : A -> Main -> Run B) (s : Main) :
  keepsNames s (finalState m) ->
  (forall a st, keepsNames st (finalState (k a st))) ->
  keepsNames s (finalState (bind m k)).
Proof.
  intros Hm Hk. destruct m as [a st|st]; simpl in *; [|assumption].
  eapply keepsNames_trans; [exact Hm | apply Hk].
Qed.

Lemma V_forEachRun {A X : Type} (body : X -> A -> Main -> Run A)
    (xs : list X) (a : A) (s : Main) :
  (forall x a0 st, keepsNames st (finalState (body x a0 st))) ->
  keepsNames s (finalState (forEachRun body xs a s)).
Proof.
  intros H. revert a s. induction xs as [|x xs IH]; intros a s; simpl.
  - apply keepsNames_refl.
  - apply V_bind; [apply H | intros; apply IH].
Qed.

Ltac kn :=
  repeat first
    [ apply keepsNames_refl
    | assumption
    | match goal with
      | |- keepsNames _ (finalState (Done _ _)) => simpl finalState
      | |- keepsNames _ (finalState (Threw _)) => simpl finalState
      | |- keepsNames _ (snd (_, _)) => simpl snd
      | |- keepsNames _ (fst (_, _)) => simpl fst
      | |- keepsNames _ (match ?x with (_, _) => _ end) => split_pair x
      | |- keepsNames _ (finalState (match ?x with (_, _) => _ end)) => split_pair x
      | |- keepsNames _ (snd (match ?x with (_, _) => _ end)) => split_pair x
      | |- keepsNames _ (fst (match ?x with (_, _) => _ end)) => split_pair x
      | |- keepsNames _ (if ?x then _ else _) => destruct x
      | |- keepsNames _ (finalState (if ?x then _ else _)) => destruct x
      | |- keepsNames _ (snd (if ?x then _ else _)) => destruct x
      | |- keepsNames _ (fst (if ?x then _ else _)) => destruct x
      | |- keepsNames _ (match ?x with _ => _ end) => destruct x
      | |- keepsNames _ (finalState (match ?x with _ => _ end)) => destruct x
      | |- keepsNames _ (snd (match ?x with _ => _ end)) => destruct x
      | |- keepsNames _ (fst (match ?x with _ => _ end)) => destruct x
      end
    | (eapply keepsNames_trans; [ | solve [eauto 3 with names] ]) ].


Lemma V_setGroupVisibilities (s : Main) : keepsNames s (setGroupVisibilities s).
Proof.
  unfold setGroupVisibilities. apply V_fold_left. intros.
  now apply V_updateGroup.
Qed.

(** [ensureGroup] pushes a new group only under a name that no group of the
    registry bears. *)
Lemma V_ensureGroup (s : Main) (name : string) :
  keepsNames s (snd (ensureGroup s name)).
Proof.
  destruct (List.find (fun group => String.eqb (Group.name (groupAt s group)) name)
                      (groups s)) as [g|] eqn:Hfind.
  - rewrite (ensureGroup_finds s name g Hfind). apply keepsNames_refl.
  - assert (Hfree : forall g, In g (groups s) -> Group.name (groupAt s g) <> name).
    { intros g Hg. apply (List.find_none _ _ Hfind) in Hg.
      now apply String.eqb_neq in Hg. }
    destruct (ensureGroup_creates s name Hfree)
      as (Hnew & Hperm & Hat & Hold & _ & _ & Hn).
    destruct (ensureGroup_result s name)
      as (_ & Hname & _ & _ & _ & _ & _ & _ & Hh & _).
    assert (Hfs : fs (snd (ensureGroup s name)) = fs s)
      by (unfold ensureGroup; rewrite Hfind; reflexivity).
    split; [exact Hh|].
    unfold registryTidy, groupsAllocated, groupNames. rewrite Hh, Hfs, Hn.
    intros (Ha & Hnd & Hd). rewrite List.Forall_forall in Ha.
    split; [|split; [|exact Hd]].
    + rewrite List.Forall_forall. intros g Hg.
      apply (Permutation_in _ Hperm) in Hg.
      apply in_app_or in Hg as [Hg|[<-|[]]]; [apply Ha in Hg|]; lia.
    + apply (Permutation_NoDup
               (Permutation_map _ (Permutation_sym Hperm))).
      rewrite map_app. cbn [map]. rewrite Hname.
      rewrite (map_ext_in _ (fun g => Group.name (groupAt s g))).
      * apply (Permutation_NoDup (Permutation_cons_append _ name)).
        constructor; [|exact Hnd].
        intros Hin. apply in_map_iff in Hin as (g & Hg & Hgin).
        now apply (Hfree g Hgin).
      * intros g Hg. rewrite Hold; [reflexivity|].
        apply Ha in Hg. lia.
Qed.

#[export] Hint Resolve V_setGroupVisibilities V_ensureGroup : names.

Lemma V_activateGroup (s : Main) (name : string) :
  keepsNames s (activateGroup s name).
Proof. unfold activateGroup. kn. Qed.

#[export] Hint Resolve V_activateGroup : names.

Lemma V_setHideAll (v : bool) (s : Main) : keepsNames s (setHideAll v s).
Proof. unfold setHideAll. kn. Qed.

Lemma V_setHideInactiveGroups (v : bool) (s : Main) :
  keepsNames s (setHideInactiveGroups v s).
Proof. unfold setHideInactiveGroups. kn. Qed.

#[export] Hint Resolve V_setHideAll V_setHideInactiveGroups : names.

Lemma V_refresh (document : Vscode.TextDocument) (b : nat) (s : Main) :
  keepsNames s (finalState (updateBookmarkLineText document b s)).
Proof.
  unfold updateBookmarkLineText. destruct (Vscode.lineAt _ _); simpl.
  - apply V_updateBookmark.
  - apply keepsNames_refl.
Qed.

#[export] Hint Resolve V_refresh : names.

Lemma V_shiftDownStep document from by_ first last b c (s : Main) :
  keepsNames s (finalState (shiftDownStep document from by_ first last b c s)).
Proof.
  unfold shiftDownStep.
  destruct (_ >=? _)%Z.
  - destruct (inLineRange _ _ _ _).
    + apply V_bind; [|intros; apply keepsNames_refl].
      eapply keepsNames_trans; [|apply V_refresh].
      apply V_updateBookmark.
    + simpl. apply V_updateBookmark.
  - destruct (inLineRange _ _ _ _).
    + apply V_bind; [apply V_refresh | intros; apply keepsNames_refl].
    + apply keepsNames_refl.
Qed.

Lemma V_shiftUpStep document deleteFrom shiftFrom by_ first last b c (s : Main) :
  keepsNames s
    (finalState (shiftUpStep document deleteFrom shiftFrom by_ first last b c s)).
Proof.
  unfold shiftUpStep.
  destruct (_ <? first)%Z; [apply keepsNames_refl|].
  destruct (_ && _); [simpl; apply V_deleteBookmark|].
  destruct (_ >=? _)%Z.
  - destruct (inLineRange _ _ _ _).
    + apply V_bind; [|intros; apply keepsNames_refl].
      eapply keepsNames_trans; [|apply V_refresh].
      apply V_updateBookmark.
    + simpl. apply V_updateBookmark.
  - destruct (inLineRange _ _ _ _).
    + apply V_bind; [apply V_refresh | intros; apply keepsNames_refl].
    + apply keepsNames_refl.
Qed.

Lemma V_reconcileChange document list change c (s : Main) :
  keepsNames s (finalState (reconcileChange document list change c s)).
Proof.
  unfold reconcileChange.
  destruct (_ =? _)%Z.
  - apply V_bind; [|intros; apply keepsNames_refl].
    unfold updateBookmarkLineTextInRange. apply V_forEachRun. intros.
    apply V_bind; [apply V_refresh | intros; apply keepsNames_refl].
  - destruct (_ >? _)%Z; [apply V_forEachRun; intros; apply V_shiftDownStep|].
    destruct (_ <? _)%Z; [apply V_forEachRun; intros; apply V_shiftUpStep|].
    apply keepsNames_refl.
Qed.

Lemma V_onEditorDocumentChanged event (s : Main) :
  keepsNames s (finalState (onEditorDocumentChanged event s)).
Proof.
  unfold onEditorDocumentChanged.
  pose proof (V_getTempDocumentBookmarkList s (Vscode.fsPath (Vscode.document event))) as H.
  destruct (getTempDocumentBookmarkList s _) as [list s1]. simpl in H.
  destruct (_ =? 0)%Z; [exact H|].
  apply V_bind.
  - eapply keepsNames_trans; [exact H|].
    apply V_forEachRun. intros. apply V_reconcileChange.
  - intros [] st; simpl; [apply V_saveState | apply keepsNames_refl].
Qed.

Lemma V_toggleBookmark fsPath lineNumber characterNumber lineText group (s : Main) :
  keepsNames s (toggleBookmark fsPath lineNumber characterNumber lineText group s).
Proof. unfold toggleBookmark. kn. Qed.

#[export] Hint Resolve V_toggleBookmark : names.

Lemma V_editorActionToggleBookmark textEditor (s : Main) :
  keepsNames s (finalState (editorActionToggleBookmark textEditor s)).
Proof.
  unfold editorActionToggleBookmark. apply V_forEachRun. intros. kn.
Qed.

Lemma V_editorActionToggleLabeledBookmark textEditor entered (s : Main) :
  keepsNames s (finalState (editorActionToggleLabeledBookmark textEditor entered s)).
Proof.
  unfold editorActionToggleLabeledBookmark.
  destruct (Vscode.selections textEditor) as [|selection others];
    [apply keepsNames_refl|].
  pose proof (V_getTempDocumentBookmarkList s
                (Vscode.fsPath (Vscode.editorDocument textEditor))) as H.
  destruct (getTempDocumentBookmarkList s _) as [list s1]. simpl in H.
  destruct (List.find _ list); [simpl; kn|].
  destruct entered as [[label groupName]|]; [|exact H].
  destruct (_ && _); [exact H|].
  destruct (_ >? _)%Z; [simpl; kn|].
  eapply keepsNames_trans; [exact H|]. clear H.
  set (s2 := if negb (String.eqb groupName EmptyString)
             then activateGroup s1 groupName else s1).
  assert (H2 : keepsNames s1 s2) by (unfold s2; kn).
  set (s3 := if (Js.length label =? 1)%Z then _ else s2).
  assert (H3 : keepsNames s1 s3).
  { eapply keepsNames_trans; [exact H2|]. unfold s3.
    destruct (Js.length label =? 1)%Z; [|apply keepsNames_refl].
    pose proof (V_getTempDocumentBookmarkList s2
                  (Vscode.fsPath (Vscode.editorDocument textEditor))) as H.
    destruct (getTempDocumentBookmarkList s2 _) as [list2 s2']. simpl in H.
    destruct (findLabeled _ _ _ _); kn. }
  clearbody s3. clear H2. clearbody s2.
  apply V_bind.
  - destruct (negb (String.eqb label EmptyString)); [|exact H3].
    destruct (Vscode.lineAt _ _); [|exact H3].
    eapply keepsNames_trans; [exact H3|]. kn.
  - intros. simpl. kn.
Qed.

Lemma V_relabelBookmark bookmark input (s : Main) :
  keepsNames s (relabelBookmark bookmark input s).
Proof.
  unfold relabelBookmark. destruct input as [input|]; [|apply keepsNames_refl].
  destruct (String.eqb _ _); [apply keepsNames_refl|].
  set (s1 := if (Js.length (Js.trim input) =? 1)%Z then _ else s).
  assert (H1 : keepsNames s s1).
  { unfold s1. destruct (Js.length (Js.trim input) =? 1)%Z; [|apply keepsNames_refl].
    pose proof (V_getTempDocumentBookmarkList s
                  (Bookmark.fsPath (bookmarkAt s bookmark))) as H.
    destruct (getTempDocumentBookmarkList s _) as [list s']. simpl in H.
    destruct (findLabeled _ _ _ _); kn. }
  clearbody s1. eapply keepsNames_trans; [exact H1|]. kn.
Qed.

Lemma V_moveBookmarksBetween dst selecteds (s : Main) :
  keepsNames s (moveBookmarksBetween dst selecteds s).
Proof.
  unfold moveBookmarksBetween. destruct selecteds as [selecteds|];
    [|apply keepsNames_refl].
  eapply keepsNames_trans; [|apply V_saveState].
  eapply keepsNames_trans; [|apply V_sortBookmarks].
  apply V_fold_left. intros st x. kn.
Qed.

Lemma V_deleteAll (l : list nat) (s : Main) :
  keepsNames s (fold_left (fun st b => deleteBookmark b st) l s).
Proof. apply V_fold_left. intros. apply V_deleteBookmark. Qed.

#[export] Hint Resolve V_deleteAll : names.

Lemma V_actionDeleteOneBookmark bookmark (s : Main) :
  keepsNames s (actionDeleteOneBookmark bookmark s).
Proof. unfold actionDeleteOneBookmark. kn. Qed.

Lemma V_deleteBookmarksOfFile fsPath group (s : Main) :
  keepsNames s (deleteBookmarksOfFile fsPath group s).
Proof. unfold deleteBookmarksOfFile. kn. Qed.

Lemma V_actionDeleteBookmark selecteds (s : Main) :
  keepsNames s (actionDeleteBookmark selecteds s).
Proof. unfold actionDeleteBookmark. kn. Qed.

Lemma V_actionClearFailedJumpFlags (s : Main) :
  keepsNames s (actionClearFailedJumpFlags s).
Proof.
  unfold actionClearFailedJumpFlags.
  match goal with
  | |- keepsNames _ (let '(_, _) := fold_left ?f ?l ?a in _) =>
      pose proof (V_fold_left_fst f l a) as H
  end.
  simpl fst in H at 1.
  match type of H with
  | ?P -> _ => assert (Hstep : P)
  end.
  { intros [st count] bookmark. cbn beta iota. simpl fst at 1.
    destruct (Bookmark.failedJump _); simpl fst; [apply V_updateBookmark|].
    apply keepsNames_refl. }
  specialize (H Hstep). clear Hstep.
  destruct (fold_left _ (bookmarks s) (s, 0%Z)) as [s1 clearedFlagCount].
  simpl in H. eapply keepsNames_trans; [exact H|]. clear H. kn.
Qed.

Lemma V_jumpToBookmark bookmark outcome (s : Main) :
  keepsNames s (jumpToBookmark bookmark outcome s).
Proof. unfold jumpToBookmark. kn. Qed.

Lemma V_wrapAround (s1 : Main) l c n : keepsNames s1 (snd (wrapAround s1 l c n)).
Proof.
  unfold wrapAround. destruct c; [apply keepsNames_refl|].
  destruct (_ >? 0)%Z; [|apply keepsNames_refl].
  destruct (_ >? _)%Z; [|apply V_showMessage].
  destruct (List.find _ l); [apply keepsNames_refl | apply V_showMessage].
Qed.

Lemma V_nextBookmark (s : Main) fsPath line :
  keepsNames s (snd (nextBookmark s fsPath line)).
Proof.
  rewrite nextBookmark_unfold.
  eapply keepsNames_trans; [apply V_getTempGroupBookmarkList | apply V_wrapAround].
Qed.

Lemma V_previousBookmark (s : Main) fsPath line :
  keepsNames s (snd (previousBookmark s fsPath line)).
Proof.
  rewrite previousBookmark_unfold.
  eapply keepsNames_trans; [apply V_getTempGroupBookmarkList | apply V_wrapAround].
Qed.

Lemma V_navigateToNext textEditor outcome (s : Main) :
  keepsNames s (editorActionnavigateToNextBookmark textEditor outcome s).
Proof.
  unfold editorActionnavigateToNextBookmark.
  destruct (Vscode.selections textEditor); [apply keepsNames_refl|].
  pose proof (V_nextBookmark s (Vscode.fsPath (Vscode.editorDocument textEditor))
                (Vscode.line (Vscode.start r))) as H.
  destruct (nextBookmark s _ _) as [[b|] s1]; simpl in H; [|exact H].
  eapply keepsNames_trans; [exact H | apply V_jumpToBookmark].
Qed.

Lemma V_navigateToPrevious textEditor outcome (s : Main) :
  keepsNames s (editorActionNavigateToPreviousBookmark textEditor outcome s).
Proof.
  unfold editorActionNavigateToPreviousBookmark.
  destruct (Vscode.selections textEditor); [apply keepsNames_refl|].
  pose proof (V_previousBookmark s (Vscode.fsPath (Vscode.editorDocument textEditor))
                (Vscode.line (Vscode.start r))) as H.
  destruct (previousBookmark s _ _) as [[b|] s1]; simpl in H; [|exact H].
  eapply keepsNames_trans; [exact H | apply V_jumpToBookmark].
Qed.

Lemma V_setActiveGroup groupName (s : Main) :
  keepsNames s (setActiveGroup groupName s).
Proof. unfold setActiveGroup. kn. Qed.

Lemma V_actionAddGroup input (s : Main) : keepsNames s (actionAddGroup input s).
Proof. unfold actionAddGroup. kn. Qed.

Lemma V_actionSetGroupIconShape selected (s : Main) :
  keepsNames s (actionSetGroupIconShape selected s).
Proof. unfold actionSetGroupIconShape. kn. Qed.

Lemma V_actionSetGroupIconColor selected (s : Main) :
  keepsNames s (actionSetGroupIconColor selected s).
Proof. unfold actionSetGroupIconColor. kn. Qed.

Lemma V_actionToggleHideAll (s : Main) : keepsNames s (actionToggleHideAll s).
Proof. unfold actionToggleHideAll. kn. Qed.

Lemma V_actionToggleHideInactiveGroups (s : Main) :
  keepsNames s (actionToggleHideInactiveGroups s).
Proof. unfold actionToggleHideInactiveGroups. kn. Qed.

Lemma V_renameStep rename acc bookmark :
  keepsNames (fst acc) (fst (renameStep rename acc bookmark)).
Proof.
  unfold renameStep. destruct acc as [st changedFiles]. simpl fst at 1.
  destruct (isDirectory rename).
  - destruct (Js.startsWith _ _); simpl; kn.
  - destruct (String.eqb _ _); simpl; kn.
Qed.

Lemma V_onFilesRenamed files (s : Main) : keepsNames s (onFilesRenamed files s).
Proof.
  unfold onFilesRenamed.
  match goal with
  | |- keepsNames _ (let '(_, _) := fold_left ?f ?l ?a in _) =>
      pose proof (V_fold_left_fst f l a) as H
  end.
  simpl fst in H at 1.
  match type of H with
  | ?P -> _ => assert (Hstep : P)
  end.
  { intros acc rename. apply V_fold_left_fst. intros. apply V_renameStep. }
  specialize (H Hstep). clear Hstep.
  destruct (fold_left _ files (s, [])) as [s1 changedFiles].
  simpl in H. eapply keepsNames_trans; [exact H|].
  assert (H2 : keepsNames s1
                 (fold_left (fun st '(changedFile, _) => forgetFile changedFile st)
                            changedFiles s1)).
  { apply V_fold_left. intros st [changedFile flag]. apply V_forgetFile. }
  destruct (_ >? 0)%Z; [|exact H2].
  eapply keepsNames_trans; [exact H2 | apply V_saveState].
Qed.

Lemma V_deleteWhileWalking steps deletedFsPath index changes (s : Main) :
  keepsNames s (snd (deleteWhileWalking steps deletedFsPath index changes s)).
Proof.
  revert index changes s. induction steps as [|steps IH]; intros index changes s;
    simpl; [apply keepsNames_refl|].
  destruct (nth_error _ _); [|apply keepsNames_refl].
  destruct (String.eqb _ _); [|apply IH].
  eapply keepsNames_trans; [apply V_deleteBookmark | apply IH].
Qed.

Lemma V_onFilesDeleted files (s : Main) : keepsNames s (onFilesDeleted files s).
Proof.
  unfold onFilesDeleted. apply V_fold_left. intros st deletedFsPath.
  pose proof (V_deleteWhileWalking (length (bookmarks st)) deletedFsPath 0 false st) as H.
  destruct (deleteWhileWalking _ _ _ _ _) as [changesWereMade st1]. simpl in H.
  destruct changesWereMade; [|exact H].
  eapply keepsNames_trans; [exact H | apply V_saveState].
Qed.

Lemma V_deleteGroups selected (s : Main) : keepsNames s (deleteGroups selected s).
Proof.
  unfold deleteGroups.
  match goal with
  | |- keepsNames _ (let '(_, _) := fold_left ?f ?l ?a in _) =>
      pose proof (V_fold_left_fst f l a) as H
  end.
  simpl fst in H at 1.
  match type of H with
  | ?P -> _ => assert (Hstep : P)
  end.
  { intros [st was] group. simpl fst.
    pose proof (V_getTempGroupBookmarkList st group) as Hl.
    destruct (getTempGroupBookmarkList st group) as [list st1]. simpl in Hl.
    simpl fst. eapply keepsNames_trans; [exact Hl|]. kn. }
  specialize (H Hstep). clear Hstep.
  destruct (fold_left _ selected (s, false)) as [s1 wasActiveGroupDeleted].
  simpl in H. eapply keepsNames_trans; [exact H|]. kn.
Qed.

(** [renameGroup] refuses a name that another group of the registry
    bears. *)
Lemma V_renameGroup group input (s : Main) :
  keepsNames s (renameGroup group input s).
Proof.
  unfold renameGroup. destruct input as [input|]; [|apply keepsNames_refl].
  destruct (_ =? 0)%Z; [apply keepsNames_refl|].
  destruct (String.eqb _ _); [apply keepsNames_refl|].
  destruct (_ >? _)%Z; [apply V_showMessage|].
  destruct (List.find _ (groups s)) eqn:Hfind; [apply V_showMessage|].
  eapply keepsNames_trans; [|apply V_saveState].
  destruct (groupAt_updateGroup s group (Group.setName (Js.trim input)))
    as [Hown Hother].
  split; [reflexivity|].
  unfold registryTidy, groupsAllocated, groupNames.
  cbn [groups host fs nextRef updateGroup set_gheap].
  intros (Ha & Hnd & Hd). split; [exact Ha|]. split; [|exact Hd].
  rewrite (map_ext_in _ (fun g => if (g =? group)%nat then Js.trim input
                                  else Group.name (groupAt s g))).
  - apply NoDup_map_update; [exact Hnd|].
    intros x Hx Hxg Hname.
    apply (List.find_none _ _ Hfind) in Hx.
    rewrite (proj2 (Nat.eqb_neq x group) Hxg), Hname, String.eqb_refl in Hx.
    discriminate.
  - intros g _. destruct (Nat.eqb_spec g group) as [->|Hgne].
    + now rewrite Hown.
    + now rewrite Hother.
Qed.

(** A load takes the groups of the artifact, whose names are distinct. *)
Lemma V_loadState (s : Main) : keepsNames s (snd (loadState s)).
Proof.
  destruct (fst (loadState s)) eqn:Hloaded.
  2: { destruct (loadState_failure s Hloaded) as [->|[message ->]];
         [apply keepsNames_refl | apply V_showMessage]. }
  apply loadState_succeeds_iff in Hloaded as (path & obj & Hpath & Hfile & Hv).
  rewrite (loadState_reads s path obj Hpath Hfile Hv). cbn [snd].
  eapply keepsNames_trans; [|apply V_activateGroup].
  eapply keepsNames_trans; [|apply V_resetTempLists].
  set (m := payload obj).
  set (s2 := set_hideAll _ (set_hideInactiveGroups _ (set_workspaceState m s))).
  set (s4 := match savedGroups m with
             | Some serializedGroups => restoreGroups serializedGroups (set_groups [] s2)
             | None => set_groups [] s2
             end).
  assert (H4 : keepsNames s s4).
  { split.
    - unfold s4. destruct (savedGroups m);
        [now rewrite (proj2 (restoreGroups_frame _ _))|reflexivity].
    - intros (Ha & Hnd & Hd).
      assert (Hfs : fs s4 = fs s /\ host s4 = host s).
      { unfold s4. destruct (savedGroups m) as [l|]; [|now split].
        destruct (restoreGroups_spec l (set_groups [] s2) eq_refl) as [_ F].
        split; [exact (f_equal fs F) | exact (f_equal host F)]. }
      destruct Hfs as [Hfs Hh].
      unfold registryTidy. rewrite Hfs, Hh. split; [|split; [|exact Hd]].
      + unfold s4, groupsAllocated. destruct (savedGroups m) as [l|];
          [|constructor].
        destruct (restoreGroups_loop l (set_groups [] s2)) as (R1 & _ & _ & R4 & _).
        unfold restoreGroups, sortGroups. cbn [groups nextRef set_groups].
        rewrite List.Forall_forall. intros g Hg.
        apply (Permutation_in _ (arraySort_Permutation _ _)) in Hg.
        rewrite R1 in Hg. cbn [groups set_groups app] in Hg.
        apply in_seq in Hg. rewrite R4. lia.
      + unfold s4, groupNames. destruct (savedGroups m) as [l|] eqn:Hl;
          [|constructor].
        destruct (restoreGroups_spec l (set_groups [] s2) eq_refl) as [E _].
        rewrite (map_ext _ (fun g => SerializableGroup.name
                                       (fromGroup (groupAt (restoreGroups l (set_groups [] s2)) g))))
          by reflexivity.
        rewrite <- (map_map (fun g => fromGroup (groupAt _ g)) SerializableGroup.name).
        rewrite E.
        apply (Permutation_NoDup
                 (Permutation_map _ (Permutation_sym (arraySort_Permutation _ l)))).
        unfold savedBookmarksFilePath in Hpath.
        destruct (workspaceFolder (host s)) as [w|] eqn:Hw; [|discriminate].
        injection Hpath as <-.
        exact (Hd w obj l Hw Hfile Hv Hl). }
  eapply keepsNames_trans; [exact H4|].
  eapply keepsNames_trans; [apply (V_set_bookmarks [] s4)|].
  destruct (savedBookmarks m) as [[|sb rest]|].
  - simpl. apply V_sortBookmarks.
  - rewrite restoreBookmarks_throws. apply V_showMessage.
  - apply keepsNames_refl.
Qed.

Lemma V_onWatchedFileChanged (s : Main) : keepsNames s (onWatchedFileChanged s).
Proof.
  unfold onWatchedFileChanged.
  destruct (_ <? _)%Z; [apply V_loadState | apply keepsNames_refl].
Qed.

Lemma V_step (c : Command) (s : Main) : keepsNames s (step c s).
Proof.
  destruct c; cbn [step].
  - apply V_editorActionToggleBookmark.
  - apply V_editorActionToggleLabeledBookmark.
  - apply V_relabelBookmark.
  - apply V_moveBookmarksBetween.
  - apply V_actionDeleteOneBookmark.
  - apply V_deleteBookmarksOfFile.
  - apply V_actionDeleteBookmark.
  - apply V_actionClearFailedJumpFlags.
  - apply V_jumpToBookmark.
  - apply V_navigateToNext.
  - apply V_navigateToPrevious.
  - apply V_setActiveGroup.
  - apply V_actionAddGroup.
  - apply V_renameGroup.
  - apply V_deleteGroups.
  - apply V_actionSetGroupIconShape.
  - apply V_actionSetGroupIconColor.
  - apply V_actionToggleHideAll.
  - apply V_actionToggleHideInactiveGroups.
  - apply V_onEditorDocumentChanged.
  - apply V_onFilesRenamed.
  - apply V_onFilesDeleted.
  - apply V_onWatchedFileChanged.
  - apply V_saveState.
  - apply V_set_clock.
Qed.

Lemma construct_registryTidy (h : Host) (configuredColors : list (string * string))
    (configuredShape : string) (disk : FileSystem) (now : Z) :
  externalGroupName h <> defaultGroupName h -> diskTidy h disk ->
  let s := construct h configuredColors configuredShape disk now in
  host s = h /\ registryTidy s.
Proof.
  intros Hnames Hdisk. unfold construct.
  set (s0 := initialState h configuredColors configuredShape disk now).
  assert (Ht0 : registryTidy s0).
  { unfold registryTidy, groupsAllocated, groupNames. simpl.
    split; [constructor|]. split; [constructor | exact Hdisk]. }
  pose proof (V_loadState s0) as [Hh1 Hkeep].
  pose proof (loadState_failure s0) as Hfail.
  destruct (loadState s0) as [[|] s1]; cbn [fst snd] in *.
  - split; [exact Hh1 | now apply Hkeep].
  - assert (F1 : groups s1 = [] /\ nextRef s1 = 1%nat /\ host s1 = h /\ fs s1 = disk)
      by (destruct (Hfail eq_refl) as [->|[message ->]]; repeat split).
    destruct F1 as (Hg & Hn & Hh & Hfs).
    cbn [allocGroup]. cbv zeta.
    match goal with |- context [snd (saveState ?x)] => set (s6 := x) end.
    assert (H6 : host s6 = h /\ registryTidy s6).
    { unfold registryTidy, groupsAllocated, groupNames, s6, groupAt.
      cbn [groups host fs gheap nextRef set_activeGroup set_groups set_nextRef
           set_gheap].
      rewrite Hg, Hn, Hh, Hfs. cbn [app map].
      rewrite lookup_total_insert_eq.
      rewrite lookup_total_insert_ne by lia. rewrite lookup_total_insert_eq.
      cbn [Group.name Group.new].
      split; [reflexivity|]. split; [repeat constructor; lia|].
      split; [|exact Hdisk].
      constructor; [simpl; intros [H|[]]; congruence|].
      constructor; [simpl; tauto | constructor]. }
    destruct H6 as [Hh6 Ht6].
    destruct (V_saveState s6) as [Hhs Hks].
    split; [congruence | now apply Hks].
Qed.

(** X21. Group names stay distinct.  When the names of the external and of
    the default group differ and the artifact found at start-up, if it
    carries the version tag, holds groups with distinct names, then in
    every store that the extension reaches no two groups of the registry
    bear the same name, and the artifact on disk holds groups with distinct
    names as well. *)
Theorem reachable_group_names_are_distinct (h : Host)
    (configuredColors : list (string * string)) (configuredShape : string)
    (disk : FileSystem) (now : Z) (operations : list Command) :
  externalGroupName h <> defaultGroupName h ->
  diskTidy h disk ->
  let s :=
    run operations (construct h configuredColors configuredShape disk now) in
  List.NoDup (groupNames s) /\ diskTidy h (fs s).
Proof.
  intros Hnames Hdisk s.
  assert (H : host s = h /\ registryTidy s).
  { unfold s, run.
    generalize (construct_registryTidy h configuredColors configuredShape disk now
                  Hnames Hdisk).
    cbv zeta.
    generalize (construct h configuredColors configuredShape disk now).
    induction operations as [|c cs IH]; intros s0 H0; simpl; [exact H0|].
    apply IH. destruct H0 as [Hh0 Ht0]. destruct (V_step c s0) as [Hh Hk].
    split; [congruence | now apply Hk]. }
  destruct H as [Hh (_ & Hnd & Hd)]. rewrite Hh in Hd. split; assumption.
Qed.

Lemma reachable_group_names_are_distinct_witness :
  List.NoDup
    (groupNames
       (run [ActionAddGroup (Some "work"); RenameGroup 1 (Some "work")]
            sampleStart)).
Proof.
  assert (Hnames : externalGroupName sampleHost <> defaultGroupName sampleHost)
    by (simpl; discriminate).
  assert (Hdisk : diskTidy sampleHost (mkFileSystem ∅ ∅)).
  { intros w obj l _ Hfile. simpl in Hfile. rewrite lookup_empty in Hfile.
    discriminate. }
  exact (proj1 (reachable_group_names_are_distinct sampleHost sampleColors
                  "bookmark" (mkFileSystem ∅ ∅) 0
                  [ActionAddGroup (Some "work"); RenameGroup 1 (Some "work")]
                  Hnames Hdisk)).
Defined.

(** ** Lines typed and taken back *)

Lemma getTempDocumentBookmarkList_caches (s : Main) (fsPath : string) :
  tempDocumentBookmarks (snd (getTempDocumentBookmarkList s fsPath)) !! fsPath
  = Some (fst (getTempDocumentBookmarkList s fsPath)).
Proof.
  unfold getTempDocumentBookmarkList.
  destruct (tempDocumentBookmarks s !! fsPath) eqn:H; simpl; [exact H|].
  apply lookup_insert_eq.
Qed.

Lemma refresh_keeps_file_cache (document : Vscode.TextDocument) (b : nat)
    (s : Main) :
  tempDocumentBookmarks (finalState (updateBookmarkLineText document b s))
  = tempDocumentBookmarks s.
Proof.
  unfold updateBookmarkLineText. now destruct (Vscode.lineAt _ _).
Qed.







(** ** The labeled toggle *)

Lemma setGroupVisibilities_file_cache (s : Main) :
  tempDocumentBookmarks (setGroupVisibilities s) = tempDocumentBookmarks s.
Proof.
  unfold setGroupVisibilities. generalize (groups s) at 1. intros gs.
  revert s. induction gs as [|g gs IH]; intros s; simpl; [reflexivity|].
  now rewrite IH.
Qed.

Lemma activateGroup_file_cache (s : Main) (name : string) :
  tempDocumentBookmarks (activateGroup s name) = tempDocumentBookmarks s.
Proof.
  unfold activateGroup, ensureGroup.
  destruct (List.find _ (groups s)); simpl;
    (destruct (_ =? _)%nat; [reflexivity|]);
    now rewrite setGroupVisibilities_file_cache.
Qed.

Lemma deleteBookmark_registry (b : nat) (s : Main) :
  groups (deleteBookmark b s) = groups s
  /\ gheap (deleteBookmark b s) = gheap s
  /\ activeGroup (deleteBookmark b s) = activeGroup s
  /\ nextRef (deleteBookmark b s) = nextRef s.
Proof.
  unfold deleteBookmark. destruct (Js.includes b (bookmarks s)); simpl; auto.
Qed.

Lemma find_ext_eq {A : Type} (f g : A -> bool) (l : list A) :
  (forall x, f x = g x) -> List.find f l = List.find g l.
Proof.
  intros H. induction l as [|y l IH]; simpl; [reflexivity|]. now rewrite H, IH.
Qed.

(** The first steps of the labeled toggle after the input box: the named
    group is activated, and the holder of a one-character label leaves the
    array. *)
Lemma labeled_clears_label (s2 : Main) (fsPath label : string) (list : list nat) :
  tempDocumentBookmarks s2 !! fsPath = Some list ->
  list = List.filter
           (fun b => String.eqb (Bookmark.fsPath (bookmarkAt s2 b)) fsPath)
           (bookmarks s2) ->
  let s3 :=
    if (Js.length label =? 1)%Z then
      let '(list2, s2') := getTempDocumentBookmarkList s2 fsPath in
      match findLabeled s2' list2 (activeGroup s2') label with
      | Some existingLabeledBookmark => deleteBookmark existingLabeledBookmark s2'
      | None => s2'
      end
    else s2 in
  host s3 = host s2
  /\ bheap s3 = bheap s2 /\ nextRef s3 = nextRef s2
  /\ groups s3 = groups s2 /\ gheap s3 = gheap s2
  /\ activeGroup s3 = activeGroup s2
  /\ bookmarks s3
     = match (if (Js.length label =? 1)%Z
              then List.find (labeledAt s2 fsPath (activeGroup s2) label)
                             (bookmarks s2)
              else None) with
       | Some e => Js.removeFirst e (bookmarks s2)
       | None => bookmarks s2
       end.
Proof.
  intros Hlook Hlist.
  destruct (Js.length label =? 1)%Z; [|simpl; auto 10].
  unfold getTempDocumentBookmarkList. rewrite Hlook. cbv zeta.
  unfold findLabeled. rewrite Hlist, find_filter.
  change (List.find _ (bookmarks s2))
    with (List.find (labeledAt s2 fsPath (activeGroup s2) label) (bookmarks s2)).
  destruct (List.find _ (bookmarks s2)) as [e|]; [|auto 10].
  destruct (deleteBookmark_frame s2 e) as [Db Dbs].
  destruct (deleteBookmark_registry e s2) as (Dg & Dh & Da & Dn).
  pose proof (deleteBookmark_host s2 e). auto 10.
Qed.

Lemma labeled_toggle_hit (textEditor : Vscode.TextEditor)
    (selection : Vscode.Range) (others : list Vscode.Range)
    (entered : option (string * string)) (s : Main) (existing : nat) :
  let fsPath := Vscode.fsPath (Vscode.editorDocument textEditor) in
  let lineNumber := Vscode.line (Vscode.start selection) in
  let list := fst (getTempDocumentBookmarkList s fsPath) in
  let s1 := snd (getTempDocumentBookmarkList s fsPath) in
  Vscode.selections textEditor = selection :: others ->
  List.find
    (fun bookmark =>
       (Bookmark.lineNumber (bookmarkAt s1 bookmark) =? lineNumber)%Z
       && (Bookmark.group (bookmarkAt s1 bookmark) =? activeGroup s1)%nat)
    list = Some existing ->
  editorActionToggleLabeledBookmark textEditor entered s
  = Done tt (snd (saveState (deleteBookmark existing s1))).
Proof.
  intros fsPath lineNumber list s1 Hsel Hfind.
  unfold editorActionToggleLabeledBookmark. rewrite Hsel.
  fold fsPath lineNumber. subst list s1.
  destruct (getTempDocumentBookmarkList s fsPath) as [list s1].
  simpl in Hfind. now rewrite Hfind.
Qed.

Lemma labeled_toggle_miss (textEditor : Vscode.TextEditor)
    (selection : Vscode.Range) (others : list Vscode.Range)
    (entered : option (string * string)) (s : Main) :
  let document := Vscode.editorDocument textEditor in
  let fsPath := Vscode.fsPath document in
  let lineNumber := Vscode.line (Vscode.start selection) in
  let list := fst (getTempDocumentBookmarkList s fsPath) in
  let s1 := snd (getTempDocumentBookmarkList s fsPath) in
  Vscode.selections textEditor = selection :: others ->
  List.find
    (fun bookmark =>
       (Bookmark.lineNumber (bookmarkAt s1 bookmark) =? lineNumber)%Z
       && (Bookmark.group (bookmarkAt s1 bookmark) =? activeGroup s1)%nat)
    list = None ->
  editorActionToggleLabeledBookmark textEditor entered s
  = match entered with
    | None => Done tt s1
    | Some (label, groupName) =>
        if String.eqb label EmptyString && String.eqb groupName EmptyString
        then Done tt s1
        else if (Js.length groupName >? maxGroupNameLength (host s1))%Z
        then
          Done tt
            (showMessage
               (Vscode.ErrorMessage "ERROR: Choose a shorter group name.") s1)
        else
          let s2 :=
            if negb (String.eqb groupName EmptyString)
            then activateGroup s1 groupName else s1 in
          let s3 :=
            if (Js.length label =? 1)%Z then
              let '(list2, s2') := getTempDocumentBookmarkList s2 fsPath in
              match findLabeled s2' list2 (activeGroup s2') label with
              | Some existingLabeledBookmark =>
                  deleteBookmark existingLabeledBookmark s2'
              | None => s2'
              end
            else s2 in
          let* (_, s4) :=
            if negb (String.eqb label EmptyString) then
              match Vscode.lineAt document lineNumber with
              | None => Threw s3
              | Some text =>
                  let '(bookmark, s3') :=
                    allocBookmark
                      (Bookmark.new fsPath lineNumber
                         (Vscode.character (Vscode.start selection))
                         (Some label) (Js.trim text) (activeGroup s3))
                      s3 in
                  Done tt (sortBookmarks (addNewDecoratedBookmark bookmark s3'))
              end
            else Done tt s3 in
          Done tt
            (snd (saveState
                    (forgetGroup (activeGroup s4) (forgetFile fsPath s4))))
    end.
Proof.
  intros document fsPath lineNumber list s1 Hsel Hfind.
  unfold editorActionToggleLabeledBookmark. rewrite Hsel.
  fold document fsPath lineNumber. subst list s1.
  destruct (getTempDocumentBookmarkList s fsPath) as [list s1].
  simpl in Hfind. now rewrite Hfind.
Qed.

(** X23. The labeled toggle.  When a bookmark of the active group sits on
    the line of the first selection, [editorActionToggleLabeledBookmark]
    removes it and creates nothing, whatever the input box would answer.
    Otherwise a dismissed box or an answer with neither label nor group
    only leaves the fetched list of the file behind, and a group name that
    is too long only shows an error.  For any other answer the named group,
    if there is one, is activated first; without a label no bookmark
    changes; with a label one bookmark is created on the line, in the group
    that is active by then, and when the label is one character long the
    first bookmark of the file in that group that bore it leaves the
    array.  The array ends up sorted. *)
Theorem labeled_toggle_removes_or_creates (textEditor : Vscode.TextEditor)
    (selection : Vscode.Range) (others : list Vscode.Range)
    (label groupName : string) (s : Main) :
  Vscode.selections textEditor = selection :: others ->
  List.NoDup (bookmarks s) ->
  cacheCoherent s (Vscode.fsPath (Vscode.editorDocument textEditor)) ->
  let document := Vscode.editorDocument textEditor in
  let fsPath := Vscode.fsPath document in
  let lineNumber := Vscode.line (Vscode.start selection) in
  let s1 := snd (getTempDocumentBookmarkList s fsPath) in
  let after := fun entered =>
    finalState (editorActionToggleLabeledBookmark textEditor entered s) in
  match List.find (toggledAt s fsPath lineNumber (activeGroup s)) (bookmarks s) with
  | Some existing =>
      forall entered,
        bookmarks (after entered)
        = List.filter (fun b => negb (b =? existing)%nat) (bookmarks s)
        /\ bheap (after entered) = bheap s
        /\ groups (after entered) = groups s
        /\ gheap (after entered) = gheap s
        /\ activeGroup (after entered) = activeGroup s
  | None =>
      after None = s1
      /\ after (Some (EmptyString, EmptyString)) = s1
      /\ (label <> EmptyString \/ groupName <> EmptyString ->
          let s' := after (Some (label, groupName)) in
          ((Js.length groupName > maxGroupNameLength (host s))%Z ->
           exists message, s' = showMessage (Vscode.ErrorMessage message) s1)
          /\ ((Js.length groupName <= maxGroupNameLength (host s))%Z ->
              let s2 := if String.eqb groupName EmptyString then s1
                        else activateGroup s1 groupName in
              let holder :=
                if (Js.length label =? 1)%Z
                then List.find (labeledAt s fsPath (activeGroup s2) label)
                               (bookmarks s)
                else None in
              groups s' = groups s2 /\ gheap s' = gheap s2
              /\ activeGroup s' = activeGroup s2
              /\ (label = EmptyString ->
                  bookmarks s' = bookmarks s /\ bheap s' = bheap s)
              /\ (label <> EmptyString ->
                  forall text, Vscode.lineAt document lineNumber = Some text ->
                    bookmarkAt s' (nextRef s2)
                    = Bookmark.new fsPath lineNumber
                        (Vscode.character (Vscode.start selection))
                        (Some label) (Js.trim text) (activeGroup s2)
                    /\ (forall b, b <> nextRef s2 ->
                          bookmarkAt s' b = bookmarkAt s b)
                    /\ Permutation (bookmarks s')
                         (nextRef s2
                          :: List.filter (fun b => negb (isHolder holder b))
                               (bookmarks s))
                    /\ (collates (localeCompare (host s)) ->
                        sortedStore s'))))
  end.
Proof.
  intros Hsel Hnd Hcache document fsPath lineNumber s1 after.
  pose proof (toggleBookmark_finds fsPath lineNumber (activeGroup s) s Hcache) as Hsame.
  pose proof (getTempDocumentBookmarkList_fields s fsPath) as Hfields.
  pose proof (getTempDocumentBookmarkList_caches s fsPath) as Hlook.
  pose proof (fileList_coherent s fsPath Hcache) as Hlist.
  pose proof (fun entered existing =>
                labeled_toggle_hit textEditor selection others entered s existing Hsel)
    as Hhit.
  pose proof (fun entered =>
                labeled_toggle_miss textEditor selection others entered s Hsel)
    as Hmiss.
  cbv zeta in Hhit, Hmiss. fold document in Hhit, Hmiss.
  fold fsPath lineNumber in Hhit, Hmiss.
  fold s1 in Hfields, Hlook, Hhit, Hmiss.
  set (list := fst (getTempDocumentBookmarkList s fsPath)) in *.
  assert (Hsame' : List.find
                     (fun bookmark =>
                        (Bookmark.lineNumber (bookmarkAt s1 bookmark) =? lineNumber)%Z
                        && (Bookmark.group (bookmarkAt s1 bookmark)
                            =? activeGroup s1)%nat)
                     list
                   = List.find (toggledAt s fsPath lineNumber (activeGroup s))
                               (bookmarks s)).
  { unfold list, s1. replace (activeGroup (snd (getTempDocumentBookmarkList s fsPath)))
      with (activeGroup s) by (symmetry; exact (f_equal activeGroup Hfields)).
    destruct (getTempDocumentBookmarkList s fsPath). exact Hsame. }
  clear Hsame. rewrite Hsame' in Hhit, Hmiss.
  assert (H1 : bookmarks s1 = bookmarks s) by exact (f_equal bookmarks Hfields).
  assert (H2 : bheap s1 = bheap s) by exact (f_equal bheap Hfields).
  assert (H3 : nextRef s1 = nextRef s) by exact (f_equal nextRef Hfields).
  assert (H4 : activeGroup s1 = activeGroup s) by exact (f_equal activeGroup Hfields).
  assert (H5 : groups s1 = groups s) by exact (f_equal groups Hfields).
  assert (H6 : gheap s1 = gheap s) by exact (f_equal gheap Hfields).
  assert (H7 : host s1 = host s) by exact (f_equal host Hfields).
  destruct (List.find _ (bookmarks s)) as [existing|] eqn:Hfind.
  - intros entered. unfold after. rewrite (Hhit entered existing eq_refl). simpl.
    destruct (saveState_frame (deleteBookmark existing s1))
      as (Sb & Sbs & Sg & Sgs & Sa & _).
    destruct (deleteBookmark_frame s1 existing) as [Db Dbs].
    destruct (deleteBookmark_registry existing s1) as (Dg & Dh & Da & _).
    rewrite Sb, Sbs, Sg, Sgs, Sa, Db, Dbs, Dg, Dh, Da, H1, H2, H4, H5, H6.
    rewrite removeFirst_filter by exact Hnd. auto.
  - specialize (fun entered => Hmiss entered eq_refl).
    assert (Hrun : forall entered,
              after entered
              = finalState (editorActionToggleLabeledBookmark textEditor entered s))
      by reflexivity.
    split; [now rewrite Hrun, Hmiss|]. split; [now rewrite Hrun, Hmiss|].
    intros Hsome s'. unfold s'. rewrite Hrun, Hmiss. clear Hrun s'.
    assert (Hboth : String.eqb label EmptyString && String.eqb groupName EmptyString
                    = false).
    { destruct (String.eqb_spec label EmptyString);
        destruct (String.eqb_spec groupName EmptyString); simpl; try reflexivity.
      destruct Hsome; contradiction. }
    rewrite Hboth, H7. split.
    { intros Hlong. replace (_ >? _)%Z with true by lia. simpl. eauto. }
    intros Hshort. replace (_ >? _)%Z with false by lia.
    set (s2 := if String.eqb groupName EmptyString then s1
               else activateGroup s1 groupName).
    replace (if negb (String.eqb groupName EmptyString)
             then activateGroup s1 groupName else s1) with s2
      by (unfold s2; now destruct (String.eqb groupName EmptyString)).
    set (holder := if (Js.length label =? 1)%Z
                   then List.find (labeledAt s fsPath (activeGroup s2) label)
                                  (bookmarks s)
                   else None).
    assert (A : bookmarks s2 = bookmarks s /\ bheap s2 = bheap s
                /\ tempDocumentBookmarks s2 = tempDocumentBookmarks s1
                /\ host s2 = host s).
    { unfold s2. destruct (String.eqb groupName EmptyString); [auto|].
      destruct (activateGroup_spec s1 groupName)
        as (_ & _ & A3 & A4 & _ & _ & _ & _ & A9 & _).
      rewrite A3, A4, A9, activateGroup_file_cache. auto. }
    destruct A as (A1 & A2 & A3 & A4).
    assert (Hat2 : forall b, bookmarkAt s2 b = bookmarkAt s b)
      by (intros b; now apply bookmarkAt_ext).
    assert (Hlook2 : tempDocumentBookmarks s2 !! fsPath = Some list)
      by now rewrite A3.
    assert (Hlist2 : list = List.filter
                       (fun b => String.eqb (Bookmark.fsPath (bookmarkAt s2 b)) fsPath)
                       (bookmarks s2)).
    { rewrite A1, Hlist. apply List.filter_ext. intros b. now rewrite Hat2. }
    destruct (labeled_clears_label s2 fsPath label list Hlook2 Hlist2)
      as (L0 & L1 & L2 & L3 & L4 & L5 & L6).
    match type of L1 with bheap ?x = _ => set (s3 := x) in * end.
    assert (Hholder : (if (Js.length label =? 1)%Z
                       then List.find (labeledAt s2 fsPath (activeGroup s2) label)
                                      (bookmarks s2)
                       else None) = holder).
    { unfold holder. destruct (Js.length label =? 1)%Z; [|reflexivity].
      rewrite A1. apply find_ext_eq. intros b. unfold labeledAt. now rewrite Hat2. }
    rewrite Hholder, A1 in L6.
    destruct (String.eqb_spec label EmptyString) as [El|El].
    + (* no label: the group is activated, nothing else *)
      simpl.
      match goal with |- context [snd (saveState ?x)] => set (s5 := x) end.
      destruct (saveState_frame s5) as (Sb & Sbs & Sg & Sgs & Sa & _).
      rewrite Sb, Sbs, Sg, Sgs, Sa. unfold s5. simpl.
      assert (Hno : holder = None) by (unfold holder; now rewrite El).
      rewrite Hno in L6.
      repeat split; congruence.
    + simpl negb. cbv iota.
      split; [|split; [|split; [|split; [intros H; contradiction|]]]].
      4: {
        intros _ text Htext. rewrite Htext. cbn [allocBookmark].
        set (new := Bookmark.new fsPath lineNumber
                      (Vscode.character (Vscode.start selection)) (Some label)
                      (Js.trim text) (activeGroup s3)).
        set (s3' := set_nextRef (S (nextRef s3))
                      (set_bheap (<[nextRef s3 := new]> (bheap s3)) s3)).
        set (s4 := sortBookmarks (addNewDecoratedBookmark (nextRef s3) s3')).
        simpl bind. simpl finalState.
        match goal with |- context [snd (saveState ?x)] => set (s5 := x) end.
        destruct (saveState_frame s5) as (Sb & Sbs & _).
        assert (Hheap : bheap (snd (saveState s5)) = <[nextRef s2 := new]> (bheap s)).
        { rewrite Sb. unfold s5, s4, s3'. simpl. now rewrite L1, L2, A2. }
        assert (Hbs : bookmarks (snd (saveState s5))
                      = Js.arraySort
                          (fun a b =>
                             Bookmark.sortByLocation (localeCompare (host s3'))
                               (bookmarkAt s3' a) (bookmarkAt s3' b))
                          (bookmarks s3 ++ [nextRef s2]))
          by (rewrite Sbs; unfold s5, s4; simpl; now rewrite L2).
        split.
        { unfold bookmarkAt. rewrite Hheap, lookup_total_insert_eq.
          unfold new. now rewrite L5. }
        split.
        { intros b Hb. unfold bookmarkAt. rewrite Hheap.
          apply lookup_total_insert_ne. congruence. }
        split.
        { rewrite Hbs. etransitivity; [apply arraySort_Permutation|].
          etransitivity; [symmetry; apply Permutation_cons_append|].
          constructor. rewrite L6.
          destruct holder as [e|]; simpl.
          - rewrite removeFirst_filter by exact Hnd. reflexivity.
          - rewrite filter_all_true; [reflexivity|]. auto. }
        intros Hcollates.
        apply saveState_sorted. apply (sortedStore_same s4); [reflexivity..|].
        apply sortBookmarks_sorted.
        change (collates (localeCompare (host s3))). now rewrite L0, A4. }
      all: destruct (Vscode.lineAt document lineNumber) as [text|]; simpl.
      all: try (match goal with |- context [snd (saveState ?x)] => set (s5 := x) end;
                destruct (saveState_frame s5) as (Sb & Sbs & Sg & Sgs & Sa & _);
                rewrite ?Sg, ?Sgs, ?Sa; unfold s5; simpl; congruence).
      all: congruence.
Qed.

(** The sample: in the store with bookmarks on lines 3 and 7, the labeled
    toggle on line 5 answered with the label [a] creates a bookmark that
    bears it. *)
Lemma labeled_toggle_removes_or_creates_witness :
  Bookmark.label
    (bookmarkAt
       (finalState
          (editorActionToggleLabeledBookmark (sampleEditor "/ws/a.ts" [5%Z])
             (Some ("a", EmptyString)) sampleTwoBookmarks))
       (nextRef sampleTwoBookmarks))
  = Some "a"%string.
Proof.
  assert (Hnd : List.NoDup (bookmarks sampleTwoBookmarks))
    by (vm_compute; repeat constructor; simpl; intuition lia).
  assert (Hcache : cacheCoherent sampleTwoBookmarks
                     (Vscode.fsPath
                        (Vscode.editorDocument (sampleEditor "/ws/a.ts" [5%Z]))))
    by (vm_compute; exact I).
  pose proof (labeled_toggle_removes_or_creates (sampleEditor "/ws/a.ts" [5%Z])
                (cursorAt 5 0) [] "a" EmptyString sampleTwoBookmarks
                eq_refl Hnd Hcache) as H.
  vm_compute in H. destruct H as (_ & _ & H).
  destruct H as [_ H]; [left; discriminate|].
  destruct H as (_ & _ & _ & _ & H); [discriminate|].
  destruct (H ltac:(discriminate) "line 5"%string eq_refl) as [Hnew _].
  vm_compute. exact (f_equal Bookmark.label Hnew).
Defined.
